(* ===== verification/_CoqProject ===== *)
-Q . S2P
Prelude.v
Float64.v
FloatBounds.v
RustDecimal.v
RoutingProfile.v
Registry.v
Json.v
RefJson.v
Preference.v
Measurements.v
Share.v
Select.v
SelectSpec.v
Config.v
ConfigProps.v
Routing.v
RoutingSpec.v
Pricing.v
UsageCost.v
Fixtures.v
RoutingProps.v
PolicyProps.v
BillingProps.v
Sse.v
SseSpec.v
SseProps.v
Catalog.v
CatalogProps.v
UpstreamCatalog.v
UpstreamProps.v
Database.v
DatabaseProps.v
Gauge.v
Ledger.v
LedgerProps.v
Generation.v
StreamRecords.v
StreamProps.v
Proxy.v
ProxyProps.v
Service.v
ServiceProps.v
ServiceLedger.v
ServiceDecisions.v
ServiceProgress.v
ServiceForward.v
ServiceIsolation.v
SidecarConfig.v
SidecarProps.v
GatewayAuth.v
Axum.v
Server.v
ServerProps.v
Gateway.v
GatewayProps.v
Deployment.v
Main.v
MainProps.v
TestKit.v
Documents.v
RegistryTests.v
PolicyTests.v
DrawTests.v
RoutingTests.v
CatalogTests.v
SseTests.v
ProxyTests.v
ServiceTests.v
HttpTests.v
ProductionTests.v
