(* ===== verification/Prelude.v ===== *)
(** * seren-router: a verification development

    seren-router is an OpenRouter-compatible routing service.  A client's
    completion request is authenticated, routed to one of the providers that
    serve its model, sent to the AgentGateway sidecar (with fallbacks), and the
    response's exact provider cost is written into it and into a ledger.  This
    library models the service's own code (src/src/*.rs) as executable
    definitions and proves the properties listed in PROJECT.json.

    ** The program's parts and the files that model them

    This file holds what the others share: [result] for [Result], [outcome] for
    computations that may panic (an [expect], an overflowing decimal operator)
    with the [?] operator as [let?], Rust's stable sort, [min_by] and [max_by],
    [BTreeMap]s as key-ordered association lists ([bt_get], [bt_insert]), string
    operations, machine-integer limits, and the automation ([invert_binds],
    [vm_reflexivity], the hint database [router]).

    - Foundations.  [Float64]: [f64] as the Standard Library's binary64
      [SpecFloat]; [FloatBounds]: its operations round below (above) a
      representable bound.  [RustDecimal]: the [rust_decimal] crate's interface, its
      documented behaviour ([DecimalLaws]) and an executable implementation
      that satisfies it.  [Json]: serde_json's [Value]; parsing and printing are
      the interface [SerdeJson], [RefJson] an executable instance.
    - Registry (registry.rs, routing_profile.rs, attribution.rs): [Registry] has
      providers, mappings, constraints and [validate]; [RoutingProfile] the
      profiles, the sidecar aliases and the served-provider header.
    - Routing policy (policy/*.rs): [Preference] parses the request's
      preference, [Measurements] is the smoothed observation store, [Share] the
      rolling traffic window, [Select] the choice of one candidate, [Routing]
      the route table and the whole decision with its fallback plan; [Config]
      reads the settings.  [RoutingPolicy] is the immutable part and
      [RoutingState] what the code's mutex protects, so one decision is one
      atomic step.
    - Billing (pricing.rs, usage_cost.rs, sse.rs): [Pricing] is the price table
      and exact costs, [UsageCost] the cost written into a response and the
      provider-neutral view of it, [Sse] the event framing and the streaming
      transformer.
    - Proxy (proxy.rs): [Generation] follows one completion (timings, the
      streamed body, what is recorded), [Proxy] is [forward]: parse, route, send
      with fallbacks, respond.  A streamed body is an unfold polled by the
      client; its steps are [stream_loop] and [stream_poll].  [StreamRecords]:
      what a stream records can always be recorded.
    - Ledger and database (ledger.rs, db.rs, migrations/*.sql): [Ledger] is the
      table, its INSERT and SELECT, and the generation endpoint; [Database] the
      availability status and the recovery supervisor, a transition system over
      the atomic accesses of the supervisor and of concurrent operations;
      [Gauge] the availability gauge set beside them.
    - Concurrency (proxy.rs, policy/routing.rs, ledger.rs, db.rs together):
      [Service] runs any number of requests, streamed bodies, spawned ledger
      inserts, lookups and the supervisor over the state they share.  A label is
      one step of one task up to its next shared access, a list of labels one
      interleaving, and [run] executes it; what the environment contributes
      (requests, replies, clocks, what becomes of an SQL statement) is in the
      labels.  A decision is three kinds of step there: reading the request,
      reading each candidate's measurements, and the mutex's critical section.
    - Catalogs (catalog.rs, upstream_catalog.rs): [Catalog] lists what is
      served, [UpstreamCatalog] extends a provider with its upstream's models.
    - Server (server.rs, routes.rs, gateway_auth.rs, compatibility.rs):
      [GatewayAuth] selects the profile from the bearer key; [Axum] is the
      router's interface; [Server] has the route tables, the limits, the probes,
      and the middleware stack under every set of cargo features; [Gateway] the
      handlers behind the protected routes, from axum's extractors to the HTTP
      response, over the world of [Service]: [serve_request] of its [handlers]
      is one request end to end, [serve_history] any number of them with steps
      of the world between.
    - Operations (sidecar_config.rs, deployment.rs, config.rs, main.rs):
      [SidecarConfig] compiles the registry for the sidecar, [Deployment]
      replaces the configuration file, [Main] parses the command, loads the
      registry, assembles the service and its routers, and says which [Service]
      world the listener and the supervisor start from.
    - The repository's own tests (the [tests] modules of src/src/*.rs, and
      tests/production_registry.rs): [RegistryTests], [PolicyTests],
      [DrawTests], [RoutingTests], [CatalogTests], [SseTests], [ProxyTests],
      [ServiceTests], [HttpTests], [ProductionTests] state each test as a
      proposition of the test's name, its assertions over its inputs;
      [TestKit] has the literals and the [unwrap] they share, [Documents] the
      shipped registry (registry/providers.yaml) and the fixtures.

    ** How they interact

    [Main.run_service] loads a [Registry], extends it ([UpstreamCatalog]), and
    builds from it the [Catalog], the [PriceTable], the [Ledger]'s aliases and
    the [ProxyState] with its [RoutingPolicy]; [SidecarConfig.build_config]
    compiles the same registry for the sidecar.  [Proxy.forward] calls
    [Routing.route_for_endpoint], then the sidecar, then [UsageCost] or [Sse]
    with the prices of the provider the sidecar names, and hands the costed
    usage to [Generation.record_at], which updates the [Measurements] the next
    decision reads and yields the row for [Ledger.insert], whose outcome drives
    [Database]'s supervisor.  [Service] takes these operations apart into steps
    and lets them interleave; [Server] puts the credential check, the limits and
    the middleware in front of handlers that are its parameter, and [Gateway]
    instantiates that parameter with [Proxy.forward], [Ledger.get_generation]
    and [Catalog]'s listings over [Service]'s world.

    ** What the theorems show

    - RoutingProps, PolicyProps (with SelectSpec and RoutingSpec): a decision
      names compatible, distinct, enabled providers, the best one first and all
      others as fallbacks; every request is decided without a panic, over any
      measurements that observations can build ([Measurements.observed]: the
      smoothed binary64 values stay finite and non-negative); the
      recorded window is the decision's own; the quota bounds every provider's
      share, and starves a model that a single provider serves.
    - ProxyProps, StreamProps: attempts follow the fallback protocol; no success
      reaches a client uncosted: the sidecar's success is attributed, priced and
      costed, or becomes a 502; a stream is recorded exactly once, with a usage
      its client was shown, or visibly fails; an aliased provider's bytes never
      reach a client; every request is answered and every stream ends; ledger
      rows carry what was costed (a token count beyond BIGINT omits the row).
    - BillingProps, SseProps (with SseSpec): costs are exact to ten places and
      fail closed; the price table is the registry; public objects and streams
      carry only public fields; how a stream is cut into chunks is irrelevant.
    - CatalogProps, UpstreamProps, MainProps: the catalog lists exactly what can
      be routed, each slug at its cheapest mapping's name, context and prices;
      exactly when the price table accepts a hydrated registry; the reviewed
      registry stays authoritative.
    - LedgerProps, DatabaseProps: exact round trip, isolation of profiles,
      append-only rows, the endpoint's answers; no lost wake-up and bounded
      backoff of the supervisor under any interleaving.
    - ServiceProps, ServiceLedger, ServiceDecisions, ServiceProgress: run
      without interruption, a decision's steps are [Routing.route_for_endpoint];
      under every interleaving no step panics, the rolling windows are the
      decisions replayed in the order of their critical sections, every decision
      still names distinct providers that serve the request, each ledger write
      is issued exactly once or still queued, and a task ends within a number of
      its own steps that the size of the sidecar's reply bounds, answering once;
      a request whose client leaves records nothing but its decision
      ([disconnected_task_is_silent]).
    - ServiceForward, ServiceIsolation: [Proxy.forward], one function of the
      whole request, is one of [Service]'s interleavings; profiles share
      nothing but the random generator and the database's health: no step of
      one profile's tasks changes the other's windows, measurements or rows, and
      what a profile is answered does not depend on them.
    - ServerProps: the routers always assemble, into exactly the documented
      stacks; a protected handler runs only under its credential's profile and
      within its class's limits; every request is answered, a panic by a fixed
      500; a request moves the world only as the handlers do that its credential
      opens ([server_frame]).
    - GatewayProps: end to end through the application's router, a completion
      gets the 401, the 413, the 408 or exactly [forward]'s answer and effects,
      and both addresses of an endpoint listing agree; through the whole server,
      a request without a profile's key leaves that profile's state alone, and
      every history is answered.
    - ConfigProps, SidecarProps, GatewayAuth, Deployment, MainProps: which
      settings are accepted, which variable a refusal names, and that only a
      window beyond the address space panics; the sidecar has an attributed route for every
      attempt the router makes, also between the two commands that load the
      registry separately; a key opens its own profile only; the configuration
      is replaced atomically; a service that starts answers every request from
      then on.
    - The tests pass on the definitions, by evaluation: the model agrees with
      the code on every input its authors check.  A session of [SseTests] is
      evaluated once and carried to all its divisions into chunks; the routing
      of [ProductionTests] is for every seed.

    ** Parameters and hypotheses

    Code outside the repository is a class: [RustDecimal], [SerdeJson],
    [RandCrate] (rand), [UrlCrate] and [UrlJoin] (url), [Notify] (tokio),
    [Jiff] (timestamps), [ConstantTimeEq] (subtle), [FloatText] ([f64] text),
    [Axum] and [Tower] (axum, tower-http and the other layers), [Extract]
    (axum's extractors), [Host] (the process's surroundings, [Gateway.Site]
    where the handlers are the program's own); what a theorem relies on is a
    class of laws that state the documented behaviour, and every class has an
    executable instance on which the witnesses are evaluated.  The sidecar, the
    upstream catalogs, the SQL server's availability, the file system's failures
    and the clock are arguments of the definitions.

    ** Fuel

    [Routing.plan_fallbacks] takes one round more than there are candidates,
    each round removing a provider; [Sse.drain] one more than there are pending
    bytes, each round draining at least one; [Generation.stream_run] two polls
    more than there are arrivals.  Running out is a [Panic], so the totality
    theorems show that it does not happen.

    [Service.run] is structural in its schedule and skips labels that are not
    enabled.

    ** Not modelled

    Of the unit tests, those of the YAML encoding and the one of ten thousand
    rolling windows ([PolicyTests]), and of the tests directory those that start
    processes.  Graceful shutdown: the draining of connections is axum's, the
    signals and the timer of the forced exit are tokio's.  Memory: allocations
    succeed, except a share window beyond the address space, whose buffer's
    "capacity overflow" is [Share.ShareTracker_new]'s panic.  The listener's
    sockets, the metrics recorder, the YAML encodings
    of records (serde derives), and log output; of the JSON that is answered,
    the order in which a derived encoding writes its fields.  In [Service] a
    statement is executed before its result is reported, or not at all; a task is dropped
    only where it awaits.  In [Gateway] a handler runs at once and then takes
    its time ([su_took]): what it has done when a timeout cuts it off or a panic
    unwinds it is in [Service]'s steps only, and the clock readings a completion
    records are the environment's, not tied to the time that passes for the
    timeouts.  Of the outer middleware only what [TowerLaws] says is used: not
    what compression makes of a body, nor whom the rate limiter refuses.
    auth.rs, lib.rs and policy/mod.rs hold no code of their own. *)

From Stdlib Require Export Ascii String.
From Stdlib Require Import NArith ZArith Permutation Sorted.
From stdpp Require Export base option list gmap strings pretty.

#[global] Open Scope string_scope.
#[global] Open Scope list_scope.

(** ** Results, panics, and their monads

    [result E A] is Rust's [Result<A, E>].  [outcome A] is a computation that
    either returns or panics; an [.expect(msg)] on an absent value is
    [Panic msg]. *)

Inductive result (E A : Type) : Type :=
| Ok (a : A)
| Err (e : E).
Arguments Ok {E A} a.
Arguments Err {E A} e.

Inductive outcome (A : Type) : Type :=
| Done (a : A)
| Panic (msg : string).
Arguments Done {A} a.
Arguments Panic {A} msg.

#[global] Instance result_ret E : MRet (result E) := fun A a => Ok a.
#[global] Instance result_bind E : MBind (result E) := fun A B f r =>
  match r with Ok a => f a | Err e => Err e end.
#[global] Instance outcome_ret : MRet outcome := fun A a => Done a.
#[global] Instance outcome_bind : MBind outcome := fun A B f r =>
  match r with Done a => f a | Panic m => Panic m end.

#[global] Instance result_eq_dec {E A} `{EqDecision E} `{EqDecision A} : EqDecision (result E A).
Proof. solve_decision. Defined.
#[global] Instance outcome_eq_dec {A} `{EqDecision A} : EqDecision (outcome A).
Proof. solve_decision. Defined.

Definition expect {A} (msg : string) (o : option A) : outcome A :=
  match o with Some a => Done a | None => Panic msg end.

Definition ok_or {E A} (e : E) (o : option A) : result E A :=
  match o with Some a => Ok a | None => Err e end.

Definition map_err {E F A} (f : E -> F) (r : result E A) : result F A :=
  match r with Ok a => Ok a | Err e => Err (f e) end.

Definition is_ok {E A} (r : result E A) : bool :=
  match r with Ok _ => true | Err _ => false end.

Definition is_done {A} (x : outcome A) : bool :=
  match x with Done _ => true | Panic _ => false end.

Definition ok {E A} (r : result E A) : option A :=
  match r with Ok a => Some a | Err _ => None end.

(** [let? x := r in k]: the [?] operator inside a computation that may panic. *)
Notation "'let?' x ':=' r 'in' k" :=
  (match r with Ok x => k | Err e => Done (Err e) end)
  (at level 200, x pattern, r at level 100, k at level 200, right associativity).

(** [Option::is_some_and] and [Option::is_none_or]. *)
Definition is_some_and {A} (p : A -> bool) (o : option A) : bool :=
  match o with Some a => p a | None => false end.
Definition is_none_or {A} (p : A -> bool) (o : option A) : bool :=
  match o with Some a => p a | None => true end.
Definition is_some {A} (o : option A) : bool :=
  match o with Some _ => true | None => false end.
Definition option_or {A} (o p : option A) : option A :=
  match o with Some a => Some a | None => p end.

(** Iteration that stops at the first [Err] ([for] with [return Err] or [?]). *)
Fixpoint try_for_each {E A} (f : A -> result E unit) (l : list A) : result E unit :=
  match l with
  | [] => Ok tt
  | x :: l' => f x ≫= fun _ => try_for_each f l'
  end.

Fixpoint try_fold {E S A} (f : S -> A -> result E S) (s : S) (l : list A) : result E S :=
  match l with
  | [] => Ok s
  | x :: l' => f s x ≫= fun s' => try_fold f s' l'
  end.

Fixpoint outcome_fold {S A} (f : S -> A -> outcome S) (s : S) (l : list A) : outcome S :=
  match l with
  | [] => Done s
  | x :: l' => f s x ≫= fun s' => outcome_fold f s' l'
  end.

Fixpoint outcome_map {A B} (f : A -> outcome B) (l : list A) : outcome (list B) :=
  match l with
  | [] => Done []
  | x :: l' => f x ≫= fun y => outcome_map f l' ≫= fun ys => Done (y :: ys)
  end.

Fixpoint filter_b {A} (p : A -> bool) (l : list A) : list A :=
  match l with
  | [] => []
  | x :: l' => if p x then x :: filter_b p l' else filter_b p l'
  end.

Fixpoint find_b {A} (p : A -> bool) (l : list A) : option A :=
  match l with
  | [] => None
  | x :: l' => if p x then Some x else find_b p l'
  end.

(** ** Comparison functions and their laws *)

Definition then_with {A} (c d : A -> A -> comparison) (x y : A) : comparison :=
  match c x y with Eq => d x y | r => r end.

Definition compare_on {A B} (f : A -> B) (c : B -> B -> comparison) (x y : A) : comparison :=
  c (f x) (f y).

Definition compare_rev {A} (c : A -> A -> comparison) (x y : A) : comparison := c y x.

(** A comparison function of a total preorder, as [Ord::cmp] promises. *)
Class CmpLaws {A} (cmp : A -> A -> comparison) : Prop := {
  cmp_antisym x y : cmp y x = CompOpp (cmp x y);
  cmp_trans x y z : cmp x y <> Gt -> cmp y z <> Gt -> cmp x z <> Gt
}.

(** [Iterator::min_by] keeps the first of equal minima, [Iterator::max_by] the
    last of equal maxima. *)
Fixpoint min_from {A} (cmp : A -> A -> comparison) (acc : A) (l : list A) : A :=
  match l with
  | [] => acc
  | x :: l' => min_from cmp (match cmp acc x with Gt => x | _ => acc end) l'
  end.
Definition min_by {A} (cmp : A -> A -> comparison) (l : list A) : option A :=
  match l with [] => None | x :: l' => Some (min_from cmp x l') end.

Fixpoint max_from {A} (cmp : A -> A -> comparison) (acc : A) (l : list A) : A :=
  match l with
  | [] => acc
  | x :: l' => max_from cmp (match cmp acc x with Gt => acc | _ => x end) l'
  end.
Definition max_by {A} (cmp : A -> A -> comparison) (l : list A) : option A :=
  match l with [] => None | x :: l' => Some (max_from cmp x l') end.

(** [slice::sort_by]: a stable sort. *)
Fixpoint sort_insert {A} (cmp : A -> A -> comparison) (x : A) (l : list A) : list A :=
  match l with
  | [] => [x]
  | y :: l' => match cmp x y with Gt => y :: sort_insert cmp x l' | _ => x :: l end
  end.
Fixpoint sort_by {A} (cmp : A -> A -> comparison) (l : list A) : list A :=
  match l with
  | [] => []
  | x :: l' => sort_insert cmp x (sort_by cmp l')
  end.

(** ** [BTreeMap]: an association list kept in key order *)

Section BTreeMap.
Context {K V : Type} (cmp : K -> K -> comparison).

Fixpoint bt_get (k : K) (m : list (K * V)) : option V :=
  match m with
  | [] => None
  | (j, v) :: m' => match cmp k j with Eq => Some v | _ => bt_get k m' end
  end.

Fixpoint bt_insert (k : K) (v : V) (m : list (K * V)) : list (K * V) :=
  match m with
  | [] => [(k, v)]
  | (j, w) :: m' =>
      match cmp k j with
      | Eq => (j, v) :: m'
      | Lt => (k, v) :: m
      | Gt => (j, w) :: bt_insert k v m'
      end
  end.

(** [entry(k).and_modify(f).or_insert(v)]. *)
Definition bt_entry (k : K) (f : V -> V) (v : V) (m : list (K * V)) : list (K * V) :=
  bt_insert k (match bt_get k m with Some w => f w | None => v end) m.

Definition bt_sorted (m : list (K * V)) : Prop :=
  StronglySorted (fun a b => cmp a.1 b.1 = Lt) m.
End BTreeMap.

(** ** Strings as byte strings *)

Fixpoint strip_prefix (p s : string) : option string :=
  match p, s with
  | EmptyString, _ => Some s
  | String a p', String b s' => if Ascii.eqb a b then strip_prefix p' s' else None
  | String _ _, EmptyString => None
  end.

Fixpoint strip_suffix (q s : string) : option string :=
  if String.eqb s q then Some EmptyString else
  match s with
  | EmptyString => None
  | String a s' => String a <$> strip_suffix q s'
  end.

Definition str_is_empty (s : string) : bool := String.eqb s "".

(** The pieces between slashes. *)
Fixpoint split_slash (s : string) : list string :=
  match s with
  | EmptyString => [""]
  | String c s' =>
      match split_slash s' with
      | [] => [String c ""]
      | first :: rest => if Ascii.eqb c "/" then "" :: first :: rest else String c first :: rest
      end
  end.

(** [str::trim]: strips the UTF-8 encodings of Unicode White_Space. *)
Definition ws1 (a : N) : bool := ((9 <=? a) && (a <=? 13) || (a =? 32))%N.
Definition ws2 (a b : N) : bool := ((a =? 194) && ((b =? 133) || (b =? 160)))%N.
Definition ws3 (a b c : N) : bool :=
  ((a =? 225) && (b =? 154) && (c =? 128)
   || (a =? 226) && (b =? 128) && ((128 <=? c) && (c <=? 138) || (c =? 168) || (c =? 169) || (c =? 175))
   || (a =? 226) && (b =? 129) && (c =? 159)
   || (a =? 227) && (b =? 128) && (c =? 128))%N.

Fixpoint trim_left (l : list ascii) : list ascii :=
  match l with
  | [] => []
  | a :: l1 =>
      if ws1 (N_of_ascii a) then trim_left l1 else
      match l1 with
      | [] => l
      | b :: l2 =>
          if ws2 (N_of_ascii a) (N_of_ascii b) then trim_left l2 else
          match l2 with
          | [] => l
          | c :: l3 =>
              if ws3 (N_of_ascii a) (N_of_ascii b) (N_of_ascii c) then trim_left l3 else l
          end
      end
  end.

Fixpoint trim_left_rev (l : list ascii) : list ascii :=
  match l with
  | [] => []
  | a :: l1 =>
      if ws1 (N_of_ascii a) then trim_left_rev l1 else
      match l1 with
      | [] => l
      | b :: l2 =>
          if ws2 (N_of_ascii b) (N_of_ascii a) then trim_left_rev l2 else
          match l2 with
          | [] => l
          | c :: l3 =>
              if ws3 (N_of_ascii c) (N_of_ascii b) (N_of_ascii a) then trim_left_rev l3 else l
          end
      end
  end.

Definition trim (s : string) : string :=
  string_of_list_ascii (rev (trim_left_rev (rev (trim_left (list_ascii_of_string s))))).

(** Machine-integer limits. *)
Definition u8_max : Z := 255.
Definition u64_max : Z := 2 ^ 64 - 1.
Definition usize_max : Z := 2 ^ 64 - 1.
Definition i64_max : Z := 2 ^ 63 - 1.
Definition u64_saturating_sub (a b : Z) : Z := Z.max 0 (a - b).
Definition usize_saturating_add (a b : Z) : Z := Z.min usize_max (a + b).

(** ** Lemmas *)

#[global] Hint Extern 0 (_ <> Gt) => discriminate : core.

Lemma done_inj {A} (a b : A) : Done a = Done b -> a = b.
Proof. congruence. Qed.

Lemma bind_Ok {E A B} (f : A -> result E B) r b :
  r ≫= f = Ok b <-> exists a, r = Ok a /\ f a = Ok b.
Proof. destruct r; cbn; naive_solver. Qed.

Lemma bind_Err {E A B} (f : A -> result E B) r e :
  r ≫= f = Err e <-> r = Err e \/ exists a, r = Ok a /\ f a = Err e.
Proof. destruct r; cbn; naive_solver. Qed.

Lemma bind_Done {A B} (f : A -> outcome B) r b :
  r ≫= f = Done b <-> exists a, r = Done a /\ f a = Done b.
Proof. destruct r; cbn; naive_solver. Qed.

(** The same through [let?]. *)
Lemma try_Ok {E A B} (r : result E A) (k : A -> outcome (result E B)) b :
  (let? x := r in k x) = Done (Ok b) <-> exists a, r = Ok a /\ k a = Done (Ok b).
Proof. destruct r; naive_solver. Qed.

Lemma try_Err {E A B} (r : result E A) (k : A -> outcome (result E B)) e :
  (let? x := r in k x) = Done (Err e) <-> r = Err e \/ exists a, r = Ok a /\ k a = Done (Err e).
Proof. destruct r; naive_solver. Qed.

Lemma expect_Done {A} msg (o : option A) a : expect msg o = Done a <-> o = Some a.
Proof. destruct o; cbn; naive_solver. Qed.

Lemma ok_or_Ok {E A} (e : E) (o : option A) a : ok_or e o = Ok a <-> o = Some a.
Proof. destruct o; cbn; naive_solver. Qed.

Lemma ok_or_Err {E A} (e e' : E) (o : option A) : ok_or e o = Err e' <-> o = None /\ e = e'.
Proof. destruct o; cbn; naive_solver. Qed.

Lemma try_for_each_Ok {E A} (f : A -> result E unit) l :
  try_for_each f l = Ok tt <-> Forall (fun x => f x = Ok tt) l.
Proof.
  induction l as [|x l IH]; cbn; [split; auto|].
  rewrite Forall_cons, <- IH. destruct (f x) as [[]|]; cbn; naive_solver.
Qed.

Lemma elem_of_filter_b {A} (p : A -> bool) l x : x ∈ filter_b p l <-> p x = true /\ x ∈ l.
Proof.
  induction l as [|y l IH]; cbn.
  - split; [intros H; inversion H | intros [_ H]; inversion H].
  - destruct (p y) eqn:E; rewrite ?elem_of_cons, IH; naive_solver congruence.
Qed.

Lemma NoDup_fmap_inj_in {A B} (f : A -> B) l x y :
  NoDup (f <$> l) -> x ∈ l -> y ∈ l -> f x = f y -> x = y.
Proof.
  induction l as [|z l IH]; cbn; [intros _ H; inversion H|].
  intros [Hz Hnd]%NoDup_cons [->|Hx]%elem_of_cons [->|Hy]%elem_of_cons E; auto; exfalso; apply Hz.
  - rewrite E. by apply list_elem_of_fmap_2.
  - rewrite <- E. by apply list_elem_of_fmap_2.
Qed.

Lemma filter_b_app {A} (p : A -> bool) l k : filter_b p (l ++ k) = filter_b p l ++ filter_b p k.
Proof. induction l as [|x l IH]; cbn; [done|]. destruct (p x); cbn; congruence. Qed.

Lemma filter_b_sublist {A} (p : A -> bool) l : sublist (filter_b p l) l.
Proof. induction l as [|x l IH]; cbn; [constructor|]. destruct (p x); constructor; done. Qed.

Lemma filter_b_length {A} (p : A -> bool) l : length (filter_b p l) <= length l.
Proof. apply sublist_length, filter_b_sublist. Qed.

Lemma elem_of_rev {A} (l : list A) x : x ∈ rev l <-> x ∈ l.
Proof. by rewrite !list_elem_of_In, <- in_rev. Qed.

Lemma find_b_Some {A} (p : A -> bool) l x : find_b p l = Some x -> p x = true /\ x ∈ l.
Proof.
  induction l as [|y l IH]; cbn; [done|]. destruct (p y) eqn:E.
  - intros [= ->]. split; [done|left].
  - intros [? ?]%IH. split; [done|by right].
Qed.

Lemma find_b_app {A} (p : A -> bool) l k :
  find_b p (l ++ k) = match find_b p l with Some x => Some x | None => find_b p k end.
Proof. induction l as [|x l IH]; [done|]. cbn. by destruct (p x). Qed.

Lemma find_b_None {A} (p : A -> bool) l : find_b p l = None <-> forall x, x ∈ l -> p x = false.
Proof.
  induction l as [|y l IH]; cbn.
  - split; [intros _ x H; inversion H | done].
  - destruct (p y) eqn:E; [split; [done|]|rewrite IH; split].
    + intros H. specialize (H y). rewrite E in H. discriminate H. left.
    + intros H x [->|?]%elem_of_cons; auto.
    + intros H x ?. apply H. by right.
Qed.

Lemma outcome_map_Done {A B} (f : A -> outcome B) l ys :
  outcome_map f l = Done ys -> Forall2 (fun x y => f x = Done y) l ys.
Proof.
  revert ys. induction l as [|x l IH]; cbn; intros ys.
  - intros [= <-]. constructor.
  - rewrite bind_Done. intros (y & ? & (zs & ? & [= <-])%bind_Done). constructor; auto.
Qed.

Lemma outcome_map_total {A B} (f : A -> outcome B) l :
  (forall x, x ∈ l -> exists y, f x = Done y) -> exists ys, outcome_map f l = Done ys.
Proof.
  induction l as [|x l IH]; cbn; intros H; [eauto|].
  destruct (H x) as [y ->]; [left|]. cbn.
  destruct IH as [ys ->]; [intros; apply H; by right|]. cbn. eauto.
Qed.

(** Facts derived from [CmpLaws]. *)
Section CmpFacts.
Context {A} (cmp : A -> A -> comparison) {L : CmpLaws cmp}.

Lemma cmp_refl x : cmp x x = Eq.
Proof. pose proof (cmp_antisym (cmp:=cmp) x x) as H. by destruct (cmp x x). Qed.

Lemma cmp_Gt_Lt x y : cmp x y = Gt <-> cmp y x = Lt.
Proof. rewrite (cmp_antisym (cmp:=cmp) y x). destruct (cmp y x); cbn; split; congruence. Qed.

Lemma cmp_Lt_le x y z : cmp x y = Lt -> cmp y z <> Gt -> cmp x z = Lt.
Proof.
  intros H1 H2. destruct (cmp x z) eqn:E; [|done|]; exfalso.
  - assert (cmp y x <> Gt) as H.
    { eapply cmp_trans; [exact H2|]. rewrite (cmp_antisym (cmp:=cmp) x z), E. done. }
    apply H. by apply cmp_Gt_Lt.
  - revert E. eapply cmp_trans; [|exact H2]. by rewrite H1.
Qed.

Lemma cmp_le_Lt x y z : cmp x y <> Gt -> cmp y z = Lt -> cmp x z = Lt.
Proof.
  intros H1 H2. destruct (cmp x z) eqn:E; [|done|]; exfalso.
  - assert (cmp z y <> Gt) as H.
    { eapply cmp_trans; [|exact H1]. rewrite (cmp_antisym (cmp:=cmp) x z), E. done. }
    apply H. by apply cmp_Gt_Lt.
  - revert E. eapply cmp_trans; [exact H1|]. by rewrite H2.
Qed.

Lemma cmp_total x y : cmp x y <> Gt \/ cmp y x <> Gt.
Proof. rewrite (cmp_antisym (cmp:=cmp) x y). destruct (cmp x y); cbn; auto. Qed.

Lemma cmp_not_Gt_flip x y : cmp x y = Gt -> cmp y x <> Gt.
Proof. intros H%cmp_Gt_Lt. by rewrite H. Qed.

Lemma min_from_spec acc l :
  (min_from cmp acc l = acc \/ min_from cmp acc l ∈ l) /\
  cmp (min_from cmp acc l) acc <> Gt /\
  (forall y, y ∈ l -> cmp (min_from cmp acc l) y <> Gt).
Proof.
  revert acc. induction l as [|x l IH]; intros acc; cbn.
  - split_and!; [auto|by rewrite cmp_refl|]. intros y H; inversion H.
  - destruct (IH (match cmp acc x with Gt => x | _ => acc end)) as (Hin & Hacc & Hall).
    set (m := min_from _ _ _) in *.
    assert (cmp m acc <> Gt /\ cmp m x <> Gt) as [Ha Hx].
    { destruct (cmp acc x) eqn:E; (split; [|]); try done;
        (eapply cmp_trans; [exact Hacc|]); try (by rewrite E).
      by apply cmp_not_Gt_flip. }
    split_and!; [|done|].
    + destruct Hin as [Hin|Hin]; [|right; by right].
      destruct (cmp acc x); rewrite Hin; auto. right; left.
    + intros y [->|Hy]%elem_of_cons; auto.
Qed.

Lemma min_by_spec l m :
  min_by cmp l = Some m -> m ∈ l /\ forall y, y ∈ l -> cmp m y <> Gt.
Proof.
  destruct l as [|x l]; cbn; [done|]. intros [= <-].
  destruct (min_from_spec x l) as (Hin & Ha & Hall). split.
  - destruct Hin as [->|Hin]; [left|by right].
  - intros y [->|Hy]%elem_of_cons; auto.
Qed.

Lemma max_from_spec acc l :
  (max_from cmp acc l = acc \/ max_from cmp acc l ∈ l) /\
  cmp acc (max_from cmp acc l) <> Gt /\
  (forall y, y ∈ l -> cmp y (max_from cmp acc l) <> Gt).
Proof.
  revert acc. induction l as [|x l IH]; intros acc; cbn.
  - split_and!; [auto|by rewrite cmp_refl|]. intros y H; inversion H.
  - destruct (IH (match cmp acc x with Gt => acc | _ => x end)) as (Hin & Hacc & Hall).
    set (m := max_from _ _ _) in *.
    assert (cmp acc m <> Gt /\ cmp x m <> Gt) as [Ha Hx].
    { destruct (cmp acc x) eqn:E; (split; [|]); try done;
        (eapply cmp_trans; [|exact Hacc]); try (by rewrite E).
      by apply cmp_not_Gt_flip. }
    split_and!; [|done|].
    + destruct Hin as [Hin|Hin]; [|right; by right].
      destruct (cmp acc x); rewrite Hin; auto; right; left.
    + intros y [->|Hy]%elem_of_cons; auto.
Qed.

Lemma max_by_spec l m :
  max_by cmp l = Some m -> m ∈ l /\ forall y, y ∈ l -> cmp y m <> Gt.
Proof.
  destruct l as [|x l]; cbn; [done|]. intros [= <-].
  destruct (max_from_spec x l) as (Hin & Ha & Hall). split.
  - destruct Hin as [->|Hin]; [left|by right].
  - intros y [->|Hy]%elem_of_cons; auto.
Qed.

Lemma sort_insert_perm x l : sort_insert cmp x l ≡ₚ x :: l.
Proof.
  induction l as [|y l IH]; cbn; [done|]. destruct (cmp x y); [done|done|].
  rewrite IH. apply perm_swap.
Qed.

Lemma sort_by_perm l : sort_by cmp l ≡ₚ l.
Proof. induction l as [|x l IH]; cbn; [done|]. by rewrite sort_insert_perm, IH. Qed.

Lemma sort_insert_sorted x l :
  StronglySorted (fun a b => cmp a b <> Gt) l ->
  StronglySorted (fun a b => cmp a b <> Gt) (sort_insert cmp x l).
Proof.
  induction 1 as [|y l Hs IH Hy]; cbn; [repeat constructor|].
  destruct (cmp x y) eqn:E.
  - constructor; [by constructor|]. constructor; [by rewrite E|].
    eapply List.Forall_impl; [|exact Hy]. cbn. intros a. apply cmp_trans. by rewrite E.
  - constructor; [by constructor|]. constructor; [by rewrite E|].
    eapply List.Forall_impl; [|exact Hy]. cbn. intros a. apply cmp_trans. by rewrite E.
  - constructor; [done|]. rewrite sort_insert_perm. constructor; [|done].
    by apply cmp_not_Gt_flip.
Qed.

Lemma sort_by_sorted l : StronglySorted (fun a b => cmp a b <> Gt) (sort_by cmp l).
Proof. induction l; cbn; [constructor|by apply sort_insert_sorted]. Qed.
End CmpFacts.

#[global] Instance then_with_laws {A} (c d : A -> A -> comparison) :
  CmpLaws c -> CmpLaws d -> CmpLaws (then_with c d).
Proof.
  intros Lc Ld. split; unfold then_with.
  - intros x y. rewrite (cmp_antisym (cmp:=c) x y), (cmp_antisym (cmp:=d) x y).
    by destruct (c x y).
  - intros x y z. destruct (c x y) eqn:E1; [|intros _|done].
    + destruct (c y z) eqn:E2; [|intros _|done].
      * intros H1 H2. assert (c x z = Eq) as ->; [|by eapply cmp_trans].
        assert (c x z <> Gt) as Ha by (eapply cmp_trans; [rewrite E1|rewrite E2]; done).
        assert (c z x <> Gt) as Hb.
        { eapply (cmp_trans _ y); rewrite (cmp_antisym (cmp:=c)), ?E1, ?E2; done. }
        revert Hb. rewrite (cmp_antisym (cmp:=c) x z). destruct (c x z); naive_solver.
      * intros _. rewrite (cmp_le_Lt c x y z); [done|by rewrite E1|done].
    + intros H. rewrite (cmp_Lt_le c x y z); [done..|]. by destruct (c y z).
Qed.

#[global] Instance compare_on_laws {A B} (f : A -> B) c : CmpLaws c -> CmpLaws (compare_on f c).
Proof.
  intros L. split; unfold compare_on; [intros; apply cmp_antisym|].
  intros x y z; apply (cmp_trans (f x) (f y) (f z)).
Qed.

#[global] Instance compare_rev_laws {A} (c : A -> A -> comparison) : CmpLaws c -> CmpLaws (compare_rev c).
Proof.
  intros L. split; unfold compare_rev; [intros; apply cmp_antisym|].
  intros x y z H1 H2. by apply (cmp_trans z y x).
Qed.

#[global] Instance Z_compare_laws : CmpLaws Z.compare.
Proof.
  split; [intros; apply Z.compare_antisym|].
  intros x y z. rewrite !Z.compare_ngt_iff. lia.
Qed.

Lemma ascii_compare_N a b : Ascii.compare a b = N.compare (N_of_ascii a) (N_of_ascii b).
Proof. done. Qed.

#[global] Instance string_compare_laws : CmpLaws String.compare.
Proof.
  split; [intros; apply String.compare_antisym|].
  intros x. induction x as [|a x IH]; intros [|b y] [|c z]; cbn; try done.
  rewrite !ascii_compare_N.
  destruct (N.compare_spec (N_of_ascii a) (N_of_ascii b));
  destruct (N.compare_spec (N_of_ascii b) (N_of_ascii c));
  destruct (N.compare_spec (N_of_ascii a) (N_of_ascii c)); try done; try lia.
  apply IH.
Qed.

(** Membership needs no laws. *)
Lemma min_by_elem {A} (cmp : A -> A -> comparison) l m : min_by cmp l = Some m -> m ∈ l.
Proof.
  destruct l as [|x l]; cbn; [done|]. intros [= <-]. revert x.
  induction l as [|y l IH]; intros x; cbn; [left|].
  specialize (IH (match cmp x y with Gt => y | _ => x end)).
  destruct (cmp x y); rewrite elem_of_cons in IH |- *; destruct IH as [->|]; rewrite ?elem_of_cons; auto.
Qed.

Lemma max_by_elem {A} (cmp : A -> A -> comparison) l m : max_by cmp l = Some m -> m ∈ l.
Proof.
  destruct l as [|x l]; cbn; [done|]. intros [= <-]. revert x.
  induction l as [|y l IH]; intros x; cbn; [left|].
  specialize (IH (match cmp x y with Gt => x | _ => y end)).
  destruct (cmp x y); rewrite elem_of_cons in IH |- *; destruct IH as [->|]; rewrite ?elem_of_cons; auto.
Qed.

Lemma min_by_is_Some {A} (cmp : A -> A -> comparison) l : is_Some (min_by cmp l) <-> l <> [].
Proof. destruct l; cbn; split; [intros [? ?]; done|done|done|eauto]. Qed.

Lemma max_by_is_Some {A} (cmp : A -> A -> comparison) l : is_Some (max_by cmp l) <-> l <> [].
Proof. destruct l; cbn; split; [intros [? ?]; done|done|done|eauto]. Qed.

(** Laws of the association-list [BTreeMap]: lookups need only that [cmp]
    decides equality; order needs [CmpLaws]. *)
Section BTreeFacts.
Context {K V : Type} (cmp : K -> K -> comparison).
Context (cmp_eq : forall a b, cmp a b = Eq <-> a = b).

Lemma bt_get_insert_eq k (v : V) m : bt_get cmp k (bt_insert cmp k v m) = Some v.
Proof.
  assert (cmp k k = Eq) as R by by apply cmp_eq.
  induction m as [|[j w] m IH]; cbn; [by rewrite R|].
  destruct (cmp k j) eqn:E; cbn; rewrite ?E, ?R; done.
Qed.

Lemma bt_get_insert_ne k j (v : V) m :
  k <> j -> bt_get cmp j (bt_insert cmp k v m) = bt_get cmp j m.
Proof.
  intros Hne. assert (cmp j k <> Eq) as R by (by rewrite cmp_eq; congruence).
  induction m as [|[i w] m IH]; cbn.
  - by destruct (cmp j k).
  - destruct (cmp k i) eqn:E; cbn.
    + apply cmp_eq in E as <-. by destruct (cmp j k).
    + by destruct (cmp j k).
    + destruct (cmp j i); auto.
Qed.

Lemma bt_get_insert k j (v : V) m `{EqDecision K} :
  bt_get cmp j (bt_insert cmp k v m) = if decide (k = j) then Some v else bt_get cmp j m.
Proof.
  case_decide as E; [subst; apply bt_get_insert_eq|by apply bt_get_insert_ne].
Qed.

Lemma bt_get_elem k (v : V) m : bt_get cmp k m = Some v -> (k, v) ∈ m.
Proof.
  induction m as [|[j w] m IH]; cbn; [done|].
  destruct (cmp k j) eqn:E; [|intros; right; auto..].
  apply cmp_eq in E as <-. intros [= ->]. left.
Qed.

Context {L : CmpLaws cmp}.

Lemma bt_insert_keys k (v : V) m x : x ∈ (bt_insert cmp k v m).*1 -> x = k \/ x ∈ m.*1.
Proof.
  induction m as [|[j w] m IH]; cbn.
  - intros [->|H]%elem_of_cons; [auto|inversion H].
  - destruct (cmp k j) eqn:E; cbn; rewrite ?elem_of_cons.
    + apply cmp_eq in E as <-. tauto.
    + tauto.
    + intros [->|?]; [auto|]. apply IH in H; tauto.
Qed.

Lemma bt_insert_elem k (v : V) m x : x ∈ bt_insert cmp k v m -> x = (k, v) \/ x ∈ m.
Proof.
  induction m as [|[j w] m IH]; cbn.
  - intros [->|H]%elem_of_cons; [auto|inversion H].
  - destruct (cmp k j) eqn:E; rewrite ?elem_of_cons.
    + apply cmp_eq in E as <-. tauto.
    + tauto.
    + intros [->|?]; [auto|]. apply IH in H; tauto.
Qed.

Lemma bt_insert_sorted k (v : V) m : bt_sorted cmp m -> bt_sorted cmp (bt_insert cmp k v m).
Proof.
  unfold bt_sorted. induction 1 as [|[j w] m Hs IH Hj]; cbn; [repeat constructor|].
  destruct (cmp k j) eqn:E.
  - constructor; done.
  - constructor; [by constructor|]. constructor; [done|].
    eapply List.Forall_impl; [|exact Hj]. cbn. intros [a b] Ha. cbn in *.
    eapply cmp_Lt_le; [done..|]. by rewrite Ha.
  - constructor; [done|]. apply Forall_forall. intros [a b] Ha. cbn.
    assert (a ∈ (bt_insert cmp k v m).*1) as [->|Hin]%bt_insert_keys.
    { apply list_elem_of_fmap. by exists (a, b). }
    + by apply cmp_Gt_Lt.
    + apply list_elem_of_fmap in Hin as ([a' b'] & -> & Hin).
      rewrite Forall_forall in Hj. by apply (Hj (a', b')).
Qed.

Lemma bt_elem_get k (v : V) m : bt_sorted cmp m -> (k, v) ∈ m -> bt_get cmp k m = Some v.
Proof.
  induction 1 as [|[j w] m Hs IH Hj]; [intros H; inversion H|].
  intros [[= -> ->]|Hin]%elem_of_cons; cbn.
  - by rewrite (cmp_refl cmp).
  - rewrite Forall_forall in Hj. specialize (Hj _ Hin). cbn in Hj.
    apply (cmp_Gt_Lt cmp) in Hj. rewrite Hj. by apply IH.
Qed.
End BTreeFacts.

Lemma string_compare_eq a b : String.compare a b = Eq <-> a = b.
Proof. split; [apply String.compare_eq_iff|intros ->; apply (cmp_refl String.compare)]. Qed.

(** Strings: prefixes, suffixes. *)
Lemma str_app_cons x (a b : string) : String x a +:+ b = String x (a +:+ b).
Proof. done. Qed.

Lemma str_app_nil (a : string) : a +:+ "" = a.
Proof. induction a as [|x a IH]; [done|]. by rewrite str_app_cons, IH. Qed.

Lemma str_app_assoc (a b c : string) : (a +:+ b) +:+ c = a +:+ (b +:+ c).
Proof. induction a as [|x a IH]; [done|]. rewrite !str_app_cons. by f_equal. Qed.

Lemma str_length_app (a b : string) : String.length (a +:+ b) = String.length a + String.length b.
Proof. induction a as [|x a IH]; [done|]. rewrite str_app_cons. cbn. by rewrite IH. Qed.

Lemma strip_prefix_Some p s t : strip_prefix p s = Some t <-> s = p +:+ t.
Proof.
  revert s. induction p as [|a p IH]; intros s; cbn; [naive_solver|].
  rewrite str_app_cons. destruct s as [|b s]; [naive_solver|].
  destruct (Ascii.eqb_spec a b) as [->|Hne]; [rewrite IH|]; naive_solver.
Qed.

Lemma strip_suffix_Some q s t : strip_suffix q s = Some t <-> s = t +:+ q.
Proof.
  revert t. induction s as [|a s IH]; intros t; cbn [strip_suffix];
    match goal with |- context [String.eqb ?x ?y] => destruct (String.eqb_spec x y) as [Heq|Hne] end.
  - subst q. rewrite str_app_nil. naive_solver.
  - split; [done|]. destruct t; [intros Hq; by destruct Hne|rewrite str_app_cons; discriminate].
  - subst q. split; [by intros [= <-]|]. intros H.
    assert (String.length t = 0) as Hl.
    { apply (f_equal String.length) in H. rewrite str_length_app in H. cbn in H. lia. }
    by destruct t.
  - rewrite fmap_Some. split.
    + intros (u & ->%IH & ->). done.
    + destruct t as [|b t]; [intros Hq; by destruct Hne|]. rewrite str_app_cons.
      intros [= -> ->]. exists t. split; [|done]. by apply IH.
Qed.

Lemma strip_suffix_app q t : strip_suffix q (t +:+ q) = Some t.
Proof. by apply strip_suffix_Some. Qed.

Lemma str_is_empty_spec s : str_is_empty s = true <-> s = "".
Proof. apply String.eqb_eq. Qed.

(** ** Automation shared by the development *)

Create HintDb router.
#[export] Hint Rewrite @bind_Ok @bind_Done @bind_Err @expect_Done @ok_or_Ok @ok_or_Err
  @try_for_each_Ok @strip_prefix_Some @strip_suffix_Some @elem_of_filter_b : router.
#[export] Hint Resolve min_by_spec max_by_spec filter_b_sublist sort_by_perm sort_by_sorted : router.

(** [invert_binds] opens every monadic bind of a successful run in the context. *)
Ltac invert_binds :=
  repeat match goal with
  | H : Ok _ = Ok _ |- _ => injection H as H; subst
  | H : Err _ = Err _ |- _ => injection H as H; subst
  | H : Done _ = Done _ |- _ => injection H as H; subst
  | H : Ok _ = Err _ |- _ => discriminate H
  | H : Err _ = Ok _ |- _ => discriminate H
  | H : Panic _ = Done _ |- _ => discriminate H
  | H : mbind _ _ = Ok _ |- _ => apply bind_Ok in H as (? & ? & ?)
  | H : mbind _ _ = Done _ |- _ => apply bind_Done in H as (? & ? & ?)
  | H : expect _ _ = Done _ |- _ => apply expect_Done in H
  | H : ok_or _ _ = Ok _ |- _ => apply ok_or_Ok in H
  | H : context [match ?r with Ok _ => _ | Err _ => _ end] |- _ => destruct r eqn:?
  | H : context [if ?b then _ else _] |- _ => destruct b eqn:?
  end.

(** Closes an equation of closed computations; the kernel evaluates both sides. *)
Ltac vm_reflexivity := match goal with |- _ = ?b => vm_cast_no_check (eq_refl b) end.
