(* ===== verification/Float64.v ===== *)
(** Rust's [f64]: IEEE-754 binary64 arithmetic, rounding to nearest even, as
    the Standard Library's executable [SpecFloat] at precision 53 and maximal
    exponent 1024.  NaNs carry no sign or payload here; the program compares
    and stores only finite values ([Select.Candidate_new] refuses the rest). *)

From Stdlib Require Import SpecFloat ZArith.
From S2P Require Import Prelude.

Notation f64 := spec_float.

Definition f64_prec : Z := 53.
Definition f64_emax : Z := 1024.

Definition f64_zero : f64 := S754_zero false.
Definition f64_one : f64 := S754_finite false 4503599627370496 (-52).

Definition f64_add : f64 -> f64 -> f64 := SFadd f64_prec f64_emax.
Definition f64_sub : f64 -> f64 -> f64 := SFsub f64_prec f64_emax.
Definition f64_mul : f64 -> f64 -> f64 := SFmul f64_prec f64_emax.
Definition f64_div : f64 -> f64 -> f64 := SFdiv f64_prec f64_emax.

(** The operators [<], [<=] and [>]: false on NaN. *)
Definition f64_lt (x y : f64) : bool := SFltb x y.
Definition f64_le (x y : f64) : bool := SFleb x y.
Definition f64_gt (x y : f64) : bool := SFltb y x.

Definition is_finite (x : f64) : bool :=
  match x with S754_zero _ | S754_finite _ _ _ => true | _ => false end.

Definition is_nan (x : f64) : bool :=
  match x with S754_nan => true | _ => false end.

(** [f64::max]: a NaN operand yields the other one. *)
Definition f64_max (x y : f64) : f64 :=
  if is_nan x then y else if is_nan y then x else if f64_lt x y then y else x.

(** [u64 as f64]: rounds to nearest even. *)
Definition f64_of_Z (n : Z) : f64 := binary_normalize f64_prec f64_emax n 0 false.

(** [f64::total_cmp] compares the IEEE bit patterns, the magnitude bits of
    negative values complemented, as signed 64-bit integers. *)
Definition magnitude_bits (x : f64) : Z :=
  match x with
  | S754_zero _ => 0
  | S754_infinity _ => 2047 * 2 ^ 52
  | S754_nan => 2047 * 2 ^ 52 + 2 ^ 51
  | S754_finite _ m e =>
      if (Z.pos m <? 2 ^ 52)%Z then Z.pos m else (e + 1075) * 2 ^ 52 + (Z.pos m - 2 ^ 52)
  end.

Definition sign_bit (x : f64) : bool :=
  match x with
  | S754_zero s | S754_infinity s | S754_finite s _ _ => s
  | S754_nan => false
  end.

Definition total_key (x : f64) : Z :=
  (if sign_bit x then - 1 - magnitude_bits x else magnitude_bits x)%Z.

Definition total_cmp : f64 -> f64 -> comparison := compare_on total_key Z.compare.

#[global] Instance total_cmp_laws : CmpLaws total_cmp.
Proof. exact (compare_on_laws total_key Z.compare Z_compare_laws). Qed.

#[global] Instance f64_eq_dec : EqDecision f64.
Proof. solve_decision. Defined.

(** ** [std::time::Duration] in nanoseconds *)

Definition NANOS_PER_SEC : Z := 1000000000.

(** [Duration::as_secs_f64]: [secs as f64 + nanos as f64 / 1e9]. *)
Definition as_secs_f64 (nanos : Z) : f64 :=
  f64_add (f64_of_Z (nanos / NANOS_PER_SEC))
    (f64_div (f64_of_Z (nanos mod NANOS_PER_SEC)) (f64_of_Z NANOS_PER_SEC)).

(** ** Non-negative, finite values *)

Definition nonneg_finite (x : f64) : bool := is_finite x && negb (f64_lt x f64_zero).

Definition positive_finite (x : f64) : bool := is_finite x && f64_lt f64_zero x.

Lemma positive_finite_inv x : positive_finite x = true -> exists m e, x = S754_finite false m e.
Proof. destruct x as [[]|[]| |[] m e]; cbn; try done; eauto. Qed.

Lemma positive_nonneg x : positive_finite x = true -> nonneg_finite x = true.
Proof. intros (m & e & ->)%positive_finite_inv. done. Qed.

Lemma nonneg_finite_inv x :
  nonneg_finite x = true -> (exists s, x = S754_zero s) \/ exists m e, x = S754_finite false m e.
Proof. destruct x as [[]|[]| |[] m e]; cbn; try done; eauto. Qed.

Lemma nonneg_finite_cases x :
  nonneg_finite x = true -> f64_lt f64_zero x = false -> exists s, x = S754_zero s.
Proof. intros [?|(m & e & ->)]%nonneg_finite_inv; [done|]. cbn. discriminate. Qed.

Lemma f64_lt_irrefl x : f64_lt x x = false.
Proof.
  destruct x as [[]|[]| |[] m e]; try done; unfold f64_lt, SFltb; cbn;
    rewrite Z.compare_refl, (Pos.compare_cont_refl m); done.
Qed.
