(* ===== verification/FloatBounds.v ===== *)
(** Rounding bounds for the binary64 operations of [Float64]: an exact result
    below (above) a representable bound rounds to a finite value below (above)
    it.  Magnitudes are compared as integers, scaled by [2^4096]. *)

From Stdlib Require Import SpecFloat ZArith.
From S2P Require Import Prelude Float64.

Open Scope Z_scope.

(** ** Scaled magnitudes *)

Definition pw (e : Z) : Z := 2 ^ (e + 4096).

Lemma pw_pos e : -4096 <= e -> 0 < pw e.
Proof. intros. apply Z.pow_pos_nonneg; lia. Qed.

Lemma pw_split a b : -4096 <= a -> a <= b -> pw b = 2 ^ (b - a) * pw a.
Proof. intros. unfold pw. rewrite <-Z.pow_add_r by lia. f_equal. lia. Qed.

Lemma pw_mono a b : -4096 <= a -> a <= b -> pw a <= pw b.
Proof. intros. apply Z.pow_le_mono_r; lia. Qed.

Lemma pw_lt_inv a b : -4096 <= b -> pw a < pw b -> a < b.
Proof. intros Hb H. apply (Z.pow_lt_mono_r_iff 2) in H; lia. Qed.

(** [x] is a non-negative finite number of value at most [b * 2^E]. *)
Definition at_most (b E : Z) (x : f64) : Prop :=
  match x with
  | S754_zero false => True
  | S754_finite false m e => -1074 <= e /\ Z.pos m * pw e <= b * pw E
  | _ => False
  end.

(** [x] is a positive finite number of value at least [2^j]. *)
Definition at_least (j : Z) (x : f64) : Prop :=
  match x with
  | S754_finite false m e => pw j <= Z.pos m * pw e
  | _ => False
  end.

Lemma at_most_nonneg b E x : at_most b E x -> nonneg_finite x = true.
Proof. destruct x as [[]|[]| |[] m e]; cbn; done. Qed.

Lemma at_most_weaken b E b' E' x : b * pw E <= b' * pw E' -> at_most b E x -> at_most b' E' x.
Proof. intros H. destruct x as [[]|[]| |[] m e]; cbn; try done. intros []. split; lia. Qed.

(** ** Digits *)

Lemma digits2_bounds p : 2 ^ (Z.pos (digits2_pos p) - 1) <= Z.pos p < 2 ^ Z.pos (digits2_pos p).
Proof.
  induction p as [p IH|p IH|]; cbn [digits2_pos]; [| |done];
    rewrite Pos2Z.inj_succ; set (d := Z.pos (digits2_pos p)) in *;
    replace (Z.succ d - 1) with (Z.succ (d - 1)) by lia;
    rewrite !Z.pow_succ_r by lia; lia.
Qed.

Lemma Zdigits2_bounds m : 0 < m -> 2 ^ (Zdigits2 m - 1) <= m < 2 ^ Zdigits2 m /\ 1 <= Zdigits2 m.
Proof. destruct m as [|p|]; [lia| |lia]. intros _. cbn [Zdigits2]. split; [apply digits2_bounds|lia]. Qed.

(** ** Shifting right *)

Definition exact (r : shr_record) : Prop := loc_of_shr_record r = loc_Exact.

Lemma shr_1_spec r :
  0 <= shr_m r ->
  shr_m (shr_1 r) = shr_m r / 2 /\ 0 <= shr_m (shr_1 r) /\
  (exact (shr_1 r) <-> exact r /\ shr_m r = 2 * shr_m (shr_1 r)).
Proof.
  unfold exact. destruct r as [[|p|p] r s]; cbn [shr_m]; [| |lia]; intros _.
  - destruct r, s; cbn; intuition (done || lia).
  - destruct p as [p|p|]; cbn [shr_1 shr_m].
    + rewrite (Pos2Z.inj_xI p). replace (2 * Z.pos p + 1) with (1 + Z.pos p * 2) by lia.
      rewrite Z.div_add by lia. destruct r, s; cbn; intuition (done || lia).
    + rewrite (Pos2Z.inj_xO p), (Z.mul_comm 2), Z.div_mul by lia.
      destruct r, s; cbn; intuition (done || lia).
    + destruct r, s; cbn; intuition (done || lia).
Qed.

Definition shifted (k : Z) (r r' : shr_record) : Prop :=
  shr_m r' = shr_m r / k /\ 0 <= shr_m r' /\ (exact r' <-> exact r /\ shr_m r = k * shr_m r').

Lemma shifted_comp j k r r1 r2 :
  0 < j -> 0 < k -> 0 <= shr_m r -> shifted j r r1 -> shifted k r1 r2 -> shifted (j * k) r r2.
Proof.
  intros Hj Hk Hr (E1 & P1 & X1) (E2 & P2 & X2). split_and!; [|done|].
  - by rewrite E2, E1, Z.div_div by lia.
  - rewrite X2, X1. split.
    + intros [[He H1] H2]. split; [done|]. rewrite H1, H2. lia.
    + intros [He H]. assert (shr_m r1 = k * shr_m r2) as H1.
      { rewrite E1, H, <-Z.mul_assoc, (Z.mul_comm j), Z.div_mul by lia. done. }
      split_and!; [done| |done]. rewrite H1. lia.
Qed.

Lemma iter_shifted p r : 0 <= shr_m r -> shifted (2 ^ Z.pos p) r (SpecFloat.iter_pos shr_1 p r).
Proof.
  revert r. induction p as [p IH|p IH|]; intros r Hr; cbn [SpecFloat.iter_pos].
  - pose proof (shr_1_spec r Hr) as H0. assert (0 <= shr_m (shr_1 r)) as P0 by apply H0.
    pose proof (IH _ P0) as H1. assert (0 <= shr_m (SpecFloat.iter_pos shr_1 p (shr_1 r))) as P1 by apply H1.
    pose proof (IH _ P1) as H2. rewrite (Pos2Z.inj_xI p).
    replace (2 ^ (2 * Z.pos p + 1)) with (2 * (2 ^ Z.pos p * 2 ^ Z.pos p))
      by (rewrite <-Z.pow_add_r, <-Z.pow_succ_r by lia; f_equal; lia).
    eapply shifted_comp; [lia|lia|done|exact H0|]. by eapply shifted_comp; [lia|lia|done|exact H1|].
  - pose proof (IH _ Hr) as H1. assert (0 <= shr_m (SpecFloat.iter_pos shr_1 p r)) as P1 by apply H1.
    pose proof (IH _ P1) as H2. rewrite (Pos2Z.inj_xO p).
    replace (2 ^ (2 * Z.pos p)) with (2 ^ Z.pos p * 2 ^ Z.pos p)
      by (rewrite <-Z.pow_add_r by lia; f_equal; lia).
    by eapply shifted_comp; [lia|lia|done|exact H1|].
  - apply shr_1_spec, Hr.
Qed.

(** The smallest integer not below a mantissa and its discarded part. *)
Definition ceiling (m : Z) (l : location) : Z := match l with loc_Exact => m | _ => m + 1 end.

Lemma shr_record_of_loc_spec m l :
  shr_m (shr_record_of_loc m l) = m /\ loc_of_shr_record (shr_record_of_loc m l) = l.
Proof. by destruct l as [|[]]. Qed.

Lemma fexp_eq f : fexp 53 1024 f = Z.max (f - 53) (-1074).
Proof. done. Qed.

Lemma shr_fexp_spec m e l :
  0 <= m ->
  exists r e', shr_fexp 53 1024 m e l = (r, e') /\
    e' = Z.max e (Z.max (Zdigits2 m + e - 53) (-1074)) /\
    shr_m r = m / 2 ^ (e' - e) /\ 0 <= shr_m r /\
    (e' = e -> loc_of_shr_record r = l) /\
    (exact r <-> l = loc_Exact /\ m = 2 ^ (e' - e) * shr_m r).
Proof.
  intros Hm. unfold shr_fexp, exact. rewrite fexp_eq.
  destruct (shr_record_of_loc_spec m l) as [Em El].
  set (n := Z.max (Zdigits2 m + e - 53) (-1074)).
  destruct (n - e) as [|p|p] eqn:En; cbn [shr].
  1,3: exists (shr_record_of_loc m l), e;
    replace (e - e) with 0 by lia; rewrite Em, El, Z.pow_0_r, Z.div_1_r;
    split_and!; [done|lia|done|done|done|intuition lia].
  destruct (iter_shifted p (shr_record_of_loc m l)) as (H1 & H2 & H3); [lia|].
  exists (SpecFloat.iter_pos shr_1 p (shr_record_of_loc m l)), (e + Z.pos p).
  unfold exact in H3. rewrite Em in *. rewrite El in H3.
  replace (e + Z.pos p - e) with (Z.pos p) by lia.
  split_and!; [done|lia|done|done|lia|exact H3].
Qed.

Lemma round_nearest_even_range m l :
  m <= round_nearest_even m l <= ceiling m l.
Proof. destruct l as [|[]]; cbn; try lia. destruct (Z.even m); lia. Qed.

(** ** Rounding below and above a bound *)

Lemma floor_le m e e' : 0 <= m -> -4096 <= e -> e <= e' -> m / 2 ^ (e' - e) * pw e' <= m * pw e.
Proof.
  intros. rewrite (pw_split e e'), Z.mul_assoc by lia.
  apply Z.mul_le_mono_nonneg_r; [pose proof (pw_pos e); lia|].
  rewrite Z.mul_comm. apply Z.mul_div_le. apply Z.pow_pos_nonneg; lia.
Qed.

Lemma ceiling_shift_le m e l b E r e' :
  0 <= m -> -4096 <= e -> -1074 <= E -> 0 < b < 2 ^ 53 ->
  shr_fexp 53 1024 m e l = (r, e') -> ceiling m l * pw e <= b * pw E ->
  ceiling (shr_m r) (loc_of_shr_record r) * pw e' <= b * pw E.
Proof.
  intros Hm He HE Hb Hs H.
  destruct (shr_fexp_spec m e l Hm) as (r0 & e0 & Hs0 & Ee & Er & Hr & Hsame & Hex).
  rewrite Hs in Hs0. injection Hs0 as <- <-.
  destruct (decide (e' = e)) as [->|Hne].
  { rewrite (Hsame eq_refl), Er. replace (e - e) with 0 by lia. by rewrite Z.pow_0_r, Z.div_1_r. }
  assert (m <= ceiling m l) as Hc by (destruct l; cbn; lia).
  pose proof (pw_pos e He) as Hpe.
  destruct (Z.le_gt_cases e' E) as [Hle|Hgt].
  - set (k := 2 ^ (e' - e)) in *. assert (0 < k) as Hk by (apply Z.pow_pos_nonneg; lia).
    rewrite (pw_split e' E), Z.mul_assoc by lia.
    set (B := b * 2 ^ (E - e')) in *.
    apply Z.mul_le_mono_nonneg_r; [pose proof (pw_pos e'); lia|].
    rewrite (pw_split e' E), (pw_split e e') in H by lia. fold k in H.
    assert (ceiling m l <= B * k) as HB.
    { apply (Z.mul_le_mono_pos_r _ _ (pw e)); [done|]. unfold B. lia. }
    pose proof (Z.div_mod m k ltac:(lia)) as Hdm. pose proof (Z.mod_pos_bound m k Hk).
    destruct (loc_of_shr_record r) eqn:El; cbn [ceiling].
    + apply Hex in El as [-> El]. cbn in HB. nia.
    + assert (~ exact r) as Hnex by (unfold exact; congruence).
      destruct (Z.le_gt_cases (shr_m r + 1) B) as [|Hlt]; [done|]. exfalso. apply Hnex, Hex.
      rewrite <-Er in Hdm. destruct l; cbn in HB; [split; [done|nia]|nia].
  - exfalso. assert (0 < m) as Hpos.
    { destruct (decide (m = 0)) as [->|]; [|lia]. cbn in Ee. lia. }
    destruct (Zdigits2_bounds m Hpos) as [[Hlo _] Hd].
    assert (e' = Zdigits2 m + e - 53) as Ee' by lia.
    assert (2 ^ (Zdigits2 m - 1) * pw e = 2 ^ 52 * pw e') as E1.
    { unfold pw. rewrite <-!Z.pow_add_r by lia. f_equal. lia. }
    assert (2 ^ 53 * pw E <= 2 ^ 52 * pw e') as E2.
    { unfold pw. rewrite <-!Z.pow_add_r by lia. apply Z.pow_le_mono_r; lia. }
    assert (b * pw E < 2 ^ 53 * pw E) by (apply Z.mul_lt_mono_pos_r; [apply pw_pos; lia|lia]).
    nia.
Qed.

Lemma floor_shift_ge m e l j r e' :
  0 <= m -> -4096 <= e -> -1074 <= j ->
  shr_fexp 53 1024 m e l = (r, e') -> pw j <= m * pw e -> pw j <= shr_m r * pw e'.
Proof.
  intros Hm He Hj Hs H.
  destruct (shr_fexp_spec m e l Hm) as (r0 & e0 & Hs0 & Ee & Er & Hr & _ & _).
  rewrite Hs in Hs0. injection Hs0 as <- <-. rewrite Er.
  pose proof (pw_pos e He) as Hpe. pose proof (pw_pos j ltac:(lia)) as Hpj.
  assert (0 < 2 ^ (e' - e)) as Hk by (apply Z.pow_pos_nonneg; lia).
  pose proof (pw_pos e' ltac:(lia)) as Hpe'.
  destruct (decide (e' = e)) as [->|Hne].
  { replace (e - e) with 0 by lia. by rewrite Z.pow_0_r, Z.div_1_r. }
  destruct (Z.le_gt_cases e' j) as [Hle|Hgt].
  - rewrite (pw_split e' j) by lia. apply Z.mul_le_mono_nonneg_r; [lia|].
    apply Z.div_le_lower_bound; [done|]. apply (Z.mul_le_mono_pos_r _ _ (pw e)); [done|].
    rewrite (pw_split e' j), (pw_split e e') in H by lia. lia.
  - assert (0 < m) as Hpos by nia. destruct (Zdigits2_bounds m Hpos) as [[Hlo _] Hd].
    assert (1 <= m / 2 ^ (e' - e)) as H1.
    { apply Z.div_le_lower_bound; [done|]. rewrite Z.mul_1_r. etransitivity; [|exact Hlo].
      apply Z.pow_le_mono_r; lia. }
    pose proof (pw_mono j e'). nia.
Qed.

Lemma binary_round_aux_bounds m e l b E :
  0 <= m -> -4096 <= e -> -1074 <= E <= 900 -> 0 < b < 2 ^ 53 -> ceiling m l * pw e <= b * pw E ->
  let x := binary_round_aux 53 1024 false m e l in
  at_most b E x /\ (forall j, -1074 <= j -> pw j <= m * pw e -> at_least j x).
Proof.
  intros Hm He HE Hb H. unfold binary_round_aux.
  destruct (shr_fexp_spec m e l Hm) as (r & e1 & Hs & Ee & Er & Hr & _).
  pose proof (ceiling_shift_le m e l b E r e1 Hm He ltac:(lia) Hb Hs H) as H1.
  pose proof (floor_shift_ge m e l) as Hlo. rewrite Hs.
  pose proof (round_nearest_even_range (shr_m r) (loc_of_shr_record r)) as Hrnd.
  set (m1 := round_nearest_even (shr_m r) (loc_of_shr_record r)) in *.
  destruct (shr_fexp_spec m1 e1 loc_Exact ltac:(lia)) as (r2 & e2 & Hs2 & Ee2 & Er2 & Hr2 & _).
  rewrite Hs2. pose proof (floor_le m1 e1 e2 ltac:(lia) ltac:(lia) ltac:(lia)) as H2. rewrite <-Er2 in H2.
  pose proof (pw_pos e1 ltac:(lia)) as Hp1. pose proof (pw_pos e2 ltac:(lia)) as Hp2.
  assert (shr_m r2 * pw e2 <= b * pw E) as Hup by nia.
  assert (forall j, -1074 <= j -> pw j <= m * pw e -> pw j <= shr_m r2 * pw e2) as Hge.
  { intros j Hj Hm'. specialize (Hlo j r e1 Hm He Hj Hs Hm').
    apply (floor_shift_ge m1 e1 loc_Exact j r2 e2); try done; try lia. nia. }
  destruct (shr_m r2) as [|p|p] eqn:Em; [|assert (e2 <= 971) as Hfin|lia].
  - cbn. split; [done|]. intros j Hj Hm'. specialize (Hge j Hj Hm').
    pose proof (pw_pos j ltac:(lia)). lia.
  - destruct (Z.le_gt_cases e2 971) as [|Hgt]; [done|exfalso].
    assert (b * pw E < pw 972).
    { replace (pw 972) with (2 ^ 53 * pw 919) by (unfold pw; by rewrite <-Z.pow_add_r by lia).
      pose proof (pw_mono E 919 ltac:(lia) ltac:(lia)). pose proof (pw_pos E ltac:(lia)). nia. }
    pose proof (pw_mono 972 e2 ltac:(lia) ltac:(lia)). nia.
  - change (1024 - 53) with 971. rewrite (proj2 (Z.leb_le _ _) Hfin). cbn. split; [lia|]. exact Hge.
Qed.

(** ** Operations *)

Lemma shl_align_spec m e x :
  -4096 <= x -> -4096 <= e ->
  exists m' e', shl_align m e x = (m', e') /\ e' = Z.min e x /\ Z.pos m' * pw e' = Z.pos m * pw e.
Proof.
  intros Hx He. unfold shl_align. destruct (x - e) as [|d|d] eqn:Ed.
  1,2: exists m, e; split_and!; [done|lia|done].
  exists (Pos.iter xO m d), x. split_and!; [done|lia|].
  assert (Z.pos (Pos.iter xO m d) = Z.pos m * 2 ^ Z.pos d) as ->.
  { clear. induction d as [|d IH] using Pos.peano_ind; [cbn; lia|].
    rewrite Pos.iter_succ, (Pos2Z.inj_xO (Pos.iter xO m d)), IH, Pos2Z.inj_succ, Z.pow_succ_r by lia. lia. }
  rewrite (pw_split x e) by lia. replace (e - x) with (Z.pos d) by lia. lia.
Qed.

Lemma binary_normalize_bounds m e b E :
  0 < m -> -4096 <= e -> -1074 <= E <= 900 -> 0 < b < 2 ^ 53 -> m * pw e <= b * pw E ->
  let x := binary_normalize 53 1024 m e false in
  at_most b E x /\ (forall j, -1074 <= j -> pw j <= m * pw e -> at_least j x).
Proof.
  intros Hm He HE Hb H. destruct m as [|p|p]; try lia. cbn [binary_normalize]. unfold binary_round.
  set (f := fexp 53 1024 (Z.pos (digits2_pos p) + e)).
  assert (-1074 <= f) as Hf by (unfold f; rewrite fexp_eq; lia).
  destruct (shl_align_spec p e f ltac:(lia) He) as (m' & e' & -> & -> & Hv).
  rewrite <-Hv in *. apply binary_round_aux_bounds; [lia|lia|done|done|exact H].
Qed.

Lemma f64_of_Z_bounds n b E :
  0 <= n -> -1074 <= E <= 900 -> 0 < b < 2 ^ 53 -> n * pw 0 <= b * pw E ->
  at_most b E (f64_of_Z n) /\ (0 < n -> at_least 0 (f64_of_Z n)).
Proof.
  intros Hn HE Hb H. destruct (decide (n = 0)) as [->|]; [split; [done|lia]|].
  destruct (binary_normalize_bounds n 0 b E ltac:(lia) ltac:(lia) HE Hb H) as [Hup Hlo].
  split; [exact Hup|]. intros _. apply Hlo; [lia|]. pose proof (pw_pos 0 ltac:(lia)). nia.
Qed.

Lemma f64_add_bounds bx b_y b E x y :
  -1074 <= E <= 900 -> 0 <= bx -> 0 <= b_y -> bx + b_y <= b -> 0 < b < 2 ^ 53 ->
  at_most bx E x -> at_most b_y E y ->
  at_most b E (f64_add x y) /\
  (forall j, -1074 <= j -> at_least j x \/ at_least j y -> at_least j (f64_add x y)).
Proof.
  intros HE Hbx Hby Hsum Hb Hx Hy. pose proof (pw_pos E ltac:(lia)) as HpE.
  assert (bx * pw E <= b * pw E) by nia. assert (b_y * pw E <= b * pw E) by nia.
  destruct x as [[]|[]| |[] mx ex]; try done; destruct y as [[]|[]| |[] my ey]; try done.
  - split; [done|]. intros j Hj [[]|[]].
  - split; [by apply (at_most_weaken b_y E)|]. intros j Hj [[]|Hl]; exact Hl.
  - split; [by apply (at_most_weaken bx E)|]. intros j Hj [Hl|[]]; exact Hl.
  - destruct Hx as [Hex Hx], Hy as [Hey Hy]. unfold f64_add, SFadd.
    destruct (shl_align_spec mx ex (Z.min ex ey) ltac:(lia) ltac:(lia)) as (mx' & ex' & Ex & E1 & Vx).
    destruct (shl_align_spec my ey (Z.min ex ey) ltac:(lia) ltac:(lia)) as (my' & ey' & Ey & E2 & Vy).
    replace ex' with (Z.min ex ey) in * by lia. replace ey' with (Z.min ex ey) in * by lia.
    rewrite Ex, Ey. cbn [fst cond_Zopp].
    destruct (binary_normalize_bounds (Z.pos mx' + Z.pos my') (Z.min ex ey) b E) as [Hup Hlo];
      [lia|lia|done|done|nia|].
    split; [exact Hup|]. intros j Hj Hl. apply Hlo; [done|].
    pose proof (pw_pos ex ltac:(lia)). pose proof (pw_pos ey ltac:(lia)).
    destruct Hl as [Hl|Hl]; cbn in Hl; nia.
Qed.

(** Multiplication by a positive constant [cm * 2^-k]. *)
Lemma f64_mul_bound cm k b E b' E' x :
  0 <= k <= 1000 -> -1074 <= E' <= 900 -> 0 < b' < 2 ^ 53 ->
  Z.pos cm * b * pw E <= b' * 2 ^ k * pw E' ->
  at_most b E x -> at_most b' E' (f64_mul (S754_finite false cm (- k)) x).
Proof.
  intros Hk HE Hb H. destruct x as [[]|[]| |[] m e]; try done. intros [He Hx]. unfold f64_mul, SFmul.
  apply binary_round_aux_bounds; [lia|lia|done|done|]. cbn [ceiling].
  assert (pw e = 2 ^ k * pw (- k + e)) as E1.
  { rewrite (pw_split (- k + e) e) by lia. do 2 f_equal. lia. }
  assert (0 < 2 ^ k) as Hpk by (apply Z.pow_pos_nonneg; lia).
  apply (Z.mul_le_mono_pos_l _ _ (2 ^ k)); [done|].
  transitivity (Z.pos cm * (Z.pos m * pw e)); [rewrite E1, Pos2Z.inj_mul; lia|].
  transitivity (Z.pos cm * (b * pw E)); [apply Z.mul_le_mono_nonneg_l; lia|lia].
Qed.

(** Division of a value of at most [2^kx] by one in [[2^jy, 2^ky]]. *)
Lemma digits_le m e k : 0 < m -> -4096 <= e -> -4096 <= k -> m * pw e <= pw k -> Zdigits2 m - 1 + e <= k.
Proof.
  intros Hm He Hk H. destruct (Zdigits2_bounds m Hm) as [[Hlo _] Hd].
  apply Z.lt_succ_r, (pw_lt_inv _ (Z.succ k)); [lia|].
  apply Z.le_lt_trans with (pw k); [|apply Z.pow_lt_mono_r; lia].
  etransitivity; [|exact H]. rewrite (pw_split e) by lia.
  replace (Zdigits2 m - 1 + e - e) with (Zdigits2 m - 1) by lia.
  apply Z.mul_le_mono_nonneg_r; [pose proof (pw_pos e He); lia|done].
Qed.

Lemma digits_gt m e j : 0 < m -> -4096 <= e -> pw j <= m * pw e -> j < Zdigits2 m + e.
Proof.
  intros Hm He H. destruct (Zdigits2_bounds m Hm) as [[_ Hhi] Hd].
  apply pw_lt_inv; [lia|]. apply Z.le_lt_trans with (m * pw e); [done|].
  rewrite (pw_split e (Zdigits2 m + e)) by lia.
  replace (Zdigits2 m + e - e) with (Zdigits2 m) by lia.
  apply Z.mul_lt_mono_pos_r; [by apply pw_pos|done].
Qed.

Lemma SFdiv_core_eq m1 e1 m2 e2 :
  let d := Zdigits2 (Z.pos m1) + e1 - (Zdigits2 (Z.pos m2) + e2) in
  let e := Z.min (Z.max (d - 53) (-1074)) (e1 - e2) in
  exists l, SFdiv_core_binary 53 1024 (Z.pos m1) e1 (Z.pos m2) e2 =
    (Z.pos m1 * 2 ^ (e1 - e2 - e) / Z.pos m2, e, l).
Proof.
  intros d e. unfold SFdiv_core_binary. rewrite fexp_eq. fold d. fold e.
  assert (0 <= e1 - e2 - e) as Hs by (unfold e; lia).
  match goal with |- context [Z.div_eucl ?m _] => set (m' := m) end.
  assert (m' = Z.pos m1 * 2 ^ (e1 - e2 - e)) as Em.
  { unfold m'. destruct (e1 - e2 - e) eqn:E; [by rewrite Z.pow_0_r, Z.mul_1_r|by rewrite Z.shiftl_mul_pow2|lia]. }
  clearbody m'. subst m'. unfold Z.div.
  destruct (Z.div_eucl (Z.pos m1 * 2 ^ (e1 - e2 - e)) (Z.pos m2)) as [q r]. by eexists.
Qed.

Lemma SFdiv_core_spec m1 e1 m2 e2 kx jy ky :
  -1074 <= e1 -> -1074 <= e2 -> kx <= 900 -> -1074 <= kx -> -1074 <= ky <= 900 ->
  Z.pos m1 * pw e1 <= pw kx -> pw jy <= Z.pos m2 * pw e2 -> Z.pos m2 * pw e2 <= pw ky ->
  exists q e l, SFdiv_core_binary 53 1024 (Z.pos m1) e1 (Z.pos m2) e2 = (q, e, l) /\
    0 <= q /\ -4096 <= e /\ (q + 1) * pw e <= pw (Z.max (kx - jy + 1) (-1074)) /\
    (forall jx, -1074 <= jx - ky -> pw jx <= Z.pos m1 * pw e1 -> pw (jx - ky) <= q * pw e).
Proof.
  intros He1 He2 Hkx Hkx' Hky Hx Hy1 Hy2.
  destruct (SFdiv_core_eq m1 e1 m2 e2) as [l El].
  set (M1 := Z.pos m1) in *. set (M2 := Z.pos m2) in *.
  set (d := Zdigits2 M1 + e1 - (Zdigits2 M2 + e2)) in *.
  set (e := Z.min (Z.max (d - 53) (-1074)) (e1 - e2)) in *.
  set (s := e1 - e2 - e) in *. exists (M1 * 2 ^ s / M2), e, l.
  assert (0 < M1 /\ 0 < M2) as [HM1 HM2] by (unfold M1, M2; lia).
  pose proof (digits_le M1 e1 kx HM1 ltac:(lia) ltac:(lia) Hx) as D1.
  pose proof (digits_le M2 e2 ky HM2 ltac:(lia) ltac:(lia) Hy2) as D2.
  pose proof (digits_gt M2 e2 jy HM2 ltac:(lia) Hy1) as D3.
  destruct (Zdigits2_bounds M1 HM1) as [[L1 U1] P1], (Zdigits2_bounds M2 HM2) as [[L2 U2] P2].
  assert (0 <= s) as Hs by lia. assert (-4096 <= e) as He by lia.
  pose proof (pw_pos e He) as Hpe. assert (0 < 2 ^ s) as Hps by (apply Z.pow_pos_nonneg; lia).
  split_and!; [done|apply Z.div_pos; nia|done| |].
  - set (t := Z.max (d + 1 - e) 0).
    assert (M1 * 2 ^ s / M2 < 2 ^ t) as Hq.
    { apply Z.div_lt_upper_bound; [done|].
      apply Z.lt_le_trans with (2 ^ (Zdigits2 M1) * 2 ^ s); [apply Z.mul_lt_mono_pos_r; done|].
      transitivity (2 ^ (Zdigits2 M2 - 1) * 2 ^ t).
      - rewrite <-!Z.pow_add_r by lia. apply Z.pow_le_mono_r; lia.
      - apply Z.mul_le_mono_nonneg_r; [apply Z.pow_nonneg; lia|done]. }
    transitivity (2 ^ t * pw e); [apply Z.mul_le_mono_nonneg_r; lia|].
    replace (2 ^ t) with (2 ^ (e + t - e)) by (f_equal; lia).
    rewrite <-pw_split by lia. apply pw_mono; lia.
  - intros jx Hj Hx1. pose proof (digits_gt M1 e1 jx HM1 ltac:(lia) Hx1) as D4.
    destruct (Z.le_gt_cases e (jx - ky)) as [Hle|Hgt].
    + rewrite (pw_split e (jx - ky)) by lia. apply Z.mul_le_mono_nonneg_r; [lia|].
      apply Z.div_le_lower_bound; [done|].
      pose proof (pw_pos e2 ltac:(lia)) as Hpe2.
      apply (Z.mul_le_mono_pos_r _ _ (pw e2 * pw e)); [nia|].
      transitivity (pw ky * (2 ^ (jx - ky - e) * pw e)).
      { assert (0 <= 2 ^ (jx - ky - e) * pw e) by (apply Z.mul_nonneg_nonneg; [apply Z.pow_nonneg|]; lia). nia. }
      transitivity (pw jx * 2 ^ 4096); [unfold pw; rewrite <-!Z.pow_add_r by lia; apply Z.pow_le_mono_r; lia|].
      transitivity (M1 * pw e1 * 2 ^ 4096); [apply Z.mul_le_mono_nonneg_r; [apply Z.pow_nonneg; lia|done]|].
      rewrite <-!Z.mul_assoc. apply Z.mul_le_mono_nonneg_l; [lia|].
      unfold pw. rewrite <-!Z.pow_add_r by lia. apply Z.pow_le_mono_r; lia.
    + assert (1 <= M1 * 2 ^ s / M2) as H1.
      { apply Z.div_le_lower_bound; [done|]. rewrite Z.mul_1_r.
        transitivity (2 ^ (Zdigits2 M1 - 1) * 2 ^ s); [|apply Z.mul_le_mono_nonneg_r; lia].
        rewrite <-Z.pow_add_r by lia. transitivity (2 ^ Zdigits2 M2); [lia|]. apply Z.pow_le_mono_r; lia. }
      pose proof (pw_mono (jx - ky) e ltac:(lia) ltac:(lia)). nia.
Qed.

Lemma f64_div_bounds kx jy ky k x y :
  -1074 <= kx <= 900 -> -1074 <= ky <= 900 -> kx - jy + 1 <= k -> -1074 <= k <= 900 ->
  at_most 1 kx x -> at_least jy y -> at_most 1 ky y ->
  at_most 1 k (f64_div x y) /\
  (forall jx, -1074 <= jx - ky -> at_least jx x -> at_least (jx - ky) (f64_div x y)).
Proof.
  intros Hkx Hky Hk Hk' Hx Hy1 Hy2.
  destruct y as [[]|[]| |[] m2 e2]; try done. destruct Hy2 as [He2 Hy2]. cbn in Hy1.
  destruct x as [[]|[]| |[] m1 e1]; try done. destruct Hx as [He1 Hx]. rewrite Z.mul_1_l in *.
  destruct (SFdiv_core_spec m1 e1 m2 e2 kx jy ky) as (q & e & l & E & Hq & He & Hup & Hlo); try done; try lia.
  unfold f64_div, SFdiv, f64_prec, f64_emax. rewrite E.
  assert (ceiling q l * pw e <= 1 * pw k) as Hc.
  { pose proof (pw_pos e He). pose proof (pw_mono (Z.max (kx - jy + 1) (-1074)) k ltac:(lia) ltac:(lia)).
    assert (ceiling q l <= q + 1) by (destruct l; cbn; lia). nia. }
  destruct (binary_round_aux_bounds q e l 1 k Hq He Hk' ltac:(lia) Hc) as [H1 H2].
  split; [exact H1|]. intros jx Hj Hl. apply H2; [done|]. by apply Hlo.
Qed.

(** ** [Duration::as_secs_f64] of at most [u64::MAX] seconds *)

Lemma as_secs_f64_bounds nanos :
  0 <= nanos < 2 ^ 64 * NANOS_PER_SEC ->
  at_most 1 65 (as_secs_f64 nanos) /\ (0 < nanos -> at_least (-30) (as_secs_f64 nanos)).
Proof.
  intros Hn. unfold as_secs_f64.
  assert (0 < NANOS_PER_SEC <= 2 ^ 30) as HN by done.
  assert (nanos / NANOS_PER_SEC < 2 ^ 64) as Hq by (apply Z.div_lt_upper_bound; lia).
  assert (0 <= nanos / NANOS_PER_SEC) as Hq0 by (apply Z.div_pos; lia).
  pose proof (Z.mod_pos_bound nanos NANOS_PER_SEC ltac:(lia)) as Hr.
  pose proof (Z.div_mod nanos NANOS_PER_SEC ltac:(lia)) as Hdm.
  set (q := nanos / NANOS_PER_SEC) in *. set (r := nanos mod NANOS_PER_SEC) in *.
  assert (forall n k, 0 <= k <= 64 -> n <= 2 ^ k -> n * pw 0 <= 1 * pw k) as Hpw.
  { intros n k Hk H. rewrite Z.mul_1_l, (pw_split 0 k) by lia. rewrite Z.sub_0_r.
    apply Z.mul_le_mono_nonneg_r; [pose proof (pw_pos 0); lia|done]. }
  destruct (f64_of_Z_bounds q 1 64 Hq0 ltac:(lia) ltac:(lia)) as [Q1 Q2]; [apply Hpw; lia|].
  destruct (f64_of_Z_bounds r 1 30 ltac:(lia) ltac:(lia) ltac:(lia)) as [R1 R2]; [apply Hpw; lia|].
  assert (at_least 29 (f64_of_Z NANOS_PER_SEC) /\ at_most 1 30 (f64_of_Z NANOS_PER_SEC)) as [N1 N2].
  { split; vm_compute; [discriminate|split; discriminate]. }
  destruct (f64_div_bounds 30 29 30 2 _ _ ltac:(lia) ltac:(lia) ltac:(lia) ltac:(lia) R1 N1 N2) as [D1 D2].
  apply (at_most_weaken 1 2 1 64) in D1; [|vm_compute; discriminate].
  destruct (f64_add_bounds 1 1 2 64 _ _ ltac:(lia) ltac:(lia) ltac:(lia) ltac:(lia) ltac:(lia) Q1 D1) as [A1 A2].
  split; [apply (at_most_weaken 2 64 1 65); [vm_compute; discriminate|exact A1]|].
  intros Hpos. apply A2; [lia|]. destruct (decide (r = 0)) as [E|].
  - left. assert (0 < q) as Hq1 by nia. specialize (Q2 Hq1). destruct (f64_of_Z q) as [|[]| |[] m e]; try done.
    cbn in *. etransitivity; [apply (pw_mono (-30) 0); lia|done].
  - right. apply (D2 0); [lia|]. apply R2. lia.
Qed.
