(* ===== verification/RustDecimal.v ===== *)
(** The interface of the [rust_decimal] crate, which is not part of the
    repository: its operations are the class [RustDecimal], the documented
    behaviour the program relies on is the class [DecimalLaws], and
    [RefDecimal] is an executable implementation (96-bit mantissa, scale at
    most 28) that satisfies the laws and instantiates the witnesses. *)

From Stdlib Require Import QArith Qround ZArith String Ascii Lqa.
From S2P Require Import Prelude Float64.

#[local] Open Scope Z_scope.

(** ** Operations *)

Class RustDecimal : Type := {
  decimal : Type;
  dec_cmp : decimal -> decimal -> comparison;
  dec_of_Z : Z -> decimal;
  dec_checked_add : decimal -> decimal -> option decimal;
  dec_checked_mul : decimal -> decimal -> option decimal;
  dec_checked_div : decimal -> decimal -> option decimal;
  dec_ceil : decimal -> decimal;
  dec_to_usize : decimal -> option Z;
  dec_to_f64 : decimal -> option f64;
  dec_is_sign_negative : decimal -> bool;
  dec_round_away : nat -> decimal -> decimal;
  dec_rescale : nat -> decimal -> decimal;
  dec_normalize : decimal -> decimal;
  dec_to_string : decimal -> string;
  dec_from_str : string -> option decimal;
  dec_from_scientific : string -> option decimal
}.

Section Operators.
Context {D : RustDecimal}.

Definition dec_zero : decimal := dec_of_Z 0.
Definition dec_one : decimal := dec_of_Z 1.

Definition dec_lt (a b : decimal) : bool := match dec_cmp a b with Lt => true | _ => false end.
Definition dec_le (a b : decimal) : bool := match dec_cmp a b with Gt => false | _ => true end.
Definition dec_is_zero (a : decimal) : bool := match dec_cmp a dec_zero with Eq => true | _ => false end.

(** The operators [+], [*] and [/] panic where the checked forms return
    [None]. *)
Definition dec_add (a b : decimal) : outcome decimal :=
  expect "Addition overflowed" (dec_checked_add a b).
Definition dec_mul (a b : decimal) : outcome decimal :=
  expect "Multiplication overflowed" (dec_checked_mul a b).
Definition dec_div (a b : decimal) : outcome decimal :=
  expect "Division by zero or overflow" (dec_checked_div a b).
End Operators.

(** ** Documented behaviour *)

Definition pow10 (s : nat) : positive := Z.to_pos (10 ^ Z.of_nat s).

(** The values a [Decimal] can hold: a 96-bit integer over a power of ten up
    to [10^28]. *)
Definition representable (q : Q) : Prop :=
  exists (m : Z) (s : nat), (s <= 28)%nat /\ Z.abs m < 2 ^ 96 /\ (q == m # pow10 s)%Q.

(** [RoundingStrategy::MidpointAwayFromZero] at [k] decimal places, on
    numerators: the integer nearest to [n / d], ties away from zero. *)
Definition div_away (n : Z) (d : positive) : Z :=
  Z.sgn n * ((2 * Z.abs n + Z.pos d) / (2 * Z.pos d)).

Definition round_away (k : nat) (q : Q) : Q :=
  div_away (Qnum q * Z.pos (pow10 k)) (Qden q) # pow10 k.

Class DecimalLaws {D : RustDecimal} (val : decimal -> Q) : Prop := {
  law_cmp a b : dec_cmp a b = (val a ?= val b)%Q;
  law_of_Z n : 0 <= n <= u64_max -> (val (dec_of_Z n) == inject_Z n)%Q;
  law_add_exact a b : representable (val a + val b) ->
    exists c, dec_checked_add a b = Some c /\ (val c == val a + val b)%Q;
  law_mul_exact a b : representable (val a * val b) ->
    exists c, dec_checked_mul a b = Some c /\ (val c == val a * val b)%Q;
  law_div_exact a b : ~ (val b == 0)%Q -> representable (val a / val b) ->
    exists c, dec_checked_div a b = Some c /\ (val c == val a / val b)%Q;
  law_ceil a : (val (dec_ceil a) == inject_Z (Qceiling (val a)))%Q;
  law_to_usize a n : 0 <= n <= usize_max -> (val a == inject_Z n)%Q -> dec_to_usize a = Some n;
  law_round k a : (k <= 28)%nat -> (val (dec_round_away k a) == round_away k (val a))%Q;
  law_rescale k a m : (k <= 28)%nat -> Z.abs m < 2 ^ 96 -> (val a == m # pow10 k)%Q ->
    (val (dec_rescale k a) == val a)%Q
}.

(** ** Consequences of the laws *)

Lemma pow10_Z s : Z.pos (pow10 s) = 10 ^ Z.of_nat s.
Proof. unfold pow10. rewrite Z2Pos.id; [done|]. apply Z.pow_pos_nonneg; lia. Qed.

Lemma representable_compat q r : (q == r)%Q -> representable q -> representable r.
Proof. intros E (m & s & ? & ? & H). exists m, s. split_and!; [done..|]. by rewrite <- E. Qed.

Lemma representable_Z n : Z.abs n < 2 ^ 96 -> representable (inject_Z n).
Proof. intros H. exists n, 0%nat. split_and!; [lia|done|]. reflexivity. Qed.

#[global] Instance Q_compare_laws : CmpLaws Qcompare.
Proof.
  split; [intros; symmetry; apply Qcompare_antisym|].
  intros x y z. rewrite <- !Qle_alt. apply Qle_trans.
Qed.

Section Laws.
Context {D : RustDecimal} (val : decimal -> Q) {L : DecimalLaws val}.

Lemma dec_cmp_laws : CmpLaws dec_cmp.
Proof.
  split.
  - intros x y. rewrite !law_cmp. apply (cmp_antisym (cmp:=Qcompare)).
  - intros x y z. rewrite !law_cmp. apply (cmp_trans (cmp:=Qcompare)).
Qed.

Lemma dec_lt_spec a b : dec_lt a b = true <-> (val a < val b)%Q.
Proof. unfold dec_lt. rewrite law_cmp, Qlt_alt. by destruct (val a ?= val b)%Q. Qed.

Lemma dec_lt_false a b : dec_lt a b = false <-> (val b <= val a)%Q.
Proof. rewrite <- not_true_iff_false, dec_lt_spec. split; [apply Qnot_lt_le|apply Qle_not_lt]. Qed.

Lemma dec_le_spec a b : dec_le a b = true <-> (val a <= val b)%Q.
Proof. unfold dec_le. rewrite law_cmp, Qle_alt. destruct (val a ?= val b)%Q; naive_solver. Qed.

Lemma val_zero : (val dec_zero == 0)%Q.
Proof. apply law_of_Z. unfold u64_max. lia. Qed.

Lemma val_one : (val dec_one == 1)%Q.
Proof. apply law_of_Z. unfold u64_max. lia. Qed.

Lemma dec_negative_false a : dec_lt a dec_zero = false <-> (0 <= val a)%Q.
Proof. rewrite dec_lt_false. by rewrite val_zero. Qed.
End Laws.

(** ** A reference implementation *)

Module RefDecimal.

Record t : Type := Dec { mant : Z; scale : nat }.

Definition val (a : t) : Q := mant a # pow10 (scale a).

(** Shrinks the mantissa below 96 bits, and the scale to at most 28, a digit at
    a time; [None] when the integer part does not fit. *)
Fixpoint fit (m : Z) (s : nat) : option t :=
  if (Z.abs m <? 2 ^ 96) && (s <=? 28)%nat then Some (Dec m s)
  else match s with
       | O => None
       | S s' => fit (div_away m 10) s'
       end.

Definition cmp (a b : t) : comparison := (val a ?= val b)%Q.
Definition add (a b : t) : option t :=
  fit (mant a * 10 ^ Z.of_nat (scale b) + mant b * 10 ^ Z.of_nat (scale a)) (scale a + scale b).
Definition mul (a b : t) : option t := fit (mant a * mant b) (scale a + scale b).
Definition div (a b : t) : option t :=
  match mant b with
  | 0 => None
  | Z.pos p => fit (div_away (mant a * 10 ^ Z.of_nat (scale b) * 10 ^ 28) (p * pow10 (scale a))) 28
  | Z.neg p => fit (div_away (- mant a * 10 ^ Z.of_nat (scale b) * 10 ^ 28) (p * pow10 (scale a))) 28
  end.
Definition ceil (a : t) : t := Dec (Qceiling (val a)) 0.
Definition to_usize (a : t) : option Z :=
  let n := Z.quot (mant a) (10 ^ Z.of_nat (scale a)) in
  if (0 <=? n) && (n <=? usize_max) then Some n else None.
Definition to_f64 (a : t) : option f64 :=
  Some (f64_div (f64_of_Z (mant a)) (f64_of_Z (10 ^ Z.of_nat (scale a)))).
Definition round (k : nat) (a : t) : t :=
  if (scale a <=? k)%nat then a
  else Dec (div_away (mant a * 10 ^ Z.of_nat k) (pow10 (scale a))) k.
Definition rescale (k : nat) (a : t) : t :=
  let m := div_away (mant a * 10 ^ Z.of_nat k) (pow10 (scale a)) in
  if Z.abs m <? 2 ^ 96 then Dec m k else a.
Fixpoint normalize_aux (m : Z) (s : nat) : t :=
  match s with
  | O => Dec m 0
  | S s' => if m mod 10 =? 0 then normalize_aux (m / 10) s' else Dec m s
  end.
Definition normalize (a : t) : t := normalize_aux (mant a) (scale a).

Definition digit (n : Z) : ascii := ascii_of_N (Z.to_N (48 + n)).

(** [n]'s last [k] decimal digits. *)
Fixpoint digits (k : nat) (n : Z) (acc : string) : string :=
  match k with
  | O => acc
  | S k' => digits k' (n / 10) (String (digit (n mod 10)) acc)
  end.

Definition to_string (a : t) : string :=
  let m := Z.abs (mant a) in
  let p := 10 ^ Z.of_nat (scale a) in
  (if mant a <? 0 then "-" else "") +:+ pretty (Z.to_N (m / p))
  +:+ (if (scale a =? 0)%nat then "" else "." +:+ digits (scale a) m "").

Fixpoint parse_digits (s : string) (m : Z) (frac : option nat) : option t :=
  match s with
  | EmptyString => Some (Dec m (default 0%nat frac))
  | String c s' =>
      let n := Z.of_N (N_of_ascii c) in
      if (48 <=? n) && (n <=? 57) then parse_digits s' (m * 10 + (n - 48)) (S <$> frac)
      else if (n =? 46) && negb (is_some frac) then parse_digits s' m (Some 0%nat) else None
  end.

Definition neg (a : t) : t := Dec (- mant a) (scale a).

Definition from_str (s : string) : option t :=
  match s with
  | EmptyString => None
  | String "-" s' => neg <$> parse_digits s' 0 None
  | _ => parse_digits s 0 None
  end.

#[global] Instance decimal : RustDecimal := {|
  RustDecimal.decimal := t;
  dec_cmp := cmp; dec_of_Z n := Dec n 0;
  dec_checked_add := add; dec_checked_mul := mul; dec_checked_div := div;
  dec_ceil := ceil; dec_to_usize := to_usize; dec_to_f64 := to_f64;
  dec_is_sign_negative a := mant a <? 0;
  dec_round_away := round; dec_rescale := rescale; dec_normalize := normalize;
  dec_to_string := to_string; dec_from_str := from_str; dec_from_scientific := from_str
|}.

Lemma div_away_exact n d : div_away (n * Z.pos d) d = n.
Proof.
  unfold div_away. rewrite Z.sgn_mul, Z.abs_mul.
  change (Z.sgn (Z.pos d)) with 1. change (Z.abs (Z.pos d)) with (Z.pos d).
  replace (2 * (Z.abs n * Z.pos d) + Z.pos d) with (Z.pos d + Z.abs n * (2 * Z.pos d)) by lia.
  rewrite Z.div_add by lia. rewrite Z.div_small by lia.
  pose proof (Z.sgn_abs n). lia.
Qed.

Lemma fit_exact m s :
  representable (m # pow10 s) -> exists c, fit m s = Some c /\ (val c == m # pow10 s)%Q.
Proof.
  intros (m0 & s0 & Hs0 & Hm0 & H).
  assert (m * 10 ^ Z.of_nat s0 = m0 * 10 ^ Z.of_nat s) as E.
  { unfold Qeq in H. cbn in H. by rewrite !pow10_Z in H. }
  clear H. revert m E. induction s as [|s IH]; intros m E; cbn [fit].
  - assert (Z.abs m <= Z.abs m0).
    { rewrite Z.pow_0_r, Z.mul_1_r in E. subst m0. rewrite Z.abs_mul.
      assert (0 < 10 ^ Z.of_nat s0) by (apply Z.pow_pos_nonneg; lia). nia. }
    rewrite (proj2 (Z.ltb_lt _ _)) by lia. eexists; split; reflexivity.
  - destruct ((Z.abs m <? 2 ^ 96) && (S s <=? 28)%nat) eqn:Hfit;
      [eexists; split; reflexivity|].
    assert (s0 <= s)%nat as Hle.
    { destruct (Nat.le_gt_cases s0 s); [done|exfalso].
      apply andb_false_iff in Hfit as [Hfit%Z.ltb_ge|Hfit%Nat.leb_gt]; [|lia].
      replace (Z.of_nat s0) with (Z.of_nat (s0 - S s) + Z.of_nat (S s)) in E by lia.
      rewrite Z.pow_add_r, Z.mul_assoc in E by lia.
      apply Z.mul_reg_r in E; [|apply Z.pow_nonzero; lia].
      assert (0 < 10 ^ Z.of_nat (s0 - S s)) by (apply Z.pow_pos_nonneg; lia). nia. }
    set (k := m0 * 10 ^ Z.of_nat (s - s0)).
    assert (m = k * 10) as ->.
    { apply (Z.mul_reg_r _ _ (10 ^ Z.of_nat s0)); [apply Z.pow_nonzero; lia|].
      rewrite E. unfold k. replace (Z.of_nat (S s)) with (Z.of_nat (s - s0) + 1 + Z.of_nat s0) by lia.
      rewrite !Z.pow_add_r by lia. lia. }
    rewrite (div_away_exact k 10).
    destruct (IH k) as (c & -> & Hc).
    { unfold k. rewrite <- Z.mul_assoc, <- Z.pow_add_r by lia. do 2 f_equal. lia. }
    exists c. split; [done|]. rewrite Hc. unfold Qeq. cbn. rewrite !pow10_Z.
    rewrite Nat2Z.inj_succ, Z.pow_succ_r by lia. lia.
Qed.

(** Magnitudes well below [2^96] at scale zero always fit. *)
Lemma fit_total m s :
  Z.abs m <= 2 ^ 95 * 10 ^ Z.of_nat s ->
  exists c, fit m s = Some c /\ (0 <= m -> 0 <= mant c).
Proof.
  revert m. induction s as [|s IH]; intros m Hm; cbn [fit].
  - rewrite Z.pow_0_r, Z.mul_1_r in Hm. rewrite (proj2 (Z.ltb_lt _ _)) by lia. cbn. eauto.
  - destruct ((Z.abs m <? 2 ^ 96) && (S s <=? 28)%nat); [eauto|].
    set (B := 2 ^ 95 * 10 ^ Z.of_nat s).
    assert (Z.abs m <= B * 10) as Hb.
    { replace (Z.of_nat (S s)) with (Z.of_nat s + 1) in Hm by lia. rewrite Z.pow_add_r in Hm by lia. lia. }
    assert (0 <= (2 * Z.abs m + 10) / (2 * 10) <= B) as Hq.
    { split; [apply Z.div_pos; lia|].
      apply Z.lt_succ_r, Z.div_lt_upper_bound; lia. }
    destruct (IH (div_away m 10)) as (c & Hc & Hpos).
    + fold B. unfold div_away. destruct (Z.sgn_spec m) as [(? & ->)|[(? & ->)|(? & ->)]]; lia.
    + exists c. split; [done|]. intros H0. apply Hpos. unfold div_away.
      assert (0 <= Z.sgn m) by by apply Z.sgn_nonneg. nia.
Qed.

Lemma pow10_add a b : (pow10 (a + b) = pow10 a * pow10 b)%positive.
Proof.
  apply Pos2Z.inj. rewrite Pos2Z.inj_mul, !pow10_Z, Nat2Z.inj_add.
  apply Z.pow_add_r; lia.
Qed.

Lemma fit_exact_q m s q :
  (q == m # pow10 s)%Q -> representable q -> exists c, fit m s = Some c /\ (val c == q)%Q.
Proof.
  intros E H. destruct (fit_exact m s) as (c & ? & ?); [by eapply representable_compat|].
  exists c. split; [done|]. by rewrite E.
Qed.

Lemma add_exact a b : representable (val a + val b) ->
  exists c, add a b = Some c /\ (val c == val a + val b)%Q.
Proof.
  intros H. apply fit_exact_q; [|done]. unfold val, Qeq, Qplus. cbn.
  rewrite pow10_add, !Pos2Z.inj_mul, !pow10_Z. lia.
Qed.

Lemma mul_exact a b : representable (val a * val b) ->
  exists c, mul a b = Some c /\ (val c == val a * val b)%Q.
Proof.
  intros H. apply fit_exact_q; [|done]. unfold val, Qeq, Qmult. cbn.
  rewrite pow10_add, !Pos2Z.inj_mul. lia.
Qed.

(** A representable quotient [n / d] over [10^28] has an integral numerator. *)
Lemma div_away_representable n d q :
  representable q -> (q == n # d)%Q -> (q == div_away (n * 10 ^ 28) d # pow10 28)%Q.
Proof.
  intros (m & s & Hs & _ & E) En.
  assert (n * 10 ^ 28 = m * 10 ^ Z.of_nat (28 - s) * Z.pos d) as ->.
  { rewrite E in En. unfold Qeq in En. cbn [Qnum Qden] in En. rewrite pow10_Z in En.
    apply (Z.mul_reg_r _ _ (10 ^ Z.of_nat s)); [apply Z.pow_nonzero; lia|].
    replace (10 ^ 28) with (10 ^ Z.of_nat (28 - s) * 10 ^ Z.of_nat s)
      by (rewrite <- Z.pow_add_r by lia; f_equal; lia).
    set (A := 10 ^ Z.of_nat (28 - s)). set (B := 10 ^ Z.of_nat s) in *.
    replace (n * (A * B) * B) with (n * B * (A * B)) by ring. rewrite <- En. ring. }
  rewrite div_away_exact, E. unfold Qeq. cbn [Qnum Qden]. rewrite !pow10_Z.
  rewrite <- Z.mul_assoc, <- Z.pow_add_r by lia. do 2 f_equal. lia.
Qed.

Lemma div_exact a b : ~ (val b == 0)%Q -> representable (val a / val b) ->
  exists c, div a b = Some c /\ (val c == val a / val b)%Q.
Proof.
  intros Hb H. unfold div. destruct (mant b) as [|p|p] eqn:Eb.
  - destruct Hb. unfold val, Qeq. by rewrite Eb.
  - apply fit_exact_q; [|done]. apply div_away_representable; [done|].
    unfold val, Qdiv, Qinv, Qeq, Qmult. cbn. rewrite Eb. cbn.
    rewrite !Pos2Z.inj_mul, !pow10_Z. lia.
  - apply fit_exact_q; [|done]. apply div_away_representable; [done|].
    unfold val, Qdiv, Qinv, Qeq, Qmult. cbn. rewrite Eb. cbn.
    rewrite !Pos2Z.inj_mul, ?pow10_Z.
    change (Z.neg (pow10 (scale b))) with (- Z.pos (pow10 (scale b))). rewrite !pow10_Z. lia.
Qed.

Lemma round_value k a : (val (round k a) == round_away k (val a))%Q.
Proof.
  unfold round. destruct (Nat.leb_spec (scale a) k) as [Hle|]; [|unfold round_away, val; cbn; rewrite pow10_Z; reflexivity].
  unfold round_away, val, Qeq. cbn. rewrite !pow10_Z.
  replace (mant a * 10 ^ Z.of_nat k)
    with (mant a * 10 ^ Z.of_nat (k - scale a) * Z.pos (pow10 (scale a))).
  - by rewrite div_away_exact, pow10_Z.
  - rewrite pow10_Z, <- Z.mul_assoc, <- Z.pow_add_r by lia. do 2 f_equal. lia.
Qed.

Lemma rescale_value k a m : Z.abs m < 2 ^ 96 -> (val a == m # pow10 k)%Q ->
  (val (rescale k a) == val a)%Q.
Proof.
  intros Hm E. unfold rescale.
  assert (mant a * 10 ^ Z.of_nat k = m * Z.pos (pow10 (scale a))) as ->.
  { unfold val, Qeq in E. cbn in E. by rewrite (pow10_Z k) in E. }
  rewrite div_away_exact. destruct (Z.ltb_spec (Z.abs m) (2 ^ 96)); [|lia]. by rewrite E.
Qed.

#[global] Instance laws : DecimalLaws (D := decimal) val.
Proof.
  split.
  - done.
  - intros n _. reflexivity.
  - exact add_exact.
  - exact mul_exact.
  - exact div_exact.
  - intros a. reflexivity.
  - intros a n Hn E. cbn. unfold to_usize.
    assert (mant a = n * 10 ^ Z.of_nat (scale a)) as ->.
    { unfold val, Qeq in E. cbn in E. rewrite pow10_Z in E. lia. }
    rewrite Z.quot_mul by (apply Z.pow_nonzero; lia).
    rewrite (proj2 (Z.leb_le _ _)), (proj2 (Z.leb_le _ _)) by lia. done.
  - intros k a _. apply round_value.
  - intros k a m _. apply rescale_value.
Qed.
End RefDecimal.
