(* ===== verification/RoutingProfile.v ===== *)
(** [src/src/routing_profile.rs] and [src/src/attribution.rs]: the
    credential-bound routing profiles and the served-provider marker. *)

From stdpp Require Import finite.
From S2P Require Import Prelude.

Inductive RoutingProfile : Type := Production | Beta.

#[global] Instance RoutingProfile_eq_dec : EqDecision RoutingProfile.
Proof. solve_decision. Defined.
#[global] Program Instance RoutingProfile_finite : Finite RoutingProfile :=
  {| enum := [Production; Beta] |}.
Next Obligation. repeat constructor; set_solver. Qed.
Next Obligation. intros []; set_solver. Qed.

Definition ALL : list RoutingProfile := [Production; Beta].

Definition profile_as_str (p : RoutingProfile) : string :=
  match p with Production => "production" | Beta => "beta" end.

(** The derived [Ord]: declaration order. *)
Definition profile_cmp (p q : RoutingProfile) : comparison :=
  match p, q with
  | Production, Beta => Lt
  | Beta, Production => Gt
  | _, _ => Eq
  end.

Definition sidecar_alias (p : RoutingProfile) (canonical_model : string) : string :=
  "seren-profile-" +:+ profile_as_str p +:+ "/" +:+ canonical_model.

#[global] Instance profile_cmp_laws : CmpLaws profile_cmp.
Proof. split; [by intros [] []|by intros [] [] []]. Qed.

Lemma profile_cmp_eq p q : profile_cmp p q = Eq <-> p = q.
Proof. by destruct p, q. Qed.

Lemma elem_of_ALL p : p ∈ ALL.
Proof. destruct p; set_solver. Qed.

(** ** The served-provider marker

    A header value is a byte string; [HeaderValue::to_str] accepts visible
    ASCII (bytes 32 to 126) and tab. *)

Definition SERVED_PROVIDER_HEADER : string := "x-seren-served-provider".

Definition visible_ascii (c : ascii) : bool :=
  let n := N_of_ascii c in ((32 <=? n) && (n <=? 126) || (n =? 9))%N.

Definition header_to_str (value : string) : option string :=
  if forallb visible_ascii (list_ascii_of_string value) then Some value else None.

(** [HeaderMap::get]: the first value of a name. *)
Definition HeaderMap := list (string * string).
Definition header_get (name : string) (headers : HeaderMap) : option string :=
  snd <$> find_b (fun h => String.eqb h.1 name) headers.

Definition ServedProvider := string.

Definition served_provider_from_headers (headers : HeaderMap) : option ServedProvider :=
  header_get SERVED_PROVIDER_HEADER headers ≫= fun value =>
  header_to_str value ≫= fun provider_id =>
  if str_is_empty provider_id || negb (String.eqb (trim provider_id) provider_id) then None
  else Some provider_id.

Lemma served_provider_spec headers p :
  served_provider_from_headers headers = Some p <->
  header_get SERVED_PROVIDER_HEADER headers = Some p /\
  Forall (fun c => visible_ascii c = true) (list_ascii_of_string p) /\ p <> "" /\ trim p = p.
Proof.
  unfold served_provider_from_headers, header_to_str.
  destruct (header_get _ headers) as [v|]; cbn; [|naive_solver].
  destruct (forallb _ _) eqn:Hv; cbn.
  - rewrite forallb_forall in Hv.
    assert (Forall (fun c => visible_ascii c = true) (list_ascii_of_string v)) as HF.
    { apply Forall_forall. intros x Hx. apply Hv. by apply list_elem_of_In. }
    unfold str_is_empty.
    destruct (String.eqb_spec v "") as [->|]; cbn; [naive_solver|].
    destruct (String.eqb_spec (trim v) v); cbn; naive_solver.
  - split; [done|]. intros ([= ->] & HF & _).
    assert (forallb visible_ascii (list_ascii_of_string p) = true) as H; [|congruence].
    apply forallb_forall. intros x Hx%list_elem_of_In. rewrite Forall_forall in HF. auto.
Qed.

(** Two profiles never share a sidecar alias, whatever the models. *)
Lemma sidecar_alias_inj p q m n :
  sidecar_alias p m = sidecar_alias q n -> p = q /\ m = n.
Proof.
  intros H. apply (f_equal (strip_prefix (sidecar_alias p ""))) in H.
  destruct p, q; cbv in H; by simplify_eq.
Qed.
