(* ===== verification/Registry.v ===== *)
(** [src/src/registry.rs]: providers, their model mappings and request
    constraints, and the validation every registry passes before it is
    compiled, priced or served.  [BTreeSet]s are [gset]s iterated in the
    derived order; the YAML (de)serialization is not modelled. *)

From S2P Require Import Prelude RustDecimal RoutingProfile.

Inductive CompletionEndpoint : Type := Chat | Legacy.

#[global] Instance CompletionEndpoint_eq_dec : EqDecision CompletionEndpoint.
Proof. solve_decision. Defined.
#[global] Program Instance CompletionEndpoint_countable : Countable CompletionEndpoint :=
  {| encode e := encode (match e with Chat => true | Legacy => false end);
     decode p := (fun b : bool => if b then Chat else Legacy) <$> decode p |}.
Next Obligation. by intros []; cbn; rewrite decode_encode. Qed.

Inductive PriceSide : Type := Input | CachedInput | Output.

#[global] Instance PriceSide_eq_dec : EqDecision PriceSide.
Proof. solve_decision. Defined.

Section Registry.
Context {D : RustDecimal}.

Record TopPBounds : Type := { tp_min : decimal; tp_max : decimal }.

Record RequestConstraints : Type := {
  endpoints : gset CompletionEndpoint;
  supports_streaming : bool;
  top_p : option TopPBounds
}.

Record ModelMapping : Type := {
  slug : string;
  model_name : string;
  context_length : Z;
  provider_model_id : string;
  input_price_per_mtok : decimal;
  cached_input_price_per_mtok : option decimal;
  output_price_per_mtok : decimal;
  request_constraints : RequestConstraints
}.

Record Provider : Type := {
  id : string;
  display_name : string;
  public_display_name : option string;
  public_tag : option string;
  base_url : string;
  secret_env : string;
  enabled : bool;
  priority : Z;
  catalog_url : option string;
  profiles : gset RoutingProfile;
  models : list ModelMapping
}.

Record Registry : Type := { providers : list Provider }.

Definition default_profiles : gset RoutingProfile := {[ Production ]}.

Definition default_completion_endpoints : gset CompletionEndpoint := {[ Chat; Legacy ]}.

Definition default_request_constraints : RequestConstraints :=
  {| endpoints := default_completion_endpoints; supports_streaming := true; top_p := None |}.

(** [BTreeSet::iter] on profiles: the members in [Ord] order. *)
Definition profiles_iter (s : gset RoutingProfile) : list RoutingProfile :=
  filter_b (fun p => bool_decide (p ∈ s)) ALL.

(** ** Request constraints *)

Definition supports_endpoint (c : RequestConstraints) (e : CompletionEndpoint) : bool :=
  bool_decide (e ∈ endpoints c).

Definition permits_streaming (c : RequestConstraints) (stream : bool) : bool :=
  negb stream || supports_streaming c.

Definition permits_top_p (c : RequestConstraints) (requested : option decimal) : bool :=
  match top_p c, requested with
  | Some bounds, Some p => dec_le (tp_min bounds) p && dec_le p (tp_max bounds)
  | _, _ => true
  end.

(** ** Validation *)

Inductive RegistryValidationError : Type :=
| DuplicateProviderId (provider_id : string)
| EmptyProviderPublicDisplayName (provider_id : string)
| EmptyProviderPublicTag (provider_id : string)
| IncompleteProviderPublicAliases (provider_id : string)
| EmptyProviderProfiles (provider_id : string)
| EmptyModelName (provider_id slug : string)
| ZeroModelContextLength (provider_id slug : string)
| EmptyModelCompletionEndpoints (provider_id slug : string)
| InvalidModelTopPBounds (provider_id slug : string) (min max : decimal).

Definition blank (s : string) : bool := str_is_empty (trim s).

Definition top_p_invalid (b : TopPBounds) : bool :=
  dec_lt (tp_min b) dec_zero || dec_lt (tp_max b) (tp_min b) || dec_lt dec_one (tp_max b).

(** The body of the loop over one provider's mappings. *)
Definition validate_mapping (provider_id : string) (m : ModelMapping)
    : result RegistryValidationError unit :=
  if blank (model_name m) then Err (EmptyModelName provider_id (slug m))
  else if (context_length m =? 0)%Z then Err (ZeroModelContextLength provider_id (slug m))
  else if bool_decide (endpoints (request_constraints m) = ∅)
  then Err (EmptyModelCompletionEndpoints provider_id (slug m))
  else match top_p (request_constraints m) with
       | Some b =>
           if top_p_invalid b
           then Err (InvalidModelTopPBounds provider_id (slug m) (tp_min b) (tp_max b))
           else Ok tt
       | None => Ok tt
       end.

(** The body of the loop over providers; [seen] is [provider_ids]. *)
Definition validate_provider (seen : gset string) (p : Provider)
    : result RegistryValidationError (gset string) :=
  if bool_decide (id p ∈ seen) then Err (DuplicateProviderId (id p))
  else if negb (Bool.eqb (is_some (public_display_name p)) (is_some (public_tag p)))
  then Err (IncompleteProviderPublicAliases (id p))
  else if is_some_and blank (public_display_name p)
  then Err (EmptyProviderPublicDisplayName (id p))
  else if is_some_and blank (public_tag p) then Err (EmptyProviderPublicTag (id p))
  else if bool_decide (profiles p = ∅) then Err (EmptyProviderProfiles (id p))
  else try_for_each (validate_mapping (id p)) (models p) ≫= fun _ => Ok ({[ id p ]} ∪ seen).

Definition validate (r : Registry) : result RegistryValidationError unit :=
  try_fold validate_provider ∅ (providers r) ≫= fun _ => Ok tt.

(** ** Providers *)

Definition supports (p : Provider) (profile : RoutingProfile) : bool :=
  bool_decide (profile ∈ profiles p).

Definition catalog_display_name (p : Provider) : string :=
  match public_display_name p, public_tag p with
  | Some name, Some _ => name
  | _, _ => display_name p
  end.

Definition catalog_tag (p : Provider) : string :=
  match public_display_name p, public_tag p with
  | Some _, Some tag => tag
  | _, _ => id p
  end.

Definition enabled_providers (r : Registry) : list Provider :=
  filter_b enabled (providers r).

(** ** The specification of validation *)

Definition mapping_ok (m : ModelMapping) : Prop :=
  blank (model_name m) = false /\ context_length m <> 0%Z /\
  endpoints (request_constraints m) <> ∅ /\
  (forall b, top_p (request_constraints m) = Some b ->
     dec_cmp (tp_min b) dec_zero <> Lt /\ dec_cmp (tp_max b) (tp_min b) <> Lt /\
     dec_cmp dec_one (tp_max b) <> Lt).

Definition provider_ok (p : Provider) : Prop :=
  (is_some (public_display_name p) = is_some (public_tag p)) /\
  (forall n, public_display_name p = Some n -> blank n = false) /\
  (forall t, public_tag p = Some t -> blank t = false) /\
  profiles p <> ∅ /\ Forall mapping_ok (models p).

Definition registry_ok (r : Registry) : Prop :=
  NoDup (id <$> providers r) /\ Forall provider_ok (providers r).

Lemma profiles_iter_spec s p : p ∈ profiles_iter s <-> p ∈ s.
Proof.
  unfold profiles_iter. rewrite elem_of_filter_b, bool_decide_eq_true.
  pose proof (elem_of_ALL p). tauto.
Qed.

Lemma profiles_iter_NoDup s : NoDup (profiles_iter s).
Proof.
  eapply sublist_NoDup; [|apply filter_b_sublist]. repeat constructor; set_solver.
Qed.

Lemma top_p_invalid_false b :
  top_p_invalid b = false <->
  dec_cmp (tp_min b) dec_zero <> Lt /\ dec_cmp (tp_max b) (tp_min b) <> Lt /\
  dec_cmp dec_one (tp_max b) <> Lt.
Proof.
  unfold top_p_invalid, dec_lt. rewrite !orb_false_iff.
  destruct (dec_cmp (tp_min b) dec_zero), (dec_cmp (tp_max b) (tp_min b)),
    (dec_cmp dec_one (tp_max b)); naive_solver.
Qed.

Lemma validate_mapping_Ok pid m : validate_mapping pid m = Ok tt <-> mapping_ok m.
Proof.
  unfold validate_mapping, mapping_ok.
  destruct (blank (model_name m)); [naive_solver|].
  destruct (Z.eqb_spec (context_length m) 0); [naive_solver|].
  case_bool_decide; [naive_solver|].
  destruct (top_p (request_constraints m)) as [b|]; [|naive_solver].
  pose proof (top_p_invalid_false b) as Hb. destruct (top_p_invalid b); naive_solver.
Qed.

Lemma validate_provider_Ok seen p seen' :
  validate_provider seen p = Ok seen' <->
  id p ∉ seen /\ provider_ok p /\ seen' = {[ id p ]} ∪ seen.
Proof.
  unfold validate_provider, provider_ok.
  case_bool_decide as Hseen; [naive_solver|].
  destruct (Bool.eqb_spec (is_some (public_display_name p)) (is_some (public_tag p)));
    cbn [negb]; [|naive_solver].
  destruct (is_some_and blank (public_display_name p)) eqn:Hn.
  { destruct (public_display_name p) as [n|]; cbn in *; [|done].
    split; [done|]. intros (_ & (_ & H & _) & _). specialize (H n eq_refl). congruence. }
  destruct (is_some_and blank (public_tag p)) eqn:Ht.
  { destruct (public_tag p) as [t|]; cbn in *; [|done].
    split; [done|]. intros (_ & (_ & _ & H & _) & _). specialize (H t eq_refl). congruence. }
  case_bool_decide; [naive_solver|].
  rewrite bind_Ok. split.
  - intros ([] & HF%try_for_each_Ok & [= <-]). split_and!; try done.
    + intros n' Hn'. rewrite Hn' in Hn. done.
    + intros t' Ht'. rewrite Ht' in Ht. done.
    + eapply List.Forall_impl; [|exact HF]. intros m. by rewrite validate_mapping_Ok.
  - intros (_ & (_ & _ & _ & _ & HF) & ->). exists tt. split; [|done].
    apply try_for_each_Ok. eapply List.Forall_impl; [|exact HF].
    intros m. by rewrite validate_mapping_Ok.
Qed.

Lemma validate_loop_Ok ps seen seen' :
  try_fold validate_provider seen ps = Ok seen' ->
  NoDup (id <$> ps) /\ (forall p, p ∈ ps -> id p ∉ seen) /\ Forall provider_ok ps.
Proof.
  revert seen. induction ps as [|p ps IH]; intros seen; cbn.
  - intros _. split_and!; [constructor|intros p Hp; inversion Hp|constructor].
  - intros (s1 & (Hp & Hok & ->)%validate_provider_Ok & (Hnd & Hs & HF)%IH)%bind_Ok.
    split_and!; [|intros q [->|Hq]%elem_of_cons; [done|specialize (Hs _ Hq); set_solver]|by constructor].
    constructor; [|done]. rewrite list_elem_of_fmap. intros (q & Hid & Hq).
    specialize (Hs _ Hq). set_solver.
Qed.

Lemma validate_loop_complete ps seen :
  NoDup (id <$> ps) -> (forall p, p ∈ ps -> id p ∉ seen) -> Forall provider_ok ps ->
  exists seen', try_fold validate_provider seen ps = Ok seen'.
Proof.
  revert seen. induction ps as [|p ps IH]; intros seen; cbn; [eauto|].
  intros [Hp Hnd]%NoDup_cons Hs [Hok HF]%Forall_cons.
  rewrite (proj2 (validate_provider_Ok seen p ({[ id p ]} ∪ seen)));
    [|split_and!; [apply Hs; left|done|done]].
  cbn. apply IH; [done| |done]. intros q Hq.
  assert (id q <> id p) by (intros E; apply Hp; rewrite <- E; by apply list_elem_of_fmap_2).
  assert (id q ∉ seen) by (apply Hs; by right). set_solver.
Qed.

(** [validate] accepts exactly the registries the specification allows. *)
Lemma validate_Ok_iff r : validate r = Ok tt <-> registry_ok r.
Proof.
  unfold validate, registry_ok. rewrite bind_Ok. split.
  - intros (s & H & _). by apply validate_loop_Ok in H as (? & _ & ?).
  - intros [Hnd HF]. destruct (validate_loop_complete (providers r) ∅) as [s Hs];
      [done|intros p _; set_solver|done|].
    exists s. by rewrite Hs.
Qed.

Lemma elem_of_enabled r p : p ∈ enabled_providers r <-> enabled p = true /\ p ∈ providers r.
Proof. apply elem_of_filter_b. Qed.

Lemma provider_id_inj r p q :
  NoDup (id <$> providers r) -> p ∈ providers r -> q ∈ providers r -> id p = id q -> p = q.
Proof.
  apply NoDup_fmap_inj_in.
Qed.

Lemma provider_id_inj_enabled r p q :
  NoDup (id <$> providers r) -> p ∈ enabled_providers r -> q ∈ enabled_providers r ->
  id p = id q -> p = q.
Proof.
  intros Hnd [_ Hp]%elem_of_enabled [_ Hq]%elem_of_enabled. by apply (provider_id_inj r).
Qed.
End Registry.

#[export] Hint Resolve profiles_iter_NoDup : router.
#[export] Hint Rewrite @profiles_iter_spec @elem_of_enabled : router.
#[global] Arguments profiles_iter : simpl never.
