(* ===== verification/Json.v ===== *)
(** [serde_json] values as the program uses them.  [Value] is the crate's
    public enum; with the [arbitrary_precision] feature a number is its source
    text, and without [preserve_order] an object is a [BTreeMap] over its keys.
    Parsing, printing and number conversions are the crate's own code and are
    the interface [SerdeJson]. *)

From Stdlib Require Export Strings.Byte.
From S2P Require Import Prelude.

#[global] Instance byte_eq_dec : EqDecision byte.
Proof. exact byte_eq_dec. Defined.

Inductive Value : Type :=
| Null
| Bool (b : bool)
| Number (text : string)
| JString (s : string)
| Array (elements : list Value)
| Object (fields : list (string * Value)).

Class SerdeJson : Type := {
  from_slice : list byte -> option Value;
  to_vec : Value -> option (list byte);
  number_as_u64 : string -> option Z;
  number_from_str : string -> option string
}.

(** ** Nested induction *)

Section ValueInd.
Context (P : Value -> Prop).
Context (HNull : P Null) (HBool : forall b, P (Bool b)) (HNumber : forall t, P (Number t))
  (HString : forall s, P (JString s))
  (HArray : forall l, Forall P l -> P (Array l))
  (HObject : forall fs, Forall (fun kv => P kv.2) fs -> P (Object fs)).

Fixpoint Value_nested_ind (v : Value) : P v :=
  match v with
  | Null => HNull
  | Bool b => HBool b
  | Number t => HNumber t
  | JString s => HString s
  | Array l =>
      HArray l ((fix go l : Forall P l :=
        match l with
        | [] => List.Forall_nil _
        | x :: l' => List.Forall_cons P x l' (Value_nested_ind x) (go l')
        end) l)
  | Object fs =>
      HObject fs ((fix go fs : Forall (fun kv => P kv.2) fs :=
        match fs with
        | [] => List.Forall_nil _
        | kv :: fs' => List.Forall_cons (fun kv => P kv.2) kv fs' (Value_nested_ind kv.2) (go fs')
        end) fs)
  end.
End ValueInd.

(** ** Objects *)

Definition Fields := list (string * Value).

Definition obj_get (k : string) (fs : Fields) : option Value := bt_get String.compare k fs.
Definition obj_insert (k : string) (v : Value) (fs : Fields) : Fields := bt_insert String.compare k v fs.
Definition obj_remove (k : string) (fs : Fields) : Fields :=
  filter_b (fun kv => negb (String.eqb kv.1 k)) fs.
Definition obj_contains_key (k : string) (fs : Fields) : bool := is_some (obj_get k fs).
Definition obj_retain (p : string -> bool) (fs : Fields) : Fields := filter_b (fun kv => p kv.1) fs.

(** [json!({...})]: the keys of a literal object, inserted in order. *)
Definition json_object (fs : Fields) : Value :=
  Object (foldl (fun acc kv => obj_insert kv.1 kv.2 acc) [] fs).

(** ** Accessors *)

Definition as_object (v : Value) : option Fields := match v with Object fs => Some fs | _ => None end.
Definition as_array (v : Value) : option (list Value) := match v with Array l => Some l | _ => None end.
Definition as_str (v : Value) : option string := match v with JString s => Some s | _ => None end.
Definition as_bool (v : Value) : option bool := match v with Bool b => Some b | _ => None end.
Definition as_number (v : Value) : option string := match v with Number t => Some t | _ => None end.
Definition is_null (v : Value) : bool := match v with Null => true | _ => false end.
Definition is_array (v : Value) : bool := is_some (as_array v).
Definition is_object (v : Value) : bool := is_some (as_object v).
Definition as_u64 `{SerdeJson} (v : Value) : option Z :=
  match v with Number t => number_as_u64 t | _ => None end.

Definition value_get (k : string) (v : Value) : option Value :=
  match v with Object fs => obj_get k fs | _ => None end.

(** [Value::pointer] for reference tokens that are not array indices. *)
Fixpoint pointer (tokens : list string) (v : Value) : option Value :=
  match tokens with
  | [] => Some v
  | k :: ks => value_get k v ≫= pointer ks
  end.

(** [value[k] = x]: inserts into an object, turns null into one, panics
    otherwise. *)
Definition set_index (k : string) (x v : Value) : outcome Value :=
  match v with
  | Object fs => Done (Object (obj_insert k x fs))
  | Null => Done (Object [(k, x)])
  | _ => Panic "cannot access key in JSON value"
  end.

(** ** Lemmas *)

Lemma obj_get_insert_eq k v fs : obj_get k (obj_insert k v fs) = Some v.
Proof. apply bt_get_insert_eq, string_compare_eq. Qed.

Lemma obj_get_insert_ne k j v fs : k <> j -> obj_get j (obj_insert k v fs) = obj_get j fs.
Proof. apply bt_get_insert_ne, string_compare_eq. Qed.

Lemma obj_get_cons k j v fs :
  obj_get k ((j, v) :: fs) = if String.eqb k j then Some v else obj_get k fs.
Proof.
  unfold obj_get. cbn. destruct (String.eqb_spec k j) as [->|Hne].
  - by rewrite (proj2 (string_compare_eq j j) eq_refl).
  - destruct (String.compare k j) eqn:E; [|done..].
    by apply string_compare_eq in E.
Qed.

Lemma obj_get_retain p k fs :
  obj_get k (obj_retain p fs) = if p k then obj_get k fs else None.
Proof.
  unfold obj_retain. induction fs as [|[j v] fs IH]; [by cbn; destruct (p k)|].
  cbn [filter_b fst]. rewrite obj_get_cons.
  destruct (p j) eqn:E; rewrite ?obj_get_cons, IH; destruct (String.eqb_spec k j) as [<-|];
    rewrite ?E; by destruct (p k).
Qed.

Lemma obj_get_remove_eq k fs : obj_get k (obj_remove k fs) = None.
Proof.
  pose proof (obj_get_retain (fun j => negb (String.eqb j k)) k fs) as H.
  unfold obj_retain in H. unfold obj_remove. rewrite H, String.eqb_refl. done.
Qed.

Lemma obj_get_remove_ne k j fs : k <> j -> obj_get j (obj_remove k fs) = obj_get j fs.
Proof.
  intros Hne. pose proof (obj_get_retain (fun i => negb (String.eqb i k)) j fs) as H.
  unfold obj_retain in H. unfold obj_remove. rewrite H.
  destruct (String.eqb_spec j k); [congruence|done].
Qed.

Lemma obj_get_elem k v fs : obj_get k fs = Some v -> (k, v) ∈ fs.
Proof. apply bt_get_elem, string_compare_eq. Qed.

Lemma obj_get_None_elem k fs : obj_get k fs = None <-> k ∉ fs.*1.
Proof.
  induction fs as [|[j v] fs IH]; [split; [intros _ H; inversion H|done]|].
  rewrite obj_get_cons. cbn. rewrite not_elem_of_cons.
  destruct (String.eqb_spec k j); naive_solver.
Qed.

Lemma obj_insert_keys k v fs j : j ∈ (obj_insert k v fs).*1 -> j = k \/ j ∈ fs.*1.
Proof. apply bt_insert_keys, string_compare_eq. Qed.

#[export] Hint Rewrite obj_get_insert_eq obj_get_remove_eq : json.
#[export] Hint Rewrite obj_get_insert_ne obj_get_remove_ne using congruence : json.

(** Object lookups after inserts and removes at literal keys. *)
Ltac json_simpl :=
  cbn; repeat first
    [ rewrite obj_get_insert_eq | rewrite obj_get_remove_eq
    | rewrite obj_get_insert_ne by congruence | rewrite obj_get_remove_ne by congruence ]; cbn.

#[global] Arguments pointer : simpl never.
#[global] Arguments obj_get : simpl never.
#[global] Arguments obj_insert : simpl never.
#[global] Arguments obj_remove : simpl never.
#[global] Arguments obj_retain : simpl never.
