(* ===== verification/RefJson.v ===== *)
(** An executable implementation of the JSON interface, for the witnesses:
    objects, arrays, numbers, literals, and strings without escapes, with white
    space between tokens.  The
    program's own parser and printer are the [serde_json] crate, and the
    theorems hold for any implementation of [SerdeJson]. *)

From Stdlib Require Import ZArith Strings.Byte.
From S2P Require Import Prelude Json.

#[local] Open Scope Z_scope.

Definition bytes_of (s : string) : list byte := list_byte_of_string s.
Definition text_of (l : list byte) : string := string_of_list_byte l.

Module RefJson.

Definition quote : ascii := Ascii.ascii_of_nat 34.

(** The characters before the closing quote, and the rest. *)
Fixpoint scan_string (l : list ascii) : option (string * list ascii) :=
  match l with
  | [] => None
  | c :: l' =>
      if Ascii.eqb c quote then Some (EmptyString, l')
      else scan_string l' ≫= fun '(s, rest) => Some (String c s, rest)
  end.

(** Past spaces, tabs and line ends. *)
Fixpoint skip (l : list ascii) : list ascii :=
  match l with
  | c :: l' => let n := N_of_ascii c in
               if ((n =? 32) || (n =? 9) || (n =? 10) || (n =? 13))%N then skip l' else l
  | [] => []
  end.

(** Digits, signs, the point and the exponent's mark. *)
Definition number_char (c : ascii) : bool :=
  let n := Z.of_N (N_of_ascii c) in
  (48 <=? n) && (n <=? 57) || (n =? 45) || (n =? 46) || (n =? 43) || (n =? 69) || (n =? 101).

Fixpoint scan_number (l : list ascii) : string * list ascii :=
  match l with
  | c :: l' => if number_char c then let '(s, rest) := scan_number l' in (String c s, rest)
               else (EmptyString, l)
  | [] => (EmptyString, [])
  end.

Fixpoint expect_chars (s : list ascii) (l : list ascii) : option (list ascii) :=
  match s, l with
  | [], _ => Some l
  | c :: s', d :: l' => if Ascii.eqb c d then expect_chars s' l' else None
  | _, [] => None
  end.

(** Values, elements after the first, members after the first. *)
Fixpoint value (fuel : nat) (l : list ascii) : option (Value * list ascii) :=
  match fuel with
  | O => None
  | S fuel' =>
      match skip l with
      | c :: l' =>
          if Ascii.eqb c quote then scan_string l' ≫= fun '(s, rest) => Some (JString s, rest)
          else if Ascii.eqb c "{" then
            match skip l' with
            | "}"%char :: rest => Some (Object [], rest)
            | _ => members fuel' l' []
            end
          else if Ascii.eqb c "[" then
            match skip l' with
            | "]"%char :: rest => Some (Array [], rest)
            | _ => elements fuel' l' []
            end
          else if Ascii.eqb c "n" then expect_chars (list_ascii_of_string "null") (skip l) ≫= fun r => Some (Null, r)
          else if Ascii.eqb c "t" then expect_chars (list_ascii_of_string "true") (skip l) ≫= fun r => Some (Bool true, r)
          else if Ascii.eqb c "f" then expect_chars (list_ascii_of_string "false") (skip l) ≫= fun r => Some (Bool false, r)
          else if number_char c then let '(t, rest) := scan_number (skip l) in Some (Number t, rest)
          else None
      | [] => None
      end
  end
with members (fuel : nat) (l : list ascii) (acc : Fields) : option (Value * list ascii) :=
  match fuel with
  | O => None
  | S fuel' =>
      match skip l with
      | c :: l' =>
          if Ascii.eqb c quote then
            scan_string l' ≫= fun '(k, rest) =>
            expect_chars [":"%char] (skip rest) ≫= fun rest =>
            value fuel' rest ≫= fun '(v, rest) =>
            match skip rest with
            | ","%char :: rest => members fuel' rest (obj_insert k v acc)
            | "}"%char :: rest => Some (Object (obj_insert k v acc), rest)
            | _ => None
            end
          else None
      | [] => None
      end
  end
with elements (fuel : nat) (l : list ascii) (acc : list Value) : option (Value * list ascii) :=
  match fuel with
  | O => None
  | S fuel' =>
      value fuel' l ≫= fun '(v, rest) =>
      match skip rest with
      | ","%char :: rest => elements fuel' rest (acc ++ [v])
      | "]"%char :: rest => Some (Array (acc ++ [v]), rest)
      | _ => None
      end
  end.

Definition parse (l : list byte) : option Value :=
  let cs := ascii_of_byte <$> l in
  value (S (length cs)) cs ≫= fun '(v, rest) => match skip rest with [] => Some v | _ => None end.

Definition quoted (s : string) : string := String quote (s +:+ String quote EmptyString).

Fixpoint join (sep : string) (l : list string) : string :=
  match l with [] => "" | [x] => x | x :: l' => x +:+ sep +:+ join sep l' end.

Fixpoint print (v : Value) : string :=
  match v with
  | Null => "null"
  | Bool b => if b then "true" else "false"
  | Number t => t
  | JString s => quoted s
  | Array l => "[" +:+ join "," (map print l) +:+ "]"
  | Object fs => "{" +:+ join "," (map (fun kv => quoted kv.1 +:+ ":" +:+ print kv.2) fs) +:+ "}"
  end.

Fixpoint as_digits (l : list ascii) (acc : Z) : option Z :=
  match l with
  | [] => Some acc
  | c :: l' =>
      let n := Z.of_N (N_of_ascii c) - 48 in
      if (0 <=? n) && (n <=? 9) then as_digits l' (acc * 10 + n) else None
  end.

Definition as_u64 (t : string) : option Z :=
  as_digits (list_ascii_of_string t) 0 ≫= fun n => if n <=? u64_max then Some n else None.

#[global] Instance json : SerdeJson := {|
  from_slice := parse;
  to_vec v := Some (bytes_of (print v));
  number_as_u64 := as_u64;
  number_from_str t := Some t
|}.
End RefJson.
