(* ===== verification/Preference.v ===== *)
(** [src/src/policy/preference.rs]: the routing preference a completion
    request carries in its model suffix or in [provider.sort]. *)

From S2P Require Import Prelude Json.

Definition NITRO_SUFFIX : string := ":nitro".
Definition FLOOR_SUFFIX : string := ":floor".

Inductive Preference : Type := Default | Balanced | Price | Throughput | Latency.

#[global] Instance Preference_eq_dec : EqDecision Preference.
Proof. solve_decision. Defined.

Record RequestPreference : Type := {
  canonical_model : string;
  preference : Preference
}.

Inductive PreferenceError : Type := InvalidModel | InvalidSort.

(** [IntoResponse for PreferenceError]: a 400 with the error's message. *)
Definition preference_error_message (e : PreferenceError) : string :=
  match e with
  | InvalidModel => "model must be a string"
  | InvalidSort => "provider.sort must be one of: price, throughput, latency"
  end.

Definition preference_error_response (e : PreferenceError) : Z * Value :=
  (400%Z, json_object [("error", json_object [("message", JString (preference_error_message e))])]).

Definition parse_sort (sort : Value) : result PreferenceError Preference :=
  match as_str sort with
  | Some s =>
      if String.eqb s "price" then Ok Price
      else if String.eqb s "throughput" then Ok Throughput
      else if String.eqb s "latency" then Ok Latency
      else Err InvalidSort
  | None => Err InvalidSort
  end.

(** The canonical model and the preference its suffix asks for. *)
Definition split_model (model : string) : string * Preference :=
  match strip_suffix NITRO_SUFFIX model with
  | Some m => (m, Throughput)
  | None =>
      match strip_suffix FLOOR_SUFFIX model with
      | Some m => (m, Price)
      | None => (model, Default)
      end
  end.

(** [option.map(parse).transpose()?]. *)
Definition transpose {E A} (o : option (result E A)) : result E (option A) :=
  match o with
  | None => Ok None
  | Some (Ok a) => Ok (Some a)
  | Some (Err e) => Err e
  end.

(** [parse_request] returns the parsed preference and the request it has
    rewritten in place. *)
Definition parse_request (request : Value)
    : outcome (result PreferenceError (RequestPreference * Value)) :=
  let? model := ok_or InvalidModel (value_get "model" request ≫= as_str) in
  let '(canonical, suffix_preference) := split_model model in
  let? explicit_preference := transpose (parse_sort <$> pointer ["provider"; "sort"] request) in
  let parsed := {| canonical_model := canonical;
                   preference := default suffix_preference explicit_preference |} in
  set_index "model" (JString (canonical_model parsed)) request ≫= fun request' =>
  Done (Ok (parsed, request')).

(** ** What parsing promises *)

Lemma value_get_object k v x :
  value_get k v = Some x -> exists fs, v = Object fs /\ obj_get k fs = Some x.
Proof. destruct v; cbn; try done. eauto. Qed.

Lemma parse_sort_Ok v p :
  parse_sort v = Ok p -> p <> Balanced /\ p <> Default.
Proof.
  unfold parse_sort. destruct (as_str v) as [s|]; [|done].
  repeat case_match; naive_solver.
Qed.

Lemma split_model_preference m : (split_model m).2 <> Balanced /\ (split_model m).2 <> Latency.
Proof. unfold split_model. by repeat case_match. Qed.

Lemma split_model_canonical m :
  match split_model m with
  | (c, Throughput) => m = c +:+ ":nitro"
  | (c, Price) => m = c +:+ ":floor"
  | (c, _) => c = m /\ (forall x, m <> x +:+ ":nitro") /\ (forall x, m <> x +:+ ":floor")
  end.
Proof.
  unfold split_model. destruct (strip_suffix NITRO_SUFFIX m) as [c|] eqn:E.
  - by apply strip_suffix_Some in E.
  - destruct (strip_suffix FLOOR_SUFFIX m) as [c|] eqn:E'.
    + by apply strip_suffix_Some in E'.
    + split_and!; [done|intros x Hx%strip_suffix_Some; unfold NITRO_SUFFIX in E; congruence
                  |intros x Hx%strip_suffix_Some; unfold FLOOR_SUFFIX in E'; congruence].
Qed.

(** The relation between a request and what parsing makes of it. *)
Definition parsed_as (request : Value) (r : RequestPreference) (request' : Value) : Prop :=
  exists fs model,
    request = Object fs /\ obj_get "model" fs = Some (JString model) /\
    canonical_model r = (split_model model).1 /\
    request' = Object (obj_insert "model" (JString (canonical_model r)) fs) /\
    match pointer ["provider"; "sort"] request with
    | None => preference r = (split_model model).2
    | Some sort => parse_sort sort = Ok (preference r)
    end.

Lemma parse_request_Ok request r request' :
  parse_request request = Done (Ok (r, request')) <-> parsed_as request r request'.
Proof.
  unfold parse_request, parsed_as. split.
  - destruct (ok_or _ _) as [model|] eqn:E; [|done].
    apply ok_or_Ok, bind_Some in E as (v & (fs & -> & Hv)%value_get_object & Hs).
    destruct v; try done. injection Hs as ->.
    destruct (split_model model) as [c p] eqn:Hsplit.
    destruct (transpose _) as [ex|] eqn:Ht; [|done]. cbn. intros [= <- <-].
    exists fs, model. rewrite Hsplit. split_and!; try done.
    destruct (pointer ["provider"; "sort"] (Object fs)) as [sort|]; cbn in Ht.
    + destruct (parse_sort sort) eqn:Hps; naive_solver.
    + naive_solver.
  - intros (fs & model & -> & Hm & Hc & -> & Hp). cbn [value_get]. rewrite Hm. cbn [ok_or mbind option_bind as_str].
    destruct (split_model model) as [c p] eqn:Hsplit. cbn in Hc, Hp.
    destruct (pointer ["provider"; "sort"] (Object fs)) as [sort|]; cbn [fmap option_fmap option_map transpose].
    + rewrite Hp. destruct r; cbn in *. by subst.
    + destruct r; cbn in *. by subst.
Qed.

Lemma parse_request_total request : exists x, parse_request request = Done x.
Proof.
  unfold parse_request. destruct (ok_or _ _) as [model|] eqn:E; [|eauto].
  apply ok_or_Ok, bind_Some in E as (v & (fs & -> & Hv)%value_get_object & Hs).
  destruct (split_model model). destruct (transpose _); cbn; eauto.
Qed.

Lemma parsed_as_not_balanced request r request' :
  parsed_as request r request' -> preference r <> Balanced.
Proof.
  intros (fs & model & -> & _ & _ & _ & Hp).
  destruct (pointer _ _) as [sort|].
  - by apply parse_sort_Ok in Hp as [? _].
  - rewrite Hp. apply split_model_preference.
Qed.
