(* ===== verification/Measurements.v ===== *)
(** [src/src/policy/measurements.rs]: the smoothed throughput and
    time-to-first-token observations per profile, provider and model.  The
    [RwLock] serializes every access, so an operation is one atomic step on the
    map; durations are nanosecond counts and token counts are [u64]. *)

From Stdlib Require Import SpecFloat ZArith.
From S2P Require Import Prelude Float64 FloatBounds RoutingProfile.

(** The literal [0.2]. *)
Definition EWMA_ALPHA : f64 := S754_finite false 7205759403792794 (-55).

Record ModelMeasurements : Type := {
  throughput_tokens_per_second : f64;
  time_to_first_token_seconds : f64
}.

Record Observation : Type := {
  completion_tokens : Z;
  stream_duration : Z;
  time_to_first_token : Z
}.

Inductive MeasurementError : Type := ZeroStreamDuration.

Definition MeasurementStore : Type :=
  gmap RoutingProfile (gmap string (gmap string ModelMeasurements)).

Definition store_default : MeasurementStore := ∅.

Definition ewma (previous sample : f64) : f64 :=
  f64_add (f64_mul EWMA_ALPHA sample) (f64_mul (f64_sub f64_one EWMA_ALPHA) previous).

Definition sample_of (o : Observation) : ModelMeasurements :=
  {| throughput_tokens_per_second :=
       f64_div (f64_of_Z (completion_tokens o)) (as_secs_f64 (stream_duration o));
     time_to_first_token_seconds := as_secs_f64 (time_to_first_token o) |}.

Definition smooth (current sample : ModelMeasurements) : ModelMeasurements :=
  {| throughput_tokens_per_second :=
       ewma (throughput_tokens_per_second current) (throughput_tokens_per_second sample);
     time_to_first_token_seconds :=
       ewma (time_to_first_token_seconds current) (time_to_first_token_seconds sample) |}.

(** [observe_for]: the nested [entry(..).or_default()] chain, then
    [and_modify(..).or_insert(sample)]. *)
Definition observe_for (store : MeasurementStore) (profile : RoutingProfile)
    (provider_id canonical_slug : string) (o : Observation)
    : result MeasurementError (ModelMeasurements * MeasurementStore) :=
  if (stream_duration o =? 0)%Z then Err ZeroStreamDuration
  else
    let sample := sample_of o in
    let by_provider := default ∅ (store !! profile) in
    let by_model := default ∅ (by_provider !! provider_id) in
    let current :=
      match by_model !! canonical_slug with
      | Some current => smooth current sample
      | None => sample
      end in
    Ok (current, <[profile := <[provider_id := <[canonical_slug := current]> by_model]> by_provider]> store).

Definition observe (store : MeasurementStore) (provider_id canonical_slug : string) (o : Observation) :=
  observe_for store Production provider_id canonical_slug o.

Definition get_for (store : MeasurementStore) (profile : RoutingProfile)
    (provider_id canonical_slug : string) : option ModelMeasurements :=
  store !! profile ≫= fun by_provider =>
  by_provider !! provider_id ≫= fun by_model => by_model !! canonical_slug.

Definition get (store : MeasurementStore) (provider_id canonical_slug : string) :=
  get_for store Production provider_id canonical_slug.

(** ** Lookups after an observation *)

Lemma observe_for_get store profile provider slug o m store' :
  observe_for store profile provider slug o = Ok (m, store') ->
  get_for store' profile provider slug = Some m /\
  m = match get_for store profile provider slug with
      | Some current => smooth current (sample_of o)
      | None => sample_of o
      end.
Proof.
  unfold observe_for, get_for, MeasurementStore in *. destruct (stream_duration o =? 0)%Z; [done|]. intros [= <- <-].
  rewrite lookup_insert_eq. cbn. rewrite lookup_insert_eq. cbn. rewrite lookup_insert_eq.
  split; [done|]. destruct (store !! profile) as [bp|]; cbn; [|by rewrite !lookup_empty].
  destruct (bp !! provider) as [bm|]; cbn; [done|by rewrite lookup_empty].
Qed.

Lemma observe_for_get_other store profile provider slug o m store' profile' provider' slug' :
  observe_for store profile provider slug o = Ok (m, store') ->
  (profile', provider', slug') <> (profile, provider, slug) ->
  get_for store' profile' provider' slug' = get_for store profile' provider' slug'.
Proof.
  unfold observe_for, get_for, MeasurementStore in *. destruct (stream_duration o =? 0)%Z; [done|]. intros [= <- <-] Hne.
  destruct (decide (profile' = profile)) as [->|]; [|by rewrite lookup_insert_ne].
  rewrite lookup_insert_eq. cbn.
  destruct (decide (provider' = provider)) as [->|].
  - rewrite lookup_insert_eq. cbn. rewrite lookup_insert_ne by congruence.
    destruct (store !! profile) as [bp|]; cbn; [|by rewrite !lookup_empty].
    destruct (bp !! provider) as [bm|]; cbn; [done|by rewrite lookup_empty].
  - rewrite lookup_insert_ne by congruence.
    destruct (store !! profile) as [bp|]; cbn; [done|by rewrite lookup_empty].
Qed.

Lemma observe_for_Err store profile provider slug o :
  observe_for store profile provider slug o = Err ZeroStreamDuration <-> stream_duration o = 0%Z.
Proof.
  unfold observe_for. destruct (Z.eqb_spec (stream_duration o) 0); split; done || congruence.
Qed.

(** ** Stores the program can reach *)

(** What every stored measurement must satisfy for [Candidate::new]. *)
Definition measurements_valid (m : ModelMeasurements) : bool :=
  nonneg_finite (throughput_tokens_per_second m) && nonneg_finite (time_to_first_token_seconds m).

Definition store_valid (store : MeasurementStore) : Prop :=
  forall profile provider slug m,
    get_for store profile provider slug = Some m -> measurements_valid m = true.

Lemma store_default_valid : store_valid store_default.
Proof. intros ? ? ? m. unfold get_for, store_default, MeasurementStore. by rewrite lookup_empty. Qed.

(** Token counts are [u64] and durations at most [u64::MAX] seconds. *)
Definition observation_wf (o : Observation) : Prop :=
  (0 <= completion_tokens o < 2 ^ 64 /\
   0 <= stream_duration o < 2 ^ 64 * NANOS_PER_SEC /\
   0 <= time_to_first_token o < 2 ^ 64 * NANOS_PER_SEC)%Z.

(** The stores built by observations from the empty one. *)
Inductive observed : MeasurementStore -> Prop :=
| observed_default : observed store_default
| observed_step store profile provider slug o m store' :
    observed store -> observation_wf o ->
    observe_for store profile provider slug o = Ok (m, store') -> observed store'.

(** A sample is at most [2^100]; the smoothed value stays below [2^101]. *)
Definition measurements_bounded (b : Z) (m : ModelMeasurements) : Prop :=
  at_most b 90 (throughput_tokens_per_second m) /\ at_most b 90 (time_to_first_token_seconds m).

Lemma measurements_bounded_valid b m : measurements_bounded b m -> measurements_valid m = true.
Proof.
  intros [H1 H2]. unfold measurements_valid.
  by rewrite (at_most_nonneg _ _ _ H1), (at_most_nonneg _ _ _ H2).
Qed.

Lemma sample_bounded o :
  observation_wf o -> stream_duration o <> 0%Z -> measurements_bounded 1024 (sample_of o).
Proof.
  intros (Ht & Hd & Hf) Hd0.
  destruct (as_secs_f64_bounds _ Hd) as [D1 D2]. destruct (as_secs_f64_bounds _ Hf) as [F1 _].
  destruct (f64_of_Z_bounds (completion_tokens o) 1 64) as [T1 _]; [lia|lia|lia| |].
  { rewrite Z.mul_1_l, (pw_split 0 64), Z.sub_0_r by lia.
    apply Z.mul_le_mono_nonneg_r; [pose proof (pw_pos 0); lia|lia]. }
  apply (at_most_weaken 1 64 1 65) in T1; [|vm_compute; discriminate].
  destruct (f64_div_bounds 65 (-30) 65 96 _ _ ltac:(lia) ltac:(lia) ltac:(lia) ltac:(lia) T1 (D2 ltac:(lia)) D1)
    as [Q _].
  split; [apply (at_most_weaken 1 96 1024 90 _)|apply (at_most_weaken 1 65 1024 90 _)];
    try assumption; vm_compute; discriminate.
Qed.

Lemma ewma_bounded previous sample :
  at_most 2048 90 previous -> at_most 1024 90 sample -> at_most 2048 90 (ewma previous sample).
Proof.
  intros Hp Hs. unfold ewma.
  apply (f64_mul_bound 7205759403792794 55 1024 90 256 90) in Hs; [|lia..|vm_compute; discriminate].
  assert (f64_sub f64_one EWMA_ALPHA = S754_finite false 7205759403792794 (-53)) as -> by vm_reflexivity.
  apply (f64_mul_bound 7205759403792794 53 2048 90 1792 90) in Hp; [|lia..|vm_compute; discriminate].
  by destruct (f64_add_bounds 256 1792 2048 90 _ _ ltac:(lia) ltac:(lia) ltac:(lia) ltac:(lia) ltac:(lia) Hs Hp).
Qed.

Lemma smooth_bounded current sample :
  measurements_bounded 2048 current -> measurements_bounded 1024 sample ->
  measurements_bounded 2048 (smooth current sample).
Proof. intros [] []. by split; apply ewma_bounded. Qed.

Lemma observed_bounded store :
  observed store -> forall profile provider slug m,
    get_for store profile provider slug = Some m -> measurements_bounded 2048 m.
Proof.
  induction 1 as [|store profile provider slug o m store' _ IH Ho H]; intros profile' provider' slug' m' Hg.
  { unfold get_for, store_default, MeasurementStore in Hg. by rewrite lookup_empty in Hg. }
  destruct (decide ((profile', provider', slug') = (profile, provider, slug))) as [[= -> -> ->]|Hne].
  - destruct (observe_for_get _ _ _ _ _ _ _ H) as [Hg' Hm]. rewrite Hg in Hg'. injection Hg' as ->.
    assert (measurements_bounded 1024 (sample_of o)) as Hs.
    { apply sample_bounded; [done|]. intros E. apply (observe_for_Err store profile provider slug) in E. congruence. }
    rewrite Hm. destruct (get_for store profile provider slug) as [c|] eqn:E.
    + apply smooth_bounded; eauto.
    + destruct Hs as [H1 H2].
      split; [revert H1|revert H2]; apply at_most_weaken; vm_compute; discriminate.
  - rewrite (observe_for_get_other _ _ _ _ _ _ _ _ _ _ H Hne) in Hg. eauto.
Qed.

Lemma observed_valid store : observed store -> store_valid store.
Proof.
  intros H profile provider slug m Hg.
  by apply (measurements_bounded_valid 2048), (observed_bounded store H profile provider slug).
Qed.
