(* ===== verification/Share.v ===== *)
(** The rolling traffic share of [src/src/policy/select.rs] ([ShareTracker]):
    a bounded window of recent selections with a count per provider, and the
    max-share quota over it. *)

From Stdlib Require Import QArith Qround ZArith.
From S2P Require Import Prelude Float64 RustDecimal.

#[local] Open Scope Z_scope.

Record ShareTracker : Type := {
  capacity : Z;
  history : list string;
  counts : gmap string Z
}.

Inductive ShareTrackerError : Type := ZeroCapacity.

(** [VecDeque::<String>::with_capacity] panics when its buffer would exceed
    [isize::MAX] bytes, at 24 bytes a [String]. *)
Definition MAX_CAPACITY : Z := (2 ^ 63 - 1) / 24.

Definition ShareTracker_new (capacity : Z) : outcome (result ShareTrackerError ShareTracker) :=
  if capacity =? 0 then Done (Err ZeroCapacity)
  else if MAX_CAPACITY <? capacity then Panic "capacity overflow"
  else Done (Ok {| capacity := capacity; history := []; counts := ∅ |}).

Definition history_len (t : ShareTracker) : Z := Z.of_nat (length (history t)).

(** [usize] subtraction, wrapping as release builds do. *)
Definition usize_sub (a b : Z) : Z := (a - b) mod 2 ^ 64.

(** The eviction of the oldest entry of a full window. *)
Definition evict (t : ShareTracker) : outcome ShareTracker :=
  if history_len t =? capacity t then
    match history t with
    | [] => Panic "a full share window has an oldest entry"
    | expired :: rest =>
        expect "every share history entry has a count" (counts t !! expired) ≫= fun count =>
        let count := usize_sub count 1 in
        Done {| capacity := capacity t; history := rest;
                counts := if count =? 0 then delete expired (counts t)
                          else <[expired := count]> (counts t) |}
    end
  else Done t.

Definition record (t : ShareTracker) (provider_id : string) : outcome ShareTracker :=
  evict t ≫= fun t =>
  Done {| capacity := capacity t;
          history := history t ++ [provider_id];
          counts := <[provider_id := default 0 (counts t !! provider_id) + 1]> (counts t) |}.

Definition count (t : ShareTracker) (provider_id : string) : Z :=
  default 0 (counts t !! provider_id).

Definition incumbent_provider_id (t : ShareTracker) : option string :=
  max_by Z.compare (map_to_list (counts t)).*2 ≫= fun highest_count =>
  find_b (fun p => count t p =? highest_count) (rev (history t)).

(** The window length and [provider_id]'s count after one more selection. *)
Definition next_len (t : ShareTracker) : Z :=
  Z.min (usize_saturating_add (history_len t) 1) (capacity t).

Definition expired_matches (t : ShareTracker) (provider_id : string) : Z :=
  if (history_len t =? capacity t) && is_some_and (String.eqb provider_id) (head (history t))
  then 1 else 0.

Definition next_count (t : ShareTracker) (provider_id : string) : Z :=
  count t provider_id + 1 - expired_matches t provider_id.

Section WithDecimal.
Context {D : RustDecimal}.

Definition share (t : ShareTracker) (provider_id : string) : outcome decimal :=
  match history t with
  | [] => Done dec_zero
  | _ => dec_div (dec_of_Z (count t provider_id)) (dec_of_Z (history_len t))
  end.

Definition quota (max_share : decimal) (len : Z) : outcome Z :=
  dec_mul max_share (dec_of_Z len) ≫= fun product =>
  expect "validated share quota fits usize" (dec_to_usize (dec_ceil product)).

Definition allows_next (t : ShareTracker) (provider_id : string) (max_share : decimal) : outcome bool :=
  quota max_share (next_len t) ≫= fun quota =>
  Done (next_count t provider_id <=? quota).
End WithDecimal.

(** ** The window invariant *)

Fixpoint occurrences (p : string) (l : list string) : Z :=
  match l with
  | [] => 0
  | q :: l' => (if String.eqb p q then 1 else 0) + occurrences p l'
  end.

Record share_wf (t : ShareTracker) : Prop := {
  wf_capacity : 0 < capacity t <= usize_max;
  wf_length : history_len t <= capacity t;
  wf_counts p : counts t !! p = if occurrences p (history t) =? 0 then None
                                else Some (occurrences p (history t))
}.

Lemma occurrences_nonneg p l : 0 <= occurrences p l.
Proof. induction l as [|q l IH]; cbn; [lia|]. case_match; lia. Qed.

Lemma occurrences_app p l k : occurrences p (l ++ k) = occurrences p l + occurrences p k.
Proof. induction l as [|q l IH]; cbn; [lia|]. lia. Qed.

Lemma occurrences_le p l : occurrences p l <= Z.of_nat (length l).
Proof. induction l as [|q l IH]; cbn [occurrences length]; [lia|]. case_match; lia. Qed.

Lemma occurrences_all p l : Forall (fun q => q = p) l -> occurrences p l = Z.of_nat (length l).
Proof.
  induction 1 as [|q l -> _ IH]; [done|]. cbn [occurrences length].
  rewrite String.eqb_refl. lia.
Qed.

Lemma occurrences_pos p l : 0 < occurrences p l <-> p ∈ l.
Proof.
  induction l as [|q l IH]; cbn; [split; [lia|intros H; inversion H]|].
  rewrite elem_of_cons, <- IH. pose proof (occurrences_nonneg p l).
  destruct (String.eqb_spec p q); [split; [auto|intros _; lia]|].
  split; [intros; right; lia|intros [?|?]; [done|lia]].
Qed.

Lemma wf_count t p : share_wf t -> count t p = occurrences p (history t).
Proof.
  intros W. unfold count. rewrite (wf_counts t W).
  destruct (Z.eqb_spec (occurrences p (history t)) 0) as [E|]; [by rewrite E|done].
Qed.

Lemma ShareTracker_new_wf cap t :
  0 <= cap <= usize_max -> ShareTracker_new cap = Done (Ok t) ->
  share_wf t /\ capacity t = cap /\ history t = [].
Proof.
  unfold ShareTracker_new. intros Hc. destruct (Z.eqb_spec cap 0); [done|].
  destruct (MAX_CAPACITY <? cap); [done|]. intros [= <-].
  split_and!; [|done..]. split; cbn; [lia|unfold history_len; cbn; lia|done].
Qed.

Lemma ShareTracker_new_Ok cap :
  0 < cap <= MAX_CAPACITY -> exists t, ShareTracker_new cap = Done (Ok t).
Proof.
  intros Hc. unfold ShareTracker_new. rewrite (proj2 (Z.eqb_neq cap 0)), (proj2 (Z.ltb_ge _ _)) by lia. eauto.
Qed.

Lemma capacity_usize cap : cap <= MAX_CAPACITY -> cap <= usize_max.
Proof. intros H. etransitivity; [exact H|]. by vm_compute. Qed.

Lemma usize_sub_small a : 1 <= a <= usize_max -> usize_sub a 1 = a - 1.
Proof. unfold usize_sub, usize_max. intros. apply Z.mod_small. lia. Qed.

Definition window_tail (t : ShareTracker) : list string :=
  if history_len t =? capacity t then tail (history t) else history t.

Lemma evict_wf t : share_wf t ->
  exists t', evict t = Done t' /\ capacity t' = capacity t /\ history t' = window_tail t /\
    history_len t' < capacity t /\
    forall p, counts t' !! p = if occurrences p (history t') =? 0 then None
                               else Some (occurrences p (history t')).
Proof.
  intros W. unfold evict, window_tail. pose proof (wf_length t W). pose proof (wf_capacity t W).
  destruct (Z.eqb_spec (history_len t) (capacity t)) as [E|E].
  2:{ exists t. split_and!; [done..|lia|apply W]. }
  destruct (history t) as [|q rest] eqn:Eh; [unfold history_len in E; rewrite Eh in E; cbn in E; lia|].
  rewrite (wf_counts t W q), Eh. cbn [occurrences]. rewrite String.eqb_refl.
  pose proof (occurrences_nonneg q rest). pose proof (occurrences_le q rest).
  assert (Z.of_nat (length rest) < capacity t).
  { unfold history_len in E. rewrite Eh in E. cbn [length] in E. lia. }
  destruct (Z.eqb_spec (1 + occurrences q rest) 0); [lia|]. cbn [expect mbind outcome_bind].
  rewrite usize_sub_small by lia. eexists. split_and!; [done..|]. intros p. cbn [counts history].
  replace (1 + occurrences q rest - 1) with (occurrences q rest) by lia.
  destruct (decide (p = q)) as [->|Hne].
  - destruct (Z.eqb_spec (occurrences q rest) 0); [by rewrite lookup_delete_eq|by rewrite lookup_insert_eq].
  - pose proof (wf_counts t W p) as Hp. rewrite Eh in Hp. cbn [occurrences] in Hp.
    destruct (String.eqb_spec p q); [done|]. rewrite Z.add_0_l in Hp.
    destruct (Z.eqb_spec (occurrences q rest) 0);
      [by rewrite lookup_delete_ne|by rewrite lookup_insert_ne].
Qed.

(** Recording never panics, keeps the window well formed and appends the
    selection to the window with its oldest entry evicted when full. *)
Lemma record_wf t p : share_wf t ->
  exists t', record t p = Done t' /\ share_wf t' /\ capacity t' = capacity t /\
             history t' = window_tail t ++ [p].
Proof.
  intros W. destruct (evict_wf t W) as (t1 & E & Hc & Hh & Hl & Hcnt).
  unfold record. rewrite E. cbn [mbind outcome_bind]. eexists. split_and!; [done| |done|cbn; by rewrite Hh].
  pose proof (wf_capacity t W). split; cbn [capacity counts history]; [by rewrite Hc| |].
  - unfold history_len in *. cbn [history]. rewrite length_app. cbn [length]. lia.
  - intros q. rewrite occurrences_app. cbn [occurrences].
    destruct (decide (q = p)) as [->|Hne].
    + rewrite lookup_insert_eq, Hcnt, String.eqb_refl. pose proof (occurrences_nonneg p (history t1)).
      destruct (Z.eqb_spec (occurrences p (history t1)) 0) as [E0|];
        (destruct (Z.eqb_spec (occurrences p (history t1) + (1 + 0)) 0); [lia|]); cbn; f_equal; lia.
    + rewrite lookup_insert_ne, Hcnt by congruence. destruct (String.eqb_spec q p); [done|].
      by rewrite !Z.add_0_r.
Qed.

Lemma next_len_wf t : share_wf t -> next_len t = Z.of_nat (length (window_tail t)) + 1.
Proof.
  intros W. unfold next_len, window_tail, usize_saturating_add, history_len.
  pose proof (wf_length t W) as Hl. pose proof (wf_capacity t W). unfold history_len in Hl.
  destruct (Z.eqb_spec (Z.of_nat (length (history t))) (capacity t)) as [E|E]; [|lia].
  destruct (history t); cbn [tail length] in *; lia.
Qed.

Lemma next_count_wf t p : share_wf t -> next_count t p = occurrences p (window_tail t ++ [p]).
Proof.
  intros W. unfold next_count, expired_matches, window_tail. rewrite (wf_count t p W), occurrences_app.
  cbn [occurrences]. rewrite String.eqb_refl.
  destruct (history_len t =? capacity t); cbn [andb]; [|lia].
  destruct (history t) as [|q rest]; cbn; [lia|]. destruct (String.eqb p q); lia.
Qed.

Lemma window_tail_occ t q : occurrences q (window_tail t) <= occurrences q (history t).
Proof.
  unfold window_tail. case_match; [|lia]. destruct (history t) as [|x l]; cbn; [lia|].
  case_match; lia.
Qed.

Lemma window_tail_len t : Z.of_nat (length (window_tail t)) + 1 >= history_len t.
Proof. unfold window_tail, history_len. case_match; [|lia]. destruct (history t); cbn; lia. Qed.

(** ** The quota *)

Section Quota.
Context {D : RustDecimal} (val : decimal -> Q) {L : DecimalLaws val}.
Context (max_share : decimal).

(** [ceil(max_share * len)], exactly. *)
Definition exact_quota (len : Z) : Z := Qceiling (val max_share * inject_Z len).

(** The share and the window sizes in use multiply exactly. *)
Definition quota_exact_upto (n : Z) : Prop :=
  (0 < val max_share <= 1)%Q /\
  forall k, 0 < k <= n -> representable (val max_share * inject_Z k).

Lemma exact_quota_mono a b : (0 <= val max_share)%Q -> a <= b -> exact_quota a <= exact_quota b.
Proof.
  intros Hm Hab. unfold exact_quota. apply Qceiling_resp_le.
  rewrite !(Qmult_comm (val max_share)). apply Qmult_le_compat_r; [by rewrite <- Zle_Qle|done].
Qed.

Lemma exact_quota_bounds n : (0 < val max_share <= 1)%Q -> 0 < n -> 1 <= exact_quota n <= n.
Proof.
  intros [Hm Hm1] Hn. unfold exact_quota. split.
  - assert (0 < Qceiling (val max_share * inject_Z n)); [|lia].
    rewrite Zlt_Qlt. eapply Qlt_le_trans; [|apply Qle_ceiling].
    apply Qmult_lt_0_compat; [done|]. by change 0%Q with (inject_Z 0); rewrite <- Zlt_Qlt.
  - rewrite <- (Qceiling_Z n) at 2. apply Qceiling_resp_le.
    rewrite <- (Qmult_1_l (inject_Z n)) at 2. apply Qmult_le_compat_r; [done|].
    change 0%Q with (inject_Z 0). rewrite <- Zle_Qle. lia.
Qed.

Lemma quota_spec n len :
  quota_exact_upto n -> 0 < len <= n -> n <= usize_max -> quota max_share len = Done (exact_quota len).
Proof.
  intros [Hm Hrep] Hlen Hn. unfold quota, dec_mul.
  assert (val (dec_of_Z len) == inject_Z len)%Q as Hz.
  { apply law_of_Z. unfold u64_max, usize_max in *. lia. }
  destruct (law_mul_exact max_share (dec_of_Z len)) as (c & -> & Hc).
  { eapply representable_compat; [|by apply Hrep]. by rewrite Hz. }
  cbn [expect mbind outcome_bind].
  rewrite (law_to_usize (dec_ceil c) (exact_quota len)); [done| |].
  - pose proof (exact_quota_bounds len Hm). lia.
  - rewrite law_ceil. unfold exact_quota. by rewrite Hc, Hz.
Qed.

Lemma allows_next_spec t p n :
  share_wf t -> quota_exact_upto n -> capacity t <= n <= usize_max ->
  allows_next t p max_share =
    Done (occurrences p (window_tail t ++ [p]) <=? exact_quota (Z.of_nat (length (window_tail t)) + 1)).
Proof.
  intros W Hq Hn. unfold allows_next.
  pose proof (wf_capacity t W). pose proof (wf_length t W). unfold history_len in *.
  rewrite (quota_spec n); [|done| |lia].
  - cbn. by rewrite next_count_wf, next_len_wf.
  - split; [rewrite next_len_wf by done; lia|]. unfold next_len. lia.
Qed.

(** Traffic that records only selections the quota allowed. *)
Inductive governed (cap : Z) : ShareTracker -> Prop :=
| governed_new t : ShareTracker_new cap = Done (Ok t) -> governed cap t
| governed_record t p t' :
    governed cap t -> allows_next t p max_share = Done true -> record t p = Done t' ->
    governed cap t'.

Lemma governed_wf cap t : 0 <= cap <= usize_max -> governed cap t -> share_wf t /\ capacity t = cap.
Proof.
  intros Hc. induction 1 as [t Ht|t p t' _ [W Hcap] _ Hr].
  - apply ShareTracker_new_wf in Ht as (? & ? & _); done.
  - destruct (record_wf t p W) as (t2 & E & W2 & Hc2 & _). rewrite Hr in E. injection E as ->.
    split; [done|congruence].
Qed.

Lemma governed_quota cap t q :
  0 <= cap <= usize_max -> quota_exact_upto cap -> governed cap t ->
  occurrences q (history t) <= exact_quota (history_len t).
Proof.
  intros Hc Hq. induction 1 as [t Ht|t p t' Hg IH Hal Hr].
  - apply ShareTracker_new_wf in Ht as (_ & _ & Hh); [|done]. unfold history_len. rewrite Hh. cbn.
    unfold exact_quota. change (inject_Z 0) with 0%Q. rewrite Qmult_0_r. done.
  - destruct (governed_wf cap t Hc Hg) as [W Hcap].
    destruct (record_wf t p W) as (t2 & E & _ & _ & Hh). rewrite Hr in E. injection E as <-.
    rewrite (allows_next_spec t p cap) in Hal by (try done; lia).
    injection Hal as Hal%Z.leb_le. unfold history_len. rewrite Hh, length_app. cbn [length].
    replace (Z.of_nat (length (window_tail t) + 1)) with (Z.of_nat (length (window_tail t)) + 1) by lia.
    destruct (decide (q = p)) as [->|Hne]; [done|].
    rewrite occurrences_app. cbn. destruct (String.eqb_spec q p); [done|]. rewrite !Z.add_0_r.
    etransitivity; [apply window_tail_occ|]. etransitivity; [exact IH|].
    apply exact_quota_mono; [apply Qlt_le_weak, Hq|]. pose proof (window_tail_len t). lia.
Qed.
End Quota.

(** ** The incumbent *)

Lemma counts_values t c : share_wf t ->
  c ∈ (map_to_list (counts t)).*2 -> exists p, p ∈ history t /\ c = occurrences p (history t).
Proof.
  intros W ([p c'] & -> & Hin)%list_elem_of_fmap. apply elem_of_map_to_list in Hin.
  rewrite (wf_counts t W) in Hin. pose proof (occurrences_nonneg p (history t)).
  destruct (Z.eqb_spec (occurrences p (history t)) 0); [done|]. injection Hin as <-.
  exists p. split; [|done]. apply occurrences_pos. lia.
Qed.

(** The incumbent has the largest count of the window, and exists exactly when
    the window is not empty. *)
Lemma incumbent_spec t p : share_wf t -> incumbent_provider_id t = Some p ->
  p ∈ history t /\ forall q, occurrences q (history t) <= occurrences p (history t).
Proof.
  intros W. unfold incumbent_provider_id. intros (h & Hmax & Hf)%bind_Some.
  apply (max_by_spec Z.compare) in Hmax as [_ Hall].
  apply find_b_Some in Hf as [Hc%Z.eqb_eq Hin].
  rewrite elem_of_rev in Hin.
  rewrite wf_count in Hc by done. split; [done|]. intros q.
  destruct (decide (0 < occurrences q (history t))) as [Hq|Hq]; [|pose proof (occurrences_nonneg p (history t)); lia].
  assert (occurrences q (history t) ∈ (map_to_list (counts t)).*2) as Hin'.
  { apply list_elem_of_fmap. exists (q, occurrences q (history t)). split; [done|].
    apply elem_of_map_to_list. rewrite (wf_counts t W). destruct (Z.eqb_spec (occurrences q (history t)) 0); [lia|done]. }
  specialize (Hall _ Hin'). rewrite Z.compare_ngt_iff in Hall. lia.
Qed.

Lemma incumbent_exists t : share_wf t -> history t <> [] -> is_Some (incumbent_provider_id t).
Proof.
  intros W Hne. unfold incumbent_provider_id.
  destruct (history t) as [|p l] eqn:Eh; [done|].
  destruct (max_by Z.compare (map_to_list (counts t)).*2) as [h|] eqn:Em.
  - apply (max_by_spec Z.compare) in Em as [Hin _].
    destruct (counts_values t h W Hin) as (q & Hq & ->). cbn [mbind option_bind].
    match goal with |- is_Some ?o => destruct o as [r|] eqn:Ef end; [eauto|exfalso].
    rewrite find_b_None in Ef. specialize (Ef q). rewrite wf_count, Z.eqb_refl in Ef by done.
    discriminate Ef. rewrite elem_of_rev. revert Hq. by rewrite Eh.
  - exfalso. assert (~ is_Some (max_by Z.compare (map_to_list (counts t)).*2)) as Hn by (rewrite Em; intros [? ?]; done).
    apply Hn, max_by_is_Some. intros E. apply fmap_nil_inv in E. apply map_to_list_empty_iff in E.
    pose proof (wf_counts t W p) as Hp. rewrite E, lookup_empty, Eh in Hp.
    assert (0 < occurrences p (p :: l)) by (apply occurrences_pos; left).
    destruct (Z.eqb_spec (occurrences p (p :: l)) 0); [lia|done].
Qed.
