(* ===== verification/Select.v ===== *)
(** [src/src/policy/select.rs]: one healthy route out of validated candidates,
    under the request's preference.  The [rand] crate (generator and weighted
    sampling) is the interface [RandCrate]; its documented behaviour is
    [RandLaws], which [RefRand] implements. *)

From Stdlib Require Import QArith ZArith SpecFloat.
From S2P Require Import Prelude Float64 RustDecimal Measurements Preference Share.

(** ** The [rand] crate *)

Class RandCrate : Type := {
  StdRng : Type;
  seed_from_u64 : Z -> StdRng;
  WeightedIndex : Type;
  weighted_index_new : list f64 -> option WeightedIndex;
  weighted_index_sample : WeightedIndex -> StdRng -> nat * StdRng
}.

(** [WeightedIndex::new] accepts non-empty non-negative weights with a positive
    sum, and [sample] never draws an index of weight zero. *)
Class RandLaws {R : RandCrate} : Prop := {
  law_new ws :
    Forall (fun w => f64_le f64_zero w = true /\ f64_le w f64_one = true) ws ->
    Exists (fun w => f64_lt f64_zero w = true) ws ->
    exists d, weighted_index_new ws = Some d;
  law_sample ws d rng :
    weighted_index_new ws = Some d ->
    exists w, ws !! (weighted_index_sample d rng).1 = Some w /\ f64_lt f64_zero w = true
}.

Section Candidates.
Context {D : RustDecimal}.

Record Candidate : Type := {
  c_provider_id : string;
  combined_price_per_mtok : decimal;
  c_priority : Z;
  measurements : option ModelMeasurements;
  is_healthy : bool
}.

Inductive CandidateError : Type :=
| NegativeInputPrice | NegativeOutputPrice | PriceOverflow | InvalidMeasurements.

Definition measurements_rejected (m : ModelMeasurements) : bool :=
  negb (is_finite (throughput_tokens_per_second m))
  || f64_lt (throughput_tokens_per_second m) f64_zero
  || negb (is_finite (time_to_first_token_seconds m))
  || f64_lt (time_to_first_token_seconds m) f64_zero.

Definition Candidate_new (provider_id : string) (input_price_per_mtok output_price_per_mtok : decimal)
    (priority : Z) (measurements : option ModelMeasurements) (healthy : bool)
    : result CandidateError Candidate :=
  if dec_lt input_price_per_mtok dec_zero then Err NegativeInputPrice
  else if dec_lt output_price_per_mtok dec_zero then Err NegativeOutputPrice
  else ok_or PriceOverflow (dec_checked_add input_price_per_mtok output_price_per_mtok)
    ≫= fun combined =>
  if is_some_and measurements_rejected measurements then Err InvalidMeasurements
  else Ok {| c_provider_id := provider_id; combined_price_per_mtok := combined;
             c_priority := priority; measurements := measurements; is_healthy := healthy |}.

Record PolicyConfig : Type := {
  combined_price_ceiling_per_mtok : decimal;
  hysteresis_fraction : f64;
  max_share : decimal
}.

Inductive PolicyConfigError : Type := NegativePriceCeiling | InvalidHysteresis | InvalidMaxShare.

Definition PolicyConfig_new (ceiling : decimal) (hysteresis : f64) (max_share : decimal)
    : result PolicyConfigError PolicyConfig :=
  if dec_lt ceiling dec_zero then Err NegativePriceCeiling
  else if negb (is_finite hysteresis) || f64_lt hysteresis f64_zero then Err InvalidHysteresis
  else if dec_le max_share dec_zero || dec_lt dec_one max_share then Err InvalidMaxShare
  else Ok {| combined_price_ceiling_per_mtok := ceiling; hysteresis_fraction := hysteresis;
             max_share := max_share |}.

(** ** Orders on candidates *)

Definition compare_priority : Candidate -> Candidate -> comparison :=
  then_with (compare_on c_priority Z.compare) (compare_on c_provider_id String.compare).

Definition compare_price : Candidate -> Candidate -> comparison :=
  then_with (compare_on combined_price_per_mtok dec_cmp) compare_priority.

Definition compare_optional_f64 (l r : option f64) : comparison :=
  match l, r with
  | Some x, Some y => total_cmp x y
  | Some _, None => Gt
  | None, Some _ => Lt
  | None, None => Eq
  end.

Definition compare_throughput : Candidate -> Candidate -> comparison :=
  then_with
    (compare_on (fun c => throughput_tokens_per_second <$> measurements c) compare_optional_f64)
    (compare_rev compare_priority).

(** Unmeasured latencies come last. *)
Definition compare_optional_latency (l r : option f64) : comparison :=
  match l, r with
  | Some x, Some y => total_cmp x y
  | Some _, None => Lt
  | None, Some _ => Gt
  | None, None => Eq
  end.

Definition compare_latency : Candidate -> Candidate -> comparison :=
  then_with
    (compare_on (fun c => time_to_first_token_seconds <$> measurements c) compare_optional_latency)
    compare_priority.

Definition strict_priority (candidates : list Candidate) : option Candidate :=
  min_by compare_priority candidates.

Definition healthy (candidates : list Candidate) : list Candidate := filter_b is_healthy candidates.

Definition throughput (c : Candidate) : option f64 :=
  match measurements c with
  | Some m => if f64_gt (throughput_tokens_per_second m) f64_zero
              then Some (throughput_tokens_per_second m) else None
  | None => None
  end.

(** ** Weighted selection *)

Section Weighted.
Context {R : RandCrate}.

Definition weighted_pick (candidates : list Candidate) (weights : list f64) (rng : StdRng)
    : option Candidate * StdRng :=
  let max_weight := foldl f64_max f64_zero weights in
  if f64_le max_weight f64_zero then (None, rng)
  else
    let normalized := (fun w => f64_div w max_weight) <$> weights in
    match weighted_index_new normalized with
    | None => (None, rng)
    | Some distribution =>
        let '(i, rng') := weighted_index_sample distribution rng in
        (candidates !! i, rng')
    end.

(** The candidates the default policy may pick: healthy, within the ceiling and
    within the rolling quota (evaluated only below the ceiling). *)
Fixpoint default_eligible (config : PolicyConfig) (recent_share : ShareTracker)
    (candidates : list Candidate) : outcome (list Candidate) :=
  match candidates with
  | [] => Done []
  | c :: cs =>
      (if dec_le (combined_price_per_mtok c) (combined_price_ceiling_per_mtok config)
       then allows_next recent_share (c_provider_id c) (max_share config)
       else Done false) ≫= fun keep : bool =>
      default_eligible config recent_share cs ≫= fun kept =>
      Done (if keep then c :: kept else kept)
  end.

Definition incumbent_of (recent_share : ShareTracker) (eligible : list Candidate) : option Candidate :=
  incumbent_provider_id recent_share ≫= fun provider_id =>
  find_b (fun c => String.eqb (c_provider_id c) provider_id) eligible.

(** The weight closure: throughput, flattened to the incumbent's inside the
    hysteresis band. *)
Definition default_weight (config : PolicyConfig) (incumbent : option Candidate) (c : Candidate) : f64 :=
  match throughput c with
  | None => f64_zero
  | Some candidate_throughput =>
      match incumbent ≫= throughput with
      | None => candidate_throughput
      | Some incumbent_throughput =>
          if is_some_and (fun i => negb (String.eqb (c_provider_id i) (c_provider_id c))) incumbent
             && f64_gt candidate_throughput incumbent_throughput
             && f64_le candidate_throughput
                  (f64_add incumbent_throughput
                     (f64_mul incumbent_throughput (hysteresis_fraction config)))
          then incumbent_throughput else candidate_throughput
      end
  end.

Definition select_default (candidates : list Candidate) (config : PolicyConfig)
    (recent_share : ShareTracker) (rng : StdRng) : outcome (option Candidate * StdRng) :=
  default_eligible config recent_share (healthy candidates) ≫= fun eligible =>
  let incumbent := incumbent_of recent_share eligible in
  let weights := default_weight config incumbent <$> eligible in
  let '(picked, rng') := weighted_pick eligible weights rng in
  Done (option_or picked (strict_priority eligible), rng').

(** [cheapest / price], squared, as a weight. *)
Definition balanced_weight (cheapest : decimal) (c : Candidate) : outcome f64 :=
  dec_div cheapest (combined_price_per_mtok c) ≫= fun quotient =>
  expect "a normalized positive Decimal price ratio fits f64" (dec_to_f64 quotient) ≫= fun ratio =>
  Done (f64_mul ratio ratio).

Definition select_balanced (candidates : list Candidate) (rng : StdRng)
    : outcome (option Candidate * StdRng) :=
  let healthy := healthy candidates in
  let free := filter_b (fun c => dec_is_zero (combined_price_per_mtok c)) healthy in
  match free with
  | _ :: _ => Done (weighted_pick free (repeat f64_one (length free)) rng)
  | [] =>
      match min_by dec_cmp (combined_price_per_mtok <$> healthy) with
      | None => Done (None, rng)
      | Some cheapest =>
          outcome_map (balanced_weight cheapest) healthy ≫= fun weights =>
          Done (weighted_pick healthy weights rng)
      end
  end.

Definition select_route (candidates : list Candidate) (preference : Preference)
    (config : PolicyConfig) (recent_share : ShareTracker) (rng : StdRng)
    : outcome (option Candidate * StdRng) :=
  match preference with
  | Default => select_default candidates config recent_share rng
  | Balanced => select_balanced candidates rng
  | Price => Done (min_by compare_price (healthy candidates), rng)
  | Throughput => Done (max_by compare_throughput (healthy candidates), rng)
  | Latency => Done (min_by compare_latency (healthy candidates), rng)
  end.
End Weighted.
End Candidates.

(** ** A reference generator: the [k]-th positive weight, [k] from the seed *)

Module RefRand.
Definition positive_indices (ws : list f64) : list nat :=
  filter_b (fun i => match ws !! i with Some w => f64_lt f64_zero w | None => false end)
    (seq 0 (length ws)).

#[global] Instance rand : RandCrate := {|
  StdRng := Z;
  seed_from_u64 n := n;
  WeightedIndex := list nat;
  weighted_index_new ws := match positive_indices ws with [] => None | l => Some l end;
  weighted_index_sample l rng :=
    (default 0%nat (l !! Z.to_nat (rng mod Z.of_nat (length l))), rng + 1)%Z
|}.

Lemma elem_of_positive_indices ws i :
  i ∈ positive_indices ws <-> exists w, ws !! i = Some w /\ f64_lt f64_zero w = true.
Proof.
  unfold positive_indices. rewrite elem_of_filter_b, list_elem_of_In, in_seq.
  destruct (ws !! i) as [w|] eqn:E; [|naive_solver].
  apply lookup_lt_Some in E as Hl. split; [naive_solver|].
  intros (w' & [= <-] & ->). split; [done|lia].
Qed.

#[global] Instance laws : RandLaws.
Proof.
  split.
  - intros ws _ (w & Hin & Hw)%Exists_exists. apply list_elem_of_lookup in Hin as [i Hi].
    assert (i ∈ positive_indices ws) as H by (apply elem_of_positive_indices; eauto).
    cbn. destruct (positive_indices ws); [inversion H|eauto].
  - intros ws d rng. cbn. destruct (positive_indices ws) as [|i l] eqn:E; [done|]. intros [= <-].
    apply elem_of_positive_indices. rewrite E.
    destruct ((i :: l) !! Z.to_nat (rng mod Z.of_nat (length (i :: l)))) as [j|] eqn:Ej.
    + cbn [default]. apply list_elem_of_lookup. eauto.
    + exfalso. apply lookup_ge_None in Ej.
      pose proof (Z.mod_pos_bound rng (Z.of_nat (length (i :: l)))) as Hm.
      cbn [length] in *. lia.
Qed.
End RefRand.
