(* ===== verification/SelectSpec.v ===== *)
(** What route selection promises: the orders are total preorders, a selected
    route is one of the candidates and best under the preference, and
    selection fails only when no candidate qualifies. *)

From Stdlib Require Import QArith ZArith SpecFloat.
From S2P Require Import Prelude Float64 RustDecimal Measurements Preference Share Select.

#[export] Instance compare_optional_f64_laws : CmpLaws compare_optional_f64.
Proof.
  split.
  - intros [x|] [y|]; cbn; try done. apply (cmp_antisym (cmp:=total_cmp)).
  - intros [x|] [y|] [z|]; cbn; try done. apply (cmp_trans (cmp:=total_cmp)).
Qed.

#[export] Instance compare_optional_latency_laws : CmpLaws compare_optional_latency.
Proof.
  split.
  - intros [x|] [y|]; cbn; try done. apply (cmp_antisym (cmp:=total_cmp)).
  - intros [x|] [y|] [z|]; cbn; try done. apply (cmp_trans (cmp:=total_cmp)).
Qed.

Section Orders.
Context {D : RustDecimal}.

#[export] Instance compare_priority_laws : CmpLaws compare_priority.
Proof.
  apply then_with_laws; [apply (compare_on_laws c_priority)|apply (compare_on_laws c_provider_id)];
    [apply Z_compare_laws|apply string_compare_laws].
Qed.

#[export] Instance compare_price_laws : CmpLaws dec_cmp -> CmpLaws compare_price.
Proof.
  intros L. apply then_with_laws; [|apply compare_priority_laws].
  by apply (compare_on_laws combined_price_per_mtok).
Qed.

#[export] Instance compare_throughput_laws : CmpLaws compare_throughput.
Proof.
  apply then_with_laws; [|apply compare_rev_laws, compare_priority_laws].
  apply (compare_on_laws (fun c => throughput_tokens_per_second <$> measurements c)).
  apply compare_optional_f64_laws.
Qed.

#[export] Instance compare_latency_laws : CmpLaws compare_latency.
Proof.
  apply then_with_laws; [|apply compare_priority_laws].
  apply (compare_on_laws (fun c => time_to_first_token_seconds <$> measurements c)).
  apply compare_optional_latency_laws.
Qed.

(** Distinct provider ids are never tied. *)
Lemma compare_priority_eq x y : compare_priority x y = Eq -> c_provider_id x = c_provider_id y.
Proof.
  unfold compare_priority, then_with, compare_on. destruct (_ ?= _)%Z; try done.
  by intros ?%string_compare_eq.
Qed.

Lemma elem_of_healthy c cs : c ∈ healthy cs <-> is_healthy c = true /\ c ∈ cs.
Proof. apply elem_of_filter_b. Qed.

Lemma Candidate_new_Ok pid i o pr m h c :
  Candidate_new pid i o pr m h = Ok c ->
  c_provider_id c = pid /\ c_priority c = pr /\ measurements c = m /\ is_healthy c = h /\
  dec_checked_add i o = Some (combined_price_per_mtok c) /\
  dec_lt i dec_zero = false /\ dec_lt o dec_zero = false /\
  is_some_and measurements_rejected m = false.
Proof.
  unfold Candidate_new. destruct (dec_lt i dec_zero); [done|]. destruct (dec_lt o dec_zero); [done|].
  intros (comb & H%ok_or_Ok & Hc)%bind_Ok.
  destruct (is_some_and measurements_rejected m) eqn:Hm; [done|]. by injection Hc as <-.
Qed.

(** Acceptance does not depend on which valid measurements a route has. *)
Lemma Candidate_new_measured pid i o pr h c m' :
  Candidate_new pid i o pr None h = Ok c ->
  (forall m, m' = Some m -> measurements_valid m = true) ->
  exists c', Candidate_new pid i o pr m' h = Ok c'.
Proof.
  intros H Hm. apply Candidate_new_Ok in H as (_ & _ & _ & _ & Hadd & Hi & Ho & _).
  unfold Candidate_new. rewrite Hi, Ho, Hadd. cbn.
  destruct m' as [m|]; cbn; [|eauto]. specialize (Hm m eq_refl).
  unfold measurements_valid, nonneg_finite in Hm. unfold measurements_rejected.
  apply andb_true_iff in Hm as [[-> H1%negb_true_iff]%andb_true_iff [-> H2%negb_true_iff]%andb_true_iff].
  rewrite H1, H2. cbn. eauto.
Qed.
End Orders.

Section Selection.
Context {D : RustDecimal} {R : RandCrate}.

Lemma weighted_pick_elem cs ws rng c rng' : weighted_pick cs ws rng = (Some c, rng') -> c ∈ cs.
Proof.
  unfold weighted_pick. destruct (f64_le _ _); [done|].
  destruct (weighted_index_new _) as [d|]; [|done].
  destruct (weighted_index_sample d rng) as [i r]. intros [= Hi _].
  apply list_elem_of_lookup. eauto.
Qed.

Lemma strict_priority_elem cs c : strict_priority cs = Some c -> c ∈ cs.
Proof. intros H. by apply (min_by_spec compare_priority) in H as [? _]. Qed.

Lemma default_eligible_spec config share cs kept :
  default_eligible config share cs = Done kept ->
  forall c, c ∈ kept <->
    c ∈ cs /\ dec_le (combined_price_per_mtok c) (combined_price_ceiling_per_mtok config) = true /\
    allows_next share (c_provider_id c) (max_share config) = Done true.
Proof.
  revert kept. induction cs as [|x cs IH]; intros kept; cbn.
  - intros [= <-] c. split; [intros H; inversion H|intros [H _]; inversion H].
  - intros (keep & Hk & (kept' & Hrec & [= <-])%bind_Done)%bind_Done c. apply IH with (c := c) in Hrec.
    destruct (dec_le (combined_price_per_mtok x) _) eqn:Hle; destruct keep; rewrite ?elem_of_cons, Hrec;
      naive_solver congruence.
Qed.

Lemma default_eligible_sublist config share cs kept :
  default_eligible config share cs = Done kept -> sublist kept cs.
Proof.
  revert kept. induction cs as [|x cs IH]; intros kept; cbn; [intros [= <-]; constructor|].
  intros (keep & Hk & (kept' & Hrec%IH & [= <-])%bind_Done)%bind_Done.
  destruct keep; by constructor.
Qed.

Lemma default_eligible_total config share cs :
  (forall p, exists b, allows_next share p (max_share config) = Done b) ->
  exists kept, default_eligible config share cs = Done kept.
Proof.
  intros H. induction cs as [|x cs [kept IH]]; cbn; [eauto|].
  destruct (dec_le _ _); [destruct (H (c_provider_id x)) as [b ->]|]; cbn; rewrite IH; cbn; eauto.
Qed.

(** What a preference asks of the selected candidate. *)
Definition preferred (pref : Preference) (config : PolicyConfig) (share : ShareTracker)
    (cs : list Candidate) (c : Candidate) : Prop :=
  match pref with
  | Default =>
      dec_le (combined_price_per_mtok c) (combined_price_ceiling_per_mtok config) = true /\
      allows_next share (c_provider_id c) (max_share config) = Done true
  | Balanced =>
      (exists f, f ∈ healthy cs /\ dec_is_zero (combined_price_per_mtok f) = true) ->
      dec_is_zero (combined_price_per_mtok c) = true
  | Price => forall y, y ∈ healthy cs -> compare_price c y <> Gt
  | Throughput => forall y, y ∈ healthy cs -> compare_throughput y c <> Gt
  | Latency => forall y, y ∈ healthy cs -> compare_latency c y <> Gt
  end.

Lemma select_default_elem cs config share rng c rng' :
  select_default cs config share rng = Done (Some c, rng') ->
  c ∈ healthy cs /\ preferred Default config share cs c.
Proof.
  unfold select_default. intros (eligible & He & H)%bind_Done.
  pose proof (default_eligible_spec _ _ _ _ He c) as Hc.
  destruct (weighted_pick eligible _ rng) as [picked r] eqn:Hp. injection H as Hpick _.
  assert (c ∈ eligible) as Hin; [|cbn; tauto].
  destruct picked as [x|]; cbn in Hpick.
  - injection Hpick as ->. by eapply weighted_pick_elem.
  - by apply strict_priority_elem.
Qed.

Lemma select_balanced_elem cs rng c rng' config share :
  select_balanced cs rng = Done (Some c, rng') ->
  c ∈ healthy cs /\ preferred Balanced config share cs c.
Proof.
  unfold select_balanced.
  pose proof (elem_of_filter_b (fun c => dec_is_zero (combined_price_per_mtok c)) (healthy cs)) as Hf.
  destruct (filter_b _ (healthy cs)) as [|f fs] eqn:Ef.
  - destruct (min_by dec_cmp _) as [cheapest|]; [|done].
    intros (ws & _ & H)%bind_Done. injection H as H. apply weighted_pick_elem in H. split; [done|].
    intros (g & Hg1 & Hg2). exfalso. assert (g ∈ @nil Candidate) as Hn by (apply Hf; done). inversion Hn.
  - intros [= H]. apply weighted_pick_elem, Hf in H as [Hz Hin]. split; [done|]. intros _. exact Hz.
Qed.

Lemma select_route_preferred {L : CmpLaws dec_cmp} cs pref config share rng c rng' :
  select_route cs pref config share rng = Done (Some c, rng') ->
  c ∈ healthy cs /\ preferred pref config share cs c.
Proof.
  destruct pref; cbn [select_route].
  - apply select_default_elem.
  - apply select_balanced_elem.
  - intros [= H _]. by apply (min_by_spec compare_price) in H.
  - intros [= H _]. by apply (max_by_spec compare_throughput) in H.
  - intros [= H _]. by apply (min_by_spec compare_latency) in H.
Qed.

Lemma select_route_elem cs pref config share rng c rng' :
  select_route cs pref config share rng = Done (Some c, rng') -> c ∈ cs.
Proof.
  intros H. assert (c ∈ healthy cs) as Hh; [|by apply elem_of_healthy in Hh as [_ ?]].
  destruct pref; cbn [select_route] in H.
  - by apply select_default_elem in H as [? _].
  - eapply (select_balanced_elem _ _ _ _ config share); done.
  - injection H as H _. by apply min_by_elem in H.
  - injection H as H _. by apply max_by_elem in H.
  - injection H as H _. by apply min_by_elem in H.
Qed.

(** Selection answers, and its answer is empty only when nothing qualifies. *)
Definition qualifies (pref : Preference) (config : PolicyConfig) (share : ShareTracker)
    (c : Candidate) : Prop :=
  is_healthy c = true /\
  (pref = Default ->
   dec_le (combined_price_per_mtok c) (combined_price_ceiling_per_mtok config) = true /\
   allows_next share (c_provider_id c) (max_share config) = Done true).

Lemma strict_priority_None cs : strict_priority cs = None -> cs = [].
Proof. by destruct cs. Qed.

Lemma select_route_None cs pref config share rng rng' c :
  pref <> Balanced -> select_route cs pref config share rng = Done (None, rng') ->
  c ∈ cs -> ~ qualifies pref config share c.
Proof.
  intros Hb H Hc [Hh Hq]. assert (c ∈ healthy cs) as Hin by by apply elem_of_healthy.
  destruct pref; cbn [select_route] in H; [|done|..].
  - unfold select_default in H. apply bind_Done in H as (el & He & H).
    destruct (weighted_pick _ _ _) as [picked r]. injection H as H _.
    assert (c ∈ el) as Hel by (eapply default_eligible_spec; [done|]; destruct Hq; done).
    destruct picked; [done|]. apply strict_priority_None in H as ->. inversion Hel.
  - destruct (healthy cs); [inversion Hin|done].
  - destruct (healthy cs); [inversion Hin|done].
  - destruct (healthy cs); [inversion Hin|done].
Qed.

Lemma select_route_total cs pref config share rng :
  pref <> Balanced -> (forall p, exists b, allows_next share p (max_share config) = Done b) ->
  exists x, select_route cs pref config share rng = Done x.
Proof.
  intros Hb H. destruct pref; cbn [select_route]; [|done|eauto..].
  unfold select_default. destruct (default_eligible_total config share (healthy cs) H) as [el ->].
  cbn. destruct (weighted_pick _ _ _). eauto.
Qed.
End Selection.

(** ** The default policy's pick *)

Section DefaultPick.
Context {D : RustDecimal} {R : RandCrate}.

Lemma f64_div_zero x : f64_lt f64_zero (f64_div f64_zero x) = false.
Proof. by destruct x as [[]|[]| |[]]. Qed.

Lemma foldl_max_zero n : foldl f64_max f64_zero (repeat f64_zero n) = f64_zero.
Proof. induction n as [|n IH]; [done|]. exact IH. Qed.

Lemma unmeasured_weights config inc (cs : list Candidate) :
  Forall (fun c => throughput c = None) cs ->
  default_weight config inc <$> cs = repeat f64_zero (length cs).
Proof. induction 1 as [|c cs H _ IH]; [done|]. cbn. rewrite IH. unfold default_weight. by rewrite H. Qed.

Lemma weighted_pick_positive {L : RandLaws} (cs : list Candidate) f rng c rng' :
  weighted_pick cs (f <$> cs) rng = (Some c, rng') -> f c <> f64_zero.
Proof.
  unfold weighted_pick. destruct (f64_le _ _); [done|]. set (m := foldl _ _ _).
  destruct (weighted_index_new _) as [d|] eqn:Ed; [|done].
  destruct (law_sample _ _ rng Ed) as (w & Hw & Hpos).
  destruct (weighted_index_sample d rng) as [i r]. cbn in Hw. intros [= Hi _] Hz.
  rewrite !list_lookup_fmap, Hi in Hw. cbn in Hw. injection Hw as <-.
  rewrite Hz, f64_div_zero in Hpos. done.
Qed.

(** By default the policy picks among the healthy candidates within the
    ceiling and the quota either one with a measured positive throughput or
    the one of strict priority; and when none of them is measured it picks
    strict priority without drawing a random number. *)
Lemma default_pick {L : RandLaws} cs config share rng c rng' :
  select_default cs config share rng = Done (Some c, rng') ->
  exists eligible, default_eligible config share (healthy cs) = Done eligible /\
    (is_Some (throughput c) \/ strict_priority eligible = Some c) /\
    (Forall (fun x => throughput x = None) eligible ->
     strict_priority eligible = Some c /\ rng' = rng).
Proof.
  unfold select_default. intros (el & Hel & H)%bind_Done. exists el. split; [done|].
  destruct (weighted_pick el _ rng) as [picked r] eqn:Hp. injection H as H <-. split.
  - destruct picked as [x|]; [|by right]. injection H as ->. left.
    apply weighted_pick_positive in Hp. unfold default_weight in Hp.
    destruct (throughput c); [eauto|done].
  - intros Hnone. rewrite unmeasured_weights in Hp by done.
    unfold weighted_pick in Hp. rewrite foldl_max_zero in Hp. injection Hp as <- <-. done.
Qed.
End DefaultPick.

(** ** The best candidate, by the values compared *)

Section Best.
Context {D : RustDecimal} {R : RandCrate} (val : decimal -> Q) {L : DecimalLaws val}.

(** Strict priority: the smaller priority number, then the smaller id. *)
Definition by_priority (c y : Candidate) : Prop :=
  (c_priority c < c_priority y)%Z \/
  c_priority c = c_priority y /\ String.compare (c_provider_id c) (c_provider_id y) <> Gt.

Definition as_cheap (c y : Candidate) : Prop :=
  (val (combined_price_per_mtok c) < val (combined_price_per_mtok y))%Q \/
  (val (combined_price_per_mtok c) == val (combined_price_per_mtok y))%Q /\ by_priority c y.

(** A measured candidate comes before one that is not. *)
Definition as_fast (c y : Candidate) : Prop :=
  match measurements c, measurements y with
  | Some m, Some n =>
      match total_cmp (throughput_tokens_per_second m) (throughput_tokens_per_second n) with
      | Gt => True
      | Eq => by_priority c y
      | Lt => False
      end
  | Some _, None => True
  | None, Some _ => False
  | None, None => by_priority c y
  end.

Definition as_prompt (c y : Candidate) : Prop :=
  match measurements c, measurements y with
  | Some m, Some n =>
      match total_cmp (time_to_first_token_seconds m) (time_to_first_token_seconds n) with
      | Lt => True
      | Eq => by_priority c y
      | Gt => False
      end
  | Some _, None => True
  | None, Some _ => False
  | None, None => by_priority c y
  end.

(** Within the price ceiling, and within the quota that the window leaves. *)
Definition affordable (config : PolicyConfig) (share : ShareTracker) (c : Candidate) : Prop :=
  (val (combined_price_per_mtok c) <= val (combined_price_ceiling_per_mtok config))%Q /\
  allows_next share (c_provider_id c) (max_share config) = Done true.

Definition measured_positive (c : Candidate) : Prop :=
  exists m, measurements c = Some m /\ f64_lt f64_zero (throughput_tokens_per_second m) = true.

Lemma throughput_positive c : is_Some (throughput c) -> measured_positive c.
Proof.
  unfold throughput, measured_positive. intros [x H]. destruct (measurements c) as [m|]; [|done].
  destruct (f64_gt _ _) eqn:E; [|done]. by exists m.
Qed.

(** What a request's preference asks of the selected one of its candidates
    (a request cannot ask for the balanced preference). *)
Definition best (pref : Preference) (config : PolicyConfig) (share : ShareTracker)
    (cs : list Candidate) (c : Candidate) : Prop :=
  match pref with
  | Price => forall y, y ∈ cs -> as_cheap c y
  | Throughput => forall y, y ∈ cs -> as_fast c y
  | Latency => forall y, y ∈ cs -> as_prompt c y
  | Default => affordable config share c /\
      (measured_positive c \/ forall y, y ∈ cs -> affordable config share y -> by_priority c y)
  | Balanced => False
  end.

Lemma compare_priority_by c y : compare_priority c y <> Gt -> by_priority c y.
Proof.
  unfold compare_priority, then_with, compare_on, by_priority.
  destruct (Z.compare_spec (c_priority c) (c_priority y)); naive_solver.
Qed.

Lemma compare_price_best c y : compare_price c y <> Gt -> as_cheap c y.
Proof.
  unfold compare_price, then_with, compare_on, as_cheap. rewrite (law_cmp (val := val)).
  destruct (Qcompare_spec (val (combined_price_per_mtok c)) (val (combined_price_per_mtok y)));
    eauto using compare_priority_by. done.
Qed.

Lemma compare_throughput_best c y : compare_throughput y c <> Gt -> as_fast c y.
Proof.
  unfold compare_throughput, then_with, compare_on, compare_rev, as_fast.
  destruct (measurements c) as [m|], (measurements y) as [n|]; cbn; auto using compare_priority_by; try done.
  rewrite (cmp_antisym (cmp:=total_cmp) (throughput_tokens_per_second m)).
  destruct (total_cmp _ _); cbn; auto using compare_priority_by. 
Qed.

Lemma compare_latency_best c y : compare_latency c y <> Gt -> as_prompt c y.
Proof.
  unfold compare_latency, then_with, compare_on, as_prompt.
  destruct (measurements c) as [m|], (measurements y) as [n|]; cbn; auto using compare_priority_by; try done.
  destruct (total_cmp _ _); cbn; auto using compare_priority_by.
Qed.

Lemma affordable_spec config share c :
  affordable config share c <->
  dec_le (combined_price_per_mtok c) (combined_price_ceiling_per_mtok config) = true /\
  allows_next share (c_provider_id c) (max_share config) = Done true.
Proof. unfold affordable. by rewrite (dec_le_spec val). Qed.

Lemma select_route_best {RL : RandLaws} cs pref config share rng c rng' :
  pref <> Balanced -> Forall (fun c => is_healthy c = true) cs ->
  select_route cs pref config share rng = Done (Some c, rng') -> best pref config share cs c.
Proof.
  intros Hb Hall Hs. pose proof (dec_cmp_laws val) as Hcmp.
  assert (forall y, y ∈ cs -> y ∈ healthy cs) as Hh.
  { intros y Hy. apply elem_of_healthy. rewrite Forall_forall in Hall. auto. }
  pose proof Hs as Hd. apply select_route_preferred in Hs as [_ Hp]. destruct pref; cbn in Hp |- *; [|done|..].
  - split; [by apply affordable_spec|]. cbn [select_route] in Hd.
    apply default_pick in Hd as (el & Hel & [?|Hst] & _); [left; by apply throughput_positive|right].
    intros y Hy Hay%affordable_spec. apply compare_priority_by.
    apply (min_by_spec compare_priority) in Hst as [_ Hmin]. apply Hmin, (default_eligible_spec _ _ _ _ Hel).
    split; [by apply Hh|done].
  - intros y Hy. apply compare_price_best. auto.
  - intros y Hy. apply compare_throughput_best. auto.
  - intros y Hy. apply compare_latency_best. auto.
Qed.
End Best.
