(* ===== verification/Config.v ===== *)
(** [src/src/config.rs]: the service's settings, read from the process
    environment.  The environment is a function from variable names to
    [env::var]'s result; [reqwest::Url] and the parsing of [f64] text are the
    interfaces [UrlCrate] and [FloatText]. *)

From Stdlib Require Import ZArith.
From S2P Require Import Prelude Float64 RustDecimal Share Select.

#[local] Open Scope Z_scope.

Definition DEFAULT_SIDECAR_URL : string := "http://127.0.0.1:4000".
Definition DEFAULT_SIDECAR_READINESS_URL : string := "http://127.0.0.1:19001/healthz/ready".
Definition DEFAULT_REGISTRY_PATH : string := "registry/providers.yaml".
Definition GATEWAY_KEY_ENV : string := "SEREN_ROUTER_GATEWAY_KEY".
Definition BETA_GATEWAY_KEY_ENV : string := "SEREN_ROUTER_BETA_GATEWAY_KEY".
Definition REGISTRY_PATH_ENV : string := "SEREN_ROUTER_REGISTRY_PATH".
Definition SIDECAR_READINESS_URL_ENV : string := "SEREN_ROUTER_SIDECAR_READINESS_URL".
Definition SIDECAR_URL_ENV : string := "SEREN_ROUTER_SIDECAR_URL".
Definition PRICE_CEILING_ENV : string := "SEREN_ROUTER_COMBINED_PRICE_CEILING_PER_MTOK".
Definition HYSTERESIS_ENV : string := "SEREN_ROUTER_HYSTERESIS_FRACTION".
Definition MAX_SHARE_ENV : string := "SEREN_ROUTER_MAX_SHARE".
Definition SHARE_WINDOW_ENV : string := "SEREN_ROUTER_SHARE_WINDOW".

(** The parts of a parsed URL the program inspects. *)
Class UrlCrate : Type := {
  Url : Type;
  url_parse : string -> option Url;
  url_scheme : Url -> string;
  url_host_str : Url -> option string;
  url_username : Url -> string;
  url_password : Url -> option string;
  url_query : Url -> option string;
  url_fragment : Url -> option string
}.

(** The reference: URLs as their text, all of them plain [http]. *)
Module RefUrl.
#[global] Instance url : UrlCrate :=
  {| Url := string; url_parse s := Some s; url_scheme _ := "http"; url_host_str _ := Some "localhost";
     url_username _ := ""; url_password _ := None; url_query _ := None; url_fragment _ := None |}.
End RefUrl.

Class FloatText : Type := { parse_f64 : string -> option f64 }.

Inductive VarError : Type := NotPresent | NotUnicode.
Definition Environment : Type := string -> result VarError string.

Inductive ConfigError : Type :=
| Missing (name : string)
| Empty (name : string)
| InvalidUnicode (name : string)
| Invalid (name : string).

(** ** Reading variables *)

Definition required_env (env : Environment) (name : string) : result ConfigError string :=
  match env name with
  | Ok value => Ok value
  | Err NotPresent => Err (Missing name)
  | Err NotUnicode => Err (InvalidUnicode name)
  end.

Definition optional_env (env : Environment) (name dflt : string) : result ConfigError string :=
  match env name with
  | Ok value => Ok value
  | Err NotPresent => Ok dflt
  | Err NotUnicode => Err (InvalidUnicode name)
  end.

Definition optional_present_env (env : Environment) (name : string)
    : result ConfigError (option string) :=
  match env name with
  | Ok value => Ok (Some value)
  | Err NotPresent => Ok None
  | Err NotUnicode => Err (InvalidUnicode name)
  end.

Definition required_parsed_env {T} (parse : string -> option T) (env : Environment) (name : string)
    : result ConfigError T :=
  required_env env name ≫= fun value => ok_or (Invalid name) (parse (trim value)).

(** [usize::from_str]: an optional [+], then digits, without overflow. *)
Fixpoint parse_digits (s : string) (acc : Z) : option Z :=
  match s with
  | EmptyString => Some acc
  | String c s' =>
      let n := Z.of_N (N_of_ascii c) - 48 in
      if (0 <=? n) && (n <=? 9) && (acc * 10 + n <=? usize_max) then parse_digits s' (acc * 10 + n)
      else None
  end.

Definition parse_usize (s : string) : option Z :=
  match s with
  | EmptyString => None
  | String "+" EmptyString => None
  | String "+" s' => parse_digits s' 0
  | _ => parse_digits s 0
  end.

Definition registry_path_from_env (env : Environment) : result ConfigError string :=
  optional_env env REGISTRY_PATH_ENV DEFAULT_REGISTRY_PATH ≫= fun path =>
  if str_is_empty (trim path) then Err (Empty REGISTRY_PATH_ENV) else Ok (trim path).

Definition validate_gateway_keys (gateway_key : string) (beta_gateway_key : option string)
    : result ConfigError unit :=
  if str_is_empty (trim gateway_key) then Err (Empty GATEWAY_KEY_ENV)
  else if is_some_and (fun key => str_is_empty (trim key)) beta_gateway_key
  then Err (Empty BETA_GATEWAY_KEY_ENV)
  else if is_some_and (fun beta => String.eqb beta gateway_key) beta_gateway_key
  then Err (Invalid BETA_GATEWAY_KEY_ENV)
  else Ok tt.

Section Config.
Context {D : RustDecimal} {U : UrlCrate} {F : FloatText}.

Definition parse_http_url (name value : string) : result ConfigError Url :=
  if str_is_empty (trim value) then Err (Empty name)
  else ok_or (Invalid name) (url_parse (trim value)) ≫= fun url =>
  if negb (String.eqb (url_scheme url) "http" || String.eqb (url_scheme url) "https")
     || negb (is_some (url_host_str url))
     || negb (str_is_empty (url_username url))
     || is_some (url_password url)
     || is_some (url_query url)
     || is_some (url_fragment url)
  then Err (Invalid name) else Ok url.

(** ** The routing policy's settings *)

Record RoutingConfig : Type := { policy : PolicyConfig; share_window : Z }.

Inductive RoutingConfigError : Type :=
| Policy (e : PolicyConfigError)
| ShareWindow (e : ShareTrackerError).

Definition RoutingConfig_new (ceiling : decimal) (hysteresis : f64) (max_share : decimal)
    (share_window : Z) : outcome (result RoutingConfigError RoutingConfig) :=
  let? policy := map_err Policy (PolicyConfig_new ceiling hysteresis max_share) in
  ShareTracker_new share_window ≫= fun tracker =>
  let? _ := map_err ShareWindow tracker in
  Done (Ok {| policy := policy; share_window := share_window |}).

(** The variable blamed for a rejected routing setting. *)
Definition routing_error_name (e : RoutingConfigError) : string :=
  match e with
  | Policy NegativePriceCeiling => PRICE_CEILING_ENV
  | Policy InvalidHysteresis => HYSTERESIS_ENV
  | Policy InvalidMaxShare => MAX_SHARE_ENV
  | ShareWindow ZeroCapacity => SHARE_WINDOW_ENV
  end.

Record RouterConfig : Type := {
  sidecar_url : string;
  sidecar_readiness_url : Url;
  gateway_key : string;
  beta_gateway_key : option string;
  registry_path : string;
  routing : RoutingConfig
}.

Definition RouterConfig_from_env (env : Environment) : outcome (result ConfigError RouterConfig) :=
  let? gateway_key := required_env env GATEWAY_KEY_ENV in
  let? beta_gateway_key := optional_present_env env BETA_GATEWAY_KEY_ENV in
  let? sidecar_url := optional_env env SIDECAR_URL_ENV DEFAULT_SIDECAR_URL in
  let? readiness := optional_env env SIDECAR_READINESS_URL_ENV DEFAULT_SIDECAR_READINESS_URL in
  let? sidecar_readiness_url := parse_http_url SIDECAR_READINESS_URL_ENV readiness in
  let? registry_path := registry_path_from_env env in
  let? price_ceiling := required_parsed_env dec_from_str env PRICE_CEILING_ENV in
  let? hysteresis := required_parsed_env parse_f64 env HYSTERESIS_ENV in
  let? max_share := required_parsed_env dec_from_str env MAX_SHARE_ENV in
  let? share_window := required_parsed_env parse_usize env SHARE_WINDOW_ENV in
  RoutingConfig_new price_ceiling hysteresis max_share share_window ≫= fun routing =>
  let? routing := map_err (fun e => Invalid (routing_error_name e)) routing in
  let? _ := validate_gateway_keys gateway_key beta_gateway_key in
  if str_is_empty (trim sidecar_url) then Done (Err (Empty SIDECAR_URL_ENV))
  else Done (Ok {| sidecar_url := trim sidecar_url; sidecar_readiness_url := sidecar_readiness_url;
                   gateway_key := gateway_key; beta_gateway_key := beta_gateway_key;
                   registry_path := registry_path; routing := routing |}).

(** ** What an accepted configuration guarantees *)

Definition routing_config_ok (c : RoutingConfig) : Prop :=
  share_window c <> 0 /\ share_window c <= MAX_CAPACITY /\
  dec_lt (combined_price_ceiling_per_mtok (policy c)) dec_zero = false /\
  nonneg_finite (hysteresis_fraction (policy c)) = true /\
  dec_le (max_share (policy c)) dec_zero = false /\
  dec_lt dec_one (max_share (policy c)) = false.

Lemma RoutingConfig_new_Ok ceiling hysteresis ms window c :
  RoutingConfig_new ceiling hysteresis ms window = Done (Ok c) ->
  routing_config_ok c /\
  c = {| policy := {| combined_price_ceiling_per_mtok := ceiling;
                      hysteresis_fraction := hysteresis; max_share := ms |};
         share_window := window |}.
Proof.
  unfold RoutingConfig_new, PolicyConfig_new, ShareTracker_new, routing_config_ok, nonneg_finite.
  destruct (dec_lt ceiling dec_zero) eqn:E1; [done|].
  destruct (negb (is_finite hysteresis) || f64_lt hysteresis f64_zero) eqn:E2; [done|].
  destruct (dec_le ms dec_zero || dec_lt dec_one ms) eqn:E3; [done|].
  cbn [map_err]. destruct (Z.eqb_spec window 0); [done|].
  destruct (Z.ltb_spec MAX_CAPACITY window); [done|]. cbn. intros [= <-]. cbn.
  apply orb_false_iff in E2 as [E2%negb_false_iff ->], E3 as [-> ->].
  rewrite E2. done.
Qed.

Lemma parse_digits_bounds s acc n : 0 <= acc <= usize_max -> parse_digits s acc = Some n -> 0 <= n <= usize_max.
Proof.
  revert acc. induction s as [|c s IH]; intros acc Ha; cbn; [by intros [= <-]|].
  destruct (_ && _) eqn:E; [|done]. apply IH.
  apply andb_true_iff in E as [[E1%Z.leb_le E2%Z.leb_le]%andb_true_iff E3%Z.leb_le]. lia.
Qed.

Lemma parse_usize_bounds s n : parse_usize s = Some n -> 0 <= n <= usize_max.
Proof.
  assert (0 <= 0 <= usize_max) as H0 by (unfold usize_max; lia).
  unfold parse_usize. repeat case_match; try done; intros Hn; eapply parse_digits_bounds; done.
Qed.

Lemma validate_gateway_keys_Ok g b :
  validate_gateway_keys g b = Ok tt <->
  trim g <> "" /\ forall k, b = Some k -> trim k <> "" /\ k <> g.
Proof.
  unfold validate_gateway_keys, str_is_empty. destruct (String.eqb_spec (trim g) ""); [naive_solver|].
  destruct b as [k|]; cbn; [|naive_solver].
  destruct (String.eqb_spec (trim k) ""); [naive_solver|].
  destruct (String.eqb_spec k g); naive_solver.
Qed.

(** What an accepted configuration was read from. *)
Record read_config (env : Environment) (c : RouterConfig) : Prop := {
  rc_key : required_env env GATEWAY_KEY_ENV = Ok (gateway_key c);
  rc_beta : optional_present_env env BETA_GATEWAY_KEY_ENV = Ok (beta_gateway_key c);
  rc_sidecar : exists u, optional_env env SIDECAR_URL_ENV DEFAULT_SIDECAR_URL = Ok u /\
    str_is_empty (trim u) = false /\ sidecar_url c = trim u;
  rc_readiness : exists u, optional_env env SIDECAR_READINESS_URL_ENV DEFAULT_SIDECAR_READINESS_URL = Ok u /\
    parse_http_url SIDECAR_READINESS_URL_ENV u = Ok (sidecar_readiness_url c);
  rc_path : registry_path_from_env env = Ok (registry_path c);
  rc_ceiling : required_parsed_env dec_from_str env PRICE_CEILING_ENV =
    Ok (combined_price_ceiling_per_mtok (policy (routing c)));
  rc_hysteresis : required_parsed_env parse_f64 env HYSTERESIS_ENV = Ok (hysteresis_fraction (policy (routing c)));
  rc_share : required_parsed_env dec_from_str env MAX_SHARE_ENV = Ok (max_share (policy (routing c)));
  rc_window : required_parsed_env parse_usize env SHARE_WINDOW_ENV = Ok (share_window (routing c));
  rc_routing : routing_config_ok (routing c);
  rc_keys : validate_gateway_keys (gateway_key c) (beta_gateway_key c) = Ok tt
}.

Lemma RouterConfig_read env c : RouterConfig_from_env env = Done (Ok c) -> read_config env c.
Proof.
  unfold RouterConfig_from_env.
  intros (k & Hk & (b & Hb & (u & Hu & (rd & Hrd & H)%try_Ok)%try_Ok)%try_Ok)%try_Ok.
  apply try_Ok in H as (ru & Hru & (path & Hpath & (pc & Hpc & (hy & Hhy & H)%try_Ok)%try_Ok)%try_Ok).
  apply try_Ok in H as (ms & Hms & (w & Hw & (rc & Hrc & H)%bind_Done)%try_Ok).
  apply try_Ok in H as (rc' & E & ([] & Hkeys & H)%try_Ok). destruct rc as [rc|]; [injection E as ->|done].
  apply RoutingConfig_new_Ok in Hrc as [Hok ->]. destruct (str_is_empty (trim u)) eqn:Eu; [done|].
  injection H as <-. split; cbn; eauto.
Qed.

(** The window a configuration was accepted with is positive, and its buffer
    can be asked for. *)
Lemma RouterConfig_routing env c :
  RouterConfig_from_env env = Done (Ok c) ->
  routing_config_ok (routing c) /\ 0 < share_window (routing c) <= MAX_CAPACITY.
Proof.
  intros Hc%RouterConfig_read. pose proof (rc_routing _ _ Hc) as Hok. split; [done|].
  pose proof (rc_window _ _ Hc) as Hw. unfold required_parsed_env in Hw.
  apply bind_Ok in Hw as (text & _ & Hp%ok_or_Ok%parse_usize_bounds). destruct Hok as (Hne & Hmax & _). lia.
Qed.

(** The service and the renderer read the same registry path. *)
Lemma RouterConfig_path env c : RouterConfig_from_env env = Done (Ok c) -> registry_path_from_env env = Ok (registry_path c).
Proof. intros Hc%RouterConfig_read. apply Hc. Qed.
End Config.
