(* ===== verification/ConfigProps.v ===== *)
(** The properties of the settings ([Config]): exactly which environments are
    accepted, as what, and which variable a refusal blames. *)

From Stdlib Require Import ZArith.
From S2P Require Import Prelude Float64 RustDecimal Share Select Config.

#[local] Open Scope Z_scope.

Section Props.
Context {D : RustDecimal} {U : UrlCrate} {F : FloatText}.

(** The value a variable with a default stands for. *)
Definition setting (env : Environment) (name dflt v : string) : Prop :=
  env name = Ok v \/ env name = Err NotPresent /\ v = dflt.

Definition number {A} (parse : string -> option A) (env : Environment) (name : string) (x : A) : Prop :=
  exists text, env name = Ok text /\ parse (trim text) = Some x.

(** A plain [http(s)] URL: no credentials, query or fragment. *)
Definition plain_http (u : Url) : Prop :=
  (url_scheme u = "http" \/ url_scheme u = "https") /\ is_Some (url_host_str u) /\ url_username u = "" /\
  url_password u = None /\ url_query u = None /\ url_fragment u = None.

Lemma required_env_Ok env name v : required_env env name = Ok v <-> env name = Ok v.
Proof. unfold required_env. destruct (env name) as [|[]]; split; congruence. Qed.

Lemma optional_env_Ok env name dflt v : optional_env env name dflt = Ok v <-> setting env name dflt v.
Proof. unfold optional_env, setting. destruct (env name) as [w|[]]; naive_solver. Qed.

Lemma required_parsed_env_Ok {A} (parse : string -> option A) env name x :
  required_parsed_env parse env name = Ok x <-> number parse env name x.
Proof.
  unfold required_parsed_env, number. split.
  - intros (t & Ht%required_env_Ok & Hp%ok_or_Ok)%bind_Ok. eauto.
  - intros (t & Ht%required_env_Ok & Hp). by rewrite Ht; cbn; rewrite Hp.
Qed.

Lemma str_is_empty_false s : str_is_empty s = false <-> s <> "".
Proof. unfold str_is_empty. apply String.eqb_neq. Qed.

Lemma parse_http_url_Ok name v u :
  parse_http_url name v = Ok u <-> trim v <> "" /\ url_parse (trim v) = Some u /\ plain_http u.
Proof.
  unfold parse_http_url, plain_http. destruct (str_is_empty (trim v)) eqn:E.
  { apply String.eqb_eq in E. naive_solver. }
  apply str_is_empty_false in E. destruct (url_parse (trim v)) as [w|]; cbn; [|naive_solver].
  unfold str_is_empty. destruct (String.eqb_spec (url_scheme w) "http") as [H1|H1],
    (String.eqb_spec (url_scheme w) "https") as [H2|H2], (url_host_str w) eqn:H3, (String.eqb_spec (url_username w) "") as [H4|H4],
    (url_password w) eqn:H5, (url_query w) eqn:H6, (url_fragment w) eqn:H7; cbn;
    (split; [intros [= <-]; rewrite H3, H5, H6, H7; naive_solver
            |intros (_ & [= <-] & Hs & Hh & Hu & Hp & Hq & Hf)]);
    try congruence; try (destruct Hs; congruence); rewrite H3 in Hh; by destruct Hh.
Qed.

Lemma registry_path_Ok env p :
  registry_path_from_env env = Ok p <->
  exists v, setting env REGISTRY_PATH_ENV DEFAULT_REGISTRY_PATH v /\ trim v <> "" /\ p = trim v.
Proof.
  unfold registry_path_from_env. split.
  - intros (v & Hv%optional_env_Ok & H)%bind_Ok. destruct (str_is_empty (trim v)) eqn:E; [done|].
    apply str_is_empty_false in E. injection H as <-. eauto.
  - intros (v & Hv%optional_env_Ok & E%str_is_empty_false & ->). rewrite Hv. cbn. by rewrite E.
Qed.

(** ** Acceptance *)

Record accepts (env : Environment) (c : RouterConfig) : Prop := {
  ac_key : env GATEWAY_KEY_ENV = Ok (gateway_key c) /\ trim (gateway_key c) <> "";
  ac_beta :
    match beta_gateway_key c with
    | Some k => env BETA_GATEWAY_KEY_ENV = Ok k /\ trim k <> "" /\ k <> gateway_key c
    | None => env BETA_GATEWAY_KEY_ENV = Err NotPresent
    end;
  ac_sidecar : exists v, setting env SIDECAR_URL_ENV DEFAULT_SIDECAR_URL v /\ trim v <> "" /\ sidecar_url c = trim v;
  ac_readiness : exists v, setting env SIDECAR_READINESS_URL_ENV DEFAULT_SIDECAR_READINESS_URL v /\
    url_parse (trim v) = Some (sidecar_readiness_url c) /\ trim v <> "" /\ plain_http (sidecar_readiness_url c);
  ac_path : exists v, setting env REGISTRY_PATH_ENV DEFAULT_REGISTRY_PATH v /\ trim v <> "" /\ registry_path c = trim v;
  ac_ceiling : number dec_from_str env PRICE_CEILING_ENV (combined_price_ceiling_per_mtok (policy (routing c)));
  ac_hysteresis : number parse_f64 env HYSTERESIS_ENV (hysteresis_fraction (policy (routing c)));
  ac_share : number dec_from_str env MAX_SHARE_ENV (max_share (policy (routing c)));
  ac_window : number parse_usize env SHARE_WINDOW_ENV (share_window (routing c));
  ac_routing : routing_config_ok (routing c)
}.

Lemma RoutingConfig_new_ok ceiling hysteresis ms window :
  routing_config_ok {| policy := {| combined_price_ceiling_per_mtok := ceiling; hysteresis_fraction := hysteresis;
                                    max_share := ms |}; share_window := window |} ->
  RoutingConfig_new ceiling hysteresis ms window =
  Done (Ok {| policy := {| combined_price_ceiling_per_mtok := ceiling; hysteresis_fraction := hysteresis;
                           max_share := ms |}; share_window := window |}).
Proof.
  unfold routing_config_ok, RoutingConfig_new, PolicyConfig_new, ShareTracker_new, nonneg_finite.
  cbn [share_window policy combined_price_ceiling_per_mtok Select.hysteresis_fraction Select.max_share].
  intros (Hw & Hmax & -> & [-> ->%negb_true_iff]%andb_true_iff & -> & ->). cbn [negb orb map_err].
  by rewrite (proj2 (Z.eqb_neq _ _) Hw), (proj2 (Z.ltb_ge _ _) Hmax).
Qed.

(** C29: The settings the service runs with are exactly the accepted ones: it
    starts with a configuration just when every variable has the value the
    configuration says (its default when absent and optional), keys are not
    blank and differ, the sidecar URL, registry path and readiness URL are not
    blank, the last a plain http(s) URL, and the numbers parse to a ceiling that
    is not negative, a finite hysteresis that is not negative, a share in (0,
    1] and a window that is not zero and whose buffer of [String]s fits the
    address space (the window's [VecDeque] panics beyond). *)
Theorem config_accepted env c : RouterConfig_from_env env = Done (Ok c) <-> accepts env c.
Proof.
  split.
  - intros [Hk%required_env_Ok Hb (u & Hu%optional_env_Ok & Eu%str_is_empty_false & Es) (rd & Hrd%optional_env_Ok & Hru%parse_http_url_Ok)
      Hpath%registry_path_Ok Hpc%required_parsed_env_Ok Hhy%required_parsed_env_Ok Hms%required_parsed_env_Ok Hw%required_parsed_env_Ok
      Hok [Hne Hbeta]%validate_gateway_keys_Ok]%RouterConfig_read.
    split; try done; [|by exists u|naive_solver].
    unfold optional_present_env in Hb. destruct (env BETA_GATEWAY_KEY_ENV) as [v|[]]; try done;
      injection Hb as Hb; rewrite <- Hb; [|done]. split; [done|by apply Hbeta].
  - intros [[Hk Hkne] Hb (u & Hu & Hune & Esu) (rd & Hrd & Hru) Hpath Hpc Hhy Hms Hw Hok].
    unfold RouterConfig_from_env. rewrite (proj2 (required_env_Ok _ _ _) Hk).
    assert (optional_present_env env BETA_GATEWAY_KEY_ENV = Ok (beta_gateway_key c) /\
            validate_gateway_keys (gateway_key c) (beta_gateway_key c) = Ok tt) as [-> Hkeys].
    { rewrite validate_gateway_keys_Ok. unfold optional_present_env.
      destruct (beta_gateway_key c); [destruct Hb as (-> & ? & ?)|rewrite Hb]; naive_solver. }
    cbn. rewrite (proj2 (optional_env_Ok _ _ _ _) Hu). cbn. rewrite (proj2 (optional_env_Ok _ _ _ _) Hrd). cbn.
    rewrite (proj2 (parse_http_url_Ok _ _ (sidecar_readiness_url c))) by naive_solver. cbn.
    rewrite (proj2 (registry_path_Ok _ (registry_path c)) Hpath). cbn.
    rewrite (proj2 (required_parsed_env_Ok _ _ _ _) Hpc). cbn.
    rewrite (proj2 (required_parsed_env_Ok _ _ _ _) Hhy). cbn.
    rewrite (proj2 (required_parsed_env_Ok _ _ _ _) Hms). cbn.
    rewrite (proj2 (required_parsed_env_Ok _ _ _ _) Hw). cbn.
    destruct c as [su ru k b path [[pc hy ms] w]]. cbn in *. rewrite (RoutingConfig_new_ok _ _ _ _ Hok). cbn.
    rewrite Hkeys. cbn. rewrite (proj2 (str_is_empty_false _) Hune). by rewrite Esu.
Qed.

(** ** Refusal *)

(** What is wrong with the variable an error names. *)
Definition at_fault (env : Environment) (e : ConfigError) : Prop :=
  let refused {A} (parse : string -> option A) name (bad : A -> Prop) :=
    exists text, env name = Ok text /\ forall x, parse (trim text) = Some x -> bad x in
  match e with
  | Missing name => env name = Err NotPresent
  | InvalidUnicode name => env name = Err NotUnicode
  | Empty name => exists v, env name = Ok v /\ trim v = ""
  | Invalid name =>
      name = SIDECAR_READINESS_URL_ENV /\
        (exists v, setting env name DEFAULT_SIDECAR_READINESS_URL v /\
                   forall u, url_parse (trim v) = Some u -> ~ plain_http u) \/
      name = PRICE_CEILING_ENV /\ refused dec_from_str name (fun x => dec_lt x dec_zero = true) \/
      name = HYSTERESIS_ENV /\ refused parse_f64 name (fun x => nonneg_finite x = false) \/
      name = MAX_SHARE_ENV /\ refused dec_from_str name (fun x => dec_le x dec_zero || dec_lt dec_one x = true) \/
      name = SHARE_WINDOW_ENV /\ refused parse_usize name (fun n => n = 0) \/
      name = BETA_GATEWAY_KEY_ENV /\ exists k, env GATEWAY_KEY_ENV = Ok k /\ env name = Ok k
  end.

Lemma required_env_Err env name e : required_env env name = Err e -> at_fault env e.
Proof. unfold required_env. destruct (env name) as [v|[]] eqn:E; by intros [= <-]. Qed.

Lemma optional_env_Err env name dflt e : optional_env env name dflt = Err e -> at_fault env e.
Proof. unfold optional_env. destruct (env name) as [v|[]] eqn:E; by intros [= <-]. Qed.

Lemma optional_present_env_Err env name e : optional_present_env env name = Err e -> at_fault env e.
Proof. unfold optional_present_env. destruct (env name) as [v|[]] eqn:E; by intros [= <-]. Qed.

Lemma required_parsed_env_Err {A} (parse : string -> option A) env name e :
  required_parsed_env parse env name = Err e ->
  at_fault env e \/ e = Invalid name /\ exists text, env name = Ok text /\ parse (trim text) = None.
Proof.
  intros [H|(text & Ht & H)]%bind_Err; [left; by eapply required_env_Err|]. apply required_env_Ok in Ht.
  destruct (parse (trim text)) eqn:Ep; cbn in H; [done|]. injection H as <-. right. eauto.
Qed.

Lemma not_blank env name dflt v :
  setting env name dflt v -> trim v = "" -> trim dflt <> "" -> env name = Ok v.
Proof. intros [H|[_ ->]]; [done|congruence]. Qed.

Lemma readiness_Err env v e :
  setting env SIDECAR_READINESS_URL_ENV DEFAULT_SIDECAR_READINESS_URL v ->
  parse_http_url SIDECAR_READINESS_URL_ENV v = Err e -> at_fault env e.
Proof.
  intros Hv H. destruct (decide (trim v = "")) as [Ee|Hne].
  - unfold parse_http_url in H. rewrite Ee in H. injection H as <-. exists v. split; [|done]. by eapply not_blank.
  - assert (e = Invalid SIDECAR_READINESS_URL_ENV) as ->.
    { unfold parse_http_url in H. rewrite (proj2 (str_is_empty_false _) Hne) in H.
      destruct (url_parse (trim v)); cbn in H; [|congruence]. destruct (_ || _ : bool); congruence. }
    left. split; [done|]. exists v. split; [done|]. intros u Hu Hp.
    by rewrite (proj2 (parse_http_url_Ok _ v u)) in H by done.
Qed.

Lemma registry_path_Err env e : registry_path_from_env env = Err e -> at_fault env e.
Proof.
  intros [H|(v & Hv%optional_env_Ok & H)]%bind_Err; [by eapply optional_env_Err|].
  destruct (str_is_empty (trim v)) eqn:Ee; [|done]. injection H as <-. apply String.eqb_eq in Ee.
  exists v. split; [|done]. by eapply not_blank.
Qed.

Lemma routing_Err env pc hy ms w e :
  number dec_from_str env PRICE_CEILING_ENV pc -> number parse_f64 env HYSTERESIS_ENV hy ->
  number dec_from_str env MAX_SHARE_ENV ms -> number parse_usize env SHARE_WINDOW_ENV w ->
  RoutingConfig_new pc hy ms w = Done (Err e) -> at_fault env (Invalid (routing_error_name e)).
Proof.
  intros (tp & Etp & Hpc) (th & Eth & Hhy) (tm & Etm & Hms) (tw & Etw & Hw).
  unfold RoutingConfig_new, PolicyConfig_new, ShareTracker_new.
  destruct (dec_lt pc dec_zero) eqn:E1.
  { cbn. intros [= <-]. right; left. split; [done|]. exists tp. split; [done|]. naive_solver. }
  destruct (negb (is_finite hy) || f64_lt hy f64_zero) eqn:E2.
  { cbn. intros [= <-]. do 2 right; left. split; [done|]. exists th. split; [done|]. intros x Hx.
    assert (x = hy) as -> by congruence. unfold nonneg_finite.
    apply orb_true_iff in E2 as [E2%negb_true_iff|E2]; rewrite E2; [done|apply andb_false_r]. }
  destruct (dec_le ms dec_zero || dec_lt dec_one ms) eqn:E3.
  { cbn. intros [= <-]. do 3 right; left. split; [done|]. exists tm. split; [done|]. naive_solver. }
  cbn [map_err]. destruct (Z.eqb_spec w 0); [|by destruct (MAX_CAPACITY <? w)]. cbn. intros [= <-]. do 4 right; left. split; [done|]. exists tw.
  split; [done|]. naive_solver.
Qed.

Lemma keys_Err env k b e :
  env GATEWAY_KEY_ENV = Ok k -> optional_present_env env BETA_GATEWAY_KEY_ENV = Ok b ->
  validate_gateway_keys k b = Err e -> at_fault env e.
Proof.
  intros Hk Hb. unfold validate_gateway_keys, str_is_empty.
  destruct (String.eqb_spec (trim k) ""); [intros [= <-]; by exists k|].
  unfold optional_present_env in Hb. destruct (env BETA_GATEWAY_KEY_ENV) as [v|[]] eqn:Ev; try done;
    injection Hb as <-; cbn; [|done].
  destruct (String.eqb_spec (trim v) ""); [intros [= <-]; by exists v|].
  destruct (String.eqb_spec v k) as [->|]; [|done]. intros [= <-]. do 5 right. split; [done|]. by exists k.
Qed.

(** A number that does not parse, or whose variable is at fault. *)
Ltac number_Err H :=
  apply required_parsed_env_Err in H as [H|(-> & text & Htext & Hnone)];
  [exact H|cbn; rewrite Htext;
   repeat (first [left; split; [reflexivity|]; exists text; split; [done|]; congruence | right])].

Lemma refusal_at_fault env e : RouterConfig_from_env env = Done (Err e) -> at_fault env e.
Proof.
  unfold RouterConfig_from_env.
  intros [H|(k & Hk%required_env_Ok & H)]%try_Err; [by eapply required_env_Err|].
  apply try_Err in H as [H|(b & Hb & H)]; [by eapply optional_present_env_Err|].
  apply try_Err in H as [H|(u & Hu%optional_env_Ok & H)]; [by eapply optional_env_Err|].
  apply try_Err in H as [H|(rd & Hrd%optional_env_Ok & H)]; [by eapply optional_env_Err|].
  apply try_Err in H as [H|(ru & Hru & H)]; [by eapply readiness_Err|].
  apply try_Err in H as [H|(path & _ & H)]; [by apply registry_path_Err|].
  apply try_Err in H as [H|(pc & Hpc%required_parsed_env_Ok & H)]; [by number_Err H|].
  apply try_Err in H as [H|(hy & Hhy%required_parsed_env_Ok & H)]; [by number_Err H|].
  apply try_Err in H as [H|(ms & Hms%required_parsed_env_Ok & H)]; [by number_Err H|].
  apply try_Err in H as [H|(w & Hw%required_parsed_env_Ok & H)]; [by number_Err H|].
  apply bind_Done in H as ([rc|re] & Hrc & H); cbn [map_err] in H;
    [|injection H as <-; by eapply routing_Err].
  apply try_Err in H as [H|([] & _ & H)]; [by eapply keys_Err|].
  destruct (str_is_empty (trim u)) eqn:Ee; [|done]. injection H as <-. apply String.eqb_eq in Ee.
  exists u. split; [|done]. by eapply not_blank.
Qed.

Lemma try_Panic {E A B} (r : result E A) (f : A -> outcome (result E B)) msg :
  (match r with Ok a => f a | Err e => Done (Err e) end) = Panic msg -> exists a, r = Ok a /\ f a = Panic msg.
Proof. destruct r; [eauto|done]. Qed.

Lemma routing_Panic pc hy ms w msg :
  RoutingConfig_new pc hy ms w = Panic msg -> MAX_CAPACITY < w /\ msg = "capacity overflow".
Proof.
  unfold RoutingConfig_new, ShareTracker_new. intros (p & _ & H)%try_Panic. revert H.
  destruct (w =? 0); [done|]. destruct (Z.ltb_spec MAX_CAPACITY w); [|done]. by intros [= <-].
Qed.

Lemma panic_oversized env msg :
  RouterConfig_from_env env = Panic msg ->
  exists n, number parse_usize env SHARE_WINDOW_ENV n /\ MAX_CAPACITY < n /\ msg = "capacity overflow".
Proof.
  unfold RouterConfig_from_env. intros H. do 9 (apply try_Panic in H as (? & _ & H)).
  apply try_Panic in H as (w & Hw%required_parsed_env_Ok & H). exists w. split; [done|].
  destruct (RoutingConfig_new _ _ _ w) as [r|m] eqn:E.
  - cbn in H. apply try_Panic in H as (? & _ & H). apply try_Panic in H as (? & _ & H).
    by destruct (str_is_empty _).
  - injection H as <-. by apply routing_Panic in E.
Qed.

(** C39: A refusal names the variable at fault, for what is wrong with it: a
    missing one is absent, an empty one is present and blank, one of invalid
    Unicode is that, and an invalid one does not parse or parses to a value out
    of its range (or the beta key is the production key).  A configuration is
    accepted or refused so, with one exception: a window of more entries than
    the address space holds is neither, but panics with "capacity overflow". *)
Theorem config_blames env :
  match RouterConfig_from_env env with
  | Done (Ok _) => True
  | Done (Err e) => at_fault env e
  | Panic msg => msg = "capacity overflow" /\ exists n, number parse_usize env SHARE_WINDOW_ENV n /\ MAX_CAPACITY < n
  end.
Proof.
  destruct (RouterConfig_from_env env) as [[c|e]|msg] eqn:E; [done|by apply refusal_at_fault|].
  apply panic_oversized in E as (n & ? & ? & ->). eauto.
Qed.
End Props.

(** ** Witness *)

(** The reference reading of [f64] text knows one number. *)
Module RefFloatText.
#[global] Instance zero : FloatText := {| parse_f64 s := if String.eqb s "0" then Some f64_zero else None |}.
End RefFloatText.

(** A variable per setting; the window is [window]. *)
Definition keyed_env (window : string) : Environment := fun name =>
  if String.eqb name GATEWAY_KEY_ENV then Ok "key" else if String.eqb name BETA_GATEWAY_KEY_ENV then Ok "beta"
  else if String.eqb name HYSTERESIS_ENV then Ok "0" else if String.eqb name SHARE_WINDOW_ENV then Ok window
  else if String.eqb name PRICE_CEILING_ENV then Ok "10" else if String.eqb name MAX_SHARE_ENV then Ok "0.6"
  else Err NotPresent.

Definition keyed_config : RouterConfig (D := RefDecimal.decimal) (U := RefUrl.url) :=
  {| sidecar_url := DEFAULT_SIDECAR_URL; sidecar_readiness_url := DEFAULT_SIDECAR_READINESS_URL;
     gateway_key := "key"; beta_gateway_key := Some "beta"; registry_path := DEFAULT_REGISTRY_PATH;
     routing := {| policy := {| combined_price_ceiling_per_mtok := RefDecimal.Dec 10 0;
                                hysteresis_fraction := f64_zero; max_share := RefDecimal.Dec 6 1 |};
                   share_window := 10 |} |}.

Lemma config_accepted_witness : accepts (keyed_env "10") keyed_config.
Proof. apply config_accepted. vm_reflexivity. Defined.

(** The longest window starts, the next one panics. *)
Example longest_window :
  (fun w => is_done (RouterConfig_from_env (D := RefDecimal.decimal) (U := RefUrl.url) (keyed_env w))) <$>
    ["384307168202282325"; "384307168202282326"] = [true; false].
Proof. vm_reflexivity. Qed.

(** Everything parses, but the two keys are the same. *)
Definition equal_keys : Environment := fun name =>
  if String.eqb name GATEWAY_KEY_ENV || String.eqb name BETA_GATEWAY_KEY_ENV then Ok "key"
  else if String.eqb name HYSTERESIS_ENV then Ok "0"
  else if String.eqb name SHARE_WINDOW_ENV then Ok "10" else Ok "1".

Lemma config_blames_witness :
  at_fault (D := RefDecimal.decimal) (U := RefUrl.url) equal_keys (Invalid BETA_GATEWAY_KEY_ENV).
Proof.
  assert (RouterConfig_from_env (D := RefDecimal.decimal) (U := RefUrl.url) equal_keys =
          Done (Err (Invalid BETA_GATEWAY_KEY_ENV))) as E by vm_reflexivity.
  pose proof (config_blames (D := RefDecimal.decimal) (U := RefUrl.url) equal_keys) as H. rewrite E in H. exact H.
Defined.
