(* ===== verification/Routing.v ===== *)
(** [src/src/policy/routing.rs]: one routing decision per request.  The policy
    is the immutable route table and configuration; the mutable parts are the
    measurement store (shared) and the mutex-protected [RoutingState], so a
    request is one atomic step on them.  A poisoned lock is not modelled: no
    step from a well-formed state panics ([RoutingSpec]). *)

From Stdlib Require Import ZArith.
From S2P Require Import Prelude Float64 RustDecimal RoutingProfile Registry Json Preference.
From S2P Require Import Measurements Share Select Config.

#[local] Open Scope Z_scope.

Section Routing.
Context {D : RustDecimal} {R : RandCrate}.

Record RouteDescriptor : Type := {
  rd_provider_id : string;
  rd_input_price_per_mtok : decimal;
  rd_output_price_per_mtok : decimal;
  rd_priority : Z;
  rd_request_constraints : RequestConstraints
}.

Definition RouteKey : Type := RoutingProfile * string.

Record RoutingPolicy : Type := {
  routes : gmap RouteKey (list RouteDescriptor);
  config : RoutingConfig
}.

Record RoutingState : Type := {
  shares : gmap RouteKey ShareTracker;
  rng : StdRng
}.

Record RouteDecision : Type := {
  profile : RoutingProfile;
  decision_model : string;
  selected_provider : string;
  fallback_models : list string;
  has_alternatives : bool
}.

Inductive RouteRequestError : Type :=
| InvalidPreference (e : PreferenceError)
| UnknownModel
| NoEligibleRoute
| UnsupportedProviderOverride
| InvalidTopP
| InvalidStream.

(** ** Building the route table *)

Definition descriptor (p : Provider) (m : ModelMapping) : RouteDescriptor :=
  {| rd_provider_id := id p;
     rd_input_price_per_mtok := input_price_per_mtok m;
     rd_output_price_per_mtok := output_price_per_mtok m;
     rd_priority := priority p;
     rd_request_constraints := request_constraints m |}.

(** [routes.entry(key).or_default().push(descriptor)]. *)
Definition push_route (d : RouteDescriptor) (table : gmap RouteKey (list RouteDescriptor)) (key : RouteKey)
    : gmap RouteKey (list RouteDescriptor) :=
  <[key := default [] (table !! key) ++ [d]]> table.

Definition add_mapping (p : Provider) (table : gmap RouteKey (list RouteDescriptor)) (m : ModelMapping)
    : result CandidateError (gmap RouteKey (list RouteDescriptor)) :=
  Candidate_new (id p) (input_price_per_mtok m) (output_price_per_mtok m) (priority p) None true
    ≫= fun _ =>
  Ok (foldl (push_route (descriptor p m)) table ((fun q => (q, slug m)) <$> profiles_iter (profiles p))).

Definition add_provider (table : gmap RouteKey (list RouteDescriptor)) (p : Provider)
    : result CandidateError (gmap RouteKey (list RouteDescriptor)) :=
  try_fold (add_mapping p) table (models p).

Definition compare_descriptor : RouteDescriptor -> RouteDescriptor -> comparison :=
  then_with (compare_on rd_priority Z.compare) (compare_on rd_provider_id String.compare).

Definition from_registry_with_rng (registry : Registry) (config : RoutingConfig) (rng : StdRng)
    : result CandidateError (RoutingPolicy * RoutingState) :=
  try_fold add_provider ∅ (enabled_providers registry) ≫= fun table =>
  Ok ({| routes := sort_by compare_descriptor <$> table; config := config |},
      {| shares := ∅; rng := rng |}).

(** ** Reading the request *)

Definition reject_provider_overrides (request : Value) : result RouteRequestError unit :=
  match value_get "provider" request ≫= as_object with
  | None => Ok tt
  | Some provider =>
      if existsb (fun field => obj_contains_key field provider) ["only"; "ignore"; "order"]
      then Err UnsupportedProviderOverride else Ok tt
  end.

Definition parse_top_p (request : Value) : result RouteRequestError (option decimal) :=
  match value_get "top_p" request with
  | None => Ok None
  | Some top_p =>
      if is_null top_p then Ok None
      else ok_or InvalidTopP (as_number top_p) ≫= fun number =>
           ok_or InvalidTopP (Some <$> dec_from_str number)
  end.

Definition parse_stream (request : Value) : result RouteRequestError bool :=
  match value_get "stream" request with
  | None => Ok false
  | Some stream => if is_null stream then Ok false else ok_or InvalidStream (as_bool stream)
  end.

(** Drops [provider.sort], and [provider] when nothing else is in it. *)
Definition consume_routing_sort (request : Value) : Value :=
  match request with
  | Object fs =>
      match obj_get "provider" fs ≫= as_object with
      | None => request
      | Some provider =>
          match obj_remove "sort" provider with
          | [] => Object (obj_remove "provider" fs)
          | rest => Object (obj_insert "provider" (Object rest) fs)
          end
      end
  | _ => request
  end.

(** ** Routing one request *)

Definition compatible (endpoint : CompletionEndpoint) (stream : bool) (top_p : option decimal)
    (d : RouteDescriptor) : bool :=
  supports_endpoint (rd_request_constraints d) endpoint
  && permits_streaming (rd_request_constraints d) stream
  && permits_top_p (rd_request_constraints d) top_p.

Definition candidate_of (store : MeasurementStore) (profile : RoutingProfile) (model : string)
    (d : RouteDescriptor) : outcome Candidate :=
  expect "registry candidates were validated during routing-policy construction"
    (ok (Candidate_new (rd_provider_id d) (rd_input_price_per_mtok d) (rd_output_price_per_mtok d)
           (rd_priority d) (get_for store profile (rd_provider_id d) model) true)).

(** The fallback generator's seed. *)
Definition FALLBACK_SEED : Z := 0x5ee7fa11bac0.

Definition route_name (provider_id model : string) : string := provider_id +:+ "/" +:+ model.

(** [while let Some(candidate) = select_route(..)]: every round removes the
    selected provider's candidates, so [length candidates] rounds and the
    failing selection after them suffice; running out of fuel is a panic here
    so that totality shows it does not happen. *)
Fixpoint plan_fallbacks (fuel : nat) (model : string) (pref : Preference) (policy : PolicyConfig)
    (share : ShareTracker) (candidates : list Candidate) (rng : StdRng) : outcome (list string) :=
  match fuel with
  | O => Panic "out of fuel"
  | S fuel' =>
      select_route candidates pref policy share rng ≫= fun '(selected, rng') =>
      match selected with
      | None => Done []
      | Some c =>
          plan_fallbacks fuel' model pref policy share
            (filter_b (fun x => negb (String.eqb (c_provider_id x) (c_provider_id c))) candidates)
            rng' ≫= fun rest =>
          Done (route_name (c_provider_id c) model :: rest)
      end
  end.

(** The rolling window of a key: [shares.remove(&key).unwrap_or_else(new)]. *)
Definition tracker_for (policy : RoutingPolicy) (state : RoutingState) (key : RouteKey)
    : outcome ShareTracker :=
  match shares state !! key with
  | Some t => Done t
  | None => ShareTracker_new (share_window (config policy)) ≫= fun t =>
            expect "routing config validates the share window" (ok t)
  end.

(** The critical section: primary selection, fallback planning, share update. *)
Definition decide_route (policy : RoutingPolicy) (state : RoutingState) (key : RouteKey)
    (pref : Preference) (candidates : list Candidate)
    : outcome (option (string * list string) * RoutingState) :=
  tracker_for policy state key ≫= fun recent_share =>
  let policy_config := Config.policy (config policy) in
  select_route candidates pref policy_config recent_share (rng state) ≫= fun '(selected, rng') =>
  match selected with
  | None =>
      Done (None, {| shares := <[key := recent_share]> (shares state); rng := rng' |})
  | Some c =>
      let selected_provider := c_provider_id c in
      let fallback_candidates :=
        filter_b (fun x => negb (String.eqb (c_provider_id x) selected_provider)) candidates in
      plan_fallbacks (S (length fallback_candidates)) key.2 pref policy_config recent_share
        fallback_candidates (seed_from_u64 FALLBACK_SEED) ≫= fun fallback_models =>
      record recent_share selected_provider ≫= fun recent_share' =>
      Done (Some (selected_provider, fallback_models),
            {| shares := <[key := recent_share']> (shares state); rng := rng' |})
  end.

Record RouteOutcome : Type := {
  ro_result : result RouteRequestError RouteDecision;
  ro_request : Value;
  ro_state : RoutingState
}.

Definition route_for_endpoint (policy : RoutingPolicy) (store : MeasurementStore)
    (state : RoutingState) (profile : RoutingProfile) (endpoint : CompletionEndpoint)
    (request : Value) : outcome RouteOutcome :=
  let fail e request := Done {| ro_result := Err e; ro_request := request; ro_state := state |} in
  match reject_provider_overrides request with
  | Err e => fail e request
  | Ok _ =>
  match parse_top_p request with
  | Err e => fail e request
  | Ok top_p =>
  match parse_stream request with
  | Err e => fail e request
  | Ok stream =>
  parse_request request ≫= fun parsed =>
  match parsed with
  | Err e => fail (InvalidPreference e) request
  | Ok (parsed, request) =>
  let request := consume_routing_sort request in
  let model := canonical_model parsed in
  match routes policy !! (profile, model) with
  | None => fail UnknownModel request
  | Some descriptors =>
  outcome_map (candidate_of store profile model) (filter_b (compatible endpoint stream top_p) descriptors)
    ≫= fun candidates =>
  match candidates with
  | [] => fail NoEligibleRoute request
  | _ =>
  decide_route policy state (profile, model) (preference parsed) candidates
    ≫= fun '(decided, state') =>
  match decided with
  | None => Done {| ro_result := Err NoEligibleRoute; ro_request := request; ro_state := state' |}
  | Some (selected_provider, fallback_models) =>
      set_index "model" (JString (route_name selected_provider model)) request ≫= fun request' =>
      Done {| ro_result := Ok {| profile := profile; decision_model := model;
                                 selected_provider := selected_provider;
                                 fallback_models := fallback_models;
                                 has_alternatives := match fallback_models with [] => false | _ => true end |};
              ro_request := request'; ro_state := state' |}
  end end end end end end end.

Definition route (policy : RoutingPolicy) (store : MeasurementStore) (state : RoutingState)
    (profile : RoutingProfile) (request : Value) : outcome RouteOutcome :=
  route_for_endpoint policy store state profile Chat request.

(** [IntoResponse for RouteRequestError]. *)
Definition route_error_status (e : RouteRequestError) : Z :=
  match e with
  | InvalidPreference _ => 400
  | UnknownModel => 404
  | NoEligibleRoute => 503
  | UnsupportedProviderOverride | InvalidTopP | InvalidStream => 400
  end.

Definition route_error_message (e : RouteRequestError) : string :=
  match e with
  | InvalidPreference e => preference_error_message e
  | UnknownModel => "model not found"
  | NoEligibleRoute => "no eligible provider route"
  | UnsupportedProviderOverride =>
      "provider.only, provider.ignore, and provider.order are not supported"
  | InvalidTopP => "top_p must be a JSON number or null"
  | InvalidStream => "stream must be a JSON boolean or null"
  end.

Definition route_error_response (e : RouteRequestError) : Z * Value :=
  match e with
  | InvalidPreference error => preference_error_response error
  | _ =>
      let status := route_error_status e in
      (status,
       json_object [("error", json_object
         [("code", Number (pretty (Z.to_N status))); ("message", JString (route_error_message e))])])
  end.
End Routing.
