(* ===== verification/RoutingSpec.v ===== *)
(** What routing promises: the route table is the registry's enabled mappings
    per profile and slug in priority order; a decision names compatible,
    distinct providers and rewrites the request for the selected one; errors
    keep every rolling window; other windows are never touched; no request
    panics. *)

From Stdlib Require Import QArith ZArith SpecFloat.
From S2P Require Import Prelude Float64 RustDecimal RoutingProfile Registry Json Preference.
From S2P Require Import Measurements Share Select SelectSpec Config Routing.

#[local] Open Scope Z_scope.

Section Table.
Context {D : RustDecimal}.

(** The registry's routes for a key, in registry order. *)
Definition mapping_routes (p : Provider) (key : RouteKey) (m : ModelMapping) : list RouteDescriptor :=
  if supports p key.1 && String.eqb (slug m) key.2 then [descriptor p m] else [].

Definition provider_routes (p : Provider) (key : RouteKey) : list RouteDescriptor :=
  models p ≫= mapping_routes p key.

Definition registry_routes (r : Registry) (key : RouteKey) : list RouteDescriptor :=
  enabled_providers r ≫= fun p => provider_routes p key.

Definition non_empty {A} (l : list A) : option (list A) := match l with [] => None | _ => Some l end.

(** A table holds exactly the lists of [f], without empty entries. *)
Definition holds (table : gmap RouteKey (list RouteDescriptor)) (f : RouteKey -> list RouteDescriptor) : Prop :=
  forall key, table !! key = non_empty (f key).

Lemma non_empty_app_cons {A} (l : list A) x : non_empty (l ++ [x]) = Some (l ++ [x]).
Proof. by destruct l. Qed.

Lemma default_non_empty {A} (l : list A) : default [] (non_empty l) = l.
Proof. by destruct l. Qed.

Lemma push_route_holds d table key f :
  holds table f ->
  holds (push_route d table key) (fun k => f k ++ (if bool_decide (k = key) then [d] else [])).
Proof.
  intros H k. unfold push_route. rewrite H, default_non_empty. case_bool_decide as E.
  - subst k. by rewrite lookup_insert_eq, non_empty_app_cons.
  - rewrite lookup_insert_ne, app_nil_r by congruence. apply H.
Qed.

Lemma push_routes_holds d keys table f :
  NoDup keys -> holds table f ->
  holds (foldl (push_route d) table keys) (fun k => f k ++ (if bool_decide (k ∈ keys) then [d] else [])).
Proof.
  intros Hnd. revert table f. induction Hnd as [|key keys Hkey Hnd IH]; intros table f H; cbn.
  - intros k. rewrite bool_decide_eq_false_2, app_nil_r by (intros Hk; inversion Hk). apply H.
  - intros k. rewrite (IH _ _ (push_route_holds d table key f H) k), <- app_assoc. f_equal. f_equal.
    destruct (decide (k = key)) as [->|Hne].
    + rewrite (bool_decide_eq_true_2 (key = key)), bool_decide_eq_false_2, bool_decide_eq_true_2;
        [done|left|done|done].
    + rewrite (bool_decide_eq_false_2 (k = key)) by done. cbn.
      erewrite bool_decide_ext; [done|]. rewrite elem_of_cons. naive_solver.
Qed.

Lemma mapping_keys p m key :
  bool_decide (key ∈ (fun q => (q, slug m)) <$> profiles_iter (profiles p))
  = supports p key.1 && String.eqb (slug m) key.2.
Proof.
  apply eq_true_iff_eq. rewrite bool_decide_eq_true, list_elem_of_fmap, andb_true_iff.
  unfold supports. rewrite bool_decide_eq_true, String.eqb_eq. destruct key as [q s]. cbn. split.
  - intros (q' & [= -> ->] & H%profiles_iter_spec). done.
  - intros [H <-]. exists q. by rewrite profiles_iter_spec.
Qed.

Lemma add_mapping_holds p table m table' f :
  add_mapping p table m = Ok table' -> holds table f ->
  holds table' (fun k => f k ++ mapping_routes p k m).
Proof.
  unfold add_mapping. intros (c & _ & [= <-])%bind_Ok H k.
  rewrite (push_routes_holds (descriptor p m) _ table f); [|apply NoDup_fmap; [intros ? ? [= ->]; done|apply profiles_iter_NoDup]|done].
  by rewrite mapping_keys.
Qed.

Lemma add_provider_holds p table table' f :
  add_provider table p = Ok table' -> holds table f ->
  holds table' (fun k => f k ++ provider_routes p k).
Proof.
  unfold add_provider, provider_routes. revert table f.
  induction (models p) as [|m ms IH]; intros table f; cbn.
  - intros [= <-] H k. by rewrite app_nil_r.
  - intros (t1 & Ha & Hr)%bind_Ok H k.
    rewrite (IH t1 _ Hr (add_mapping_holds p table m t1 f Ha H) k). by rewrite <- app_assoc.
Qed.

Lemma add_providers_holds ps table table' f :
  try_fold add_provider table ps = Ok table' -> holds table f ->
  holds table' (fun k => f k ++ (ps ≫= fun p => provider_routes p k)).
Proof.
  revert table f. induction ps as [|p ps IH]; intros table f; cbn.
  - intros [= <-] H k. by rewrite app_nil_r.
  - intros (t1 & Ha & Hr)%bind_Ok H k.
    rewrite (IH t1 _ Hr (add_provider_holds p table t1 f Ha H) k). by rewrite <- app_assoc.
Qed.

Context {R : RandCrate}.

Lemma from_registry_lookup r cfg rng policy state key :
  from_registry_with_rng r cfg rng = Ok (policy, state) ->
  routes policy !! key = sort_by compare_descriptor <$> non_empty (registry_routes r key) /\
  config policy = cfg /\ shares state = ∅.
Proof.
  unfold from_registry_with_rng. intros (t & Ht & [= <- <-])%bind_Ok. cbn.
  split; [|done]. rewrite lookup_fmap. f_equal.
  apply (add_providers_holds _ ∅ t (fun _ => [])) in Ht; [apply Ht|].
  intros k. apply lookup_empty.
Qed.

Lemma elem_of_registry_routes r key d :
  d ∈ registry_routes r key <->
  exists p m, p ∈ providers r /\ enabled p = true /\ key.1 ∈ profiles p /\ m ∈ models p /\
              slug m = key.2 /\ d = descriptor p m.
Proof.
  unfold registry_routes, provider_routes, mapping_routes. rewrite list_elem_of_bind. split.
  - intros (p & Hd & [He Hp]%elem_of_enabled). apply list_elem_of_bind in Hd as (m & Hd & Hm).
    unfold supports in Hd. case_bool_decide; cbn in Hd; [|inversion Hd].
    destruct (String.eqb_spec (slug m) key.2); [|inversion Hd].
    apply list_elem_of_singleton in Hd. eauto 10.
  - intros (p & m & Hp & He & Hk & Hm & Hs & ->). exists p. split; [|by apply elem_of_enabled].
    apply list_elem_of_bind. exists m. split; [|done].
    unfold supports. rewrite bool_decide_eq_true_2, Hs, String.eqb_refl by done. left.
Qed.

(** Every mapping of an enabled provider was accepted by [Candidate::new]. *)
Definition accepted (d : RouteDescriptor) : Prop :=
  exists c, Candidate_new (rd_provider_id d) (rd_input_price_per_mtok d) (rd_output_price_per_mtok d)
              (rd_priority d) None true = Ok c.

Lemma add_mappings_accepted p ms table table' :
  try_fold (add_mapping p) table ms = Ok table' -> forall m, m ∈ ms -> accepted (descriptor p m).
Proof.
  revert table. induction ms as [|x ms IH]; intros table; cbn; [intros _ m H; inversion H|].
  intros (t1 & (c & Hc & _)%bind_Ok & Hr)%bind_Ok m [->|Hm]%elem_of_cons; [by exists c|eauto].
Qed.

Lemma add_providers_accepted ps table table' :
  try_fold add_provider table ps = Ok table' ->
  forall p m, p ∈ ps -> m ∈ models p -> accepted (descriptor p m).
Proof.
  revert table. induction ps as [|x ps IH]; intros table; cbn; [intros _ p m H; inversion H|].
  intros (t1 & Ha & Hr)%bind_Ok p m [->|Hp]%elem_of_cons Hm; [by eapply add_mappings_accepted|eauto].
Qed.

Lemma from_registry_accepted r cfg rng policy state key ds d :
  from_registry_with_rng r cfg rng = Ok (policy, state) ->
  routes policy !! key = Some ds -> d ∈ ds -> accepted d.
Proof.
  intros H Hk Hd. destruct (from_registry_lookup _ _ _ _ _ key H) as [E _]. rewrite Hk in E.
  unfold from_registry_with_rng in H. apply bind_Ok in H as (t & Ht & _).
  assert (d ∈ registry_routes r key) as Hin.
  { destruct (registry_routes r key) as [|x l] eqn:El; cbn in E; [done|]. injection E as ->.
    change (d ∈ sort_by compare_descriptor (x :: l)) in Hd. by rewrite sort_by_perm in Hd. }
  apply elem_of_registry_routes in Hin as (p & m & Hp & He & _ & Hm & _ & ->).
  eapply add_providers_accepted; [done| |done]. by apply elem_of_enabled.
Qed.
End Table.

(** ** Fallback planning *)

Section Fallbacks.
Context {D : RustDecimal} {R : RandCrate}.

Lemma without_provider_length (c : Candidate) cs :
  c ∈ cs ->
  (length (filter_b (fun x => negb (String.eqb (c_provider_id x) (c_provider_id c))) cs) < length cs)%nat.
Proof.
  induction cs as [|x cs IH]; [intros H; inversion H|].
  intros [->|Hc]%elem_of_cons; cbn.
  - rewrite String.eqb_refl. cbn. apply le_n_S, filter_b_length.
  - destruct (negb _); cbn; [apply -> Nat.succ_lt_mono; auto|].
    etransitivity; [apply IH, Hc|]. lia.
Qed.

Lemma elem_of_without_provider (c x : Candidate) cs :
  x ∈ filter_b (fun x => negb (String.eqb (c_provider_id x) (c_provider_id c))) cs <->
  c_provider_id x <> c_provider_id c /\ x ∈ cs.
Proof. rewrite elem_of_filter_b, negb_true_iff, String.eqb_neq. done. Qed.

(** The fallbacks are the remaining qualifying providers, each once. *)
Lemma plan_fallbacks_spec fuel model pref policy share cs r ms :
  plan_fallbacks fuel model pref policy share cs r = Done ms ->
  exists ids, ms = (fun p => route_name p model) <$> ids /\ NoDup ids /\
    (forall p, p ∈ ids -> exists c, c ∈ cs /\ c_provider_id c = p) /\
    (pref <> Balanced -> forall c, c ∈ cs -> qualifies pref policy share c -> c_provider_id c ∈ ids).
Proof.
  revert cs r ms. induction fuel as [|fuel IH]; intros cs r ms; cbn; [done|].
  intros ([sel r'] & Hs & H)%bind_Done. destruct sel as [c|].
  - apply bind_Done in H as (rest & (ids & -> & Hnd & Hin & Hall)%IH & [= <-]).
    exists (c_provider_id c :: ids). split_and!; [done| | |].
    + constructor; [|done]. intros (x & Hx & Hid)%Hin. by apply elem_of_without_provider in Hx as [? _].
    + intros p [->|Hp]%elem_of_cons; [exists c; split; [by eapply select_route_elem|done]|].
      apply Hin in Hp as (x & [_ ?]%elem_of_without_provider & ?). eauto.
    + intros Hb x Hx Hq. rewrite elem_of_cons.
      destruct (decide (c_provider_id x = c_provider_id c)); [auto|right].
      apply Hall; [done| |done]. by apply elem_of_without_provider.
  - injection H as <-. exists []. split_and!; [done|constructor|intros p Hp; inversion Hp|].
    intros Hb c Hc Hq. by destruct (select_route_None _ _ _ _ _ _ _ Hb Hs Hc).
Qed.

Lemma plan_fallbacks_total fuel model pref policy share cs r :
  pref <> Balanced -> (forall p, exists b, allows_next share p (max_share policy) = Done b) ->
  (length cs < fuel)%nat -> exists ms, plan_fallbacks fuel model pref policy share cs r = Done ms.
Proof.
  intros Hb Hq. revert cs r. induction fuel as [|fuel IH]; intros cs r Hl; [lia|]. cbn.
  destruct (select_route_total cs pref policy share r Hb Hq) as [[sel r'] Hs]. rewrite Hs. cbn.
  destruct sel as [c|]; [|eauto].
  pose proof (without_provider_length c cs (select_route_elem _ _ _ _ _ _ _ Hs)).
  edestruct IH as [ms ->]; [|cbn; eauto]. lia.
Qed.

Lemma route_name_inj p q model : route_name p model = route_name q model -> p = q.
Proof.
  unfold route_name. intros H.
  apply (f_equal (strip_suffix ("/" +:+ model))) in H. rewrite !strip_suffix_app in H. by simplify_eq.
Qed.
End Fallbacks.

(** ** Requests *)

Section Requests.
Context {D : RustDecimal} {R : RandCrate}.

Lemma consume_routing_sort_spec fs :
  exists fs', consume_routing_sort (Object fs) = Object fs' /\
    (forall k, k <> "provider" -> obj_get k fs' = obj_get k fs) /\
    pointer ["provider"; "sort"] (Object fs') = None.
Proof.
  cbn. destruct (obj_get "provider" fs) as [v|] eqn:Ev; cbn; [|exists fs; split_and!; try done].
  2:{ unfold pointer. cbn. by rewrite Ev. }
  destruct (as_object v) as [p|] eqn:Ep.
  - pose proof (obj_get_remove_eq "sort" p) as Hrm.
    destruct (obj_remove "sort" p) as [|x rest] eqn:Er; eexists; (split_and!; [done| |]).
    + intros k Hk. by apply obj_get_remove_ne.
    + unfold pointer. cbn. by rewrite obj_get_remove_eq.
    + intros k Hk. by apply obj_get_insert_ne.
    + unfold pointer. cbn. rewrite obj_get_insert_eq. cbn. by rewrite Hrm.
  - exists fs. split_and!; try done. unfold pointer. cbn. rewrite Ev. by destruct v.
Qed.

(** What a decided request went through. *)
Record decided (policy : RoutingPolicy) (store : MeasurementStore) (state : RoutingState)
    (prof : RoutingProfile) (endpoint : CompletionEndpoint) (request : Value)
    (d : RouteDecision) (request' : Value) (state' : RoutingState)
    (parsed : RequestPreference) (descriptors : list RouteDescriptor) (stream : bool)
    (top_p : option decimal) (candidates : list Candidate) : Prop := {
  dc_overrides : reject_provider_overrides request = Ok tt;
  dc_top_p : parse_top_p request = Ok top_p;
  dc_stream : parse_stream request = Ok stream;
  dc_parsed : exists r, parse_request request = Done (Ok (parsed, r)) /\
    set_index "model" (JString (route_name (selected_provider d) (canonical_model parsed)))
      (consume_routing_sort r) = Done request';
  dc_routes : routes policy !! (prof, canonical_model parsed) = Some descriptors;
  dc_candidates :
    outcome_map (candidate_of store prof (canonical_model parsed))
      (filter_b (compatible endpoint stream top_p) descriptors) = Done candidates;
  dc_decide :
    decide_route policy state (prof, canonical_model parsed) (preference parsed) candidates
    = Done (Some (selected_provider d, fallback_models d), state');
  dc_decision : profile d = prof /\ decision_model d = canonical_model parsed /\
    has_alternatives d = match fallback_models d with [] => false | _ => true end
}.

Lemma route_decided policy store state prof endpoint request d request' state' :
  route_for_endpoint policy store state prof endpoint request =
    Done {| ro_result := Ok d; ro_request := request'; ro_state := state' |} ->
  exists parsed descriptors stream top_p candidates,
    decided policy store state prof endpoint request d request' state' parsed descriptors stream top_p candidates.
Proof.
  unfold route_for_endpoint.
  destruct (reject_provider_overrides request) as [[]|] eqn:H1; [|done].
  destruct (parse_top_p request) as [top|] eqn:H2; [|done].
  destruct (parse_stream request) as [stream|] eqn:H3; [|done].
  intros (pr & H4 & H)%bind_Done. destruct pr as [[parsed r]|]; [|done].
  destruct (routes policy !! _) as [ds|] eqn:H5; [|done].
  apply bind_Done in H as (cs & H6 & H). destruct cs as [|c0 cs]; [done|].
  apply bind_Done in H as ([dec st'] & H7 & H). destruct dec as [[sel fbs]|]; [|done].
  apply bind_Done in H as (req' & H8 & H). injection H as <- <- <-.
  exists parsed, ds, stream, top, (c0 :: cs). split; cbn; try done. by exists r.
Qed.

Lemma candidate_of_Done store prof model d c :
  candidate_of store prof model d = Done c ->
  c_provider_id c = rd_provider_id d /\ is_healthy c = true /\ c_priority c = rd_priority d /\
  measurements c = get_for store prof (rd_provider_id d) model /\
  dec_checked_add (rd_input_price_per_mtok d) (rd_output_price_per_mtok d) = Some (combined_price_per_mtok c).
Proof.
  unfold candidate_of. rewrite expect_Done.
  destruct (Candidate_new _ _ _ _ _ _) eqn:E; cbn; [|done]. intros [= ->].
  apply Candidate_new_Ok in E. naive_solver.
Qed.

Lemma candidates_from store prof model ds cs c :
  outcome_map (candidate_of store prof model) ds = Done cs -> c ∈ cs ->
  exists d, d ∈ ds /\ candidate_of store prof model d = Done c.
Proof.
  intros H%outcome_map_Done Hc. induction H as [|d c' ds cs Hd _ IH]; [inversion Hc|].
  apply elem_of_cons in Hc as [->|Hc]; [exists d; split; [left|done]|].
  destruct (IH Hc) as (d' & ? & ?). exists d'. split; [by right|done].
Qed.

Lemma decide_route_Some policy state key pref cs sel fbs state' :
  decide_route policy state key pref cs = Done (Some (sel, fbs), state') ->
  exists t t' r' c,
    tracker_for policy state key = Done t /\ record t sel = Done t' /\
    select_route cs pref (Config.policy (config policy)) t (rng state) = Done (Some c, r') /\
    sel = c_provider_id c /\
    (exists r, plan_fallbacks
       (S (length (filter_b (fun x => negb (String.eqb (c_provider_id x) (c_provider_id c))) cs)))
       key.2 pref (Config.policy (config policy)) t
       (filter_b (fun x => negb (String.eqb (c_provider_id x) (c_provider_id c))) cs) r = Done fbs) /\
    state' = {| shares := <[key := t']> (shares state); rng := r' |}.
Proof.
  unfold decide_route. intros (t & Ht & ([sel' r'] & Hs & H)%bind_Done)%bind_Done.
  destruct sel' as [c|]; [|done].
  apply bind_Done in H as (fb & Hf & (t' & Hr & H)%bind_Done). injection H as <- <- <-.
  exists t, t', r', c. split_and!; eauto.
Qed.

Lemma decide_route_None policy state key pref cs state' :
  decide_route policy state key pref cs = Done (None, state') ->
  exists t r', tracker_for policy state key = Done t /\
    select_route cs pref (Config.policy (config policy)) t (rng state) = Done (None, r') /\
    state' = {| shares := <[key := t]> (shares state); rng := r' |}.
Proof.
  unfold decide_route. intros (t & Ht & ([sel' r'] & Hs & H)%bind_Done)%bind_Done.
  destruct sel' as [c|].
  - apply bind_Done in H as (fb & Hf & (t' & Hr & H)%bind_Done). done.
  - injection H as <-. eauto.
Qed.

(** A request answered with an error either never entered the critical section
    or left it with the window it found. *)
Lemma route_error_state policy store state prof endpoint request e request' state' :
  route_for_endpoint policy store state prof endpoint request =
    Done {| ro_result := Err e; ro_request := request'; ro_state := state' |} ->
  state' = state \/
  exists model t, e = NoEligibleRoute /\ tracker_for policy state (prof, model) = Done t /\
    shares state' = <[(prof, model) := t]> (shares state).
Proof.
  unfold route_for_endpoint.
  destruct (reject_provider_overrides request) as [[]|]; [|naive_solver].
  destruct (parse_top_p request) as [top|]; [|naive_solver].
  destruct (parse_stream request) as [stream|]; [|naive_solver].
  intros (pr & _ & H)%bind_Done. destruct pr as [[parsed r]|]; [|naive_solver].
  destruct (routes policy !! _) as [ds|]; [|naive_solver].
  apply bind_Done in H as (cs & _ & H). destruct cs as [|c0 cs]; [naive_solver|].
  apply bind_Done in H as ([dec st'] & H7 & H). destruct dec as [[sel fbs]|].
  - apply bind_Done in H as (req' & _ & H). done.
  - injection H as <- <- <-. right. apply decide_route_None in H7 as (t & r' & Ht & _ & ->). eauto 10.
Qed.
End Requests.

(** ** The routing state *)

Section State.
Context {D : RustDecimal} {R : RandCrate} (val : decimal -> Q) {L : DecimalLaws val}.

Definition state_wf (policy : RoutingPolicy) (state : RoutingState) : Prop :=
  forall key t, shares state !! key = Some t ->
    share_wf t /\ capacity t = share_window (config policy).

(** The settings [RoutingConfig_new] accepted, with a share that multiplies
    exactly within the window. *)
Definition policy_wf (policy : RoutingPolicy) : Prop :=
  0 < share_window (config policy) <= MAX_CAPACITY /\
  quota_exact_upto val (max_share (Config.policy (config policy))) (share_window (config policy)) /\
  forall key ds d, routes policy !! key = Some ds -> d ∈ ds -> accepted d.

Lemma tracker_for_wf policy state key :
  policy_wf policy -> state_wf policy state ->
  exists t, tracker_for policy state key = Done t /\ share_wf t /\
            capacity t = share_window (config policy).
Proof.
  intros (Hw & _ & _) Hst. unfold tracker_for. destruct (shares state !! key) as [t|] eqn:E.
  - apply Hst in E as [? ?]. eauto.
  - destruct (ShareTracker_new_Ok _ Hw) as [t En]. rewrite En. cbn.
    apply ShareTracker_new_wf in En as (? & ? & _); [eauto|]. pose proof (capacity_usize _ (proj2 Hw)). lia.
Qed.

Lemma allows_next_total policy t p :
  policy_wf policy -> share_wf t -> capacity t = share_window (config policy) ->
  exists b, allows_next t p (max_share (Config.policy (config policy))) = Done b.
Proof.
  intros (Hw & Hq & _) W Hc. eexists.
  apply (allows_next_spec val _ t p (share_window (config policy))); [done|done|].
  pose proof (capacity_usize _ (proj2 Hw)). lia.
Qed.

Lemma decide_route_total policy state key pref cs :
  policy_wf policy -> state_wf policy state -> pref <> Balanced ->
  exists x state', decide_route policy state key pref cs = Done (x, state') /\ state_wf policy state'.
Proof.
  intros Hp Hst Hb. destruct (tracker_for_wf policy state key Hp Hst) as (t & Ht & W & Hc).
  unfold decide_route. rewrite Ht. cbn [mbind outcome_bind].
  assert (forall p, exists b, allows_next t p (max_share (Config.policy (config policy))) = Done b) as Hal.
  { intros p. by apply allows_next_total. }
  destruct (select_route_total cs pref (Config.policy (config policy)) t (rng state) Hb Hal) as [[sel r'] ->].
  cbn [mbind outcome_bind].
  assert (forall t', share_wf t' -> capacity t' = share_window (config policy) ->
    state_wf policy {| shares := <[key := t']> (shares state); rng := r' |}) as Hwf.
  { intros t' W' Hc' k t2. cbn. rewrite lookup_insert. case_decide; [by intros [= <-]|apply Hst]. }
  destruct sel as [c|]; [|eauto].
  destruct (plan_fallbacks_total
    (S (length (filter_b (fun x => negb (String.eqb (c_provider_id x) (c_provider_id c))) cs)))
    key.2 pref (Config.policy (config policy)) t
    (filter_b (fun x => negb (String.eqb (c_provider_id x) (c_provider_id c))) cs)
    (seed_from_u64 FALLBACK_SEED) Hb Hal) as [fb ->]; [lia|]. cbn [mbind outcome_bind].
  destruct (record_wf t (c_provider_id c) W) as (t' & -> & W' & Hc' & _). cbn [mbind outcome_bind].
  do 2 eexists. split; [done|]. apply Hwf; [done|congruence].
Qed.

Lemma candidates_total store prof model ds :
  store_valid store -> (forall d, d ∈ ds -> accepted d) ->
  exists cs, outcome_map (candidate_of store prof model) ds = Done cs.
Proof.
  intros Hs Hacc. apply outcome_map_total. intros d Hd. destruct (Hacc d Hd) as [c Hc].
  destruct (Candidate_new_measured _ _ _ _ _ _ (get_for store prof (rd_provider_id d) model) Hc) as [c' Hc'].
  { intros m. apply Hs. }
  exists c'. unfold candidate_of. by rewrite Hc'.
Qed.

Lemma consume_routing_sort_object fs : exists fs', consume_routing_sort (Object fs) = Object fs'.
Proof. destruct (consume_routing_sort_spec fs) as (fs' & ? & _). eauto. Qed.

Lemma route_total policy store state prof endpoint request :
  policy_wf policy -> state_wf policy state -> store_valid store ->
  exists out, route_for_endpoint policy store state prof endpoint request = Done out /\
              state_wf policy (ro_state out).
Proof.
  intros Hp Hst Hs. unfold route_for_endpoint.
  destruct (reject_provider_overrides request) as [[]|]; [|eauto].
  destruct (parse_top_p request) as [top|]; [|eauto].
  destruct (parse_stream request) as [stream|]; [|eauto].
  destruct (parse_request_total request) as [x Hx]. rewrite Hx. cbn [mbind outcome_bind].
  destruct x as [[parsed r]|]; [|eauto].
  pose proof (proj1 (parse_request_Ok _ _ _) Hx) as Hpa.
  pose proof (parsed_as_not_balanced _ _ _ Hpa) as Hb.
  destruct Hpa as (fs & m & -> & _ & _ & -> & _).
  destruct (routes policy !! _) as [ds|] eqn:Hds; [|eauto].
  destruct (candidates_total store prof (canonical_model parsed)
    (filter_b (compatible endpoint stream top) ds) Hs) as [cs ->].
  { intros d [_ Hd]%elem_of_filter_b. destruct Hp as (_ & _ & Hacc). by eapply Hacc. }
  cbn [mbind outcome_bind]. destruct cs as [|c0 cs]; [eauto|].
  destruct (decide_route_total policy state (prof, canonical_model parsed) (preference parsed) (c0 :: cs) Hp Hst Hb)
    as (dec & st' & -> & Hst'). cbn [mbind outcome_bind].
  destruct dec as [[sel fbs]|]; [|eauto].
  destruct (consume_routing_sort_object (obj_insert "model" (JString (canonical_model parsed)) fs)) as [fs' ->].
  cbn. eauto.
Qed.

Lemma tracker_for_cases policy (state : RoutingState) key t :
  tracker_for policy state key = Done t ->
  shares state !! key = Some t \/
  (shares state !! key = None /\ ShareTracker_new (share_window (config policy)) = Done (Ok t)).
Proof.
  unfold tracker_for. destruct (shares state !! key) as [t0|]; [intros [= ->]; by left|].
  intros ([t0|] & Hn & H%expect_Done)%bind_Done; [|done]. injection H as ->. by right.
Qed.

Lemma ShareTracker_new_history cap t : ShareTracker_new cap = Done (Ok t) -> history t = [].
Proof. unfold ShareTracker_new. destruct (cap =? 0), (MAX_CAPACITY <? cap); try done. by intros [= <-]. Qed.

Lemma decide_route_other policy state key pref cs x state' key' :
  decide_route policy state key pref cs = Done (x, state') -> key' <> key ->
  shares state' !! key' = shares state !! key'.
Proof.
  intros H Hne. destruct x as [[sel fbs]|].
  - apply decide_route_Some in H as (t & t' & r' & c & _ & _ & _ & _ & _ & ->). cbn. by rewrite lookup_insert_ne.
  - apply decide_route_None in H as (t & r' & _ & _ & ->). cbn. by rewrite lookup_insert_ne.
Qed.
End State.
