(* ===== verification/Pricing.v ===== *)
(** [src/src/pricing.rs]: exact provider prices from the registry and the USD
    cost of a request's tokens, at the ledger's ten decimal places. *)

From Stdlib Require Import QArith Qround Qabs ZArith Lqa.
From S2P Require Import Prelude RustDecimal RoutingProfile Registry.

#[local] Open Scope Z_scope.

Definition TOKENS_PER_MILLION : Z := 1000000.
Definition COST_SCALE : nat := 10.

Record Usage : Type := { prompt_tokens : Z; completion_tokens : Z }.

Section Pricing.
Context {D : RustDecimal}.

Record ModelPrices : Type := {
  mp_input_price_per_mtok : decimal;
  mp_output_price_per_mtok : decimal
}.

Record ProviderPrices : Type := {
  provider_cost : ModelPrices;
  provider_cached_input_price_per_mtok : option decimal
}.

Definition PriceTable : Type := gmap string (gmap string ProviderPrices).

Inductive PriceTableError : Type :=
| InvalidRegistry (e : RegistryValidationError)
| DuplicateMapping (provider_id canonical_slug : string)
| NegativePrice (provider_id canonical_slug : string) (price_side : PriceSide).

(** The three sides of a mapping's price, an absent cached rate skipped. *)
Definition price_sides (m : ModelMapping) : list (PriceSide * decimal) :=
  (Input, input_price_per_mtok m)
  :: match cached_input_price_per_mtok m with Some c => [(CachedInput, c)] | None => [] end
  ++ [(Output, output_price_per_mtok m)].
#[global] Arguments price_sides : simpl never.

Definition check_side (provider_id canonical_slug : string) (s : PriceSide * decimal)
    : result PriceTableError unit :=
  if dec_lt s.2 dec_zero then Err (NegativePrice provider_id canonical_slug s.1) else Ok tt.

Definition model_prices (m : ModelMapping) : ProviderPrices :=
  {| provider_cost := {| mp_input_price_per_mtok := input_price_per_mtok m;
                         mp_output_price_per_mtok := output_price_per_mtok m |};
     provider_cached_input_price_per_mtok := cached_input_price_per_mtok m |}.

Definition add_model (provider_id : string) (prices : gmap string ProviderPrices) (m : ModelMapping)
    : result PriceTableError (gmap string ProviderPrices) :=
  try_for_each (check_side provider_id (slug m)) (price_sides m) ≫= fun _ =>
  if is_some (prices !! slug m) then Err (DuplicateMapping provider_id (slug m))
  else Ok (<[slug m := model_prices m]> prices).

Definition add_provider_prices (table : gmap string (gmap string ProviderPrices)) (p : Provider)
    : result PriceTableError (gmap string (gmap string ProviderPrices)) :=
  try_fold (add_model (id p)) (default ∅ (table !! id p)) (models p) ≫= fun prices =>
  Ok (<[id p := prices]> table).

Definition PriceTable_from_registry (r : Registry) : result PriceTableError PriceTable :=
  map_err InvalidRegistry (validate r) ≫= fun _ =>
  try_fold add_provider_prices ∅ (enabled_providers r).

Definition PriceTable_get (table : PriceTable) (provider_id canonical_slug : string)
    : option ProviderPrices :=
  table !! provider_id ≫= fun prices => prices !! canonical_slug.

Definition normalize_cost_usd (cost : decimal) : option decimal :=
  if dec_lt cost dec_zero then None
  else Some (dec_rescale COST_SCALE (dec_round_away COST_SCALE cost)).

Definition rounded_cost (cost_per_million : decimal) : outcome decimal :=
  dec_div cost_per_million (dec_of_Z TOKENS_PER_MILLION) ≫= fun cost =>
  expect "validated non-negative prices and usage produce a non-negative cost"
    (normalize_cost_usd cost).

Definition cost_usd (prices : ModelPrices) (usage : Usage) : outcome decimal :=
  dec_mul (dec_of_Z (prompt_tokens usage)) (mp_input_price_per_mtok prices) ≫= fun prompt_cost =>
  dec_mul (dec_of_Z (completion_tokens usage)) (mp_output_price_per_mtok prices) ≫= fun completion_cost =>
  dec_add prompt_cost completion_cost ≫= rounded_cost.

(** [u64::checked_sub]. *)
Definition checked_sub (a b : Z) : option Z := if a <? b then None else Some (a - b).

Definition provider_cost_usd (prices : ProviderPrices) (usage : Usage) (cached_prompt_tokens : option Z)
    : outcome (option decimal) :=
  match provider_cached_input_price_per_mtok prices with
  | None => cost_usd (provider_cost prices) usage ≫= fun c => Done (Some c)
  | Some cached_input_price =>
      match cached_prompt_tokens ≫= fun cached =>
            checked_sub (prompt_tokens usage) cached ≫= fun uncached => Some (cached, uncached) with
      | None => Done None
      | Some (cached, uncached) =>
          dec_mul (dec_of_Z uncached) (mp_input_price_per_mtok (provider_cost prices)) ≫= fun u =>
          dec_mul (dec_of_Z cached) cached_input_price ≫= fun c =>
          dec_add u c ≫= fun prompt_cost =>
          dec_mul (dec_of_Z (completion_tokens usage)) (mp_output_price_per_mtok (provider_cost prices))
            ≫= fun completion_cost =>
          dec_add prompt_cost completion_cost ≫= fun total =>
          rounded_cost total ≫= fun c => Done (Some c)
      end
  end.

(** ** The price table *)

Lemma add_models_lookup pid ms prices prices' :
  try_fold (add_model pid) prices ms = Ok prices' ->
  (forall s, prices' !! s = match prices !! s with
             | Some x => Some x
             | None => model_prices <$> find_b (fun m => String.eqb (slug m) s) ms
             end) /\
  NoDup (slug <$> ms) /\ (forall m, m ∈ ms -> prices !! slug m = None) /\
  (forall m s, m ∈ ms -> s ∈ price_sides m -> dec_lt s.2 dec_zero = false).
Proof.
  revert prices. induction ms as [|m ms IH]; intros prices; cbn.
  - intros [= <-]. split_and!; [intros s; by destruct (prices !! s)|constructor|intros m H; inversion H
                               |intros m s H; inversion H].
  - intros (p1 & (u & Hc & Ha)%bind_Ok & (Hl & Hnd & Hnone & Hneg)%IH)%bind_Ok. destruct u.
    apply try_for_each_Ok in Hc. rewrite Forall_forall in Hc.
    destruct (prices !! slug m) eqn:Em; [done|]. injection Ha as <-.
    split_and!.
    + intros s. rewrite Hl. destruct (String.eqb_spec (slug m) s) as [<-|Hne].
      * by rewrite lookup_insert_eq, Em.
      * by rewrite lookup_insert_ne.
    + constructor; [|done]. intros (x & Hs & Hx)%list_elem_of_fmap. specialize (Hnone x Hx).
      by rewrite <- Hs, lookup_insert_eq in Hnone.
    + intros x [->|Hx]%elem_of_cons; [done|]. specialize (Hnone x Hx).
      by apply lookup_insert_None in Hnone as [? _].
    + intros x s [->|Hx]%elem_of_cons Hs; [|by eapply Hneg].
      specialize (Hc s Hs). unfold check_side in Hc. by destruct (dec_lt s.2 dec_zero).
Qed.

Lemma add_models_total pid ms prices :
  NoDup (slug <$> ms) -> (forall m, m ∈ ms -> prices !! slug m = None) ->
  (forall m s, m ∈ ms -> s ∈ price_sides m -> dec_lt s.2 dec_zero = false) ->
  exists prices', try_fold (add_model pid) prices ms = Ok prices'.
Proof.
  revert prices. induction ms as [|m ms IH]; intros prices; cbn; [eauto|].
  intros [Hm Hnd]%NoDup_cons Hnone Hneg. 
  assert (add_model pid prices m = Ok (<[slug m := model_prices m]> prices)) as ->.
  { unfold add_model. rewrite (proj2 (try_for_each_Ok (check_side pid (slug m)) (price_sides m))).
    - cbn. by rewrite Hnone by left.
    - apply Forall_forall. intros s Hs. unfold check_side. by rewrite (Hneg m s) by (left || done). }
  cbn. apply IH; [done| |intros; eapply Hneg; [by right|done]].
  intros x Hx. rewrite lookup_insert_ne; [apply Hnone; by right|].
  intros E. apply Hm. rewrite E. by apply list_elem_of_fmap_2.
Qed.

(** A price lookup finds the registry's mapping: the enabled provider with the
    id and its mapping with the slug. *)
Definition registry_price (r : Registry) (provider_id canonical_slug : string) : option ProviderPrices :=
  find_b (fun p => String.eqb (id p) provider_id) (enabled_providers r) ≫= fun p =>
  model_prices <$> find_b (fun m => String.eqb (slug m) canonical_slug) (models p).

Lemma add_providers_lookup ps (table table' : gmap string (gmap string ProviderPrices)) :
  NoDup (id <$> ps) -> (forall p, p ∈ ps -> table !! id p = None) ->
  try_fold add_provider_prices table ps = Ok table' ->
  forall pid s, PriceTable_get table' pid s =
    match table !! pid with
    | Some prices => prices !! s
    | None => find_b (fun p => String.eqb (id p) pid) ps ≫= fun p =>
              model_prices <$> find_b (fun m => String.eqb (slug m) s) (models p)
    end.
Proof.
  unfold PriceTable_get, PriceTable in *. revert table. induction ps as [|p ps IH]; intros table; cbn.
  - intros _ _ [= <-] pid s. by destruct (table !! pid).
  - intros [Hp Hnd]%NoDup_cons Hnone (t1 & (prices & Hf & [= <-])%bind_Ok & Hr)%bind_Ok pid s.
    rewrite (Hnone p (list_elem_of_here _ _)) in Hf. cbn in Hf.
    apply add_models_lookup in Hf as (Hl & _).
    rewrite (IH _ Hnd) with (2 := Hr).
    + destruct (String.eqb_spec (id p) pid) as [<-|Hne].
      * rewrite lookup_insert_eq, (Hnone p (list_elem_of_here _ _)), Hl, lookup_empty. done.
      * by rewrite lookup_insert_ne.
    + intros q Hq. rewrite lookup_insert_ne; [apply Hnone; by right|].
      intros E. apply Hp. rewrite E. by apply list_elem_of_fmap_2.
Qed.

Lemma sublist_fmap {A B} (f : A -> B) l k : sublist l k -> sublist (f <$> l) (f <$> k).
Proof. induction 1; cbn; constructor; done. Qed.

Lemma enabled_NoDup r : NoDup (id <$> providers r) -> NoDup (id <$> enabled_providers r).
Proof. intros H. eapply sublist_NoDup; [exact H|]. apply sublist_fmap, filter_b_sublist. Qed.

Lemma from_registry_get r table pid s :
  PriceTable_from_registry r = Ok table ->
  PriceTable_get table pid s = registry_price r pid s.
Proof.
  unfold PriceTable_from_registry. intros (u & Hv & Hf)%bind_Ok.
  destruct (validate r) as [[]|] eqn:Ev; [|done].
  apply validate_Ok_iff in Ev as [Hnd _].
  rewrite (add_providers_lookup _ ∅ table (enabled_NoDup r Hnd) (fun p _ => lookup_empty _) Hf).
  unfold PriceTable. by rewrite lookup_empty.
Qed.

(** Prices that the table accepts: distinct slugs, no negative side. *)
Definition priceable (p : Provider) : Prop :=
  NoDup (slug <$> models p) /\
  forall m s, m ∈ models p -> s ∈ price_sides m -> dec_lt s.2 dec_zero = false.

Lemma add_providers_Ok ps (table : gmap string (gmap string ProviderPrices)) :
  NoDup (id <$> ps) -> (forall p, p ∈ ps -> table !! id p = None) ->
  is_ok (try_fold add_provider_prices table ps) = true <-> Forall priceable ps.
Proof.
  revert table. induction ps as [|p ps IH]; intros table; cbn; [split; [constructor|done]|].
  intros [Hp Hnd]%NoDup_cons Hnone. rewrite Forall_cons.
  assert (add_provider_prices table p =
          (try_fold (add_model (id p)) ∅ (models p) ≫= fun prices => Ok (<[id p := prices]> table))) as ->.
  { unfold add_provider_prices. by rewrite (Hnone p (list_elem_of_here _ _)). }
  assert (forall prices q, q ∈ ps -> <[id p := prices]> table !! id q = None) as Hnext.
  { intros prices q Hq. rewrite lookup_insert_ne; [apply Hnone; by right|].
    intros E. apply Hp. rewrite E. by apply list_elem_of_fmap_2. }
  destruct (try_fold (add_model (id p)) ∅ (models p)) as [prices|e] eqn:Ef; cbn.
  - apply add_models_lookup in Ef as (_ & Hs & _ & Hneg). rewrite IH; [|done|apply Hnext].
    unfold priceable at 2. tauto.
  - split; [done|]. intros [[Hs Hneg] _]. exfalso.
    destruct (add_models_total (id p) (models p) ∅ Hs) as [x Hx]; [intros; apply lookup_empty|done|].
    congruence.
Qed.

Lemma from_registry_Ok r :
  is_ok (PriceTable_from_registry r) = true <->
  registry_ok r /\ Forall priceable (enabled_providers r).
Proof.
  unfold PriceTable_from_registry. rewrite <- validate_Ok_iff.
  destruct (validate r) as [[]|] eqn:Ev; cbn; [|naive_solver].
  apply validate_Ok_iff in Ev as [Hnd _]. unfold PriceTable.
  rewrite (add_providers_Ok _ ∅); [tauto|by apply enabled_NoDup|intros; apply lookup_empty].
Qed.
End Pricing.

(** ** Exactness of costs *)

Section Exactness.
Context {D : RustDecimal} (val : decimal -> Q) {L : DecimalLaws val}.

Definition tokens_ok (n : Z) : Prop := 0 <= n <= u64_max.

(** The exact amount per million tokens is within the decimal's range, and so
    is its rounding at the ledger's scale. *)
Definition ledger_range (per_million : Q) : Prop :=
  representable (per_million / inject_Z TOKENS_PER_MILLION) /\
  Z.abs (Qnum (round_away COST_SCALE (per_million / inject_Z TOKENS_PER_MILLION))) < 2 ^ 96.

Lemma round_away_den k q : Qden (round_away k q) = pow10 k.
Proof. done. Qed.

#[export] Instance round_away_proper k : Proper (Qeq ==> Qeq) (round_away k).
Proof.
  intros [a b] [c d] E. unfold Qeq in E. cbn in E. unfold round_away. cbn [Qnum Qden].
  assert (div_away (a * Z.pos (pow10 k)) b = div_away (c * Z.pos (pow10 k)) d) as ->; [|done].
  unfold div_away. set (p := Z.pos (pow10 k)) in *. assert (0 < p) as Hp by (subst p; lia).
  assert (Z.sgn (a * p) = Z.sgn (c * p)) as ->.
  { rewrite !Z.sgn_mul. f_equal.
    apply (f_equal Z.sgn) in E. rewrite !Z.sgn_mul in E. cbn in E. lia. }
  f_equal.
  assert (Z.abs (a * p) * Z.pos d = Z.abs (c * p) * Z.pos b) as E'.
  { rewrite !Z.abs_mul. apply (f_equal Z.abs) in E. rewrite !Z.abs_mul in E. cbn in E. nia. }
  set (x := Z.abs (a * p)) in *. set (y := Z.abs (c * p)) in *.
  assert ((2 * x + Z.pos b) / (2 * Z.pos b) = ((2 * x + Z.pos b) * Z.pos d) / (2 * Z.pos b * Z.pos d)) as ->
    by (symmetry; apply Z.div_mul_cancel_r; lia).
  assert ((2 * y + Z.pos d) / (2 * Z.pos d) = ((2 * y + Z.pos d) * Z.pos b) / (2 * Z.pos d * Z.pos b)) as ->
    by (symmetry; apply Z.div_mul_cancel_r; lia).
  f_equal; nia.
Qed.

Lemma normalize_cost_usd_spec c q :
  (val c == q)%Q -> (0 <= q)%Q ->
  Z.abs (Qnum (round_away COST_SCALE q)) < 2 ^ 96 ->
  exists n, normalize_cost_usd c = Some n /\ (val n == round_away COST_SCALE q)%Q.
Proof.
  intros E Hq Hr. unfold normalize_cost_usd.
  rewrite (proj2 (dec_negative_false val c)) by (by rewrite E). eexists. split; [done|].
  assert (COST_SCALE <= 28)%nat as Hs by (unfold COST_SCALE; lia).
  pose proof (law_round COST_SCALE c Hs) as Hv. rewrite E in Hv.
  rewrite (law_rescale COST_SCALE _ (Qnum (round_away COST_SCALE q)) Hs Hr); [done|].
  rewrite Hv. reflexivity.
Qed.

Lemma rounded_cost_spec c q :
  (val c == q)%Q -> (0 <= q)%Q -> ledger_range q ->
  exists n, rounded_cost c = Done n /\
            (val n == round_away COST_SCALE (q / inject_Z TOKENS_PER_MILLION))%Q.
Proof.
  intros E Hq [Hrep Hr]. unfold rounded_cost, dec_div.
  assert (val (dec_of_Z TOKENS_PER_MILLION) == inject_Z TOKENS_PER_MILLION)%Q as Hm
    by (apply law_of_Z; unfold TOKENS_PER_MILLION, u64_max; lia).
  destruct (law_div_exact c (dec_of_Z TOKENS_PER_MILLION)) as (d & -> & Hd).
  { rewrite Hm. discriminate. }
  { eapply representable_compat; [|exact Hrep]. by rewrite E, Hm. }
  cbn. destruct (normalize_cost_usd_spec d (q / inject_Z TOKENS_PER_MILLION)) as (n & -> & Hn);
    [by rewrite Hd, E, Hm| |done|eauto].
  apply Qle_shift_div_l; [done|]. by rewrite Qmult_0_l.
Qed.

Lemma token_cost_spec n price :
  tokens_ok n -> representable (inject_Z n * val price) ->
  exists c, dec_mul (dec_of_Z n) price = Done c /\ (val c == inject_Z n * val price)%Q.
Proof.
  intros Hn Hr. unfold dec_mul. pose proof (law_of_Z n Hn) as Hz.
  destruct (law_mul_exact (dec_of_Z n) price) as (c & -> & Hc).
  { eapply representable_compat; [|exact Hr]. by rewrite Hz. }
  exists c. split; [done|]. by rewrite Hc, Hz.
Qed.

Lemma add_spec a b p q :
  (val a == p)%Q -> (val b == q)%Q -> representable (p + q) ->
  exists c, dec_add a b = Done c /\ (val c == p + q)%Q.
Proof.
  intros Ha Hb Hr. unfold dec_add. destruct (law_add_exact a b) as (c & -> & Hc).
  { eapply representable_compat; [|exact Hr]. by rewrite Ha, Hb. }
  exists c. split; [done|]. by rewrite Hc, Ha, Hb.
Qed.

(** The rounding error: at most half a unit of the last place. *)
Lemma round_away_error k q : (Qabs (round_away k q - q) <= 1 # (2 * pow10 k))%Q.
Proof.
  destruct q as [n d]. unfold round_away, div_away. cbn [Qnum Qden].
  set (p := Z.pos (pow10 k)). set (x := Z.abs (n * p)).
  pose proof (Z.div_mod (2 * x + Z.pos d) (2 * Z.pos d) ltac:(lia)) as Hdm.
  pose proof (Z.mod_pos_bound (2 * x + Z.pos d) (2 * Z.pos d) ltac:(lia)) as Hb.
  set (m := (2 * x + Z.pos d) / (2 * Z.pos d)) in *.
  set (r := (2 * x + Z.pos d) mod (2 * Z.pos d)) in *.
  assert (Z.abs (Z.sgn (n * p) * m * Z.pos d - n * p) <= x + Z.pos d - x /\
          2 * Z.abs (Z.sgn (n * p) * m * Z.pos d - n * p) <= Z.pos d) as [_ H].
  { pose proof (Z.sgn_abs (n * p)) as Hs. fold x in Hs.
    destruct (Z.sgn_spec (n * p)) as [(Hp & Es)|[(Hp & Es)|(Hp & Es)]]; rewrite Es in *; lia. }
  unfold Qabs, Qminus, Qplus, Qopp, Qle. cbn [Qnum Qden].
  rewrite !Pos2Z.inj_mul. fold p. assert (0 < p) by (subst p; lia).
  replace (Z.sgn (n * p) * m * Z.pos d + - n * p) with (Z.sgn (n * p) * m * Z.pos d - n * p) by lia.
  nia.
Qed.

Lemma round_away_nonneg k q : (0 <= q)%Q -> (0 <= round_away k q)%Q.
Proof.
  destruct q as [n d]. unfold Qle, round_away, div_away. cbn. intros H.
  assert (0 <= Z.sgn (n * Z.pos (pow10 k))) by (apply Z.sgn_nonneg; lia).
  assert (0 <= (2 * Z.abs (n * Z.pos (pow10 k)) + Z.pos d) / (2 * Z.pos d)) by (apply Z.div_pos; lia).
  nia.
Qed.
End Exactness.
