(* ===== verification/UsageCost.v ===== *)
(** [src/src/usage_cost.rs]: the provider-neutral view of a completion object
    (what a public response may contain) and the exact provider cost written
    into [usage.cost]. *)

From Stdlib Require Import QArith ZArith.
From S2P Require Import Prelude RustDecimal RoutingProfile Registry Json Pricing.

#[local] Open Scope Z_scope.

Inductive ProviderReportedCostPolicy : Type := UsageCostOnly | DeepInfraEstimatedCost.

#[global] Instance ProviderReportedCostPolicy_eq_dec : EqDecision ProviderReportedCostPolicy.
Proof. solve_decision. Defined.

Inductive CostOmission : Type :=
| InvalidJson | MissingUsage | InvalidUsage | InvalidProviderCost | UnknownPrice
| UnresolvedProviderCost.

Inductive PublicResponseRejection : Type := RejectedJson | EmbeddedError | UnrecognizedShape.

Definition provider_reported_cost_policy (served_provider : ServedProvider)
    : ProviderReportedCostPolicy :=
  if String.eqb served_provider "deepinfra" || String.eqb served_provider "deepinfra-glm"
  then DeepInfraEstimatedCost else UsageCostOnly.

(** The slug of a provider-qualified model name, the name itself otherwise. *)
Definition canonical_slug (requested_model served_provider : string) : string :=
  match strip_prefix served_provider requested_model ≫= strip_prefix "/" with
  | Some slug => if str_is_empty slug then requested_model else slug
  | None => requested_model
  end.

(** ** Provider-specific fields *)

Definition PROVIDER_FIELDS : string := "provider_specific_fields".

(** The stripped value, and whether anything was removed.  The children of a
    removed field are not visited. *)
Fixpoint strip_provider_specific_fields (v : Value) : Value * bool :=
  match v with
  | Object fs =>
      let children := filter_b (fun kv => negb (String.eqb kv.1 PROVIDER_FIELDS))
                        (map (fun kv => (kv.1, strip_provider_specific_fields kv.2)) fs) in
      (Object (map (fun kv => (kv.1, kv.2.1)) children),
       is_some (obj_get PROVIDER_FIELDS fs) || existsb (fun kv => kv.2.2) children)
  | Array l =>
      let children := map strip_provider_specific_fields l in
      (Array (map fst children), existsb snd children)
  | _ => (v, false)
  end.

(** ** Public completions *)

Definition public_field (field : string) : bool :=
  existsb (String.eqb field)
    ["id"; "object"; "created"; "model"; "choices"; "usage"; "service_tier"; "system_fingerprint"].

Definition completion_object (object : string) : bool :=
  existsb (String.eqb object) ["chat.completion"; "chat.completion.chunk"; "text_completion"].

Definition sanitize_public_completion_value (response : Value) (canonical_model : string)
    : result PublicResponseRejection Value :=
  ok_or UnrecognizedShape (as_object response) ≫= fun fs =>
  if is_some_and (fun e => negb (is_null e)) (obj_get "error" fs) then Err EmbeddedError
  else if is_none_or str_is_empty (obj_get "id" fs ≫= as_str)
       || negb (is_some_and completion_object (obj_get "object" fs ≫= as_str))
       || negb (is_some_and is_array (obj_get "choices" fs))
  then Err UnrecognizedShape
  else
    let fs := map (fun kv => (kv.1, (strip_provider_specific_fields kv.2).1)) fs in
    Ok (Object (obj_insert "model" (JString canonical_model) (obj_retain public_field fs))).

(** ** Costs *)

Section Cost.
Context {D : RustDecimal} {J : SerdeJson}.

Record CostedUsage : Type := {
  response_id : option string;
  cu_usage : Usage;
  cu_cost_usd : decimal
}.

Record CostedResponse : Type := { cr_body : list byte; cr_usage : CostedUsage }.

Definition prices_for_request (requested_model : string) (served_provider : ServedProvider)
    (price_table : PriceTable) : result CostOmission ProviderPrices :=
  ok_or UnknownPrice
    (PriceTable_get price_table served_provider (canonical_slug requested_model served_provider)).

Definition reported_cost (value : option Value) : result CostOmission (option decimal) :=
  match value with
  | None => Ok None
  | Some value =>
      if is_null value then Ok None
      else match value with
           | Number serialized =>
               ok_or InvalidProviderCost
                 (option_or (dec_from_str serialized) (dec_from_scientific serialized)) ≫= fun cost =>
               ok_or InvalidProviderCost (Some <$> normalize_cost_usd cost)
           | _ => Err InvalidProviderCost
           end
  end.

(** The object [response.get_mut("usage")] borrows. *)
Definition usage_object (response : Value) : option Fields :=
  value_get "usage" response ≫= as_object.

Definition token_usage (usage : Fields) : result CostOmission Usage :=
  ok_or InvalidUsage (obj_get "prompt_tokens" usage ≫= as_u64) ≫= fun prompt =>
  ok_or InvalidUsage (obj_get "completion_tokens" usage ≫= as_u64) ≫= fun completion =>
  Ok {| prompt_tokens := prompt; completion_tokens := completion |}.

Definition cached_tokens (usage : Fields) : option Z :=
  obj_get "prompt_tokens_details" usage ≫= fun details =>
  as_object details ≫= fun details => obj_get "cached_tokens" details ≫= as_u64.

(** The cost the response reports: [usage.cost], then DeepInfra's estimate. *)
Definition response_cost (usage : Fields) (policy : ProviderReportedCostPolicy)
    : result CostOmission (option decimal) :=
  reported_cost (obj_get "cost" usage) ≫= fun cost =>
  match cost with
  | Some c => Ok (Some c)
  | None =>
      if bool_decide (policy = DeepInfraEstimatedCost)
      then reported_cost (obj_get "estimated_cost" usage) else Ok None
  end.

(** [inject_usage_cost_value_with_policy] writes into the response in place;
    on an error the response is untouched. *)
Definition inject_usage_cost_value_with_policy (response : Value) (prices : ProviderPrices)
    (policy : ProviderReportedCostPolicy) : outcome (result CostOmission (Value * CostedUsage)) :=
  let response_id := value_get "id" response ≫= as_str in
  let? usage := ok_or MissingUsage (usage_object response) in
  let? tokens := token_usage usage in
  let? reported := response_cost usage policy in
  match reported with
  | Some c => Done (Some c)
  | None => provider_cost_usd prices tokens (cached_tokens usage)
  end ≫= fun provider_cost =>
  let? cost := ok_or UnresolvedProviderCost provider_cost in
  expect "Decimal always serializes as a JSON number" (number_from_str (dec_to_string cost))
    ≫= fun cost_number =>
  let usage := obj_insert "cost" (Number cost_number) usage in
  let usage := if bool_decide (policy = DeepInfraEstimatedCost)
               then obj_remove "estimated_cost" usage else usage in
  set_index "usage" (Object usage) response ≫= fun response =>
  Done (Ok (response, {| response_id := response_id; cu_usage := tokens; cu_cost_usd := cost |})).

Definition inject_usage_cost (body : list byte) (requested_model : string)
    (served_provider : ServedProvider) (price_table : PriceTable)
    : outcome (result CostOmission CostedResponse) :=
  let? response := ok_or InvalidJson (from_slice body) in
  let response := (strip_provider_specific_fields response).1 in
  let? prices := prices_for_request requested_model served_provider price_table in
  inject_usage_cost_value_with_policy response prices (provider_reported_cost_policy served_provider)
    ≫= fun injected =>
  let? injected := injected in
  let? body := ok_or InvalidJson (to_vec injected.1) in
  Done (Ok {| cr_body := body; cr_usage := injected.2 |}).
End Cost.

(** ** Stripping provider-specific fields *)

(** The field occurs somewhere in the value. *)
Fixpoint mentions (v : Value) : bool :=
  match v with
  | Object fs => is_some (obj_get "provider_specific_fields" fs) || existsb (fun kv => mentions kv.2) fs
  | Array l => existsb mentions l
  | _ => false
  end.

Lemma existsb_false {A} (p : A -> bool) l : existsb p l = false <-> Forall (fun x => p x = false) l.
Proof.
  induction l as [|x l IH]; cbn; [split; [constructor|done]|].
  rewrite orb_false_iff, IH, Forall_cons. done.
Qed.

Lemma existsb_map_ext {A B} (p : B -> bool) (q : A -> bool) f l :
  Forall (fun x => p (f x) = q x) l -> existsb p (map f l) = existsb q l.
Proof. induction 1 as [|x l Hx _ IH]; cbn; [done|]. by rewrite Hx, IH. Qed.

Lemma map_id_Forall {A} (f : A -> A) l : Forall (fun x => f x = x) l -> map f l = l.
Proof. induction 1 as [|x l Hx _ IH]; cbn; [done|]. by rewrite Hx, IH. Qed.

Lemma filter_b_id {A} (p : A -> bool) l : Forall (fun x => p x = true) l -> filter_b p l = l.
Proof. induction 1 as [|x l Hx _ IH]; cbn; [done|]. by rewrite Hx, IH. Qed.

Definition strip_ok (v : Value) : Prop :=
  let r := strip_provider_specific_fields v in
  mentions r.1 = false /\ r.2 = mentions v /\ (r.2 = false -> r.1 = v).

Lemma strip_object fs :
  Forall (fun kv => strip_ok kv.2) fs -> strip_ok (Object fs).
Proof.
  intros IH. unfold strip_ok. cbn [strip_provider_specific_fields fst snd mentions]. fold PROVIDER_FIELDS.
  set (children := filter_b _ _).
  assert (Forall (fun kv => kv.1 <> PROVIDER_FIELDS /\
            exists c, c ∈ fs.*2 /\ strip_ok c /\ kv.2 = strip_provider_specific_fields c) children) as Hch.
  { apply Forall_forall. intros kv [Hk Hin]%elem_of_filter_b.
    apply negb_true_iff, String.eqb_neq in Hk. split; [done|].
    apply list_elem_of_In, in_map_iff in Hin as (x & <- & Hx%list_elem_of_In).
    rewrite Forall_forall in IH. exists x.2. split_and!; [by apply list_elem_of_fmap_2|by apply IH|done]. }
  split.
  { apply orb_false_iff. split.
    - destruct (obj_get PROVIDER_FIELDS _) as [v|] eqn:E; [|done]. exfalso.
      apply obj_get_elem, list_elem_of_In, in_map_iff in E as (x & [= Ek _] & Hx%list_elem_of_In).
      rewrite Forall_forall in Hch. by destruct (Hch x Hx).
    - rewrite (existsb_map_ext _ (fun _ => false)).
      + apply existsb_false, Forall_forall. done.
      + eapply List.Forall_impl; [|exact Hch]. intros kv (_ & c & _ & (Hm & _) & ->). exact Hm. }
  destruct (obj_get PROVIDER_FIELDS fs) as [v|] eqn:E; cbn [is_some orb]; [done|].
  apply obj_get_None_elem in E.
  assert (children = map (fun kv => (kv.1, strip_provider_specific_fields kv.2)) fs) as Hid.
  { apply filter_b_id, Forall_forall. intros kv (x & <- & Hx%list_elem_of_In)%list_elem_of_In%in_map_iff.
    cbn. apply negb_true_iff, String.eqb_neq. intros Ek. apply E. rewrite <- Ek. by apply list_elem_of_fmap_2. }
  rewrite Hid.
  rewrite (existsb_map_ext _ (fun kv => mentions kv.2)).
  2:{ eapply List.Forall_impl; [|exact IH]. intros kv (_ & H & _). exact H. }
  split; [done|]. rewrite existsb_false. intros Hno. f_equal. rewrite map_map. apply map_id_Forall.
  apply Forall_forall. intros [k c] Hkv. rewrite Forall_forall in IH, Hno.
  destruct (IH _ Hkv) as (_ & Hr & Hsame). cbn in *. rewrite Hsame; [done|]. rewrite Hr. by apply (Hno (k, c)).
Qed.

Lemma strip_spec v : strip_ok v.
Proof.
  induction v as [| | | |l IH|fs IH] using Value_nested_ind; try (split_and!; done).
  2: by apply strip_object.
  unfold strip_ok. cbn [strip_provider_specific_fields fst snd mentions]. rewrite map_map.
  rewrite (existsb_map_ext _ (fun _ => false)), (existsb_map_ext _ mentions).
  - split_and!; [apply existsb_false, Forall_forall; done|done|]. rewrite existsb_false.
    intros Hno. f_equal. apply map_id_Forall, Forall_forall. intros x Hx.
    rewrite Forall_forall in IH, Hno. destruct (IH x Hx) as (_ & Hr & Hsame).
    apply Hsame. rewrite Hr. by apply Hno.
  - eapply List.Forall_impl; [|exact IH]. by intros x (_ & ? & _).
  - eapply List.Forall_impl; [|exact IH]. by intros x (? & _).
Qed.

(** ** Lookups in mapped objects *)

Lemma obj_get_map f k (fs : Fields) : obj_get k (map (fun kv => (kv.1, f kv.2)) fs) = f <$> obj_get k fs.
Proof.
  induction fs as [|[j v] fs IH]; [done|]. cbn. rewrite !obj_get_cons, IH.
  by destruct (String.eqb k j).
Qed.

Lemma canonical_slug_qualified p s : s <> "" -> canonical_slug (p +:+ "/" +:+ s) p = s.
Proof.
  intros Hs. unfold canonical_slug.
  rewrite (proj2 (strip_prefix_Some p (p +:+ "/" +:+ s) ("/" +:+ s)) eq_refl). cbn [mbind option_bind].
  rewrite (proj2 (strip_prefix_Some "/" ("/" +:+ s) s) eq_refl). unfold str_is_empty.
  by destruct (String.eqb_spec s "").
Qed.

Lemma canonical_slug_other p s :
  (forall t, t <> "" -> s <> p +:+ "/" +:+ t) -> canonical_slug s p = s.
Proof.
  intros H. unfold canonical_slug. destruct (strip_prefix p s ≫= strip_prefix "/") as [t|] eqn:E; [|done].
  apply bind_Some in E as (u & Hu%strip_prefix_Some & Ht%strip_prefix_Some).
  unfold str_is_empty. destruct (String.eqb_spec t ""); [done|]. subst. by destruct (H t).
Qed.

(** ** What sanitizing accepts and produces *)

(** The shape of an OpenAI completion object without an upstream error. *)
Definition completion_shape (fs : Fields) : Prop :=
  (forall e, obj_get "error" fs = Some e -> e = Null) /\
  (exists id, obj_get "id" fs = Some (JString id) /\ id <> "") /\
  (exists object, obj_get "object" fs = Some (JString object) /\ completion_object object = true) /\
  (exists choices, obj_get "choices" fs = Some (Array choices)).

Lemma is_null_spec v : is_null v = true <-> v = Null.
Proof. destruct v; cbn; split; congruence. Qed.

Lemma id_check fs :
  is_none_or str_is_empty (obj_get "id" fs ≫= as_str) = false <->
  exists id, obj_get "id" fs = Some (JString id) /\ id <> "".
Proof.
  unfold str_is_empty. destruct (obj_get "id" fs) as [[| | |s| |]|]; cbn; try naive_solver.
  destruct (String.eqb_spec s ""); naive_solver.
Qed.

Lemma object_check fs :
  is_some_and completion_object (obj_get "object" fs ≫= as_str) = true <->
  exists object, obj_get "object" fs = Some (JString object) /\ completion_object object = true.
Proof. destruct (obj_get "object" fs) as [[| | |s| |]|]; cbn; naive_solver. Qed.

Lemma choices_check fs :
  is_some_and is_array (obj_get "choices" fs) = true <->
  exists choices, obj_get "choices" fs = Some (Array choices).
Proof. destruct (obj_get "choices" fs) as [[| | | |l|]|]; cbn; naive_solver. Qed.

Lemma error_check fs :
  is_some_and (fun e => negb (is_null e)) (obj_get "error" fs) = false <->
  forall e, obj_get "error" fs = Some e -> e = Null.
Proof.
  destruct (obj_get "error" fs) as [e|]; cbn; [|naive_solver].
  rewrite negb_false_iff, is_null_spec. naive_solver.
Qed.

Definition sanitized_fields (fs : Fields) (canonical_model : string) : Fields :=
  obj_insert "model" (JString canonical_model)
    (obj_retain public_field (map (fun kv => (kv.1, (strip_provider_specific_fields kv.2).1)) fs)).

Lemma sanitize_Ok response model v :
  sanitize_public_completion_value response model = Ok v <->
  exists fs, response = Object fs /\ completion_shape fs /\ v = Object (sanitized_fields fs model).
Proof.
  unfold sanitize_public_completion_value.
  destruct (as_object response) as [fs|] eqn:E; cbn [ok_or mbind result_bind].
  2:{ split; [done|]. intros (fs & -> & _). done. }
  assert (response = Object fs) as -> by (destruct response; try done; by injection E as ->).
  assert (forall v, (exists fs', Object fs = Object fs' /\ completion_shape fs' /\
            v = Object (sanitized_fields fs' model)) <->
          completion_shape fs /\ v = Object (sanitized_fields fs model)) as Hiff by naive_solver.
  change (Ok (Object _)) with (@Ok PublicResponseRejection Value (Object (sanitized_fields fs model))).
  rewrite Hiff. unfold completion_shape.
  rewrite <- error_check, <- id_check, <- object_check, <- choices_check.
  destruct (is_some_and _ (obj_get "error" fs)); [naive_solver|].
  destruct (is_none_or _ _); cbn [orb]; [naive_solver|].
  destruct (is_some_and completion_object _); cbn [orb negb]; [|naive_solver].
  destruct (is_some_and is_array _); cbn [orb negb]; naive_solver.
Qed.

Lemma sanitized_get fs model k :
  obj_get k (sanitized_fields fs model) =
  if String.eqb k "model" then Some (JString model)
  else if public_field k then (fun v => (strip_provider_specific_fields v).1) <$> obj_get k fs else None.
Proof.
  unfold sanitized_fields. destruct (String.eqb_spec k "model") as [->|Hne].
  - by rewrite obj_get_insert_eq.
  - rewrite obj_get_insert_ne, obj_get_retain by done.
    by rewrite (obj_get_map (fun v => (strip_provider_specific_fields v).1)).
Qed.

Lemma mentions_object_iff fs :
  mentions (Object fs) = false <->
  obj_get PROVIDER_FIELDS fs = None /\ forall kv, kv ∈ fs -> mentions kv.2 = false.
Proof.
  cbn [mentions]. rewrite orb_false_iff, existsb_false, Forall_forall.
  destruct (obj_get _ fs); naive_solver.
Qed.

Lemma sanitized_clean fs model : mentions (Object (sanitized_fields fs model)) = false.
Proof.
  apply mentions_object_iff. split; [by rewrite sanitized_get|]. intros [k v] Hin.
  unfold sanitized_fields in Hin. apply (bt_insert_elem String.compare string_compare_eq) in Hin as [[= -> ->]|Hin]; [done|].
  unfold obj_retain in Hin. apply elem_of_filter_b in Hin as [_ Hin].
  apply list_elem_of_In, in_map_iff in Hin as (x & [= <- <-] & _). apply strip_spec.
Qed.

(** ** Injection, field by field *)

Lemma mentions_insert k v fs :
  k <> PROVIDER_FIELDS -> mentions v = false -> mentions (Object fs) = false ->
  mentions (Object (obj_insert k v fs)) = false.
Proof.
  rewrite !mentions_object_iff. intros Hk Hv [Hn Hc]. split; [by rewrite obj_get_insert_ne|].
  intros kv Hin. apply (bt_insert_elem String.compare string_compare_eq) in Hin as [->|Hin]; auto.
Qed.

Lemma mentions_remove k fs : mentions (Object fs) = false -> mentions (Object (obj_remove k fs)) = false.
Proof.
  rewrite !mentions_object_iff. intros [Hn Hc]. split.
  - destruct (decide (k = PROVIDER_FIELDS)) as [->|Hne]; [apply obj_get_remove_eq|by rewrite obj_get_remove_ne].
  - intros kv [_ Hin]%elem_of_filter_b. auto.
Qed.

Lemma mentions_get fs k v : mentions (Object fs) = false -> obj_get k fs = Some v -> mentions v = false.
Proof. rewrite mentions_object_iff. intros [_ Hc] Hin%obj_get_elem. by apply (Hc (k, v)). Qed.

Section Shape.
Context {D : RustDecimal} {J : SerdeJson}.

Lemma inject_shape response prices policy response' costed :
  inject_usage_cost_value_with_policy response prices policy = Done (Ok (response', costed)) ->
  exists fs usage text,
    response = Object fs /\ obj_get "usage" fs = Some (Object usage) /\
    token_usage usage = Ok (cu_usage costed) /\
    (response_cost usage policy = Ok (Some (cu_cost_usd costed)) \/
     response_cost usage policy = Ok None /\
     provider_cost_usd prices (cu_usage costed) (cached_tokens usage) = Done (Some (cu_cost_usd costed))) /\
    response_id costed = value_get "id" response ≫= as_str /\
    number_from_str (dec_to_string (cu_cost_usd costed)) = Some text /\
    response' = Object (obj_insert "usage" (Object
      (if bool_decide (policy = DeepInfraEstimatedCost)
       then obj_remove "estimated_cost" (obj_insert "cost" (Number text) usage)
       else obj_insert "cost" (Number text) usage)) fs).
Proof.
  unfold inject_usage_cost_value_with_policy, usage_object.
  destruct (ok_or _ _) as [usage|] eqn:Eu; [|done].
  apply ok_or_Ok, bind_Some in Eu as (u & Hfs & Hu).
  destruct u as [| | | | |fu]; try done. injection Hu as ->.
  destruct response as [| | | | |fs]; try done. cbn [value_get] in Hfs.
  destruct (token_usage usage) as [tokens|] eqn:Et; [|done].
  destruct (response_cost usage policy) as [reported|] eqn:Er; [|done].
  intros (pc & Hpc & H)%bind_Done. destruct pc as [cost|]; [|done]. cbn [ok_or] in H.
  apply bind_Done in H as (text & Htext%expect_Done & H). cbn [set_index mbind outcome_bind] in H.
  injection H as <- <-. exists fs, usage, text. cbn [cu_cost_usd cu_usage response_id].
  split_and!; try done.
  destruct reported as [c|]; [left|by right]. by injection Hpc as ->.
Qed.

Lemma inject_clean fs prices policy response' costed :
  inject_usage_cost_value_with_policy (Object fs) prices policy = Done (Ok (response', costed)) ->
  mentions (Object fs) = false ->
  exists usage', response' = Object (obj_insert "usage" (Object usage') fs) /\ mentions (Object usage') = false.
Proof.
  intros (fs' & usage & text & [= <-] & Hu & _ & _ & _ & _ & ->)%inject_shape Hc.
  eexists. split; [done|]. pose proof (mentions_get _ _ _ Hc Hu).
  case_bool_decide; [apply mentions_remove|]; by apply mentions_insert.
Qed.
End Shape.
