(* ===== verification/Fixtures.v ===== *)
(** Concrete inputs shared by the witnesses: two providers serving one model
    on the production profile, a policy over them, and requests. *)

From Stdlib Require Import QArith ZArith SpecFloat.
From S2P Require Import Prelude Float64 RustDecimal RoutingProfile Registry Json Preference.
From S2P Require Import Measurements Share Select SelectSpec Config Routing RoutingSpec.

#[local] Open Scope Z_scope.

(** [n / 10^s]. *)
Definition dec (n : Z) (s : nat) : RefDecimal.t := RefDecimal.Dec n s.

Definition chat_model (input output : RefDecimal.t) : ModelMapping :=
  {| slug := "acme/chat"; model_name := "Acme Chat"; context_length := 8192;
     provider_model_id := "chat-1"; input_price_per_mtok := input;
     cached_input_price_per_mtok := None; output_price_per_mtok := output;
     request_constraints := default_request_constraints |}.

Definition cached_model (input cached output : RefDecimal.t) : ModelMapping :=
  {| slug := "acme/cached"; model_name := "Acme Cached"; context_length := 8192;
     provider_model_id := "cached-1"; input_price_per_mtok := input;
     cached_input_price_per_mtok := Some cached; output_price_per_mtok := output;
     request_constraints := default_request_constraints |}.

Definition provider (name : string) (prio : Z) (ms : list ModelMapping) : Provider :=
  {| id := name; display_name := name; public_display_name := None; public_tag := None;
     base_url := "https://example.test/v1"; secret_env := "EXAMPLE_KEY"; enabled := true;
     priority := prio; catalog_url := None; profiles := default_profiles; models := ms |}.

Definition alpha : Provider := provider "alpha" 1 [chat_model (dec 1 0) (dec 2 0)].
Definition bravo : Provider :=
  provider "bravo" 2 [chat_model (dec 5 1) (dec 15 1); cached_model (dec 10 0) (dec 1 0) (dec 20 0)].

Definition two_providers : Registry := {| providers := [alpha; bravo] |}.
Definition one_provider : Registry := {| providers := [alpha] |}.

(** Ceiling 10, hysteresis 0, share 0.6, window 10. *)
Definition routing_config : RoutingConfig :=
  {| policy := {| combined_price_ceiling_per_mtok := dec 10 0; hysteresis_fraction := f64_zero;
                  max_share := dec 6 1 |};
     share_window := 10 |}.

(** The seed of the reference generator. *)
Definition seed : StdRng (RandCrate := RefRand.rand) := 0.

Definition table_of (r : Registry) : RoutingPolicy (D := RefDecimal.decimal) * RoutingState (R := RefRand.rand) :=
  match from_registry_with_rng r routing_config seed with
  | Ok x => x
  | Err _ => ({| routes := ∅; config := routing_config |}, {| shares := ∅; rng := 0 |})
  end.

Definition policy2 : RoutingPolicy := (table_of two_providers).1.
Definition policy1 : RoutingPolicy := (table_of one_provider).1.
Definition state0 : RoutingState := {| shares := ∅; rng := 0 |}.

Definition chat_request (model : string) : Value := Object [("model", JString model)].

(** ** The fixtures are well formed *)

Lemma table_of_Ok r :
  is_ok (from_registry_with_rng r routing_config seed) = true ->
  from_registry_with_rng r routing_config seed = Ok ((table_of r).1, (table_of r).2).
Proof. unfold table_of. by destruct (from_registry_with_rng r routing_config seed) as [[]|]. Qed.

Lemma policy2_Ok : from_registry_with_rng two_providers routing_config seed = Ok (policy2, (table_of two_providers).2).
Proof. apply table_of_Ok. by vm_compute. Qed.

Lemma policy1_Ok : from_registry_with_rng one_provider routing_config seed = Ok (policy1, (table_of one_provider).2).
Proof. apply table_of_Ok. by vm_compute. Qed.

Lemma routing_config_exact : quota_exact_upto RefDecimal.val (dec 6 1) 10.
Proof.
  split; [by split|]. intros k Hk. exists (6 * k), 1%nat. split_and!; [lia|lia|].
  unfold RefDecimal.val, Qeq, Qmult. cbn. lia.
Qed.

Lemma table_policy_wf r policy state :
  from_registry_with_rng r routing_config seed = Ok (policy, state) -> policy_wf RefDecimal.val policy.
Proof.
  intros H. destruct (from_registry_lookup _ _ _ _ _ (Production, "") H) as (_ & E & _).
  unfold policy_wf. rewrite E. split_and!; [done|done|apply routing_config_exact|].
  intros key ds d. by apply (from_registry_accepted _ _ _ _ _ _ _ _ H).
Qed.

Lemma state0_wf policy : state_wf policy state0.
Proof. intros key t. cbn. by rewrite lookup_empty. Qed.

(** ** A routed request and a refused one *)

Definition floor_request : Value := chat_request "acme/chat:floor".
Definition floor_decision : RouteDecision :=
  {| profile := Production; decision_model := "acme/chat"; selected_provider := "bravo";
     fallback_models := ["alpha/acme/chat"]; has_alternatives := true |}.
Definition floor_state : RoutingState :=
  {| shares := {[ (Production, "acme/chat") :=
                    {| capacity := 10; history := ["bravo"]; counts := {[ "bravo" := 1 ]} |} ]};
     rng := seed |}.

Lemma floor_routed :
  route_for_endpoint policy2 ∅ state0 Production Chat floor_request =
  Done {| ro_result := Ok floor_decision; ro_request := chat_request "bravo/acme/chat";
          ro_state := floor_state |}.
Proof. vm_compute. reflexivity. Qed.

Definition full_state : RoutingState :=
  {| shares := {[ (Production, "acme/chat") :=
                    {| capacity := 10; history := ["alpha"; "alpha"]; counts := {[ "alpha" := 2 ]} |} ]};
     rng := seed |}.

Lemma full_refused :
  route_for_endpoint policy1 ∅ full_state Production Chat (chat_request "acme/chat") =
  Done {| ro_result := Err NoEligibleRoute; ro_request := chat_request "acme/chat";
          ro_state := full_state |}.
Proof. vm_compute. reflexivity. Qed.

Definition candidate (name : string) (price : Z) (prio : Z) (m : option ModelMeasurements) : Candidate :=
  {| c_provider_id := name; combined_price_per_mtok := dec price 0; c_priority := prio;
     measurements := m; is_healthy := true |}.

Definition bravo_candidate : Candidate :=
  {| c_provider_id := "bravo"; combined_price_per_mtok := dec 200 2; c_priority := 2;
     measurements := None; is_healthy := true |}.

Definition fast : ModelMeasurements :=
  {| throughput_tokens_per_second := f64_of_Z 80; time_to_first_token_seconds := f64_one |}.

Definition fresh_tracker : ShareTracker := {| capacity := 10; history := []; counts := ∅ |}.

Lemma fresh_tracker_wf : share_wf fresh_tracker.
Proof. by apply (ShareTracker_new_wf 10). Qed.
