(* ===== verification/RoutingProps.v ===== *)
(** The properties of routing ([src/src/policy/routing.rs] on top of
    [select.rs] and [preference.rs]): soundness, completeness and totality of a
    decision, isolation of the rolling windows, the route table. *)

From Stdlib Require Import QArith Qround ZArith SpecFloat Sorted.
From S2P Require Import Prelude Float64 RustDecimal RoutingProfile Registry Json Preference.
From S2P Require Import Measurements Share Select SelectSpec Config Routing RoutingSpec Fixtures.

#[local] Open Scope Z_scope.

Section Props.
Context {D : RustDecimal} {R : RandCrate}.

(** The registry serves [model] on [prof] through provider [p] by a mapping
    whose constraints permit the request. *)
Definition serves (r : Registry) (prof : RoutingProfile) (model : string)
    (endpoint : CompletionEndpoint) (stream : bool) (top : option decimal) (p : string) : Prop :=
  exists prov m, prov ∈ providers r /\ enabled prov = true /\ prof ∈ profiles prov /\
    m ∈ models prov /\ slug m = model /\ id prov = p /\
    compatible endpoint stream top (descriptor prov m) = true.

Lemma table_elem r cfg g policy state key ds d :
  from_registry_with_rng r cfg g = Ok (policy, state) ->
  routes policy !! key = Some ds -> (d ∈ ds <-> d ∈ registry_routes r key).
Proof.
  intros H Hk. destruct (from_registry_lookup _ _ _ _ _ key H) as [E _]. rewrite Hk in E.
  destruct (registry_routes r key) as [|x l] eqn:El; cbn in E; [done|]. injection E as ->.
  change (d ∈ sort_by compare_descriptor (x :: l) <-> d ∈ x :: l). by rewrite sort_by_perm.
Qed.

Lemma candidate_serves r cfg g policy state store prof model endpoint stream top ds cs c :
  from_registry_with_rng r cfg g = Ok (policy, state) ->
  routes policy !! (prof, model) = Some ds ->
  outcome_map (candidate_of store prof model) (filter_b (compatible endpoint stream top) ds) = Done cs ->
  c ∈ cs -> serves r prof model endpoint stream top (c_provider_id c).
Proof.
  intros Hr Hds Hcs Hc. destruct (candidates_from _ _ _ _ _ _ Hcs Hc) as (d & Hd & Hcd).
  apply elem_of_filter_b in Hd as [Hcomp Hd]. apply candidate_of_Done in Hcd as (-> & _).
  rewrite (table_elem _ _ _ _ _ _ _ _ Hr Hds) in Hd.
  apply elem_of_registry_routes in Hd as (p & m & ? & ? & ? & ? & ? & ->).
  exists p, m. split_and!; done.
Qed.

(** Every provider of a decision, selected or fallback, serves the request. *)
Lemma decision_serves r cfg g policy state0 store state prof endpoint request d request' state' :
  from_registry_with_rng r cfg g = Ok (policy, state0) ->
  route_for_endpoint policy store state prof endpoint request =
    Done {| ro_result := Ok d; ro_request := request'; ro_state := state' |} ->
  exists stream top ids,
    fallback_models d = (fun p => route_name p (decision_model d)) <$> ids /\
    forall p, p ∈ selected_provider d :: ids -> serves r prof (decision_model d) endpoint stream top p.
Proof.
  intros Hr H. apply route_decided in H as (parsed & ds & stream & top & cs & []).
  destruct dc_decision as (_ & -> & _).
  apply decide_route_Some in dc_decide as (t & t' & r' & c & _ & _ & Hs & Esel & (rr & Hf) & _).
  apply plan_fallbacks_spec in Hf as (ids & Hids & _ & Hin & _).
  assert (forall x, x ∈ cs -> serves r prof (canonical_model parsed) endpoint stream top (c_provider_id x))
    as Hserves by (intros; by eapply candidate_serves).
  exists stream, top, ids. split; [done|].
  intros p [->|Hp']%elem_of_cons; [rewrite Esel; by eapply Hserves, select_route_elem|].
  apply Hin in Hp' as (x & [_ Hx]%elem_of_without_provider & <-). auto.
Qed.

(** C1: A decided request names the parsed canonical model and the request's
    profile; the selected provider and the fallbacks are pairwise distinct
    enabled registry providers, each serving that model on that profile under
    constraints that permit the request's endpoint, streaming mode and top_p;
    each fallback is spelled provider/model, and the forwarded body is the
    parsed request without its routing sort whose model names the selected
    route. *)
Theorem route_decision_sound r cfg g policy state0 store state prof endpoint request d request' state' :
  from_registry_with_rng r cfg g = Ok (policy, state0) ->
  route_for_endpoint policy store state prof endpoint request =
    Done {| ro_result := Ok d; ro_request := request'; ro_state := state' |} ->
  exists parsed rewritten stream top ids,
    parsed_as request parsed rewritten /\
    parse_stream request = Ok stream /\ parse_top_p request = Ok top /\
    profile d = prof /\ decision_model d = canonical_model parsed /\
    fallback_models d = (fun p => route_name p (canonical_model parsed)) <$> ids /\
    NoDup (selected_provider d :: ids) /\
    (forall p, p ∈ selected_provider d :: ids ->
       serves r prof (canonical_model parsed) endpoint stream top p) /\
    set_index "model" (JString (route_name (selected_provider d) (canonical_model parsed)))
      (consume_routing_sort rewritten) = Done request'.
Proof.
  intros Hr H. apply route_decided in H as (parsed & ds & stream & top & cs & []).
  destruct dc_parsed as (rw & Hp & Hset). apply parse_request_Ok in Hp.
  apply decide_route_Some in dc_decide as (t & t' & r' & c & _ & _ & Hs & Esel & (rr & Hf) & _).
  destruct dc_decision as (? & ? & _).
  apply plan_fallbacks_spec in Hf as (ids & Hids & Hnd & Hin & _).
  assert (forall x, x ∈ cs -> serves r prof (canonical_model parsed) endpoint stream top (c_provider_id x))
    as Hserves by (intros; by eapply candidate_serves).
  exists parsed, rw, stream, top, ids. split_and!; try done.
  - constructor; [|done]. intros (x & Hx & E)%Hin.
    apply elem_of_without_provider in Hx as [Hne _]. congruence.
  - intros p [->|Hp']%elem_of_cons; [rewrite Esel; by eapply Hserves, select_route_elem|].
    apply Hin in Hp' as (x & [_ Hx]%elem_of_without_provider & <-). auto.
Qed.

(** Whatever the request, a step from a well-formed routing state, with
    whatever measurements past observations have smoothed into the store (their
    binary64 averages stay finite and non-negative), returns (no [expect]
    fires, planning fallbacks ends) and leaves the state well formed. *)
Lemma route_never_panics (val : decimal -> Q) `{!DecimalLaws val}
    policy store state prof endpoint request :
  policy_wf val policy -> state_wf policy state -> observed store ->
  exists out, route_for_endpoint policy store state prof endpoint request = Done out /\
              state_wf policy (ro_state out).
Proof. intros ? ? Hs. apply (route_total val); [done..|by apply observed_valid]. Qed.

(** A decision records exactly the selected provider in exactly the
    rolling window of its profile and canonical model: that window is the old
    one (or a new one) with its oldest entry evicted when full, and every other
    window is untouched. *)
Theorem route_records_selection policy store state prof endpoint request d request' state' :
  state_wf policy state -> 0 < share_window (config policy) <= usize_max ->
  route_for_endpoint policy store state prof endpoint request =
    Done {| ro_result := Ok d; ro_request := request'; ro_state := state' |} ->
  exists t t', tracker_for policy state (prof, decision_model d) = Done t /\
    shares state' !! (prof, decision_model d) = Some t' /\ share_wf t' /\
    history t' = window_tail t ++ [selected_provider d] /\
    forall key, key <> (prof, decision_model d) -> shares state' !! key = shares state !! key.
Proof.
  intros Hst Hw H. apply route_decided in H as (parsed & ds & stream & top & cs & []).
  destruct dc_decision as (_ & -> & _).
  apply decide_route_Some in dc_decide as (t & t' & r' & c & Ht & Hrec & _ & _ & _ & ->).
  assert (share_wf t) as W.
  { apply tracker_for_cases in Ht as [[? _]%Hst|[_ [? _]%ShareTracker_new_wf]]; [done..|lia]. }
  destruct (record_wf t (selected_provider d) W) as (t2 & E & W2 & _ & Hh).
  rewrite Hrec in E. injection E as <-. exists t, t'. cbn. split_and!; try done.
  - by rewrite lookup_insert_eq.
  - intros key Hk. by rewrite lookup_insert_ne.
Qed.

(** A request answered with an error changes no rolling window: every
    existing window stays as it is, and the only window an error may create is
    an empty one of the requested profile, when no candidate was eligible. *)
Lemma route_error_keeps_windows policy store state prof endpoint request e request' state' :
  route_for_endpoint policy store state prof endpoint request =
    Done {| ro_result := Err e; ro_request := request'; ro_state := state' |} ->
  forall key, shares state' !! key = shares state !! key \/
    (e = NoEligibleRoute /\ key.1 = prof /\ shares state !! key = None /\
     exists t, shares state' !! key = Some t /\ history t = []).
Proof.
  intros H key. apply route_error_state in H as [->|(model & t & -> & Ht & ->)]; [by left|].
  rewrite lookup_insert. case_decide as E; [subst key|by left].
  apply tracker_for_cases in Ht as [E|[E Hnew%ShareTracker_new_history]]; [by left|right]. eauto 10.
Qed.

(** The route table built from a registry holds, for every profile and
    slug, exactly the enabled providers' mappings that serve them, ordered by
    priority and then provider id; a key with no such mapping is absent. *)
Theorem route_table_is_registry r cfg g policy state key :
  from_registry_with_rng r cfg g = Ok (policy, state) ->
  match routes policy !! key with
  | Some ds => ds <> [] /\ ds ≡ₚ registry_routes r key /\
               StronglySorted (fun a b => compare_descriptor a b <> Gt) ds
  | None => registry_routes r key = []
  end.
Proof.
  intros H. destruct (from_registry_lookup _ _ _ _ _ key H) as [-> _].
  assert (CmpLaws compare_descriptor) as L.
  { apply then_with_laws; [apply (compare_on_laws rd_priority)|apply (compare_on_laws rd_provider_id)];
      [apply Z_compare_laws|apply string_compare_laws]. }
  destruct (registry_routes r key) as [|x l] eqn:E; cbn [non_empty fmap option_fmap option_map]; [done|].
  pose proof (sort_by_perm compare_descriptor (x :: l)) as Hp. split_and!; [|done|by apply sort_by_sorted].
  intros En. rewrite En in Hp. by apply Permutation_nil_cons in Hp.
Qed.

(** C20: The selected provider is the best one under the request's preference
    among the candidates built from every compatible route.  For a price the
    one of the lowest combined price, for throughput the fastest, for latency
    the one of the shortest time to the first token (measured before
    unmeasured), ties going to the smaller priority number and then the smaller
    id; by default one within the price ceiling and the rolling quota, with a
    measured positive throughput unless it is the first of those in priority. *)
Theorem route_selects_preferred (val : decimal -> Q) {L : DecimalLaws val} {RL : RandLaws} policy store state prof endpoint request d request' state' :
  route_for_endpoint policy store state prof endpoint request =
    Done {| ro_result := Ok d; ro_request := request'; ro_state := state' |} ->
  exists parsed rewritten ds stream top cs t c,
    parsed_as request parsed rewritten /\
    parse_stream request = Ok stream /\ parse_top_p request = Ok top /\
    routes policy !! (prof, canonical_model parsed) = Some ds /\
    outcome_map (candidate_of store prof (canonical_model parsed))
      (filter_b (compatible endpoint stream top) ds) = Done cs /\
    tracker_for policy state (prof, canonical_model parsed) = Done t /\
    c ∈ cs /\ c_provider_id c = selected_provider d /\
    best val (preference parsed) (Config.policy (config policy)) t cs c.
Proof.
  intros H. apply route_decided in H as (parsed & ds & stream & top & cs & []).
  destruct dc_parsed as (rw & Hp & _). apply parse_request_Ok in Hp.
  apply decide_route_Some in dc_decide as (t & t' & r' & c & Ht & _ & Hs & Esel & _).
  pose proof (select_route_elem _ _ _ _ _ _ _ Hs).
  assert (best val (preference parsed) (Config.policy (config policy)) t cs c) as Hbest.
  { apply (select_route_best val) in Hs; [done|by eapply parsed_as_not_balanced|].
    apply Forall_forall. intros y Hy. destruct (candidates_from _ _ _ _ _ _ dc_candidates Hy) as (x & _ & Hx).
    by apply candidate_of_Done in Hx as (_ & ? & _). }
  exists parsed, rw, ds, stream, top, cs, t, c. split_and!; done.
Qed.

(** C21: Fallback planning is exhaustive: every compatible candidate that
    qualifies under the preference at the time of the decision is either the
    selected provider or one of the fallbacks. *)
Theorem route_fallbacks_exhaustive policy store state prof endpoint request d request' state' :
  route_for_endpoint policy store state prof endpoint request =
    Done {| ro_result := Ok d; ro_request := request'; ro_state := state' |} ->
  exists parsed ds stream top cs t,
    parse_request request = Done (Ok parsed) /\
    parse_stream request = Ok stream /\ parse_top_p request = Ok top /\
    routes policy !! (prof, decision_model d) = Some ds /\
    outcome_map (candidate_of store prof (decision_model d))
      (filter_b (compatible endpoint stream top) ds) = Done cs /\
    tracker_for policy state (prof, decision_model d) = Done t /\
    forall c, c ∈ cs -> qualifies (preference parsed.1) (Config.policy (config policy)) t c ->
      c_provider_id c = selected_provider d \/
      route_name (c_provider_id c) (decision_model d) ∈ fallback_models d.
Proof.
  intros H. apply route_decided in H as (parsed & ds & stream & top & cs & []).
  destruct dc_parsed as (rw & Hp & _). destruct dc_decision as (_ & -> & _).
  pose proof (parsed_as_not_balanced _ _ _ (proj1 (parse_request_Ok _ _ _) Hp)) as Hb.
  apply decide_route_Some in dc_decide as (t & t' & r' & c & Ht & _ & _ & Esel & (rr & Hf) & _).
  apply plan_fallbacks_spec in Hf as (ids & -> & _ & _ & Hall).
  exists (parsed, rw), ds, stream, top, cs, t. split_and!; try done.
  intros x Hx Hq. destruct (decide (c_provider_id x = c_provider_id c)) as [E|E]; [left; congruence|right].
  apply list_elem_of_fmap. exists (c_provider_id x). split; [done|]. apply Hall; [done| |done]. by apply elem_of_without_provider.
Qed.

(** A request is answered whenever it can be: if it parses, carries no
    provider override and some compatible candidate qualifies, the decision is
    not an error. *)
Lemma route_answers (val : decimal -> Q) `{!DecimalLaws val}
    policy store state prof endpoint request parsed rewritten stream top ds cs t c :
  policy_wf val policy -> state_wf policy state -> observed store ->
  reject_provider_overrides request = Ok tt ->
  parse_stream request = Ok stream -> parse_top_p request = Ok top ->
  parsed_as request parsed rewritten ->
  routes policy !! (prof, canonical_model parsed) = Some ds ->
  outcome_map (candidate_of store prof (canonical_model parsed))
    (filter_b (compatible endpoint stream top) ds) = Done cs ->
  tracker_for policy state (prof, canonical_model parsed) = Done t ->
  c ∈ cs -> qualifies (preference parsed) (Config.policy (config policy)) t c ->
  exists d request' state',
    route_for_endpoint policy store state prof endpoint request =
      Done {| ro_result := Ok d; ro_request := request'; ro_state := state' |}.
Proof.
  intros Hp Hst Hs Ho Hstream Htop Hpa Hds Hcs Ht Hc Hq.
  destruct (route_total val policy store state prof endpoint request Hp Hst (observed_valid _ Hs)) as (out & Hout & _).
  rewrite Hout. revert Hout. unfold route_for_endpoint. rewrite Ho, Htop, Hstream.
  rewrite (proj2 (parse_request_Ok _ _ _) Hpa). cbn [mbind outcome_bind]. rewrite Hds, Hcs.
  cbn [mbind outcome_bind]. destruct cs as [|c0 cs]; [inversion Hc|].
  intros ([dec st'] & Hd & H)%bind_Done. destruct dec as [[sel fbs]|].
  - apply bind_Done in H as (req' & _ & [= <-]). eauto.
  - exfalso. apply decide_route_None in Hd as (t' & r' & Ht' & Hsel & _).
    rewrite Ht in Ht'. injection Ht' as <-.
    by apply (select_route_None _ _ _ _ _ _ c (parsed_as_not_balanced _ _ _ Hpa) Hsel Hc).
Qed.
End Props.

(** ** Witnesses *)

Lemma route_decision_sound_witness :
  exists parsed rewritten, parsed_as floor_request parsed rewritten /\
    preference parsed = Price /\ canonical_model parsed = "acme/chat".
Proof.
  destruct (route_decision_sound _ _ _ _ _ _ _ _ _ _ _ _ _ policy2_Ok floor_routed)
    as (parsed & rw & _ & _ & _ & Hp & _). exists parsed, rw. split; [exact Hp|].
  apply parse_request_Ok in Hp. vm_compute in Hp. injection Hp as <- <-. done.
Defined.

Lemma route_never_panics_witness :
  exists out, route_for_endpoint policy2 ∅ state0 Production Chat Null = Done out /\
              state_wf policy2 (ro_state out).
Proof.
  exact (route_never_panics (D := RefDecimal.decimal) RefDecimal.val policy2 ∅ state0 Production Chat Null
           (table_policy_wf _ _ _ policy2_Ok) (state0_wf _) observed_default).
Defined.

Lemma route_records_selection_witness :
  exists t', shares floor_state !! (Production, "acme/chat") = Some t' /\ history t' = ["bravo"].
Proof.
  destruct (route_records_selection policy2 ∅ state0 Production Chat floor_request floor_decision _ _
    (state0_wf _) ltac:(done) floor_routed) as (t & t' & Ht & Ht' & _ & Hh & _).
  exists t'. split; [exact Ht'|]. rewrite Hh. vm_compute in Ht. by injection Ht as <-.
Defined.

Lemma route_table_is_registry_witness :
  registry_routes two_providers (Production, "acme/other") = [].
Proof. exact (route_table_is_registry _ _ _ _ _ (Production, "acme/other") policy2_Ok). Defined.

Lemma route_selects_preferred_witness :
  exists parsed rewritten, parsed_as floor_request parsed rewritten.
Proof.
  destruct (route_selects_preferred (D := RefDecimal.decimal) RefDecimal.val _ _ _ _ _ _ _ _ _ floor_routed)
    as (parsed & rw & _ & _ & _ & _ & _ & _ & Hp & _). exists parsed, rw. exact Hp.
Defined.

Lemma route_fallbacks_exhaustive_witness :
  exists parsed, parse_request floor_request = Done (Ok parsed) /\
    canonical_model parsed.1 = decision_model floor_decision.
Proof.
  destruct (route_fallbacks_exhaustive _ _ _ _ _ _ _ _ _ floor_routed)
    as (parsed & _ & _ & _ & _ & _ & Hp & _). exists parsed. split; [exact Hp|].
  vm_compute in Hp. by injection Hp as <-.
Defined.

Lemma route_answers_witness :
  exists d request' state',
    route_for_endpoint policy2 ∅ state0 Production Chat (chat_request "acme/chat") =
      Done {| ro_result := Ok d; ro_request := request'; ro_state := state' |}.
Proof.
  apply (route_answers (D := RefDecimal.decimal) RefDecimal.val policy2 ∅ state0 Production Chat (chat_request "acme/chat")
    {| canonical_model := "acme/chat"; preference := Default |} (chat_request "acme/chat") false None
    [descriptor alpha (chat_model (dec 1 0) (dec 2 0)); descriptor bravo (chat_model (dec 5 1) (dec 15 1))]
    [candidate "alpha" 3 1 None; bravo_candidate]
    fresh_tracker (candidate "alpha" 3 1 None)
    (table_policy_wf _ _ _ policy2_Ok) (state0_wf _) observed_default).
  - vm_compute. reflexivity.
  - vm_compute. reflexivity.
  - vm_compute. reflexivity.
  - apply parse_request_Ok. vm_compute. reflexivity.
  - reflexivity.
  - reflexivity.
  - reflexivity.
  - left.
  - split; [reflexivity|]. intros _. split; vm_compute; reflexivity.
Defined.
