(* ===== verification/PolicyProps.v ===== *)
(** The properties of the routing policy's parts: the rolling share window and
    its quota ([select.rs]), the default policy's weights, the request's
    preference ([preference.rs]) and the measurement store
    ([measurements.rs]); and what the quota does to a model that only one
    provider serves. *)

From Stdlib Require Import QArith Qround ZArith SpecFloat.
From S2P Require Import Prelude Float64 RustDecimal RoutingProfile Registry Json Preference.
From S2P Require Import Measurements Share Select SelectSpec Config Routing RoutingSpec Fixtures.

#[local] Open Scope Z_scope.

(** Recording a selection in a well-formed window never panics, keeps the
    per-provider counts equal to the occurrences in the window, and slides the
    window: the oldest entry leaves exactly when it is full. *)
Lemma record_slides_window t p :
  share_wf t ->
  exists t', record t p = Done t' /\ share_wf t' /\ capacity t' = capacity t /\
    history t' = window_tail t ++ [p] /\
    (forall q, count t' q = occurrences q (history t')).
Proof.
  intros W. destruct (record_wf t p W) as (t' & ? & W' & ? & ?).
  exists t'. split_and!; try done. intros q. by apply wf_count.
Qed.

(** C22: Under traffic that records only providers the quota allowed, no
    provider ever holds more than ceil(max_share * n) of a window of n
    selections, for a share that multiplies exactly: whose product with every
    number up to the window's capacity is one that a decimal can hold. *)
Theorem governed_share_bound {D : RustDecimal} (val : decimal -> Q) `{!DecimalLaws val} max_share cap t q :
  0 <= cap <= usize_max -> quota_exact_upto val max_share cap -> governed max_share cap t ->
  occurrences q (history t) <= Qceiling (val max_share * inject_Z (history_len t)).
Proof. intros Hc Hq Hg. by apply (governed_quota val max_share cap t q). Qed.

(** ** A model with a single provider *)

Section Starvation.
Context {D : RustDecimal} {R : RandCrate} (val : decimal -> Q) {L : DecimalLaws val}.

(** Consecutive default-preference decisions for one key, each with its own
    candidates; how many of them selected a provider. *)
Fixpoint answered (policy : RoutingPolicy) (state : RoutingState) (key : RouteKey)
    (css : list (list Candidate)) : outcome Z :=
  match css with
  | [] => Done 0
  | cs :: css' =>
      decide_route policy state key Default cs ≫= fun '(decided, state') =>
      answered policy state' key css' ≫= fun n =>
      Done (if is_some decided then n + 1 else n)
  end.

Lemma tracker_for_insert policy (state : RoutingState) (key : RouteKey) t r :
  tracker_for policy {| shares := <[key := t]> (shares state); rng := r |} key = Done t.
Proof. unfold tracker_for. cbn. by rewrite lookup_insert_eq. Qed.

Lemma sole_provider_answered policy key p css :
  policy_wf val policy ->
  exact_quota val (max_share (Config.policy (config policy))) (share_window (config policy))
    < share_window (config policy) ->
  Forall (fun cs => forall c, c ∈ cs -> c_provider_id c = p) css ->
  forall state t n,
  tracker_for policy state key = Done t -> share_wf t -> capacity t = share_window (config policy) ->
  Forall (fun q => q = p) (history t) -> history_len t <= share_window (config policy) - 1 ->
  answered policy state key css = Done n ->
  n <= share_window (config policy) - 1 - history_len t.
Proof.
  intros (Hw & Hq & _) Hstuck Hall. set (w := share_window (config policy)) in *.
  induction Hall as [|cs css Hcs _ IH]; intros state t n Ht W Hcap Hp Hlen; cbn [answered].
  { intros [= <-]. lia. }
  intros ([dec st'] & Hd & (k & Hk & Hn)%bind_Done)%bind_Done. destruct dec as [[sel fbs]|]; cbn in Hn.
  - apply decide_route_Some in Hd as (t1 & t' & r' & c & Ht1 & Hrec & Hs & -> & _ & ->).
    rewrite Ht in Ht1. injection Ht1 as <-.
    assert (c_provider_id c = p) as Hid by (by apply Hcs; eapply select_route_elem).
    apply select_default_elem in Hs as [_ [_ Hal]]. rewrite Hid in Hal, Hrec.
    rewrite (allows_next_spec val _ t p w W Hq) in Hal by (pose proof (capacity_usize w (proj2 Hw)); lia). injection Hal as Hal%Z.leb_le.
    assert (window_tail t = history t) as Htail.
    { unfold window_tail. destruct (Z.eqb_spec (history_len t) (capacity t)); [lia|done]. }
    assert (Forall (fun q => q = p) (history t ++ [p])) as Hp' by (apply Forall_app; split; auto).
    rewrite Htail, (occurrences_all _ _ Hp'), length_app in Hal. cbn [length] in Hal.
    destruct (record_wf t p W) as (t2 & E & W2 & Hc2 & Hh2). rewrite Hrec in E. injection E as <-.
    rewrite Htail in Hh2. unfold history_len in *.
    assert (Z.of_nat (length (history t')) = Z.of_nat (length (history t)) + 1) as Hl2
      by (rewrite Hh2, length_app; cbn [length]; lia).
    assert (Z.of_nat (length (history t)) + 1 <> w) as Hne.
    { intros E. rewrite E in Hal. lia. }
    specialize (IH _ t' k (tracker_for_insert policy state key t' r') W2 ltac:(congruence)
      ltac:(by rewrite Hh2) ltac:(lia) Hk).
    injection Hn as <-. lia.
  - apply decide_route_None in Hd as (t1 & r' & Ht1 & _ & ->).
    rewrite Ht in Ht1. injection Ht1 as <-. injection Hn as <-.
    apply (IH _ t k (tracker_for_insert policy state key t r')); done.
Qed.

(** C23: A model that a single provider serves stops being answered: when the
    share cap leaves room for another provider in a full window
    (ceil(max_share * w) < w), then out of any number of consecutive
    default-preference requests for a fresh key, however long, at most w - 1
    are routed and all the others find no eligible route. *)
Theorem sole_provider_starves policy state key p css n :
  policy_wf val policy -> shares state !! key = None ->
  exact_quota val (max_share (Config.policy (config policy))) (share_window (config policy))
    < share_window (config policy) ->
  Forall (fun cs => forall c, c ∈ cs -> c_provider_id c = p) css ->
  answered policy state key css = Done n -> n <= share_window (config policy) - 1.
Proof.
  intros Hp Hnone Hstuck Hall Hn. pose proof (proj1 Hp) as Hw.
  destruct (ShareTracker_new_Ok _ Hw) as [t Et].
  assert (tracker_for policy state key = Done t) as Ht by (unfold tracker_for; by rewrite Hnone, Et).
  apply ShareTracker_new_wf in Et as (W & Hc & Hh); [|pose proof (capacity_usize _ (proj2 Hw)); lia].
  pose proof (sole_provider_answered policy key p css Hp Hstuck Hall state t n Ht W Hc) as H.
  unfold history_len in H. rewrite Hh in H. cbn in H. specialize (H (Forall_nil_2 _) ltac:(lia) Hn). lia.
Qed.
End Starvation.

(** ** The request's preference *)

(** Parsing a request's preference always returns: it rewrites the model
    to its canonical slug (dropping one :nitro or :floor suffix), takes the
    preference from provider.sort when present and from the suffix otherwise,
    and fails exactly when the model is no string or the sort is none of the
    three documented ones. *)
Theorem parse_request_spec request :
  exists x, parse_request request = Done x /\
    match x with
    | Ok (r, request') => parsed_as request r request'
    | Err InvalidModel => forall m, value_get "model" request <> Some (JString m)
    | Err InvalidSort =>
        exists m sort, value_get "model" request = Some (JString m) /\
          pointer ["provider"; "sort"] request = Some sort /\
          sort <> JString "price" /\ sort <> JString "throughput" /\ sort <> JString "latency"
    end.
Proof.
  destruct (parse_request_total request) as [x Hx]. exists x. split; [done|].
  destruct x as [[r request']|e]; [by apply parse_request_Ok|]. revert Hx. unfold parse_request.
  destruct (value_get "model" request) as [v|] eqn:Ev; cbn [mbind option_bind ok_or]; [|by intros [= <-]].
  destruct v as [| | |model| |]; cbn [as_str ok_or]; try (by intros [= <-]).
  destruct (split_model model) as [c p].
  destruct (pointer ["provider"; "sort"] request) as [sort|] eqn:Ep; cbn [fmap option_fmap option_map transpose].
  - destruct (parse_sort sort) as [q|e'] eqn:Es.
    + cbn. destruct (set_index _ _ _); cbn; done.
    + intros [= ->]. unfold parse_sort in Es. destruct (as_str sort) as [s|] eqn:Eas.
      * destruct (String.eqb_spec s "price"); [done|]. destruct (String.eqb_spec s "throughput"); [done|].
        destruct (String.eqb_spec s "latency"); [done|]. injection Es as <-.
        exists model, sort. destruct sort; try done. injection Eas as ->. split_and!; congruence.
      * injection Es as <-. exists model, sort. split_and!; try done; by intros ->.
  - cbn. destruct (set_index _ _ _); cbn; done.
Qed.

(** ** Measurements *)

(** An observation of a stream with a positive duration stores, for its
    profile, provider and model, the sample on the first observation and the
    exponentially smoothed value afterwards, and changes no other entry; an
    observation of a zero duration is refused. *)
Lemma observe_spec store profile provider slug o :
  (stream_duration o = 0 -> observe_for store profile provider slug o = Err ZeroStreamDuration) /\
  (stream_duration o <> 0 ->
   exists m store', observe_for store profile provider slug o = Ok (m, store') /\
     m = match get_for store profile provider slug with
         | Some current => smooth current (sample_of o)
         | None => sample_of o
         end /\
     forall profile' provider' slug', get_for store' profile' provider' slug' =
       if bool_decide ((profile', provider', slug') = (profile, provider, slug)) then Some m
       else get_for store profile' provider' slug').
Proof.
  split; [intros H; by apply observe_for_Err|]. intros Hd.
  destruct (observe_for store profile provider slug o) as [[m store']|[]] eqn:E.
  2:{ by apply observe_for_Err in E. }
  destruct (observe_for_get _ _ _ _ _ _ _ E) as [Hg Hm].
  exists m, store'. split_and!; [done..|]. intros pr p s. case_bool_decide as Heq.
  - by injection Heq as -> -> ->.
  - by apply (observe_for_get_other _ _ _ _ _ _ _ _ _ _ E).
Qed.

(** ** Witnesses *)

Definition alpha_tracker : ShareTracker := {| capacity := 10; history := ["alpha"]; counts := {[ "alpha" := 1 ]} |}.

Lemma alpha_governed : governed (D := RefDecimal.decimal) (dec 6 1) 10 alpha_tracker.
Proof.
  apply (governed_record (D := RefDecimal.decimal) (dec 6 1) 10 fresh_tracker "alpha" alpha_tracker
           (governed_new (D := RefDecimal.decimal) (dec 6 1) 10 fresh_tracker eq_refl));
    vm_reflexivity.
Qed.

Lemma governed_share_bound_witness :
  occurrences "alpha" (history alpha_tracker) <= Qceiling (RefDecimal.val (dec 6 1) * inject_Z 1).
Proof.
  exact (governed_share_bound (D := RefDecimal.decimal) RefDecimal.val (dec 6 1) 10 alpha_tracker "alpha" ltac:(done)
    routing_config_exact alpha_governed).
Defined.

(** Twelve requests for the one provider's model: two are answered. *)
Lemma sole_provider_starves_witness :
  answered policy1 state0 (Production, "acme/chat") (repeat [candidate "alpha" 3 1 None] 12) = Done 2 /\
  2 <= 9.
Proof.
  assert (answered policy1 state0 (Production, "acme/chat") (repeat [candidate "alpha" 3 1 None] 12) = Done 2)
    as H by (vm_compute; reflexivity).
  split; [exact H|].
  refine (sole_provider_starves (D := RefDecimal.decimal) RefDecimal.val policy1 state0 (Production, "acme/chat") "alpha" _ 2
    (table_policy_wf _ _ _ policy1_Ok) eq_refl _ _ H).
  - vm_compute. reflexivity.
  - apply Forall_forall. intros cs Hcs c Hc. apply list_elem_of_In, repeat_spec in Hcs as ->.
    by apply list_elem_of_singleton in Hc as ->.
Defined.
