(* ===== verification/BillingProps.v ===== *)
(** The properties of pricing ([pricing.rs]) and of the cost written into
    responses ([usage_cost.rs]): the price table is the registry, costs are
    exact to the ledger's scale, public completions hide the provider. *)

From Stdlib Require Import QArith Qabs ZArith.
From S2P Require Import Prelude Float64 RustDecimal RoutingProfile Registry Json.
From S2P Require Import Measurements Share Select SelectSpec Config Preference Routing RoutingSpec.
From S2P Require Import Fixtures.
From S2P Require Import Pricing UsageCost RefJson.

#[local] Open Scope Z_scope.

Section Table.
Context {D : RustDecimal}.

(** A price table is built exactly from the registries that validate and
    in which every enabled provider has distinct slugs and no negative input,
    cached or output price. *)
Theorem price_table_accepts r :
  is_ok (PriceTable_from_registry r) = true <->
  registry_ok r /\
  forall p, p ∈ enabled_providers r -> NoDup (slug <$> models p) /\
    forall m side price, m ∈ models p -> (side, price) ∈ price_sides m -> dec_lt price dec_zero = false.
Proof.
  rewrite from_registry_Ok, Forall_forall. unfold priceable. split.
  - intros [? H]. split; [done|]. intros p Hp. destruct (H p Hp) as [? Hn]. split; [done|].
    intros m side price Hm Hs. by apply (Hn m (side, price)).
  - intros [? H]. split; [done|]. intros p Hp. destruct (H p Hp) as [? Hn]. split; [done|].
    intros m [side price] Hm Hs. by apply (Hn m side price).
Qed.

(** A built price table answers every lookup like the registry: the prices
    of the enabled provider's mapping for the slug, and nothing for a disabled
    or unknown provider or an unmapped slug. *)
Lemma price_table_lookup r table pid s :
  PriceTable_from_registry r = Ok table ->
  forall prices, PriceTable_get table pid s = Some prices <->
    exists p m, p ∈ providers r /\ enabled p = true /\ id p = pid /\ m ∈ models p /\ slug m = s /\
                prices = model_prices m.
Proof.
  intros H prices. rewrite (from_registry_get r table pid s H).
  assert (is_ok (PriceTable_from_registry r) = true) as Hok by by rewrite H.
  apply from_registry_Ok in Hok as [[Hnd _] Hpr]. rewrite Forall_forall in Hpr.
  unfold registry_price. split.
  - intros (p & [Hp%String.eqb_eq Hin]%find_b_Some & Hm)%bind_Some.
    destruct (find_b _ (models p)) as [m|] eqn:Em; [|done]. injection Hm as <-.
    apply find_b_Some in Em as [Hs%String.eqb_eq Hm]. apply elem_of_enabled in Hin as [? ?].
    exists p, m. split_and!; done.
  - intros (p & m & Hp & He & <- & Hm & <- & ->).
    assert (p ∈ enabled_providers r) as Hpe by by apply elem_of_enabled.
    destruct (find_b (fun q => String.eqb (id q) (id p)) (enabled_providers r)) as [q|] eqn:Eq.
    2:{ rewrite find_b_None in Eq. specialize (Eq p Hpe). by rewrite String.eqb_refl in Eq. }
    apply find_b_Some in Eq as [Hid%String.eqb_eq Hq].
    assert (q = p) as -> by by apply (provider_id_inj_enabled r).
    cbn. destruct (find_b _ (models p)) as [m'|] eqn:Em.
    2:{ rewrite find_b_None in Em. specialize (Em m Hm). by rewrite String.eqb_refl in Em. }
    apply find_b_Some in Em as [Hs%String.eqb_eq Hm']. cbn. f_equal. f_equal.
    symmetry. apply (NoDup_fmap_inj_in slug (models p)); [by apply Hpr|done..].
Qed.
End Table.

(** ** Exactness *)

Section Costs.
Context {D : RustDecimal} (val : decimal -> Q) {L : DecimalLaws val}.

(** The exact cost of [prompt] tokens at price [p] and [completion] tokens at
    price [c], per million. *)
Definition exact_cost (prompt : Z) (p : Q) (completion : Z) (c : Q) : Q :=
  (inject_Z prompt * p + inject_Z completion * c)%Q.

(** Every intermediate amount is a [Decimal]. *)
Definition cost_in_range (prompt : Z) (p : Q) (completion : Z) (c : Q) : Prop :=
  tokens_ok prompt /\ tokens_ok completion /\ (0 <= p)%Q /\ (0 <= c)%Q /\
  representable (inject_Z prompt * p) /\ representable (inject_Z completion * c) /\
  representable (exact_cost prompt p completion c) /\
  ledger_range (exact_cost prompt p completion c).

Lemma inject_Z_nonneg n : 0 <= n -> (0 <= inject_Z n)%Q.
Proof. intros H. change 0%Q with (inject_Z 0). by rewrite <- Zle_Qle. Qed.

Lemma exact_cost_nonneg prompt p completion c :
  0 <= prompt -> 0 <= completion -> (0 <= p)%Q -> (0 <= c)%Q -> (0 <= exact_cost prompt p completion c)%Q.
Proof.
  intros ? ? Hp Hc. unfold exact_cost.
  rewrite <- (Qplus_0_l 0). apply Qplus_le_compat; apply Qmult_le_0_compat; auto using inject_Z_nonneg.
Qed.

(** What is billed for an exact amount per million tokens: it, divided by a
    million and rounded to ten decimal places, at most half a unit in the last
    place away. *)
Definition billed (amount : Q) (cost : decimal) : Prop :=
  (val cost == round_away COST_SCALE (amount / inject_Z TOKENS_PER_MILLION))%Q /\
  (0 <= val cost)%Q /\
  (Qabs (val cost - amount / inject_Z TOKENS_PER_MILLION) <= 1 # (2 * 10 ^ 10))%Q.

Lemma rounded_cost_billed x amount :
  (val x == amount)%Q -> (0 <= amount)%Q -> ledger_range amount ->
  exists c, rounded_cost x = Done c /\ billed amount c.
Proof.
  intros Hx Hn Hr. destruct (rounded_cost_spec val x amount Hx Hn Hr) as (c & -> & Hc).
  exists c. split; [done|]. split_and!; [done| |].
  - rewrite Hc. apply round_away_nonneg. apply Qle_shift_div_l; [done|]. by rewrite Qmult_0_l.
  - rewrite Hc. apply round_away_error.
Qed.

Lemma cost_usd_billed prices usage :
  cost_in_range (prompt_tokens usage) (val (mp_input_price_per_mtok prices))
    (completion_tokens usage) (val (mp_output_price_per_mtok prices)) ->
  exists c, cost_usd prices usage = Done c /\
    billed (exact_cost (prompt_tokens usage) (val (mp_input_price_per_mtok prices))
              (completion_tokens usage) (val (mp_output_price_per_mtok prices))) c.
Proof.
  intros (Hp & Hc & Hpp & Hcp & Hr1 & Hr2 & Hr3 & Hl). unfold cost_usd.
  destruct (token_cost_spec val _ _ Hp Hr1) as (a & -> & Ha). cbn [mbind outcome_bind].
  destruct (token_cost_spec val _ _ Hc Hr2) as (b & -> & Hb). cbn [mbind outcome_bind].
  destruct (add_spec val a b _ _ Ha Hb Hr3) as (s & -> & Hs). cbn [mbind outcome_bind].
  apply rounded_cost_billed; [done| |done].
  apply exact_cost_nonneg; [apply Hp|apply Hc|done|done].
Qed.


(** The same with [cached] of the prompt tokens at the cached rate. *)
Definition cached_amount (prices : ProviderPrices) (usage : Usage) (cached_price : decimal) (cached : Z) : Q :=
  (inject_Z (prompt_tokens usage - cached) * val (mp_input_price_per_mtok (provider_cost prices))
   + inject_Z cached * val cached_price
   + inject_Z (completion_tokens usage) * val (mp_output_price_per_mtok (provider_cost prices)))%Q.

Definition cached_in_range (prices : ProviderPrices) (usage : Usage) (cached_price : decimal) (cached : Z) : Prop :=
  let input := val (mp_input_price_per_mtok (provider_cost prices)) in
  let output := val (mp_output_price_per_mtok (provider_cost prices)) in
  0 <= cached /\ tokens_ok (prompt_tokens usage) /\ tokens_ok (completion_tokens usage) /\
  (0 <= input)%Q /\ (0 <= val cached_price)%Q /\ (0 <= output)%Q /\
  representable (inject_Z (prompt_tokens usage - cached) * input) /\
  representable (inject_Z cached * val cached_price) /\
  representable (inject_Z (prompt_tokens usage - cached) * input + inject_Z cached * val cached_price) /\
  representable (inject_Z (completion_tokens usage) * output) /\
  representable (cached_amount prices usage cached_price cached) /\
  ledger_range (cached_amount prices usage cached_price cached).

(** A provider with a cached rate is billed only when the response says
    how many prompt tokens were cached: without that count, or with one above
    the prompt tokens, there is no cost at all; otherwise the cost is exact,
    the cached tokens at the cached rate and the rest at the input price. *)
Lemma cached_cost_fails_closed prices usage cached_price cached :
  provider_cached_input_price_per_mtok prices = Some cached_price ->
  match cached with
  | None => provider_cost_usd prices usage cached = Done None
  | Some n =>
      (prompt_tokens usage < n -> provider_cost_usd prices usage cached = Done None) /\
      (n <= prompt_tokens usage -> cached_in_range prices usage cached_price n ->
       exists c, provider_cost_usd prices usage cached = Done (Some c) /\
                 billed (cached_amount prices usage cached_price n) c)
  end.
Proof.
  intros Hc. unfold provider_cost_usd. rewrite Hc. destruct cached as [n|]; [|done]. split.
  - intros Hlt. cbn. unfold checked_sub. by rewrite (proj2 (Z.ltb_lt _ _)).
  - intros Hle (H0 & Hp & Ho & Hin & Hca & Hout & R1 & R2 & R3 & R4 & R5 & Hl). cbn. unfold checked_sub.
    rewrite (proj2 (Z.ltb_ge _ _)) by done. cbn.
    assert (tokens_ok (prompt_tokens usage - n) /\ tokens_ok n) as [T1 T2] by (unfold tokens_ok in *; lia).
    destruct (token_cost_spec val _ _ T1 R1) as (u & -> & Hu). cbn [mbind outcome_bind].
    destruct (token_cost_spec val _ _ T2 R2) as (c & -> & Hcc). cbn [mbind outcome_bind].
    destruct (add_spec val u c _ _ Hu Hcc R3) as (pc & -> & Hpc). cbn [mbind outcome_bind].
    destruct (token_cost_spec val _ _ Ho R4) as (cc & -> & Hco). cbn [mbind outcome_bind].
    destruct (add_spec val pc cc _ _ Hpc Hco R5) as (t & -> & Ht). cbn [mbind outcome_bind].
    destruct (rounded_cost_billed t _ Ht) as (x & -> & Hx); [|exact Hl|cbn; eauto].
    unfold cached_amount. rewrite <- (Qplus_0_l 0). apply Qplus_le_compat.
    + apply (exact_cost_nonneg (prompt_tokens usage - n) _ n); [lia|lia|done|done].
    + apply Qmult_le_0_compat; [apply inject_Z_nonneg, Ho|done].
Qed.

(** A reported cost becomes a ledger cost exactly when it is not
    negative: a negative one is refused, any other is its value rounded half
    away from zero at ten decimal places. *)
Lemma normalize_cost_spec c :
  ((val c < 0)%Q -> normalize_cost_usd c = None) /\
  ((0 <= val c)%Q -> Z.abs (Qnum (round_away COST_SCALE (val c))) < 2 ^ 96 ->
   exists n, normalize_cost_usd c = Some n /\ (val n == round_away COST_SCALE (val c))%Q).
Proof.
  split.
  - intros H. unfold normalize_cost_usd. rewrite (proj2 (dec_lt_spec val c dec_zero)); [done|].
    by rewrite (val_zero val).
  - intros H0 Hr. by apply (normalize_cost_usd_spec val c (val c)).
Qed.
End Costs.

(** ** Provider-neutral responses *)

(** Stripping provider-specific fields leaves no such field at any depth,
    reports whether there was one, and returns the value unchanged when there
    was none. *)
Lemma strip_removes_all v :
  mentions (strip_provider_specific_fields v).1 = false /\
  (strip_provider_specific_fields v).2 = mentions v /\
  (mentions v = false -> (strip_provider_specific_fields v).1 = v).
Proof. destruct (strip_spec v) as (H1 & H2 & H3). split_and!; [done..|]. intros E. apply H3. congruence. Qed.

(** Sanitizing a response accepts exactly the objects of an OpenAI
    completion's shape (no non-null error, a non-empty id, a known object kind,
    a choices array), and what it returns names the canonical model, contains
    only the allowed top-level fields, carries the stripped values of those,
    and mentions provider-specific fields nowhere. *)
Theorem sanitize_public_spec response model :
  match sanitize_public_completion_value response model with
  | Ok v =>
      exists fs fs', response = Object fs /\ completion_shape fs /\ v = Object fs' /\
        mentions v = false /\ obj_get "model" fs' = Some (JString model) /\
        (forall k, k <> "model" -> obj_get k fs' =
           if public_field k then (fun x => (strip_provider_specific_fields x).1) <$> obj_get k fs
           else None)
  | Err EmbeddedError => exists fs e, response = Object fs /\ obj_get "error" fs = Some e /\ e <> Null
  | Err _ => forall fs, response = Object fs -> ~ completion_shape fs
  end.
Proof.
  destruct (sanitize_public_completion_value response model) as [v|e] eqn:E.
  - apply sanitize_Ok in E as (fs & -> & Hs & ->). exists fs, (sanitized_fields fs model).
    split_and!; try done; [apply sanitized_clean|by rewrite sanitized_get|].
    intros k Hk. rewrite sanitized_get. by destruct (String.eqb_spec k "model").
  - assert (forall fs, response = Object fs -> ~ completion_shape fs) as Hno.
    { intros fs -> Hs. assert (sanitize_public_completion_value (Object fs) model
        = Ok (Object (sanitized_fields fs model))) by (apply sanitize_Ok; eauto). congruence. }
    destruct e; [exact Hno| |exact Hno]. unfold sanitize_public_completion_value in E.
    destruct response as [| | | | |fs]; try done. cbn in E.
    destruct (obj_get "error" fs) as [e|] eqn:Ee; cbn in E.
    2:{ by destruct (_ || _). }
    exists fs, e. split_and!; [done..|]. intros ->. cbn in E. by destruct (_ || _).
Qed.

(** ** The injected cost *)

Section Injection.
Context {D : RustDecimal} {J : SerdeJson} (val : decimal -> Q) {L : DecimalLaws val}.

(** A cost field that is absent or null. *)
Definition unreported (field : option Value) : Prop := field = None \/ field = Some Null.

(** A cost field that holds a number that is not negative: the cost is it at
    ten decimal places. *)
Definition reports (field : option Value) (cost : decimal) : Prop :=
  exists text d, field = Some (Number text) /\
    (dec_from_str text = Some d \/ dec_from_str text = None /\ dec_from_scientific text = Some d) /\
    dec_lt d dec_zero = false /\ cost = dec_rescale 10 (dec_round_away 10 d).

Definition cached_count (usage : Fields) (n : Z) : Prop :=
  exists details, obj_get "prompt_tokens_details" usage = Some (Object details) /\
    obj_get "cached_tokens" details ≫= as_u64 = Some n.

(** The cost of the tokens, in the range of [cost_in_range] and
    [cached_in_range]; a cached rate needs the count of cached tokens. *)
Definition computed_cost (prices : ProviderPrices) (usage : Fields) (tokens : Usage) (cost : decimal) : Prop :=
  match provider_cached_input_price_per_mtok prices with
  | None =>
      let input := val (mp_input_price_per_mtok (provider_cost prices)) in
      let output := val (mp_output_price_per_mtok (provider_cost prices)) in
      cost_in_range (prompt_tokens tokens) input (completion_tokens tokens) output ->
      billed val (exact_cost (prompt_tokens tokens) input (completion_tokens tokens) output) cost
  | Some cached_price =>
      exists n, cached_count usage n /\ n <= prompt_tokens tokens /\
        (cached_in_range val prices tokens cached_price n ->
         billed val (cached_amount val prices tokens cached_price n) cost)
  end.

(** The cost of a response with the usage object [usage]: the one it reports,
    else DeepInfra's estimate, else the one its tokens cost at [prices]. *)
Definition provider_cost_of (prices : ProviderPrices) (policy : ProviderReportedCostPolicy)
    (usage : Fields) (tokens : Usage) (cost : decimal) : Prop :=
  reports (obj_get "cost" usage) cost \/
  unreported (obj_get "cost" usage) /\
    (policy = DeepInfraEstimatedCost /\ reports (obj_get "estimated_cost" usage) cost \/
     (policy = DeepInfraEstimatedCost -> unreported (obj_get "estimated_cost" usage)) /\
     computed_cost prices usage tokens cost).

Lemma reported_cost_spec field o :
  reported_cost field = Ok o ->
  match o with Some cost => reports field cost | None => unreported field end.
Proof.
  unfold reported_cost, unreported. destruct field as [v|]; [|intros [= <-]; by left].
  destruct (is_null v) eqn:En; [apply is_null_spec in En as ->; intros [= <-]; by right|].
  destruct v as [| |text| | |]; try done. intros (d & Hd%ok_or_Ok & H%ok_or_Ok)%bind_Ok.
  unfold normalize_cost_usd in H. destruct (dec_lt d dec_zero) eqn:El; [done|]. injection H as <-.
  exists text, d. split_and!; [done| |done|done].
  destruct (dec_from_str text); [left; exact Hd|by right].
Qed.

Lemma response_cost_spec usage policy o :
  response_cost usage policy = Ok o ->
  match o with
  | Some cost => reports (obj_get "cost" usage) cost \/
      unreported (obj_get "cost" usage) /\ policy = DeepInfraEstimatedCost /\ reports (obj_get "estimated_cost" usage) cost
  | None => unreported (obj_get "cost" usage) /\
      (policy = DeepInfraEstimatedCost -> unreported (obj_get "estimated_cost" usage))
  end.
Proof.
  unfold response_cost. intros (c & Hc%reported_cost_spec & H)%bind_Ok. destruct c as [c|].
  - injection H as <-. by left.
  - case_bool_decide.
    + apply reported_cost_spec in H. destruct o; [right|]; done.
    + injection H as <-. split; [done|]. congruence.
Qed.

Lemma computed_cost_spec prices usage tokens cost :
  provider_cost_usd prices tokens (cached_tokens usage) = Done (Some cost) ->
  computed_cost prices usage tokens cost.
Proof.
  unfold computed_cost. destruct (provider_cached_input_price_per_mtok prices) as [cp|] eqn:Ec.
  - intros H. pose proof (cached_cost_fails_closed val prices tokens cp (cached_tokens usage) Ec) as Hc.
    destruct (cached_tokens usage) as [n|] eqn:Et; [|congruence]. destruct Hc as [Hlt Hge].
    destruct (Z.lt_ge_cases (prompt_tokens tokens) n) as [Hn|Hn]; [rewrite Hlt in H; done|].
    exists n. split; [|split; [done|]].
    + unfold cached_tokens in Et. apply bind_Some in Et as (v & Hv & (ds & Hds & Hx)%bind_Some).
      destruct v; try done. injection Hds as ->. by exists ds.
    + intros Hr. destruct (Hge Hn Hr) as (c & Hc & Hb). rewrite H in Hc. by injection Hc as <-.
  - intros H Hr. unfold provider_cost_usd in H. rewrite Ec in H.
    destruct (cost_usd_billed val _ _ Hr) as (c & Hc & Hb). rewrite Hc in H. by injection H as <-.
Qed.

(** C27: An injected cost is the provider's own: the number the response
    reports in usage.cost (it is not negative, and kept at ten decimal places),
    else for DeepInfra's policy the one in estimated_cost, else the exact cost
    of the reported tokens at the prices (as long as its intermediate amounts
    fit a decimal), the cached ones at the cached rate if there is one; the
    response's usage.cost is that amount's decimal text, the recorded usage
    carries the same amount and token counts, DeepInfra's estimate is dropped,
    and nothing else in the response changes. *)
Theorem inject_cost_spec response prices policy response' costed :
  inject_usage_cost_value_with_policy response prices policy = Done (Ok (response', costed)) ->
  exists fs fs' usage usage' text,
    response = Object fs /\ response' = Object fs' /\
    obj_get "usage" fs = Some (Object usage) /\ obj_get "usage" fs' = Some (Object usage') /\
    (forall k, k <> "usage" -> obj_get k fs' = obj_get k fs) /\
    obj_get "prompt_tokens" usage ≫= as_u64 = Some (prompt_tokens (cu_usage costed)) /\
    obj_get "completion_tokens" usage ≫= as_u64 = Some (completion_tokens (cu_usage costed)) /\
    provider_cost_of prices policy usage (cu_usage costed) (cu_cost_usd costed) /\
    response_id costed = value_get "id" response ≫= as_str /\
    number_from_str (dec_to_string (cu_cost_usd costed)) = Some text /\
    obj_get "cost" usage' = Some (Number text) /\
    (forall k, k <> "cost" -> obj_get k usage' =
       if bool_decide (policy = DeepInfraEstimatedCost) && String.eqb k "estimated_cost" then None
       else obj_get k usage).
Proof.
  intros (fs & usage & text & -> & Hfs & Ht & Hcost & Hid & Htext & ->)%inject_shape.
  set (usage' := if bool_decide (policy = DeepInfraEstimatedCost) then _ else _).
  exists fs, (obj_insert "usage" (Object usage') fs), usage, usage', text.
  unfold token_usage in Ht.
  apply bind_Ok in Ht as (prompt & Hprompt%ok_or_Ok & (completion & Hcompletion%ok_or_Ok & [= Ht])%bind_Ok).
  rewrite <- Ht in *.
  split_and!; try done.
  - by rewrite obj_get_insert_eq.
  - intros k Hk. by rewrite obj_get_insert_ne.
  - destruct Hcost as [[?|(? & -> & ?)]%response_cost_spec|[[Hno Hest]%response_cost_spec Hc%computed_cost_spec]];
      [by left|by right; auto|by right; auto].
  - subst usage'. case_bool_decide; [rewrite obj_get_remove_ne by done|]; apply obj_get_insert_eq.
  - intros k Hk. subst usage'. case_bool_decide; cbn [andb]; [|by rewrite obj_get_insert_ne].
    destruct (String.eqb_spec k "estimated_cost") as [->|]; [apply obj_get_remove_eq|].
    by rewrite obj_get_remove_ne, obj_get_insert_ne.
Qed.

(** A response served by provider [p] for canonical slug [s] is priced by
    the registry's mapping of [s] by [p], except when [s] itself begins with
    the provider's id and a slash: then the lookup drops that prefix, so unless
    the shortened slug happens to be mapped too, the mapped slug has no price. *)
Theorem served_slug_priced r table p m :
  PriceTable_from_registry r = Ok table ->
  p ∈ providers r -> enabled p = true -> m ∈ models p ->
  ((forall t, t <> "" -> slug m <> id p +:+ "/" +:+ t) ->
   prices_for_request (slug m) (id p) table = Ok (model_prices m)) /\
  (forall t, t <> "" -> slug m = id p +:+ "/" +:+ t ->
   (forall m', m' ∈ models p -> slug m' <> t) ->
   prices_for_request (slug m) (id p) table = Err UnknownPrice).
Proof.
  intros Ht Hp He Hm. assert (is_ok (PriceTable_from_registry r) = true) as Hok by by rewrite Ht.
  apply from_registry_Ok in Hok as [[Hnd _] Hpr]. rewrite Forall_forall in Hpr.
  assert (p ∈ enabled_providers r) as Hpe by by apply elem_of_enabled.
  assert (find_b (fun q => String.eqb (id q) (id p)) (enabled_providers r) = Some p) as Hfind.
  { destruct (find_b _ _) as [q|] eqn:Eq.
    - apply find_b_Some in Eq as [Hid%String.eqb_eq Hq]. f_equal. by apply (provider_id_inj_enabled r).
    - rewrite find_b_None in Eq. specialize (Eq p Hpe). by rewrite String.eqb_refl in Eq. }
  unfold prices_for_request. split.
  - intros Hs. rewrite canonical_slug_other, (from_registry_get r table _ _ Ht) by done.
    unfold registry_price. rewrite Hfind. cbn.
    destruct (find_b _ (models p)) as [m'|] eqn:Em.
    + apply find_b_Some in Em as [Hs'%String.eqb_eq Hm']. cbn. do 2 f_equal.
      apply (NoDup_fmap_inj_in slug (models p)); [by apply Hpr|done..].
    + rewrite find_b_None in Em. specialize (Em m Hm). by rewrite String.eqb_refl in Em.
  - intros t Hne Hs Hnone. rewrite Hs, canonical_slug_qualified, (from_registry_get r table _ _ Ht) by done.
    unfold registry_price. rewrite Hfind. cbn.
    destruct (find_b _ (models p)) as [m'|] eqn:Em; [|done].
    apply find_b_Some in Em as [Hs'%String.eqb_eq Hm']. by destruct (Hnone m' Hm').
Qed.
End Injection.

(** ** Witnesses *)

Definition sample_table : PriceTable :=
  match PriceTable_from_registry two_providers with Ok t => t | Err _ => ∅ end.

Lemma sample_table_Ok : PriceTable_from_registry two_providers = Ok sample_table.
Proof.
  assert (is_ok (PriceTable_from_registry two_providers) = true) as H by (vm_compute; reflexivity).
  unfold sample_table. by destruct (PriceTable_from_registry two_providers).
Qed.

Definition sample_usage : Usage := {| prompt_tokens := 1000; completion_tokens := 500 |}.
Definition plain_prices : ProviderPrices := model_prices (chat_model (dec 1 0) (dec 2 0)).
Definition cached_prices : ProviderPrices := model_prices (cached_model (dec 10 0) (dec 1 0) (dec 20 0)).

Lemma representable_nat n q : (q == inject_Z n)%Q -> Z.abs n < 2 ^ 96 -> representable q.
Proof. intros E H. eapply representable_compat; [by symmetry|]. by apply representable_Z. Qed.

Lemma ledger_range_intro q m :
  (q / inject_Z TOKENS_PER_MILLION == m # pow10 10)%Q -> Z.abs m < 2 ^ 96 ->
  Z.abs (Qnum (round_away COST_SCALE (q / inject_Z TOKENS_PER_MILLION))) < 2 ^ 96 -> ledger_range q.
Proof. intros E Hm Hr. split; [|done]. exists m, 10%nat. split_and!; [lia|done..]. Qed.


(** The price table bounds no price: one it accepts can overflow at two tokens. *)
Definition dear_model : ModelMapping := chat_model (dec 70000000000000000000000000000 0) (dec 0 0).

Definition dear_registry : Registry := {| providers := [provider "alpha" 1 [dear_model]] |}.

Example accepted_price_overflows :
  is_ok (PriceTable_from_registry dear_registry) &&
  negb (is_done (provider_cost_usd (model_prices dear_model) {| prompt_tokens := 2; completion_tokens := 0 |} None)) = true.
Proof. vm_reflexivity. Qed.

Lemma cached_cost_fails_closed_witness :
  provider_cost_usd cached_prices sample_usage None = Done None /\
  exists c, provider_cost_usd cached_prices sample_usage (Some 400) = Done (Some c) /\
            billed RefDecimal.val (cached_amount RefDecimal.val cached_prices sample_usage (dec 1 0) 400) c.
Proof.
  split; [exact (cached_cost_fails_closed (D := RefDecimal.decimal) RefDecimal.val cached_prices sample_usage
                   (dec 1 0) None eq_refl)|].
  apply (cached_cost_fails_closed (D := RefDecimal.decimal) RefDecimal.val cached_prices sample_usage
           (dec 1 0) (Some 400) eq_refl); [vm_compute; discriminate|].
  split; [lia|]. split; [split; vm_compute; discriminate|]. split; [split; vm_compute; discriminate|].
  split; [vm_compute; discriminate|]. split; [vm_compute; discriminate|]. split; [vm_compute; discriminate|].
  split; [apply (representable_nat 6000); [reflexivity|reflexivity]|].
  split; [apply (representable_nat 400); [reflexivity|reflexivity]|].
  split; [apply (representable_nat 6400); [reflexivity|reflexivity]|].
  split; [apply (representable_nat 10000); [reflexivity|reflexivity]|].
  split; [apply (representable_nat 16400); [reflexivity|reflexivity]|].
  apply (ledger_range_intro _ 164000000); reflexivity.
Defined.

Definition completion : Value :=
  Object [("choices", Array []); ("id", JString "gen-1"); ("object", JString "chat.completion");
          ("usage", Object [("completion_tokens", Number "500"); ("prompt_tokens", Number "1000")])].

Definition costed_completion : Value :=
  Object [("choices", Array []); ("id", JString "gen-1"); ("object", JString "chat.completion");
          ("usage", Object [("completion_tokens", Number "500"); ("cost", Number "0.0020000000");
                            ("prompt_tokens", Number "1000")])].

Definition costed_usage : CostedUsage :=
  {| response_id := Some "gen-1"; cu_usage := sample_usage; cu_cost_usd := dec 20000000 10 |}.

Lemma inject_cost_spec_witness :
  exists usage', value_get "usage" costed_completion = Some (Object usage') /\
    obj_get "cost" usage' = Some (Number "0.0020000000").
Proof.
  assert (inject_usage_cost_value_with_policy completion plain_prices UsageCostOnly =
          Done (Ok (costed_completion, costed_usage))) as H by vm_reflexivity.
  destruct (inject_cost_spec (D := RefDecimal.decimal) RefDecimal.val completion plain_prices UsageCostOnly costed_completion costed_usage H)
    as (fs & fs' & usage & usage' & text & _ & Hr & _ & Hu & _ & _ & _ & _ & _ & Ht & Hc & _).
  exists usage'. injection Hr as <-. split; [exact Hu|]. rewrite Hc. by injection Ht as <-.
Defined.

Lemma served_slug_priced_witness :
  prices_for_request "acme/chat" "alpha" sample_table = Ok plain_prices.
Proof.
  apply (proj1 (served_slug_priced _ _ alpha (chat_model (dec 1 0) (dec 2 0)) sample_table_Ok
           (list_elem_of_here _ _) eq_refl (list_elem_of_here _ _))).
  intros t _ H. cbn in H. discriminate.
Defined.
