(* ===== verification/Sse.v ===== *)
(** [src/src/sse.rs]: framing of server-sent events across arbitrary chunks,
    and the transformer that costs (and, for public models, sanitizes) them.
    [transform] and [finish] consume and return the transformer's state. *)

From Stdlib Require Import ZArith Strings.Byte.
From S2P Require Import Prelude RustDecimal RoutingProfile Registry Json Pricing UsageCost.

Definition LF : byte := x0a.
Definition CR : byte := x0d.
Definition ascii_bytes (s : string) : list byte := list_byte_of_string s.

(** [slice::strip_prefix], [strip_suffix] and [ends_with]. *)
Fixpoint bytes_strip_prefix (p l : list byte) : option (list byte) :=
  match p, l with
  | [], _ => Some l
  | a :: p', b :: l' => if Byte.eqb a b then bytes_strip_prefix p' l' else None
  | _, [] => None
  end.

Definition bytes_strip_suffix (s l : list byte) : option (list byte) :=
  (fun r => rev r) <$> bytes_strip_prefix (rev s) (rev l).

Definition bytes_eqb (a b : list byte) : bool := bool_decide (a = b).

Definition ends_with (s l : list byte) : bool := is_some (bytes_strip_suffix s l).

Definition contains_byte (b : byte) (l : list byte) : bool := existsb (Byte.eqb b) l.

(** ** Framing *)

(** The position of the first window equal to a non-empty needle. *)
Fixpoint find_subslice (haystack needle : list byte) : option nat :=
  match haystack with
  | [] => None
  | _ :: rest =>
      if is_some (bytes_strip_prefix needle haystack) then Some 0
      else S <$> find_subslice rest needle
  end.

Definition next_event_end (bytes : list byte) : option nat :=
  let lf := (fun position => position + 2) <$> find_subslice bytes [LF; LF] in
  let crlf := (fun position => position + 4) <$> find_subslice bytes [CR; LF; CR; LF] in
  match lf, crlf with
  | Some lf, Some crlf => Some (Nat.min lf crlf)
  | Some lf, None => Some lf
  | None, Some crlf => Some crlf
  | None, None => None
  end.

(** [split_at(len - n)]: the length underflows, and the split panics, on an
    event shorter than its separator. *)
Definition split_from_end (n : nat) (l : list byte) : outcome (list byte * list byte) :=
  if (length l <? n)%nat then Panic "mid > len"
  else Done (take (length l - n) l, drop (length l - n) l).

Definition split_separator (event : list byte) : outcome (list byte * list byte) :=
  if ends_with [CR; LF; CR; LF] event then split_from_end 4 event else split_from_end 2 event.

Definition single_data_line (body : list byte) : option (list byte * list byte) :=
  if contains_byte LF body || contains_byte CR body then None
  else
    bytes_strip_prefix (ascii_bytes "data:") body ≫= fun data =>
    let data := default data (bytes_strip_prefix (ascii_bytes " ") data) in
    let prefix_length := length body - length data in
    Some (take prefix_length body, drop prefix_length body).

Definition DONE : list byte := ascii_bytes "[DONE]".

(** ** Events *)

Section Sse.
Context {D : RustDecimal} {J : SerdeJson}.

Record UsageCostTransformer : Type := {
  pending : list byte;
  prices : option ProviderPrices;
  response_model : option string;
  costed_usage : option CostedUsage;
  provider_cost_policy : ProviderReportedCostPolicy;
  closed : bool
}.

Definition transformer_new (prices : ProviderPrices) : UsageCostTransformer :=
  {| pending := []; prices := Some prices; response_model := None; costed_usage := None;
     provider_cost_policy := UsageCostOnly; closed := false |}.

Definition with_response_model (model : string) (t : UsageCostTransformer) : UsageCostTransformer :=
  {| pending := pending t; prices := prices t; response_model := Some model;
     costed_usage := costed_usage t; provider_cost_policy := provider_cost_policy t;
     closed := closed t |}.

Definition with_provider_cost_policy (policy : ProviderReportedCostPolicy) (t : UsageCostTransformer)
    : UsageCostTransformer :=
  {| pending := pending t; prices := prices t; response_model := response_model t;
     costed_usage := costed_usage t; provider_cost_policy := policy; closed := closed t |}.

Definition set_pending (l : list byte) (t : UsageCostTransformer) : UsageCostTransformer :=
  {| pending := l; prices := prices t; response_model := response_model t;
     costed_usage := costed_usage t; provider_cost_policy := provider_cost_policy t;
     closed := closed t |}.

Definition set_usage (u : option CostedUsage) (t : UsageCostTransformer) : UsageCostTransformer :=
  {| pending := pending t; prices := prices t; response_model := response_model t;
     costed_usage := u; provider_cost_policy := provider_cost_policy t; closed := closed t |}.

Definition set_closed (t : UsageCostTransformer) : UsageCostTransformer :=
  {| pending := pending t; prices := prices t; response_model := response_model t;
     costed_usage := costed_usage t; provider_cost_policy := provider_cost_policy t;
     closed := true |}.

Definition generic_upstream_error (canonical_model : string) : Value :=
  json_object [("error", json_object
    [("code", JString "upstream_error"); ("message", JString "upstream request failed");
     ("metadata", json_object [("model", JString canonical_model)])])].

Definition generic_upstream_error_event (canonical_model : string) : outcome (list byte) :=
  expect "static error serializes" (to_vec (generic_upstream_error canonical_model)) ≫= fun error =>
  Done (ascii_bytes "data: " ++ error ++ [LF; LF] ++ ascii_bytes "data: [DONE]" ++ [LF; LF]).

Definition is_terminal_usage_event (value : Value) : bool :=
  is_some_and is_object (value_get "usage" value).

Definition is_deepinfra_preliminary_usage (value : Value) (policy : ProviderReportedCostPolicy) : bool :=
  if negb (bool_decide (policy = DeepInfraEstimatedCost))
     || is_none_or (fun l => match l with [] => true | _ => false end)
          (value_get "choices" value ≫= as_array)
  then false
  else is_some_and
         (fun usage => is_none_or is_null (obj_get "cost" usage)
                       && is_none_or is_null (obj_get "estimated_cost" usage))
         (value_get "usage" value ≫= as_object).

(** A state, the bytes for the client, and the usage a [DONE] event completes. *)
Definition Step : Type := outcome (UsageCostTransformer * list byte * option CostedUsage).

Definition close_with_generic_error (t : UsageCostTransformer) (model : string) : Step :=
  generic_upstream_error_event model ≫= fun event =>
  Done (set_usage None (set_closed t), event, None).

(** A value whose preliminary usage is deferred to a later event. *)
Definition defer_value (defer : bool) (value : Value) : outcome Value :=
  if defer then set_index "usage" Null value else Done value.

(** The terminal usage of a public event: [None] closes the stream. *)
Definition cost_public (t : UsageCostTransformer) (defer : bool) (value : Value)
    : outcome (option (Value * option CostedUsage)) :=
  if negb defer && is_terminal_usage_event value then
    match prices t with
    | Some p =>
        inject_usage_cost_value_with_policy value p (provider_cost_policy t) ≫= fun r =>
        match r with
        | Ok (value, usage) => Done (Some (value, Some usage))
        | Err _ => Done None
        end
    | None => Done (Some (value, None))
    end
  else Done (Some (value, None)).

Definition keep_usage (usage : option CostedUsage) (t : UsageCostTransformer) : UsageCostTransformer :=
  match usage with Some u => set_usage (Some u) t | None => t end.

Definition transform_public_event (t : UsageCostTransformer) (event : list byte) (model : string) : Step :=
  split_separator event ≫= fun '(body, separator) =>
  match single_data_line body with
  | None => close_with_generic_error t model
  | Some (data_prefix, data) =>
      if bytes_eqb data DONE then
        if is_some (prices t) && negb (is_some (costed_usage t)) then close_with_generic_error t model
        else Done (set_usage None (set_closed t), event, costed_usage t)
      else
        match from_slice data with
        | None => close_with_generic_error t model
        | Some value =>
            match sanitize_public_completion_value value model with
            | Err _ => close_with_generic_error t model
            | Ok value =>
                let defer := is_deepinfra_preliminary_usage value (provider_cost_policy t) in
                defer_value defer value ≫= fun value =>
                cost_public t defer value ≫= fun costed =>
                match costed with
                | None => close_with_generic_error t model
                | Some (value, usage) =>
                    match to_vec value with
                    | None => close_with_generic_error t model
                    | Some json => Done (keep_usage usage t, data_prefix ++ json ++ separator, None)
                    end
                end
            end
        end
  end.

(** The usage of an internal event, left as it is when it cannot be costed. *)
Definition cost_internal (t : UsageCostTransformer) (defer : bool) (value : Value)
    : outcome (Value * option CostedUsage) :=
  match prices t with
  | Some p =>
      if negb defer && is_terminal_usage_event value then
        inject_usage_cost_value_with_policy value p (provider_cost_policy t) ≫= fun r =>
        match r with
        | Ok (value, usage) => Done (value, Some usage)
        | Err _ => Done (value, None)
        end
      else Done (value, None)
  | None => Done (value, None)
  end.

Definition transform_internal_event (t : UsageCostTransformer) (event : list byte) : Step :=
  split_separator event ≫= fun '(body, separator) =>
  match single_data_line body with
  | None => Done (t, event, None)
  | Some (data_prefix, data) =>
      if bytes_eqb data DONE then Done (set_usage None t, event, costed_usage t)
      else
        match from_slice data with
        | None => Done (t, event, None)
        | Some value =>
            let '(value, sanitized) := strip_provider_specific_fields value in
            let defer := is_deepinfra_preliminary_usage value (provider_cost_policy t) in
            defer_value defer value ≫= fun value =>
            cost_internal t defer value ≫= fun '(value, usage) =>
            if negb (is_some usage) && negb sanitized && negb defer then Done (t, event, None)
            else
              match to_vec value with
              | None => Done (t, event, None)
              | Some json => Done (keep_usage usage t, data_prefix ++ json ++ separator, None)
              end
        end
  end.

Definition transform_event (t : UsageCostTransformer) (event : list byte) : Step :=
  match response_model t with
  | Some model => transform_public_event t event model
  | None => transform_internal_event t event
  end.

(** ** Chunks *)

(** The [while let] loop: every round drains at least one byte, so
    [S (length pending)] rounds suffice. *)
Fixpoint drain (fuel : nat) (t : UsageCostTransformer) (output : list byte)
    (completed : option CostedUsage) : Step :=
  match fuel with
  | O => Panic "out of fuel"
  | S fuel' =>
      match next_event_end (pending t) with
      | None => Done (t, output, completed)
      | Some event_end =>
          let event := take event_end (pending t) in
          transform_event (set_pending (drop event_end (pending t)) t) event
            ≫= fun '(t, transformed, event_completion) =>
          let output := output ++ transformed in
          let completed := option_or event_completion completed in
          if closed t then Done (set_pending [] t, output, completed)
          else drain fuel' t output completed
      end
  end.

Definition transform (t : UsageCostTransformer) (bytes : list byte) : Step :=
  if closed t then Done (t, [], None)
  else
    let t := set_pending (pending t ++ bytes) t in
    drain (S (length (pending t))) t [] None.

Definition finish (t : UsageCostTransformer) : outcome (list byte * option CostedUsage) :=
  if closed t then Done ([], None)
  else
    let final_line :=
      default (pending t)
        (option_or (bytes_strip_suffix [CR; LF] (pending t)) (bytes_strip_suffix [LF] (pending t))) in
    let is_done := is_some_and (fun l => bytes_eqb l.2 DONE) (single_data_line final_line) in
    match response_model t with
    | Some model =>
        if is_done then
          if is_some (prices t) && negb (is_some (costed_usage t))
          then generic_upstream_error_event model ≫= fun e => Done (e, None)
          else Done (pending t, costed_usage t)
        else generic_upstream_error_event model ≫= fun e => Done (e, None)
    | None => Done (pending t, if is_done then costed_usage t else None)
    end.
End Sse.
