(* ===== verification/SseSpec.v ===== *)
(** Lemmas on the event framing and the transformer of [Sse]: framing only
    looks at complete events, so it is stable under more input; the drain loop
    is independent of its fuel and composes over chunks. *)

From Stdlib Require Import ZArith Strings.Byte.
From S2P Require Import Prelude RustDecimal RoutingProfile Registry Json Pricing UsageCost Sse.

(** ** Byte strings *)

Lemma byte_eqb_true a b : Byte.eqb a b = true <-> a = b.
Proof. split; [apply byte_dec_bl|apply byte_dec_lb]. Qed.

Lemma bytes_strip_prefix_Some p l r : bytes_strip_prefix p l = Some r <-> l = p ++ r.
Proof.
  revert l. induction p as [|a p IH]; intros l; cbn; [naive_solver|].
  destruct l as [|b l]; [naive_solver|].
  destruct (Byte.eqb a b) eqn:E.
  - apply byte_eqb_true in E as ->. rewrite IH. naive_solver.
  - split; [done|]. intros [= -> ->]. by rewrite (proj2 (byte_eqb_true a a) eq_refl) in E.
Qed.

Lemma is_prefix_spec p l : is_some (bytes_strip_prefix p l) = true <-> exists r, l = p ++ r.
Proof.
  destruct (bytes_strip_prefix p l) as [r|] eqn:E; cbn.
  - apply bytes_strip_prefix_Some in E. naive_solver.
  - split; [done|]. intros [r Hr]. apply bytes_strip_prefix_Some in Hr. congruence.
Qed.

Lemma bytes_strip_suffix_Some s l r : bytes_strip_suffix s l = Some r <-> l = r ++ s.
Proof.
  unfold bytes_strip_suffix. rewrite fmap_Some. split.
  - intros (x & Hx%bytes_strip_prefix_Some & ->). apply (f_equal (@rev byte)) in Hx.
    by rewrite rev_involutive, rev_app_distr, rev_involutive in Hx.
  - intros ->. exists (rev r). split; [apply bytes_strip_prefix_Some, rev_app_distr|by rewrite rev_involutive].
Qed.

Lemma ends_with_spec s l : ends_with s l = true <-> exists r, l = r ++ s.
Proof.
  unfold ends_with. destruct (bytes_strip_suffix s l) as [r|] eqn:E; cbn.
  - apply bytes_strip_suffix_Some in E. naive_solver.
  - split; [done|]. intros [r Hr]. apply bytes_strip_suffix_Some in Hr. congruence.
Qed.

(** ** The first window *)

Lemma find_subslice_Some h n i :
  find_subslice h n = Some i ->
  (exists r, drop i h = n ++ r) /\ forall j r, j < i -> drop j h <> n ++ r.
Proof.
  revert i. induction h as [|b h IH]; intros i; cbn [find_subslice]; [done|].
  destruct (is_some (bytes_strip_prefix n (b :: h))) eqn:E.
  - intros [= <-]. apply is_prefix_spec in E. split; [done|]. intros j r Hj. lia.
  - intros (k & Hk & ->)%fmap_Some. destruct (IH k Hk) as [Hr Hmin]. split; [done|].
    intros [|j] r Hj; [|by apply Hmin; lia]. cbn. intros Eq.
    assert (is_some (bytes_strip_prefix n (b :: h)) = true) by (apply is_prefix_spec; eauto). congruence.
Qed.

Lemma find_subslice_None h n :
  n <> [] -> find_subslice h n = None -> forall j r, drop j h <> n ++ r.
Proof.
  intros Hn. induction h as [|b h IH]; cbn [find_subslice].
  - intros _ j r. rewrite drop_nil. by destruct n.
  - destruct (is_some _) eqn:E; [done|]. intros Hf%fmap_None [|j] r; [|by apply IH]. cbn. intros Eq.
    assert (is_some (bytes_strip_prefix n (b :: h)) = true) by (apply is_prefix_spec; eauto). congruence.
Qed.

Lemma find_subslice_is h n i r :
  n <> [] -> drop i h = n ++ r -> (forall j r, j < i -> drop j h <> n ++ r) -> find_subslice h n = Some i.
Proof.
  intros Hn Hi Hmin. destruct (find_subslice h n) as [k|] eqn:E.
  - apply find_subslice_Some in E as [[rk Hk] Hk'].
    destruct (Nat.lt_trichotomy i k) as [Hlt|[->|Hlt]]; [|done|].
    + by destruct (Hk' i r Hlt).
    + by destruct (Hmin k rk Hlt).
  - by destruct (find_subslice_None h n Hn E i r).
Qed.

Lemma drop_window_app {h n : list byte} {i r} q : n <> [] -> drop i h = n ++ r -> drop i (h ++ q) = n ++ (r ++ q).
Proof.
  intros Hn H. rewrite drop_app_le, H; [by rewrite <- app_assoc|].
  destruct (Nat.le_gt_cases i (length h)); [done|]. rewrite drop_ge in H by lia. by destruct n.
Qed.

Lemma window_len (h n r : list byte) i : n <> [] -> drop i h = n ++ r -> i + length n <= length h.
Proof.
  intros Hn H. apply (f_equal length) in H. rewrite length_drop, length_app in H.
  destruct n; [done|]. cbn in *. lia.
Qed.

Lemma drop_window_prefix {h q n : list byte} {i r} :
  drop i (h ++ q) = n ++ r -> i + length n <= length h -> exists r', drop i h = n ++ r'.
Proof.
  intros H Hl. rewrite drop_app_le in H by lia.
  exists (drop (length n) (drop i h)).
  rewrite <- (take_drop (length n) (drop i h)) at 1. f_equal.
  apply (f_equal (take (length n))) in H.
  rewrite take_app_le in H by (rewrite length_drop; lia). by rewrite take_app_length in H.
Qed.

(** A window found stays the first one; a new one ends beyond the old input. *)
Lemma find_subslice_app h q n :
  n <> [] ->
  match find_subslice h n with
  | Some i => find_subslice (h ++ q) n = Some i /\ i + length n <= length h
  | None => forall k, find_subslice (h ++ q) n = Some k -> length h < k + length n
  end.
Proof.
  intros Hn. destruct (find_subslice h n) as [i|] eqn:E.
  - apply find_subslice_Some in E as [[r Hr] Hmin]. pose proof (window_len h n r i Hn Hr) as Hl.
    split; [|done]. apply (find_subslice_is _ _ _ (r ++ q) Hn (drop_window_app q Hn Hr)).
    intros j r' Hj Hd. destruct (drop_window_prefix Hd) as [r'' Hd']; [lia|]. by destruct (Hmin j r'' Hj).
  - intros k (r & Hk)%find_subslice_Some%proj1.
    destruct (Nat.lt_ge_cases (length h) (k + length n)); [done|].
    destruct (drop_window_prefix Hk) as [r' Hk']; [lia|].
    by destruct (find_subslice_None h n Hn E k r').
Qed.

(** Framing is stable: a complete event is the first one whatever follows. *)
Lemma next_event_end_app p q e :
  next_event_end p = Some e -> next_event_end (p ++ q) = Some e /\ 2 <= e <= length p.
Proof.
  unfold next_event_end.
  pose proof (find_subslice_app p q [LF; LF] ltac:(done)) as Hlf.
  pose proof (find_subslice_app p q [CR; LF; CR; LF] ltac:(done)) as Hcr. cbn [length] in *.
  destruct (find_subslice p [LF; LF]) as [i|], (find_subslice p [CR; LF; CR; LF]) as [k|];
    cbn [fmap option_fmap option_map]; intros [= <-].
  - destruct Hlf as [-> ?], Hcr as [-> ?]. cbn. split; [done|lia].
  - destruct Hlf as [-> ?]. destruct (find_subslice (p ++ q) [CR; LF; CR; LF]) as [k|]; cbn; [|split; [done|lia]].
    specialize (Hcr k eq_refl). split; [f_equal; lia|lia].
  - destruct Hcr as [-> ?]. destruct (find_subslice (p ++ q) [LF; LF]) as [i|]; cbn; [|split; [done|lia]].
    specialize (Hlf i eq_refl). split; [f_equal; lia|lia].
Qed.

Lemma next_event_end_bounds p e : next_event_end p = Some e -> 2 <= e <= length p.
Proof. intros H. by apply (next_event_end_app p []) in H as [_ ?]. Qed.

(** ** The transformer *)

Section Transformer.
Context {D : RustDecimal} {J : SerdeJson}.

Definition rebuffer (l : list byte) (r : UsageCostTransformer * list byte * option CostedUsage) : Step :=
  Done (set_pending l r.1.1, r.1.2, r.2).

(** Handling an event neither reads nor writes the buffer. *)
Lemma transform_event_set_pending l t e :
  transform_event (set_pending l t) e = (transform_event t e ≫= rebuffer l).
Proof.
  unfold transform_event, transform_public_event, transform_internal_event, close_with_generic_error,
    cost_public, cost_internal, keep_usage.
  destruct t as [p pr rm cu pol cl].
  cbn [set_pending set_usage set_closed pending prices response_model costed_usage provider_cost_policy closed].
  repeat match goal with
  | |- Done (match ?o with _ => _ end, _, _) = _ => by destruct o
  | |- Done _ = _ => done
  | |- Panic _ = _ => done
  | |- (?x ≫= _) = _ => destruct x; cbn [mbind outcome_bind]
  | |- (match ?x with _ => _ end) = _ => destruct x; cbn [mbind outcome_bind]
  end.
Qed.

(** An event leaves the buffer, the prices, the model and the policy alone. *)
Lemma transform_event_frame t e t' o c :
  transform_event t e = Done (t', o, c) ->
  pending t' = pending t /\ prices t' = prices t /\ response_model t' = response_model t /\
  provider_cost_policy t' = provider_cost_policy t.
Proof.
  unfold transform_event, transform_public_event, transform_internal_event, close_with_generic_error,
    cost_public, cost_internal, keep_usage.
  destruct t as [p pr rm cu pol cl].
  cbn [pending prices response_model costed_usage provider_cost_policy closed]. intros H.
  repeat match type of H with
  | Done (match ?o with _ => _ end, _, _) = _ => destruct o
  | Done _ = _ => injection H as <- <- <-; done
  | Panic _ = _ => done
  | (?x ≫= _) = _ => destruct x; cbn [mbind outcome_bind] in H
  | (match ?x with _ => _ end) = _ => destruct x; cbn [mbind outcome_bind] in H
  end.
Qed.

Lemma drain_S f t o c :
  drain (S f) t o c =
  match next_event_end (pending t) with
  | None => Done (t, o, c)
  | Some event_end =>
      transform_event (set_pending (drop event_end (pending t)) t) (take event_end (pending t))
        ≫= fun '(t, transformed, event_completion) =>
      if closed t then Done (set_pending [] t, o ++ transformed, option_or event_completion c)
      else drain f t (o ++ transformed) (option_or event_completion c)
  end.
Proof. done. Qed.

(** The results of a later drain, appended to earlier ones. *)
Definition after (o : list byte) (c : option CostedUsage)
    (r : UsageCostTransformer * list byte * option CostedUsage) : Step :=
  Done (r.1.1, o ++ r.1.2, option_or r.2 c).

Lemma drain_acc f t o c : drain f t o c = (drain f t [] None ≫= after o c).
Proof.
  revert t o c. induction f as [|f IH]; intros t o c; [done|]. rewrite !drain_S.
  destruct (next_event_end (pending t)) as [e|].
  2:{ unfold after. cbn. by rewrite app_nil_r. }
  destruct (transform_event _ _) as [[[t' x] ec]|]; cbn [mbind outcome_bind]; [|done].
  destruct (closed t').
  - unfold after. cbn. by destruct ec.
  - rewrite IH, (IH t' ([] ++ x)). destruct (drain f t' [] None) as [[[t2 o2] c2]|]; cbn; [|done].
    unfold after. cbn. rewrite <- app_assoc. by destruct c2, ec.
Qed.

Lemma drain_fuel f f' t o c :
  length (pending t) < f -> length (pending t) < f' -> drain f t o c = drain f' t o c.
Proof.
  revert f' t o c. induction f as [|f IH]; intros f' t o c Hf Hf'; [lia|].
  destruct f' as [|f']; [lia|]. rewrite !drain_S.
  destruct (next_event_end (pending t)) as [e|] eqn:E; [|done]. apply next_event_end_bounds in E.
  destruct (transform_event _ _) as [[[t' x] ec]|] eqn:Et; cbn [mbind outcome_bind]; [|done].
  apply transform_event_frame in Et as [Hp _]. cbn in Hp.
  destruct (closed t'); [done|]. apply IH; rewrite Hp, length_drop; lia.
Qed.

Lemma set_pending_set_pending l k t : set_pending l (set_pending k t) = set_pending l t.
Proof. done. Qed.

Lemma set_pending_id t : set_pending (pending t) t = t.
Proof. by destruct t. Qed.

Lemma transform_closed t q : closed t = true -> transform t q = Done (t, [], None).
Proof. intros H. unfold transform. by rewrite H. Qed.

(** Draining more input is draining, then transforming the rest. *)
Lemma drain_app f f' t q :
  closed t = false -> length (pending t) < f -> length (pending t ++ q) < f' ->
  drain f' (set_pending (pending t ++ q) t) [] None =
  (drain f t [] None ≫= fun r => transform r.1.1 q ≫= after r.1.2 r.2).
Proof.
  revert f' t. induction f as [|f IH]; intros f' t Hc Hf Hf'; [lia|].
  destruct f' as [|f']; [lia|]. rewrite (drain_S f).
  destruct (next_event_end (pending t)) as [e|] eqn:E.
  - destruct (next_event_end_app _ q _ E) as [Eq Hb]. rewrite drain_S. cbn [set_pending pending].
    rewrite Eq, take_app_le, drop_app_le by lia. rewrite set_pending_set_pending.
    rewrite (transform_event_set_pending (drop e (pending t) ++ q)), (transform_event_set_pending (drop e (pending t))).
    destruct (transform_event t (take e (pending t))) as [[[t1 x] ec]|]; cbn [mbind outcome_bind rebuffer]; [|done].
    cbn [fst snd]. destruct (closed t1) eqn:Hc1.
    + cbn [closed set_pending]. rewrite Hc1. cbn [mbind outcome_bind fst snd]. rewrite transform_closed by done.
      unfold after. cbn. by rewrite app_nil_r.
    + cbn [closed set_pending]. rewrite Hc1. change ([] ++ x) with x.
      rewrite drain_acc, (drain_acc f).
      specialize (IH f' (set_pending (drop e (pending t)) t1) Hc1).
      cbn [pending set_pending] in IH. rewrite length_app, length_drop in IH. rewrite length_app in Hf'.
      rewrite set_pending_set_pending in IH. rewrite IH by lia.
      destruct (drain f (set_pending (drop e (pending t)) t1) [] None) as [[[t2 o2] c2]|];
        cbn [mbind outcome_bind fst snd after]; [|done].
      destruct (transform t2 q) as [[[t3 o3] c3]|]; cbn; [|done].
      unfold after. cbn. rewrite app_assoc. by destruct c3, c2, ec.
  - cbn [mbind outcome_bind fst snd]. unfold transform. rewrite Hc.
    rewrite (drain_fuel (S (length (pending t ++ q))) (S f') (set_pending (pending t ++ q) t)); cbn [pending set_pending]; [|lia|lia].
    destruct (drain (S f') _ _ _) as [[[t3 o3] c3]|]; cbn; [|done]. unfold after. cbn. by destruct c3.
Qed.

(** Transforming two chunks in turn is transforming their concatenation. *)
Lemma transform_app t p q :
  transform t (p ++ q) = (transform t p ≫= fun r => transform r.1.1 q ≫= after r.1.2 r.2).
Proof.
  destruct (closed t) eqn:Hc.
  - rewrite !transform_closed by done. cbn [mbind outcome_bind fst snd]. by rewrite transform_closed.
  - assert (forall b, transform t b =
      drain (S (length (pending t ++ b))) (set_pending (pending t ++ b) t) [] None) as E
      by (intros b; unfold transform; by rewrite Hc).
    rewrite !E. rewrite <- (drain_app _ (S (length (pending t ++ p ++ q))) (set_pending (pending t ++ p) t)).
    + cbn [pending set_pending]. by rewrite app_assoc, set_pending_set_pending.
    + done.
    + cbn. lia.
    + cbn. rewrite !length_app. lia.
Qed.
End Transformer.

(** ** What a public event looks like *)

(** A complete event ends with one of the two separators. *)
Definition framed (event : list byte) : Prop :=
  ends_with [LF; LF] event = true \/ ends_with [CR; LF; CR; LF] event = true.

Lemma take_window (h n r : list byte) i :
  n <> [] -> drop i h = n ++ r -> exists b, take (i + length n) h = b ++ n.
Proof.
  intros Hn H. pose proof (window_len h n r i Hn H). exists (take i h).
  rewrite <- (take_drop i h) at 1. rewrite H, take_app_ge by (rewrite length_take; lia).
  f_equal. rewrite length_take. replace (i + length n - min i (length h)) with (length n) by lia.
  by rewrite take_app_length.
Qed.

Lemma next_event_end_framed p e : next_event_end p = Some e -> framed (take e p).
Proof.
  unfold next_event_end, framed. intros H. rewrite !ends_with_spec.
  assert (forall i, find_subslice p [LF; LF] = Some i -> exists r, take (i + 2) p = r ++ [LF; LF]) as Hlf.
  { intros i [[r Hr] _]%find_subslice_Some. by apply (take_window p [LF; LF] r i). }
  assert (forall i, find_subslice p [CR; LF; CR; LF] = Some i ->
            exists r, take (i + 4) p = r ++ [CR; LF; CR; LF]) as Hcr.
  { intros i [[r Hr] _]%find_subslice_Some. by apply (take_window p [CR; LF; CR; LF] r i). }
  destruct (find_subslice p [LF; LF]) as [i|], (find_subslice p [CR; LF; CR; LF]) as [k|];
    cbn in H; try done; injection H as <-; auto.
  destruct (Nat.min_dec (i + 2) (k + 4)) as [->| ->]; auto.
Qed.

(** Its body and separator. *)
Lemma split_framed event body sep :
  framed event -> split_separator event = Done (body, sep) ->
  event = body ++ sep /\ (sep = [LF; LF] \/ sep = [CR; LF; CR; LF]).
Proof.
  unfold framed, split_separator. intros Hf.
  assert (forall n, split_from_end n event = Done (body, sep) ->
            event = body ++ sep /\ body = take (length event - n) event /\ n <= length event) as Hsplit.
  { intros n. unfold split_from_end. destruct (Nat.ltb_spec (length event) n); [done|].
    intros [= <- <-]. split_and!; [by rewrite take_drop|done|done]. }
  assert (forall s, ends_with s event = true -> split_from_end (length s) event = Done (body, sep) -> sep = s) as Hsep.
  { intros s [r ->]%ends_with_spec (E & Hb & Hl)%Hsplit.
    rewrite length_app in Hb. replace (length r + length s - length s) with (length r) in Hb by lia.
    rewrite take_app_length in Hb. subst body. by apply app_inv_head in E. }
  destruct (ends_with [CR; LF; CR; LF] event) eqn:E; intros H.
  - split; [by apply (Hsplit 4)|]. right. by apply (Hsep [CR; LF; CR; LF]).
  - split; [by apply (Hsplit 2)|]. left. destruct Hf as [Hf|Hf]; [|done]. by apply (Hsep [LF; LF]).
Qed.

Definition data_prefixes : list (list byte) := [ascii_bytes "data:"; ascii_bytes "data: "].

Lemma single_data_line_Some body pre data :
  single_data_line body = Some (pre, data) -> body = pre ++ data /\ pre ∈ data_prefixes.
Proof.
  unfold single_data_line. destruct (_ || _); [done|].
  intros (d & Hd%bytes_strip_prefix_Some & H)%bind_Some. cbv beta zeta in H.
  remember (default d (bytes_strip_prefix (ascii_bytes " ") d)) as rest eqn:Hrest.
  injection H as <- <-. split; [by rewrite take_drop|]. rewrite Hd.
  assert (forall p x : list byte, take (length (p ++ x) - length x) (p ++ x) = p) as Htake.
  { intros p x. rewrite length_app. replace (length p + length x - length x) with (length p) by lia.
    apply take_app_length. }
  unfold data_prefixes. destruct (bytes_strip_prefix (ascii_bytes " ") d) as [d'|] eqn:E; subst rest.
  - apply bytes_strip_prefix_Some in E as ->. change (default _ (Some d')) with d'.
    replace (ascii_bytes "data:" ++ ascii_bytes " " ++ d') with (ascii_bytes "data: " ++ d') by done.
    rewrite Htake. right. left.
  - change (default d None) with d. rewrite Htake. left.
Qed.

(** The fields a client may see. *)
Definition public_names : list string :=
  ["id"; "object"; "created"; "model"; "choices"; "usage"; "service_tier"; "system_fingerprint"].

Definition public_fields (model : string) (fs : Fields) : Prop :=
  Forall (fun kv => kv.1 ∈ public_names) fs /\
  obj_get "model" fs = Some (JString model) /\ mentions (Object fs) = false.

Lemma sanitized_public fs model : public_fields model (sanitized_fields fs model).
Proof.
  split_and!; [|by rewrite sanitized_get|apply sanitized_clean]. apply Forall_forall. intros kv Hin.
  apply (bt_insert_elem String.compare string_compare_eq) in Hin as [->|Hin].
  - unfold public_names. set_solver.
  - apply elem_of_filter_b in Hin as [(name & Hn & ->%String.eqb_eq)%existsb_exists _].
    by apply list_elem_of_In.
Qed.

Lemma public_usage model fs v :
  public_fields model fs -> mentions v = false -> public_fields model (obj_insert "usage" v fs).
Proof.
  intros (Hf & Hm & Hc) Hv. split_and!; [|by rewrite obj_get_insert_ne|by apply mentions_insert].
  apply Forall_forall. intros kv [->|Hin]%(bt_insert_elem String.compare string_compare_eq); [unfold public_names; set_solver|].
  rewrite Forall_forall in Hf. auto.
Qed.

Section PublicEvents.
Context {D : RustDecimal} {J : SerdeJson}.

(** One event of a public stream: the generic error, a [DONE] line, or the
    JSON of an object with public fields only. *)
Inductive public_event (model : string) : list byte -> Prop :=
| pe_error e : generic_upstream_error_event model = Done e -> public_event model e
| pe_done pre sep : pre ∈ data_prefixes -> sep = [LF; LF] \/ sep = [CR; LF; CR; LF] ->
    public_event model (pre ++ DONE ++ sep)
| pe_data pre sep fs json : pre ∈ data_prefixes -> sep = [LF; LF] \/ sep = [CR; LF; CR; LF] ->
    public_fields model fs -> to_vec (Object fs) = Some json -> public_event model (pre ++ json ++ sep).

(** How an event moves the transformer: on, or closed with an error, or closed
    by a [DONE] with the usage kept so far. *)
Definition event_outcome (model : string) (t t' : UsageCostTransformer) (out : list byte)
    (c : option CostedUsage) : Prop :=
  (closed t' = closed t /\ c = None) \/
  (closed t' = true /\ c = None /\ generic_upstream_error_event model = Done out) \/
  (closed t' = true /\ c = costed_usage t /\ (prices t = None \/ is_Some c)).

Lemma close_outcome t model t' out c :
  close_with_generic_error t model = Done (t', out, c) ->
  public_event model out /\ event_outcome model t t' out c.
Proof.
  unfold close_with_generic_error. intros (e & He & [= <- <- <-])%bind_Done.
  split; [by apply pe_error|]. right. left. done.
Qed.

Lemma defer_public model fs defer v :
  public_fields model fs -> defer_value defer (Object fs) = Done v ->
  exists fs', v = Object fs' /\ public_fields model fs'.
Proof.
  intros Hp. destruct defer; cbn; intros [= <-]; [|eauto]. eexists. split; [done|]. by apply public_usage.
Qed.

Lemma cost_public_fields model t defer fs v u :
  public_fields model fs -> cost_public t defer (Object fs) = Done (Some (v, u)) ->
  exists fs', v = Object fs' /\ public_fields model fs'.
Proof.
  intros Hp. unfold cost_public. destruct (_ && _); [|intros [= <- <-]; eauto].
  destruct (prices t) as [p|]; [|intros [= <- <-]; eauto].
  intros (r & Hr & H)%bind_Done. destruct r as [[v' u']|]; [|done]. injection H as <- <-.
  apply inject_clean in Hr as (usage' & -> & Hc); [|apply Hp].
  eexists. split; [done|]. by apply public_usage.
Qed.

Lemma keep_usage_closed u t : closed (keep_usage u t) = closed t.
Proof. by destruct u. Qed.

Lemma public_event_step t event model t' out c :
  framed event -> transform_public_event t event model = Done (t', out, c) ->
  public_event model out /\ event_outcome model t t' out c.
Proof.
  intros Hf. unfold transform_public_event. intros ([body sep] & Hs & H)%bind_Done.
  destruct (split_framed _ _ _ Hf Hs) as [-> Hsep].
  destruct (single_data_line body) as [[pre data]|] eqn:El; [|by apply close_outcome].
  apply single_data_line_Some in El as [-> Hpre].
  destruct (bytes_eqb data DONE) eqn:Ed.
  - apply bool_decide_eq_true in Ed as ->.
    destruct (is_some (prices t) && negb (is_some (costed_usage t))) eqn:Ec; [by apply close_outcome|].
    injection H as <- <- <-. rewrite <- app_assoc. split; [by apply pe_done|]. right. right.
    split_and!; [done|done|]. destruct (prices t), (costed_usage t); eauto; done.
  - destruct (from_slice data) as [value|]; [|by apply close_outcome].
    destruct (sanitize_public_completion_value value model) as [v|] eqn:Esan; [|by apply close_outcome].
    apply sanitize_Ok in Esan as (fs & -> & _ & ->).
    apply bind_Done in H as (v1 & Hv1 & (costed & Hcost & H)%bind_Done).
    destruct (defer_public _ _ _ _ (sanitized_public fs model) Hv1) as (fs1 & -> & Hp1).
    destruct costed as [[v2 u]|]; [|by apply close_outcome].
    destruct (cost_public_fields _ _ _ _ _ _ Hp1 Hcost) as (fs2 & -> & Hp2).
    destruct (to_vec (Object fs2)) as [json|] eqn:Ej; [|by apply close_outcome].
    injection H as <- <- <-. split; [by eapply pe_data|]. left. by rewrite keep_usage_closed.
Qed.

(** ** Whole chunks *)

Lemma drain_public f t model t' out c :
  response_model t = Some model -> closed t = false -> drain f t [] None = Done (t', out, c) ->
  (exists events, out = concat events /\ Forall (public_event model) events) /\
  response_model t' = Some model /\ prices t' = prices t /\
  (closed t' = false /\ c = None \/
   closed t' = true /\
     (c = None /\ (exists pre e, generic_upstream_error_event model = Done e /\ out = pre ++ e) \/
      prices t = None \/ is_Some c)).
Proof.
  revert t t' out c. induction f as [|f IH]; intros t t' out c Hm Hc; [done|]. rewrite drain_S.
  destruct (next_event_end (pending t)) as [e|] eqn:E.
  2:{ intros [= <- <- <-]. split_and!; [by exists []|done|done|by left]. }
  intros ([[t1 x] ec] & Ht & H)%bind_Done. pose proof (transform_event_frame _ _ _ _ _ Ht) as (_ & Hpr & Hrm & _).
  cbn in Hpr, Hrm. unfold transform_event in Ht. cbn [response_model set_pending] in Ht. rewrite Hm in Ht.
  apply public_event_step in Ht as [Hev Hout]; [|by apply next_event_end_framed].
  destruct (closed t1) eqn:Hc1.
  - injection H as <- <- <-. cbn [app]. split_and!;
      [exists [x]; cbn; rewrite app_nil_r; split; [done|by constructor]|by rewrite <- Hm|done|right; split; [done|]].
    destruct Hout as [[Hcl _]|[(_ & -> & He)|(_ & -> & Hu)]].
    + cbn in Hcl. congruence.
    + left. split; [done|]. by exists [], x.
    + right. cbn in *. destruct Hu as [?|[u Hu]]; [by left|right]. rewrite Hu. by exists u.
  - destruct Hout as [[_ ->]|[(? & _)|(? & _)]]; [|congruence|congruence].
    rewrite drain_acc in H. apply bind_Done in H as ([[t2 o2] c2] & Hd & H). unfold after in H. cbn in H.
    injection H as <- <- <-.
    destruct (IH t1 t2 o2 c2 ltac:(congruence) Hc1 Hd) as ((evs & -> & Hevs) & Hm2 & Hp2 & Hfin).
    rewrite Hpr in Hp2, Hfin. split_and!; [exists (x :: evs); split; [done|by constructor]|done|done|].
    assert (option_or c2 None = c2) as -> by by destruct c2.
    destruct Hfin as [?|[? [(? & pre & err & ? & ->)|?]]]; [by left|right; split; [done|left]|right; tauto].
    split; [done|]. exists (x ++ pre), err. split; [done|]. by rewrite app_assoc.
Qed.
End PublicEvents.

(** ** What is completed was shown *)

Section Shown.
Context {D : RustDecimal} {J : SerdeJson} (p : ProviderPrices) (policy : ProviderReportedCostPolicy).

(** A usage that the client was shown: [shown] contains an object with the
    usage's cost injected, and the object names the response. *)
Definition shown_usage (shown : list byte) (u : CostedUsage) : Prop :=
  exists v v' json before following,
    inject_usage_cost_value_with_policy v p policy = Done (Ok (v', u)) /\ is_Some (response_id u) /\
    to_vec v' = Some json /\ shown = before ++ json ++ following.

Lemma shown_usage_app shown more u : shown_usage shown u -> shown_usage (shown ++ more) u.
Proof.
  intros (v & v' & json & a & b & ? & ? & ? & ->). exists v, v', json, a, (b ++ more).
  split_and!; [done..|]. by rewrite <- !app_assoc.
Qed.

Lemma shown_usage_before shown more u : shown_usage more u -> shown_usage (shown ++ more) u.
Proof.
  intros (v & v' & json & a & b & ? & ? & ? & ->). exists v, v', json, (shown ++ a), b.
  split_and!; [done..|]. by rewrite <- !app_assoc.
Qed.

(** The transformer of these prices, whose kept usage was shown. *)
Record backed (shown : list byte) (t : UsageCostTransformer) : Prop := {
  bk_prices : prices t = Some p;
  bk_policy : provider_cost_policy t = policy;
  bk_usage : forall u, costed_usage t = Some u -> shown_usage shown u
}.

(** The output of a step after [shown], its state and its completed usage. *)
Definition backs (shown : list byte) (r : UsageCostTransformer * list byte * option CostedUsage) : Prop :=
  backed (shown ++ r.1.2) r.1.1 /\ forall u, r.2 = Some u -> shown_usage (shown ++ r.1.2) u.

Lemma backed_app shown more t : backed shown t -> backed (shown ++ more) t.
Proof. intros [H1 H2 H3]. split; [done..|]. intros u Hu. by apply shown_usage_app, H3. Qed.

Lemma backed_dropped shown t t' :
  backed shown t -> prices t' = prices t -> provider_cost_policy t' = provider_cost_policy t ->
  costed_usage t' = None -> backed shown t'.
Proof. intros [H1 H2 H3] E1 E2 E3. split; congruence. Qed.

Lemma close_backs shown t model r :
  backed shown t -> close_with_generic_error t model = Done r -> backs shown r.
Proof.
  intros Hb. unfold close_with_generic_error. intros (e & _ & [= <-])%bind_Done. split; [|done].
  eapply backed_dropped; [by apply backed_app|done..].
Qed.

(** A sanitized value has an id, and keeps it when its usage is deferred. *)
Definition identified (v : Value) : Prop := is_Some (value_get "id" v ≫= as_str).

Lemma sanitized_identified value model v : sanitize_public_completion_value value model = Ok v -> identified v.
Proof.
  intros (fs & -> & (_ & (i & Hi & _) & _) & ->)%sanitize_Ok. unfold identified. cbn [value_get].
  rewrite sanitized_get. cbn. rewrite Hi. cbn. eauto.
Qed.

Lemma defer_identified defer v v' : defer_value defer v = Done v' -> identified v -> identified v'.
Proof.
  destruct defer; cbn; [|by intros [= <-]]. unfold identified. destruct v; cbn; try done; intros [= <-].
  cbn. by rewrite obj_get_insert_ne.
Qed.

Lemma event_backs shown t event model r :
  backed shown t -> transform_public_event t event model = Done r -> backs shown r.
Proof.
  intros Hb. unfold transform_public_event. intros ([body sep] & _ & H)%bind_Done.
  destruct (single_data_line body) as [[pre data]|]; [|by eapply close_backs].
  destruct (bytes_eqb data DONE).
  { destruct (_ && _); [by eapply close_backs|]. injection H as <-. split; cbn.
    - eapply backed_dropped; [by apply backed_app|done..].
    - intros u Hu. by apply shown_usage_app, (bk_usage _ _ Hb). }
  destruct (from_slice data) as [value|]; [|by eapply close_backs].
  destruct (sanitize_public_completion_value value model) as [v|] eqn:Es; [|by eapply close_backs].
  apply sanitized_identified in Es. apply bind_Done in H as (v1 & Hv1 & (costed & Hcost & H)%bind_Done).
  apply (defer_identified _ _ _ Hv1) in Es. destruct costed as [[v2 usage]|]; [|by eapply close_backs].
  destruct (to_vec v2) as [json|] eqn:Ej; [|by eapply close_backs]. injection H as <-. split; [|done].
  cbn [fst snd]. destruct usage as [u|]; [|by apply backed_app].
  split; [apply Hb..|]. cbn. intros u' [= <-]. apply shown_usage_before.
  unfold cost_public in Hcost. destruct (_ && _) in Hcost; [|done]. rewrite (bk_prices _ _ Hb) in Hcost.
  apply bind_Done in Hcost as ([[w u2]|] & Hi & E); [|done]. injection E as -> ->.
  rewrite (bk_policy _ _ Hb) in Hi. exists v1, v2, json, pre, sep. split_and!; [done| |done|done].
  unfold inject_usage_cost_value_with_policy in Hi.
  destruct (ok_or MissingUsage _) as [usage|]; [|done]. destruct (token_usage usage) as [tokens|]; [|done].
  destruct (response_cost usage _) as [reported|]; [|done].
  apply bind_Done in Hi as (pc & _ & Hi). destruct (ok_or UnresolvedProviderCost pc); [|done].
  by apply bind_Done in Hi as (text & _ & (w & _ & [= _ <-])%bind_Done).
Qed.

Lemma set_pending_backed shown l t : backed shown t -> backed shown (set_pending l t).
Proof. by intros []. Qed.

Lemma drain_backs shown f t model r :
  response_model t = Some model -> backed shown t -> drain f t [] None = Done r -> backs shown r.
Proof.
  revert shown t r. induction f as [|f IH]; intros shown t r Hm Hb; [done|]. rewrite drain_S.
  destruct (next_event_end (pending t)) as [e|].
  2:{ intros [= <-]. split; [|done]. by apply backed_app. }
  intros ([[t1 x] ec] & Ht & H)%bind_Done. pose proof (transform_event_frame _ _ _ _ _ Ht) as (_ & _ & Hrm & _).
  cbn in Hrm. unfold transform_event in Ht. cbn [response_model set_pending] in Ht. rewrite Hm in Ht.
  apply (event_backs shown) in Ht as [Hb1 Hc1]; [|by apply set_pending_backed]. cbn [fst snd] in *.
  destruct (closed t1).
  - injection H as <-. split; cbn [fst snd app]; [by apply set_pending_backed|]. intros u Hu. apply Hc1. by destruct ec.
  - rewrite drain_acc in H. apply bind_Done in H as ([[t2 o2] c2] & Hd & H). injection H as <-. cbn [fst snd app].
    destruct (IH (shown ++ x) t1 _ ltac:(congruence) Hb1 Hd) as [Hb2 Hc2]. cbn [fst snd] in *.
    rewrite <- app_assoc in Hb2, Hc2. split; [done|]. cbn. intros u Hu.
    destruct c2 as [u2|]; cbn in Hu; [apply Hc2; congruence|].
    rewrite app_assoc. apply shown_usage_app, Hc1. by destruct ec.
Qed.

Lemma transform_backs shown t bytes model r :
  response_model t = Some model -> backed shown t -> transform t bytes = Done r -> backs shown r.
Proof.
  intros Hm Hb. unfold transform. destruct (closed t).
  - intros [= <-]. split; [|done]. by apply backed_app.
  - intros H. eapply drain_backs; [|by apply set_pending_backed|exact H]. done.
Qed.
End Shown.
