(* ===== verification/SseProps.v ===== *)
(** The properties of the event-stream transformer ([sse.rs]): chunking is
    irrelevant, a public stream shows only sanitized events, it never ends
    uncosted, and the transformer always returns. *)

From Stdlib Require Import QArith ZArith Strings.Byte.
From S2P Require Import Prelude RustDecimal RoutingProfile Registry Json RefJson Pricing UsageCost.
From S2P Require Import Sse SseSpec Fixtures.

#[local] Open Scope Z_scope.

Section Chunks.
Context {D : RustDecimal} {J : SerdeJson}.

(** The chunks of a response, in order: the client's bytes concatenated, the
    last completed usage kept. *)
Fixpoint feed (t : UsageCostTransformer) (chunks : list (list byte)) : Step :=
  match chunks with
  | [] => Done (t, [], None)
  | b :: rest => transform t b ≫= fun r => feed r.1.1 rest ≫= after r.1.2 r.2
  end.

Lemma drain_quiet f t o c t' o' c' :
  next_event_end (pending t) = None \/ (length (pending t) < f)%nat ->
  drain f t o c = Done (t', o', c') -> next_event_end (pending t') = None.
Proof.
  revert t o c. induction f as [|f IH]; intros t o c Hq; [done|]. rewrite drain_S.
  destruct (next_event_end (pending t)) as [e|] eqn:E; [|by intros [= <- _ _]].
  intros ([[t1 x] ec] & Ht & H)%bind_Done. apply transform_event_frame in Ht as [Hp _]. cbn in Hp.
  destruct (closed t1); [by injection H as <- _ _|]. eapply IH; [|exact H]. right.
  apply next_event_end_bounds in E. rewrite Hp, length_drop. destruct Hq; [done|lia].
Qed.

Lemma transform_quiet t b t' o c :
  next_event_end (pending t) = None -> transform t b = Done (t', o, c) ->
  next_event_end (pending t') = None.
Proof.
  unfold transform. intros Hq. destruct (closed t); [by intros [= <- _ _]|].
  intros H. eapply drain_quiet; [|exact H]. right. lia.
Qed.

Lemma transform_nil t : next_event_end (pending t) = None -> transform t [] = Done (t, [], None).
Proof.
  intros Hq. unfold transform. destruct (closed t); [done|]. rewrite drain_S. cbn [pending set_pending].
  rewrite app_nil_r, Hq. by rewrite set_pending_id.
Qed.

(** C26: How a response is cut into chunks makes no difference: feeding the
    chunks one by one yields the same bytes, the same completed usage, the same
    final state and the same panics as transforming their concatenation. *)
Theorem chunking_irrelevant t chunks :
  next_event_end (pending t) = None -> feed t chunks = transform t (concat chunks).
Proof.
  revert t. induction chunks as [|b chunks IH]; intros t Hq; [by rewrite transform_nil|].
  cbn [feed concat]. rewrite transform_app.
  destruct (transform t b) as [[[t1 o1] c1]|] eqn:E; [|done]. cbn [mbind outcome_bind fst snd].
  by rewrite IH by by eapply transform_quiet.
Qed.
End Chunks.

(** ** Public streams *)

Section Public.
Context {D : RustDecimal} {J : SerdeJson}.

Lemma transform_model t bytes t' out c :
  transform t bytes = Done (t', out, c) -> response_model t' = response_model t.
Proof.
  assert (forall f t o c0, drain f t o c0 = Done (t', out, c) -> response_model t' = response_model t) as Hd.
  { clear t. induction f as [|f IH]; intros t o c0; [done|]. rewrite drain_S.
    destruct (next_event_end (pending t)); [|by intros [= <- _ _]].
    intros ([[t1 x] ec] & (_ & _ & Hrm & _)%transform_event_frame & H)%bind_Done. cbn in Hrm.
    destruct (closed t1); [by injection H as <- _ _|]. apply IH in H. congruence. }
  unfold transform. destruct (closed t); [by intros [= <- _ _]|]. by intros ->%Hd.
Qed.

Lemma transform_public t model bytes t' out c :
  response_model t = Some model -> transform t bytes = Done (t', out, c) ->
  exists events, out = concat events /\ Forall (public_event model) events.
Proof.
  intros Hm. unfold transform. destruct (closed t) eqn:Hc; [intros [= _ <- _]; by exists []|].
  intros H. by apply (drain_public _ (set_pending _ t) model) in H as (? & _).
Qed.

Lemma feed_public model chunks t t' out c :
  response_model t = Some model -> feed t chunks = Done (t', out, c) ->
  response_model t' = Some model /\ exists events, out = concat events /\ Forall (public_event model) events.
Proof.
  revert t t' out c. induction chunks as [|b chunks IH]; intros t t' out c Hm; cbn [feed].
  { intros [= <- <- _]. split; [done|]. by exists []. }
  intros ([[t1 o1] c1] & Ht & ([[t2 o2] c2] & Hf & [= <- <- _])%bind_Done)%bind_Done. cbn [fst snd] in *.
  destruct (transform_public t model b t1 o1 c1 Hm Ht) as (evs1 & -> & H1).
  apply transform_model in Ht. destruct (IH t1 t2 o2 c2 ltac:(congruence) Hf) as (? & evs2 & -> & H2).
  split; [done|]. exists (evs1 ++ evs2). by rewrite concat_app, Forall_app.
Qed.

(** A public, priced stream fails closed: when it closes, either the usage
    it was costed with is handed over for recording, or its last bytes are the
    generic error event; and it hands over nothing before it closes. *)
Lemma public_stream_billed t model p bytes t' out c :
  response_model t = Some model -> prices t = Some p -> closed t = false ->
  transform t bytes = Done (t', out, c) ->
  if closed t' then
    is_Some c \/ (c = None /\ exists pre e, generic_upstream_error_event model = Done e /\ out = pre ++ e)
  else c = None.
Proof.
  intros Hm Hp Hc. unfold transform. rewrite Hc. intros H.
  apply (drain_public _ (set_pending _ t) model) in H as (_ & _ & _ & Hfin); [|done..].
  cbn [prices set_pending] in Hfin. rewrite Hp in Hfin.
  destruct Hfin as [[-> ->]|[-> [?|[?|?]]]]; [done|by right|done|by left].
Qed.

(** When the upstream ends, a public stream that is still open ends either
    with an unterminated [DONE] line, and then (if priced) with the usage it
    was costed with, or with the generic error and nothing to record; a closed
    one adds nothing. *)
Lemma public_finish t model out c :
  response_model t = Some model -> finish t = Done (out, c) ->
  if closed t then out = [] /\ c = None
  else (generic_upstream_error_event model = Done out /\ c = None) \/
       (exists pre tail, pre ∈ data_prefixes /\ tail ∈ [[]; [LF]; [CR; LF]] /\
          out = pre ++ DONE ++ tail /\ c = costed_usage t /\ (prices t = None \/ is_Some c)).
Proof.
  intros Hm. unfold finish. destruct (closed t); [by intros [= <- <-]|]. rewrite Hm.
  set (line := default _ _). intros H.
  assert (exists tail, tail ∈ [[]; [LF]; [CR; LF]] /\ pending t = line ++ tail) as (tail & Htail & Hline).
  { subst line. destruct (bytes_strip_suffix [CR; LF] (pending t)) as [l|] eqn:E1.
    { apply bytes_strip_suffix_Some in E1. exists [CR; LF]. split; [right; right; left|exact E1]. }
    destruct (bytes_strip_suffix [LF] (pending t)) as [l|] eqn:E2.
    { apply bytes_strip_suffix_Some in E2. exists [LF]. split; [right; left|exact E2]. }
    exists []. split; [left|symmetry; apply app_nil_r]. }
  destruct (is_some_and _ (single_data_line line)) eqn:Ed.
  - destruct (is_some (prices t) && negb (is_some (costed_usage t))) eqn:Ec.
    + apply bind_Done in H as (e & He & [= <- <-]). by left.
    + injection H as <- <-. right. destruct (single_data_line line) as [[pre data]|] eqn:El; [|done].
      cbn in Ed. apply bool_decide_eq_true in Ed as ->.
      apply single_data_line_Some in El as [Hl Hpre]. exists pre, tail.
      split_and!; [done|done|by rewrite Hline, Hl, <- app_assoc|done|].
      destruct (prices t), (costed_usage t); eauto; done.
  - apply bind_Done in H as (e & He & [= <- <-]). by left.
Qed.

(** A [DONE] line that the upstream left without its blank line. *)
Definition unterminated_done (line : list byte) : Prop :=
  exists pre tail, pre ∈ data_prefixes /\ tail ∈ [[]; [LF]; [CR; LF]] /\ line = pre ++ DONE ++ tail.

(** C25: Whatever the upstream sends, in whatever chunks and however it ends, all
    that a public stream shows the client is whole events, each of them the
    generic error, a [DONE] line, or the JSON of an object with only the eight
    public fields, the canonical model's name and no provider-specific field at
    any depth; and after them at most an unterminated [DONE] line, when the
    upstream ended without completing it. *)
Theorem public_stream_safe t model chunks t' out c out' c' :
  response_model t = Some model ->
  feed t chunks = Done (t', out, c) -> finish t' = Done (out', c') ->
  exists events last, out ++ out' = concat events ++ last /\ Forall (public_event model) events /\
    (last = [] \/ unterminated_done last).
Proof.
  intros Hm Hf Hfin. destruct (feed_public model chunks t t' out c Hm Hf) as (Hm' & events & -> & Hev).
  pose proof (public_finish t' model out' c' Hm' Hfin) as Ho.
  destruct (closed t'); [destruct Ho as [-> _]; exists events, []; by auto|].
  destruct Ho as [[He _]|(pre & tail & Hpre & Htail & -> & _)].
  - exists (events ++ [out']), []. rewrite concat_app, Forall_app. cbn. rewrite !app_nil_r.
    split_and!; [done|done| |by left]. apply Forall_singleton. by apply pe_error.
  - exists events, (pre ++ DONE ++ tail). split_and!; [done..|]. right. by exists pre, tail.
Qed.
End Public.

(** ** Totality *)

Section Total.
Context {D : RustDecimal} {J : SerdeJson}.

(** The environment of a transformer in use: JSON values print, decimals print
    as JSON numbers, unsigned numbers are 64-bit, and the provider's prices
    yield a cost for every token count. *)
Definition printable : Prop :=
  (forall v, is_Some (to_vec v)) /\ (forall d, is_Some (number_from_str (dec_to_string d))) /\
  (forall text n, number_as_u64 text = Some n -> tokens_ok n).

Definition costable (p : ProviderPrices) : Prop :=
  forall usage cached, tokens_ok (prompt_tokens usage) -> tokens_ok (completion_tokens usage) ->
    (forall n, cached = Some n -> tokens_ok n) ->
    exists c, provider_cost_usd p usage cached = Done c.

Lemma as_u64_ok v n : printable -> as_u64 v = Some n -> tokens_ok n.
Proof. intros (_ & _ & H). destruct v; try done. apply H. Qed.

Lemma token_usage_ok usage tokens :
  printable -> token_usage usage = Ok tokens ->
  tokens_ok (prompt_tokens tokens) /\ tokens_ok (completion_tokens tokens).
Proof.
  intros Hp. unfold token_usage.
  intros (n & (x & _ & Hn)%ok_or_Ok%bind_Some & (m & (y & _ & Hm)%ok_or_Ok%bind_Some & [= <-])%bind_Ok)%bind_Ok.
  apply as_u64_ok in Hn, Hm; done.
Qed.

(** The tokens of an injected cost are 64-bit. *)
Lemma inject_tokens_ok response p policy v u :
  printable -> inject_usage_cost_value_with_policy response p policy = Done (Ok (v, u)) ->
  tokens_ok (completion_tokens (cu_usage u)).
Proof.
  intros Hp. unfold inject_usage_cost_value_with_policy.
  destruct (ok_or MissingUsage _) as [usage|]; [|discriminate].
  destruct (token_usage usage) as [tokens|] eqn:Et; [|discriminate].
  destruct (response_cost usage _) as [reported|]; [|discriminate].
  intros (pc & _ & H)%bind_Done. destruct (ok_or UnresolvedProviderCost pc); [|discriminate].
  apply bind_Done in H as (text & _ & H). apply bind_Done in H as (w & _ & [= _ <-]).
  cbn [cu_usage]. by eapply token_usage_ok.
Qed.

Lemma inject_total response p policy :
  printable -> costable p -> exists r, inject_usage_cost_value_with_policy response p policy = Done r.
Proof.
  intros Hp Hc. unfold inject_usage_cost_value_with_policy, usage_object.
  destruct response as [| | | | |fs]; cbn [value_get mbind option_bind ok_or]; eauto.
  destruct (obj_get "usage" fs) as [u|]; cbn [mbind option_bind ok_or]; [|eauto].
  destruct (as_object u) as [usage|]; cbn [ok_or]; [|eauto].
  destruct (token_usage usage) as [tokens|] eqn:Et; [|eauto].
  destruct (response_cost usage policy) as [reported|]; [|eauto].
  assert (exists pc, match reported with
    | Some c => Done (Some c)
    | None => provider_cost_usd p tokens (cached_tokens usage) end = Done pc) as [pc ->].
  { destruct reported as [c|]; [eauto|]. apply token_usage_ok in Et as [Hn Hm]; [|done].
    apply Hc; [done..|]. intros k Hk. unfold cached_tokens in Hk.
    apply bind_Some in Hk as (d & _ & (fd & _ & (z & _ & Hz)%bind_Some)%bind_Some). by apply as_u64_ok in Hz. }
  cbn [mbind outcome_bind]. destruct pc as [c|]; cbn [ok_or]; [|eauto].
  destruct Hp as (_ & Hn & _). destruct (Hn c) as [text ->]. cbn. eauto.
Qed.

Lemma preliminary_object v policy :
  is_deepinfra_preliminary_usage v policy = true -> exists fs, v = Object fs.
Proof.
  unfold is_deepinfra_preliminary_usage. destruct v; eauto; cbn;
    by destruct (negb _).
Qed.

Lemma defer_total v policy : exists v', defer_value (is_deepinfra_preliminary_usage v policy) v = Done v'.
Proof.
  destruct (is_deepinfra_preliminary_usage v policy) eqn:E; [|cbn; eauto].
  apply preliminary_object in E as [fs ->]. cbn. eauto.
Qed.

Lemma split_total event : framed event -> exists r, split_separator event = Done r.
Proof.
  intros Hf. unfold split_separator.
  assert (forall s, ends_with s event = true -> exists r, split_from_end (length s) event = Done r) as H.
  { intros s [r ->]%ends_with_spec. unfold split_from_end.
    rewrite (proj2 (Nat.ltb_ge _ _)); [eauto|]. rewrite length_app. lia. }
  destruct (ends_with [CR; LF; CR; LF] event) eqn:E; [by apply (H [CR; LF; CR; LF])|].
  destruct Hf as [Hf|Hf]; [by apply (H [LF; LF])|congruence].
Qed.

Definition ready (t : UsageCostTransformer) : Prop := forall p, prices t = Some p -> costable p.

Lemma close_total t model : printable -> exists r, close_with_generic_error t model = Done r.
Proof.
  intros (Hv & _). unfold close_with_generic_error, generic_upstream_error_event.
  destruct (Hv (generic_upstream_error model)) as [e ->]. cbn. eauto.
Qed.

Lemma transform_event_total t event :
  printable -> ready t -> framed event -> exists r, transform_event t event = Done r.
Proof.
  intros Hp Hr Hf. destruct (split_total event Hf) as [[body sep] Hs]. unfold transform_event.
  destruct (response_model t) as [model|].
  - pose proof (close_total t model Hp) as Hclose.
    unfold transform_public_event. rewrite Hs. cbn [mbind outcome_bind].
    destruct (single_data_line body) as [[pre data]|]; [|done].
    destruct (bytes_eqb data DONE); [destruct (_ && _); eauto|].
    destruct (from_slice data) as [v|]; [|done].
    destruct (sanitize_public_completion_value v model) as [v1|]; [|done].
    destruct (defer_total v1 (provider_cost_policy t)) as [v2 ->]. cbn [mbind outcome_bind].
    assert (exists c, cost_public t (is_deepinfra_preliminary_usage v1 (provider_cost_policy t)) v2 = Done c) as [c ->].
    { unfold cost_public. destruct (_ && _); [|eauto]. destruct (prices t) as [p|] eqn:Ep; [|eauto].
      destruct (inject_total v2 p (provider_cost_policy t) Hp (Hr p Ep)) as [r ->]. cbn.
      destruct r as [[]|]; eauto. }
    cbn [mbind outcome_bind]. destruct c as [[v3 u]|]; [|done]. destruct (to_vec v3); eauto.
  - unfold transform_internal_event. rewrite Hs. cbn [mbind outcome_bind].
    destruct (single_data_line body) as [[pre data]|]; [|eauto].
    destruct (bytes_eqb data DONE); [eauto|]. destruct (from_slice data) as [v|]; [|eauto].
    destruct (strip_provider_specific_fields v) as [v1 sanitized].
    destruct (defer_total v1 (provider_cost_policy t)) as [v2 ->]. cbn [mbind outcome_bind].
    assert (exists c, cost_internal t (is_deepinfra_preliminary_usage v1 (provider_cost_policy t)) v2 = Done c)
      as [[v3 u] ->].
    { unfold cost_internal. destruct (prices t) as [p|] eqn:Ep; [|eauto]. destruct (_ && _); [|eauto].
      destruct (inject_total v2 p (provider_cost_policy t) Hp (Hr p Ep)) as [r ->]. cbn.
      destruct r as [[]|]; eauto. }
    cbn [mbind outcome_bind]. destruct (_ && _); [eauto|]. destruct (to_vec v3); eauto.
Qed.

Lemma drain_total f t o c :
  printable -> ready t -> (length (pending t) < f)%nat -> exists r, drain f t o c = Done r /\ ready r.1.1.
Proof.
  intros Hp. revert t o c. induction f as [|f IH]; intros t o c Hr Hf; [lia|]. rewrite drain_S.
  destruct (next_event_end (pending t)) as [e|] eqn:E; [|eauto].
  destruct (transform_event_total (set_pending (drop e (pending t)) t) (take e (pending t)) Hp Hr
    (next_event_end_framed _ _ E)) as [[[t1 x] ec] Ht]. rewrite Ht. cbn [mbind outcome_bind].
  apply transform_event_frame in Ht as (Hpend & Hpr & _). cbn in Hpend, Hpr.
  assert (ready t1) as Hr1 by (unfold ready; by rewrite Hpr).
  destruct (closed t1); [eauto|]. apply next_event_end_bounds in E.
  apply IH; [done|]. rewrite Hpend, length_drop. lia.
Qed.

(** Feeding any chunks to the transformer returns: its loop ends on every
    input, no event is shorter than its separator, and no expect fires, as long
    as values and decimals print as JSON and the prices yield a cost. *)
Lemma feed_returns t chunks :
  printable -> (forall p, prices t = Some p -> costable p) -> exists r, feed t chunks = Done r.
Proof.
  intros Hp. revert t. induction chunks as [|b chunks IH]; intros t Hr; cbn [feed]; [eauto|].
  assert (exists r, transform t b = Done r /\ ready r.1.1) as ([[t1 o1] c1] & -> & Hr1).
  { unfold transform. destruct (closed t); [eauto|]. apply drain_total; [done|done|cbn; lia]. }
  cbn [mbind outcome_bind fst snd]. destruct (IH t1 Hr1) as [[[t2 o2] c2] ->]. unfold after. cbn. eauto.
Qed.
End Total.

(** ** Witnesses *)

Definition stream_prices : ProviderPrices := model_prices (chat_model (dec 1 0) (dec 2 0)).

Lemma ref_printable : printable (D := RefDecimal.decimal).
Proof.
  split_and!; [eauto|eauto|]. intros text n. cbn. unfold RefJson.as_u64.
  intros (m & Hm & H)%bind_Some. destruct (Z.leb_spec m u64_max); [|done]. injection H as <-.
  split; [|done]. clear -Hm. revert Hm. assert (0 <= 0) as H0 by lia. revert H0.
  generalize 0 at 2 3 as acc. induction (list_ascii_of_string text) as [|c l IH]; intros acc Ha; cbn.
  - by intros [= <-].
  - destruct (_ && _) eqn:E; [|done]. apply andb_true_iff in E as [E%Z.leb_le _]. apply IH. lia.
Qed.

Lemma ref_cost_Some total : 0 <= total <= 2 ^ 67 ->
  exists c, rounded_cost (RefDecimal.Dec total 0) = Done c.
Proof.
  intros Ht. unfold rounded_cost, dec_div. cbn [dec_checked_div RefDecimal.decimal].
  unfold RefDecimal.div. cbn [RefDecimal.mant RefDecimal.scale dec_of_Z RefDecimal.decimal TOKENS_PER_MILLION].
  destruct (RefDecimal.fit_total (div_away (total * 10 ^ Z.of_nat 0 * 10 ^ 28) (1000000 * pow10 0)) 28)
    as (c & -> & Hc).
  - unfold div_away. change (Z.of_nat 28) with 28. change (Z.of_nat 0) with 0. change (pow10 0) with 1%positive.
    rewrite Z.pow_0_r, Z.mul_1_r. change (1000000 * 1)%positive with 1000000%positive.
    assert (0 <= (2 * Z.abs (total * 10 ^ 28) + 1000000) / (2 * 1000000) <= 2 ^ 95 * 10 ^ 28).
    { split; [apply Z.div_pos; lia|]. apply Z.lt_succ_r, Z.div_lt_upper_bound; lia. }
    destruct (Z.sgn_spec (total * 10 ^ 28)) as [(? & ->)|[(? & ->)|(? & ->)]]; lia.
  - cbn [expect mbind outcome_bind]. unfold normalize_cost_usd.
    rewrite (proj2 (dec_negative_false (D := RefDecimal.decimal) RefDecimal.val c)); [cbn; eauto|].
    unfold RefDecimal.val, Qle. cbn. assert (0 <= RefDecimal.mant c); [|lia]. apply Hc.
    unfold div_away. apply Z.mul_nonneg_nonneg; [apply Z.sgn_nonneg; lia|apply Z.div_pos; lia].
Qed.

Lemma fit_zero m : Z.abs m < 2 ^ 96 -> RefDecimal.fit m 0 = Some (RefDecimal.Dec m 0).
Proof. intros H. cbn [RefDecimal.fit]. by rewrite (proj2 (Z.ltb_lt _ _)). Qed.

Lemma stream_costable : costable stream_prices.
Proof.
  intros usage cached Hp Hc _. unfold provider_cost_usd, stream_prices. cbn [model_prices chat_model
    cached_input_price_per_mtok provider_cached_input_price_per_mtok provider_cost].
  unfold tokens_ok, u64_max in *. unfold cost_usd, dec_mul, dec_add.
  cbn [mp_input_price_per_mtok mp_output_price_per_mtok input_price_per_mtok output_price_per_mtok
       dec_checked_mul dec_checked_add dec_of_Z RefDecimal.decimal dec].
  change (input_price_per_mtok _) with (RefDecimal.Dec 1 0).
  change (output_price_per_mtok _) with (RefDecimal.Dec 2 0).
  unfold RefDecimal.mul. cbn [RefDecimal.mant RefDecimal.scale Nat.add].
  rewrite !fit_zero by lia. cbn [expect mbind outcome_bind].
  unfold RefDecimal.add. cbn [RefDecimal.mant RefDecimal.scale Nat.add].
  change (Z.of_nat 0) with 0. rewrite !Z.pow_0_r, fit_zero by lia. cbn [expect mbind outcome_bind].
  destruct (ref_cost_Some (prompt_tokens usage * 1 * 1 + completion_tokens usage * 2 * 1)) as [c ->]; [lia|].
  cbn. eauto.
Qed.

(** A priced public stream: one chunk with usage, cut in the middle, then
    [DONE]. *)
Definition public_transformer : UsageCostTransformer :=
  with_response_model "acme/chat" (transformer_new stream_prices).

Definition q (s : string) : string := RefJson.quoted s.
Definition usage_event : list byte :=
  bytes_of ("data: {" +:+ q "choices" +:+ ":[]," +:+ q "id" +:+ ":" +:+ q "g" +:+ "," +:+ q "object" +:+ ":"
    +:+ q "chat.completion.chunk" +:+ "," +:+ q "usage" +:+ ":{" +:+ q "completion_tokens" +:+ ":500,"
    +:+ q "prompt_tokens" +:+ ":1000}}") ++ [LF; LF].
Definition done_event : list byte := bytes_of "data: [DONE]" ++ [LF; LF].
Definition sample_chunks : list (list byte) :=
  [take 10 usage_event; drop 10 usage_event; done_event].

Lemma chunking_irrelevant_witness :
  feed public_transformer sample_chunks = transform public_transformer (concat sample_chunks).
Proof. exact (chunking_irrelevant public_transformer sample_chunks eq_refl). Defined.

Definition completed_cost (s : Step) : option (bool * Z) :=
  match s with Done (t, _, Some u) => Some (closed t, RefDecimal.mant (cu_cost_usd u)) | _ => None end.

(** The sample stream is costed: 0.002 dollars. *)
Example sample_costed :
  completed_cost (transform public_transformer (concat sample_chunks)) = Some (true, 20000000).
Proof. vm_reflexivity. Qed.

Definition result_of (s : Step) : UsageCostTransformer * list byte * option CostedUsage :=
  match s with Done r => r | Panic _ => (public_transformer, [], None) end.
(** The sample stream, its last line cut short by the upstream. *)
Definition cut_short : list (list byte) := [usage_event; bytes_of "data: [DONE]" ++ [LF]].
Definition cut_result := result_of (feed public_transformer cut_short).

Lemma cut_Done : feed public_transformer cut_short = Done (cut_result.1.1, cut_result.1.2, cut_result.2).
Proof. vm_reflexivity. Qed.

Lemma public_stream_safe_witness :
  exists events last, cut_result.1.2 ++ (bytes_of "data: [DONE]" ++ [LF]) = concat events ++ last /\
    Forall (public_event "acme/chat") events /\ (last = [] \/ unterminated_done last).
Proof.
  apply (public_stream_safe public_transformer "acme/chat" cut_short cut_result.1.1 _ cut_result.2 _
           (costed_usage cut_result.1.1) eq_refl cut_Done).
  vm_reflexivity.
Defined.

