(* ===== verification/Catalog.v ===== *)
(** [src/src/catalog.rs]: the OpenRouter-shaped model and endpoint catalog of a
    routing profile, built from the enabled registry mappings.  [BTreeMap]s are
    key-ordered association lists; the prices' sums and quotients can overflow,
    so building is a computation that may panic.  The derived JSON encoding of
    the response records is given as the value it denotes. *)

From Stdlib Require Import ZArith.
From S2P Require Import Prelude RustDecimal RoutingProfile Registry Json.

#[local] Open Scope Z_scope.

Definition TOKENS_PER_MILLION : Z := 1000000.

Record CatalogPricing : Type := { prompt : string; completion : string }.

Record CatalogModel : Type := {
  cm_id : string;
  cm_name : string;
  cm_context_length : Z;
  cm_pricing : CatalogPricing
}.

Record CatalogEndpoint : Type := {
  ce_name : string;
  ce_model_id : string;
  ce_model_name : string;
  ce_context_length : Z;
  ce_pricing : CatalogPricing;
  ce_provider_name : string;
  ce_tag : string
}.

Record ModelsResponse : Type := {
  data : list CatalogModel;
  links_next : option string;
  total_count : Z
}.

Record ModelEndpoints : Type := {
  me_id : string;
  me_name : string;
  me_endpoints : list CatalogEndpoint
}.

Record CatalogSnapshot : Type := {
  response : ModelsResponse;
  endpoints_by_slug : list (string * ModelEndpoints)
}.

Definition Catalog : Type := list (RoutingProfile * CatalogSnapshot).

(** A catalog lookup's response: a 200 with the endpoints, or a 404. *)
Inductive EndpointResponse : Type :=
| EndpointsFound (endpoints : ModelEndpoints)
| EndpointsNotFound (code : Z) (message : string).

Section Catalog.
Context {D : RustDecimal}.

Definition per_token_price (price_per_mtok : decimal) : outcome string :=
  dec_div price_per_mtok (dec_of_Z TOKENS_PER_MILLION) ≫= fun price =>
  Done (dec_to_string (dec_normalize price)).

Definition catalog_pricing (m : ModelMapping) : outcome CatalogPricing :=
  per_token_price (input_price_per_mtok m) ≫= fun p =>
  per_token_price (output_price_per_mtok m) ≫= fun c =>
  Done {| prompt := p; completion := c |}.

(** A provider and one of its mappings: [CatalogCandidate] keeps the
    provider's id of it, [EndpointCandidate] the provider. *)
Definition CatalogCandidate : Type := Provider * ModelMapping.

Definition candidate_slug (c : CatalogCandidate) : string := slug c.2.

Definition PriceKey : Type := decimal * decimal * decimal * string.

Definition compare_price_key : PriceKey -> PriceKey -> comparison :=
  then_with (compare_on (fun k => k.1.1.1) dec_cmp)
    (then_with (compare_on (fun k => k.1.1.2) dec_cmp)
      (then_with (compare_on (fun k => k.1.2) dec_cmp) (compare_on snd String.compare))).

Definition price_key (c : CatalogCandidate) : outcome PriceKey :=
  dec_add (input_price_per_mtok c.2) (output_price_per_mtok c.2) ≫= fun combined =>
  Done (combined, input_price_per_mtok c.2, output_price_per_mtok c.2, id c.1).

Definition is_cheaper_than (c current : CatalogCandidate) : outcome bool :=
  price_key c ≫= fun key => price_key current ≫= fun current_key =>
  Done (match compare_price_key key current_key with Lt => true | _ => false end).

Definition into_model (c : CatalogCandidate) : outcome CatalogModel :=
  catalog_pricing c.2 ≫= fun pricing =>
  Done {| cm_id := slug c.2; cm_name := model_name c.2; cm_context_length := context_length c.2;
          cm_pricing := pricing |}.

Definition compare_sort_key : CatalogCandidate -> CatalogCandidate -> comparison :=
  then_with (compare_on (fun c => priority c.1) Z.compare)
    (then_with (compare_on (fun c => id c.1) String.compare)
       (compare_on (fun c => provider_model_id c.2) String.compare)).

Definition into_endpoint (c : CatalogCandidate) : outcome CatalogEndpoint :=
  catalog_pricing c.2 ≫= fun pricing =>
  Done {| ce_name := catalog_display_name c.1 +:+ ": " +:+ model_name c.2;
          ce_model_id := slug c.2; ce_model_name := model_name c.2;
          ce_context_length := context_length c.2; ce_pricing := pricing;
          ce_provider_name := catalog_display_name c.1; ce_tag := catalog_tag c.1 |}.

(** The two maps the loop builds: the cheapest candidate per slug, and every
    candidate per slug. *)
Record CatalogMaps : Type := {
  cheapest_by_slug : list (string * CatalogCandidate);
  candidates_by_slug : list (string * list CatalogCandidate)
}.

(** [entry(slug).and_modify(replace a dearer one).or_insert(candidate)]. *)
Definition insert_cheapest (m : list (string * CatalogCandidate)) (c : CatalogCandidate)
    : outcome (list (string * CatalogCandidate)) :=
  match bt_get String.compare (slug c.2) m with
  | Some current =>
      is_cheaper_than c current ≫= fun cheaper : bool =>
      Done (if cheaper then bt_insert String.compare (slug c.2) c m else m)
  | None => Done (bt_insert String.compare (slug c.2) c m)
  end.

(** [entry(slug).or_default().push(candidate)]. *)
Definition push_candidate (m : list (string * list CatalogCandidate)) (c : CatalogCandidate)
    : list (string * list CatalogCandidate) :=
  bt_insert String.compare (slug c.2) (default [] (bt_get String.compare (slug c.2) m) ++ [c]) m.

Definition add_candidate (maps : CatalogMaps) (c : CatalogCandidate) : outcome CatalogMaps :=
  insert_cheapest (cheapest_by_slug maps) c ≫= fun cheapest =>
  Done {| cheapest_by_slug := cheapest;
          candidates_by_slug := push_candidate (candidates_by_slug maps) c |}.

(** The mappings the loops visit, in order. *)
Definition catalog_candidates (r : Registry) (profile : RoutingProfile) : list CatalogCandidate :=
  filter_b (fun p => enabled p && supports p profile) (providers r) ≫= fun p =>
  (fun m => (p, m)) <$> models p.

Definition model_endpoints (cheapest : list (string * CatalogCandidate))
    (entry : string * list CatalogCandidate) : outcome (string * ModelEndpoints) :=
  expect "every endpoint slug has a catalog candidate" (bt_get String.compare entry.1 cheapest)
    ≫= fun selected =>
  outcome_map into_endpoint (sort_by compare_sort_key entry.2) ≫= fun endpoints =>
  Done (entry.1, {| me_id := entry.1; me_name := model_name selected.2; me_endpoints := endpoints |}).

Definition CatalogSnapshot_from_registry (r : Registry) (profile : RoutingProfile)
    : outcome CatalogSnapshot :=
  outcome_fold add_candidate {| cheapest_by_slug := []; candidates_by_slug := [] |}
    (catalog_candidates r profile) ≫= fun maps =>
  outcome_map into_model (cheapest_by_slug maps).*2 ≫= fun data =>
  outcome_map (model_endpoints (cheapest_by_slug maps)) (candidates_by_slug maps) ≫= fun endpoints =>
  Done {| response := {| data := data; links_next := None; total_count := Z.of_nat (length data) |};
          endpoints_by_slug := endpoints |}.

Definition Catalog_from_registry (r : Registry) : outcome Catalog :=
  outcome_map (fun profile =>
    CatalogSnapshot_from_registry r profile ≫= fun snapshot => Done (profile, snapshot)) ALL.
End Catalog.

Definition snapshot (c : Catalog) (profile : RoutingProfile) : outcome CatalogSnapshot :=
  expect "every routing profile has a catalog snapshot" (bt_get profile_cmp profile c).

Definition snapshot_endpoint_response (s : CatalogSnapshot) (slug : string) : EndpointResponse :=
  match bt_get String.compare slug (endpoints_by_slug s) with
  | Some endpoints => EndpointsFound endpoints
  | None => EndpointsNotFound 404 "Not Found"
  end.

Definition endpoint_response (c : Catalog) (profile : RoutingProfile) (slug : string)
    : outcome EndpointResponse :=
  snapshot c profile ≫= fun s => Done (snapshot_endpoint_response s slug).

Definition get_models (c : Catalog) (profile : RoutingProfile) : outcome ModelsResponse :=
  snapshot c profile ≫= fun s => Done (response s).

Definition get_model_endpoints (c : Catalog) (profile : RoutingProfile) (model : string) :=
  endpoint_response c profile model.

Definition get_model_endpoints_by_author (c : Catalog) (profile : RoutingProfile)
    (author slug : string) :=
  endpoint_response c profile (author +:+ "/" +:+ slug).

(** ** The responses' JSON: the derived encodings, up to the order of fields *)

Definition pricing_value (p : CatalogPricing) : Value :=
  json_object [("prompt", JString (prompt p)); ("completion", JString (completion p))].

Definition json_u64 (n : Z) : Value := Number (pretty n).

Definition catalog_model_value (m : CatalogModel) : Value :=
  json_object [("id", JString (cm_id m)); ("name", JString (cm_name m));
               ("context_length", json_u64 (cm_context_length m)); ("pricing", pricing_value (cm_pricing m))].

Definition catalog_endpoint_value (e : CatalogEndpoint) : Value :=
  json_object [("name", JString (ce_name e)); ("model_id", JString (ce_model_id e));
               ("model_name", JString (ce_model_name e)); ("context_length", json_u64 (ce_context_length e));
               ("pricing", pricing_value (ce_pricing e)); ("provider_name", JString (ce_provider_name e));
               ("tag", JString (ce_tag e))].

Definition models_value (r : ModelsResponse) : Value :=
  json_object [("data", Array (catalog_model_value <$> data r));
               ("links", json_object [("next", match links_next r with Some next => JString next | None => Null end)]);
               ("total_count", json_u64 (total_count r))].

Definition model_endpoints_value (e : ModelEndpoints) : Value :=
  json_object [("data", json_object
    [("id", JString (me_id e)); ("name", JString (me_name e));
     ("endpoints", Array (catalog_endpoint_value <$> me_endpoints e))])].

(** An [EndpointResponse]'s status and body. *)
Definition endpoint_reply (r : EndpointResponse) : Z * Value :=
  match r with
  | EndpointsFound endpoints => (200, model_endpoints_value endpoints)
  | EndpointsNotFound code message =>
      (code, json_object [("error", json_object [("code", json_u64 code); ("message", JString message)])])
  end.

(** ** The maps after the loop *)

Section Facts.
Context {D : RustDecimal}.

#[export] Instance compare_price_key_laws : CmpLaws dec_cmp -> CmpLaws compare_price_key.
Proof.
  intros L. unfold compare_price_key.
  repeat apply then_with_laws; apply compare_on_laws; done || apply string_compare_laws.
Qed.

#[export] Instance compare_sort_key_laws : CmpLaws compare_sort_key.
Proof.
  unfold compare_sort_key. repeat apply then_with_laws; apply compare_on_laws;
    apply Z_compare_laws || apply string_compare_laws.
Qed.

Definition for_slug (s : string) (cs : list CatalogCandidate) : list CatalogCandidate :=
  filter_b (fun c => String.eqb (slug c.2) s) cs.

(** The same candidate, or one that has been compared and is not cheaper. *)
Definition not_cheaper (c' c : CatalogCandidate) : Prop := c' = c \/ is_cheaper_than c' c = Done false.

(** A map entry is the cheapest of the candidates with its slug. *)
Definition cheapest_of (cs : list CatalogCandidate) (s : string) (o : option CatalogCandidate) : Prop :=
  match o with
  | None => for_slug s cs = []
  | Some c => c ∈ for_slug s cs /\ forall c', c' ∈ for_slug s cs -> not_cheaper c' c
  end.

Record maps_of (cs : list CatalogCandidate) (maps : CatalogMaps) : Prop := {
  mo_cheapest s : cheapest_of cs s (bt_get String.compare s (cheapest_by_slug maps));
  mo_candidates s : default [] (bt_get String.compare s (candidates_by_slug maps)) = for_slug s cs;
  mo_no_empty s : bt_get String.compare s (candidates_by_slug maps) <> Some [];
  mo_sorted_c : bt_sorted String.compare (cheapest_by_slug maps);
  mo_sorted_e : bt_sorted String.compare (candidates_by_slug maps)
}.

Lemma for_slug_snoc s cs c :
  for_slug s (cs ++ [c]) = for_slug s cs ++ (if String.eqb (slug c.2) s then [c] else []).
Proof. unfold for_slug. rewrite filter_b_app. cbn. by destruct (String.eqb (slug c.2) s). Qed.

Lemma cheaper_trans {L : CmpLaws dec_cmp} x c c' :
  is_cheaper_than x c = Done true -> not_cheaper c' c -> not_cheaper c' x.
Proof.
  unfold not_cheaper, is_cheaper_than. intros (kx & Ekx & (kc & Ekc & [= Hx])%bind_Done)%bind_Done H. right.
  destruct (compare_price_key kx kc) eqn:Exc; try done. rewrite Ekx. destruct H as [->|H].
  - rewrite Ekc. cbn. by rewrite (cmp_antisym (cmp:=compare_price_key)), Exc.
  - destruct (price_key c') as [k'|]; [|done]. rewrite Ekc in H. cbn in *. injection H as H. f_equal.
    destruct (compare_price_key k' kx) eqn:E; try done.
    by rewrite (cmp_Lt_le compare_price_key k' kx kc E ltac:(congruence)) in H.
Qed.

Lemma insert_cheapest_of {L : CmpLaws dec_cmp} cs m c m' :
  (forall s, cheapest_of cs s (bt_get String.compare s m)) -> insert_cheapest m c = Done m' ->
  forall s, cheapest_of (cs ++ [c]) s (bt_get String.compare s m').
Proof.
  intros H Hi s. specialize (H s) as Hs. unfold insert_cheapest in Hi.
  destruct (decide (slug c.2 = s)) as [<-|Hne].
  - specialize (H (slug c.2)). destruct (bt_get String.compare (slug c.2) m) as [cur|] eqn:E.
    + apply bind_Done in Hi as (cheaper & Hch & Hm'). injection Hm' as <-.
      destruct H as [Hin Hmin]. destruct cheaper.
      * rewrite (bt_get_insert_eq _ string_compare_eq). cbn. rewrite for_slug_snoc, String.eqb_refl.
        split; [apply elem_of_app; right; left|].
        intros c' [Hc'| ->%list_elem_of_singleton]%elem_of_app; [|by left].
        by apply (cheaper_trans c cur); [|apply Hmin].
      * rewrite E. cbn. rewrite for_slug_snoc, String.eqb_refl. split; [apply elem_of_app; by left|].
        intros c' [Hc'| ->%list_elem_of_singleton]%elem_of_app; [by apply Hmin|by right].
    + injection Hi as <-. rewrite (bt_get_insert_eq _ string_compare_eq). cbn in *.
      rewrite for_slug_snoc, String.eqb_refl, H. split; [left|].
      intros c' ->%list_elem_of_singleton. by left.
  - assert (bt_get String.compare s m' = bt_get String.compare s m) as ->.
    { destruct (bt_get String.compare (slug c.2) m).
      - apply bind_Done in Hi as ([|] & _ & [= <-]); [|done]. by apply (bt_get_insert_ne _ string_compare_eq).
      - injection Hi as <-. by apply (bt_get_insert_ne _ string_compare_eq). }
    unfold cheapest_of in *. rewrite for_slug_snoc.
    destruct (String.eqb_spec (slug c.2) s); [done|]. by rewrite app_nil_r.
Qed.

Lemma insert_cheapest_sorted m c m' :
  insert_cheapest m c = Done m' -> bt_sorted String.compare m -> bt_sorted String.compare m'.
Proof.
  unfold insert_cheapest. destruct (bt_get _ _ m).
  - intros ([|] & _ & [= <-])%bind_Done; [|done]. by apply (bt_insert_sorted _ string_compare_eq).
  - intros [= <-]. by apply (bt_insert_sorted _ string_compare_eq).
Qed.

Lemma add_candidate_maps {L : CmpLaws dec_cmp} cs maps c maps' :
  maps_of cs maps -> add_candidate maps c = Done maps' -> maps_of (cs ++ [c]) maps'.
Proof.
  intros [Hc He Hne Hsc Hse] (m' & Hi & [= <-])%bind_Done. split; cbn.
  - by eapply insert_cheapest_of.
  - intros s. rewrite for_slug_snoc. unfold push_candidate.
    destruct (String.eqb_spec (slug c.2) s) as [<-|Hn].
    + rewrite (bt_get_insert_eq _ string_compare_eq). cbn. by rewrite <- He.
    + rewrite (bt_get_insert_ne _ string_compare_eq), app_nil_r by done. apply He.
  - intros s. unfold push_candidate. destruct (decide (slug c.2 = s)) as [<-|Hn].
    + rewrite (bt_get_insert_eq _ string_compare_eq). intros [= E]. by apply app_nil in E as [_ ?].
    + rewrite (bt_get_insert_ne _ string_compare_eq) by done. apply Hne.
  - by eapply insert_cheapest_sorted.
  - by apply (bt_insert_sorted _ string_compare_eq).
Qed.

Lemma fold_maps {L : CmpLaws dec_cmp} cs cs' maps maps' :
  maps_of cs maps -> outcome_fold add_candidate maps cs' = Done maps' -> maps_of (cs ++ cs') maps'.
Proof.
  revert cs maps. induction cs' as [|c cs' IH]; intros cs maps Hm; cbn.
  - intros [= <-]. by rewrite app_nil_r.
  - intros (m1 & Ha & Hr)%bind_Done. rewrite (cons_middle c cs cs').
    replace (cs ++ [c] ++ cs') with ((cs ++ [c]) ++ cs') by by rewrite <- app_assoc.
    eapply IH; [by eapply add_candidate_maps|done].
Qed.

Lemma maps_of_nil : maps_of [] {| cheapest_by_slug := []; candidates_by_slug := [] |}.
Proof. split; try done; constructor. Qed.

Lemma elem_of_candidates r profile p m :
  (p, m) ∈ catalog_candidates r profile <->
  p ∈ providers r /\ enabled p = true /\ profile ∈ profiles p /\ m ∈ models p.
Proof.
  unfold catalog_candidates. rewrite list_elem_of_bind. split.
  - intros (q & (x & [= -> ->] & Hm)%list_elem_of_fmap & [He Hq]%elem_of_filter_b).
    apply andb_true_iff in He as [? Hs]. unfold supports in Hs. apply bool_decide_eq_true in Hs. done.
  - intros (Hp & He & Hs & Hm). exists p. split; [by apply list_elem_of_fmap_2|].
    apply elem_of_filter_b. split; [|done]. unfold supports. by rewrite He, bool_decide_eq_true_2.
Qed.
End Facts.
