(* ===== verification/CatalogProps.v ===== *)
(** The properties of the model catalog ([catalog.rs]): what it lists is what
    routing can serve, at the cheapest price, with every endpoint. *)

From Stdlib Require Import QArith ZArith Sorted.
From S2P Require Import Prelude RustDecimal RoutingProfile Registry Catalog.
From S2P Require Import Json Preference Measurements Share Select SelectSpec Config Routing RoutingSpec.
From S2P Require Import Fixtures.

#[local] Open Scope Z_scope.

Section Props.
Context {D : RustDecimal}.

Lemma snapshot_maps {L : CmpLaws dec_cmp} r profile s :
  CatalogSnapshot_from_registry r profile = Done s ->
  exists maps, maps_of (catalog_candidates r profile) maps /\
    Forall2 (fun e m => into_model e.2 = Done m) (cheapest_by_slug maps) (data (response s)) /\
    outcome_map (model_endpoints (cheapest_by_slug maps)) (candidates_by_slug maps)
      = Done (endpoints_by_slug s) /\
    links_next (response s) = None /\ total_count (response s) = Z.of_nat (length (data (response s))).
Proof.
  unfold CatalogSnapshot_from_registry.
  intros (maps & Hm & (d & Hd & (e & He & [= <-])%bind_Done)%bind_Done)%bind_Done.
  exists maps. split_and!; try done.
  - by apply (fold_maps [] _ _ _ maps_of_nil).
  - apply outcome_map_Done in Hd. cbn. by apply Forall2_fmap_l in Hd.
Qed.

Lemma cheapest_entry {L : CmpLaws dec_cmp} cs maps s c :
  maps_of cs maps -> (s, c) ∈ cheapest_by_slug maps ->
  c ∈ cs /\ slug c.2 = s /\
  forall c', c' ∈ cs -> slug c'.2 = s -> not_cheaper c' c.
Proof.
  intros Hm H0.
  assert (bt_get String.compare s (cheapest_by_slug maps) = Some c) as Hin
    by (apply (bt_elem_get String.compare); [apply Hm|done]).
  pose proof (mo_cheapest _ _ Hm s) as H. rewrite Hin in H. destruct H as [Hc Hmin].
  apply elem_of_filter_b in Hc as [Hs%String.eqb_eq Hc]. split_and!; [done..|].
  intros c' Hc' Hs'. apply Hmin, elem_of_filter_b. by rewrite String.eqb_eq.
Qed.

Lemma cheapest_get {L : CmpLaws dec_cmp} cs maps c :
  maps_of cs maps -> c ∈ cs -> exists c', bt_get String.compare (slug c.2) (cheapest_by_slug maps) = Some c'.
Proof.
  intros Hm Hc. pose proof (mo_cheapest _ _ Hm (slug c.2)) as H.
  destruct (bt_get _ _ _) as [c'|]; [eauto|]. cbn in H. exfalso.
  assert (c ∈ for_slug (slug c.2) cs) as Hin by (apply elem_of_filter_b; by rewrite String.eqb_refl).
  rewrite H in Hin. inversion Hin.
Qed.

Lemma listed_sorted {L : CmpLaws dec_cmp} cs maps models :
  maps_of cs maps -> Forall2 (fun e m => into_model e.2 = Done m) (cheapest_by_slug maps) models ->
  StronglySorted (fun a b => String.compare (cm_id a) (cm_id b) = Lt) models.
Proof.
  intros Hm Hd.
  assert (forall e cm, into_model e = Done cm -> cm_id cm = slug e.2) as Hid.
  { unfold into_model. by intros e cm (pr & _ & [= <-])%bind_Done. }
  pose proof (mo_sorted_c _ _ Hm) as Hs. unfold bt_sorted in Hs.
  assert (forall e : string * CatalogCandidate, e ∈ cheapest_by_slug maps -> slug (snd (snd e)) = fst e) as Hk.
  { intros [k c] Hin. by apply (cheapest_entry _ _ _ _ Hm) in Hin as (_ & ? & _). }
  clear Hm. induction Hd as [|e cm es cms Hcm Hd IH]; [constructor|].
  apply StronglySorted_inv in Hs as [Hs Hall]. constructor.
  - apply IH; [done|]. intros x Hx. apply Hk. by right.
  - apply Forall_forall. intros b Hb. apply list_elem_of_lookup in Hb as [i Hi].
    apply (Forall2_lookup_r _ _ _ _ _ Hd) in Hi as (x & Hx & Hb). apply list_elem_of_lookup_2 in Hx.
    rewrite Forall_forall in Hall. cbv beta in Hcm, Hb.
    rewrite (Hid _ _ Hcm), (Hid _ _ Hb), (Hk e), (Hk x); [|by right|left]. by apply Hall.
Qed.

(** [m] is a mapping of an enabled provider of the profile. *)
Definition mapped (r : Registry) (profile : RoutingProfile) (p : Provider) (m : ModelMapping) : Prop :=
  p ∈ providers r /\ enabled p = true /\ profile ∈ profiles p /\ m ∈ models p.

Lemma mapped_candidates r profile p m : mapped r profile p m <-> (p, m) ∈ catalog_candidates r profile.
Proof.
  unfold mapped, catalog_candidates, supports. rewrite list_elem_of_bind. split.
  - intros (Hp & He & Hs & Hm). exists p. split; [by apply list_elem_of_fmap_2|].
    apply elem_of_filter_b. by rewrite He, bool_decide_eq_true_2.
  - intros (q & (m' & [= <- <-] & Hm)%list_elem_of_fmap & [[He Hs]%andb_true_iff Hp]%elem_of_filter_b).
    by apply bool_decide_eq_true in Hs.
Qed.

Section Listed.
Context (val : decimal -> Q) {L : DecimalLaws val}.

(** A price per million tokens, printed per token. *)
Definition per_token (price : decimal) (text : string) : Prop :=
  exists q, dec_checked_div price (dec_of_Z 1000000) = Some q /\ text = dec_to_string (dec_normalize q) /\
    (representable (val price / inject_Z 1000000) -> (val q == val price / inject_Z 1000000)%Q).

Lemma per_token_price_spec price text : per_token_price price = Done text -> per_token price text.
Proof.
  unfold per_token_price, dec_div. intros (q & Hq%expect_Done & [= <-])%bind_Done. exists q. split_and!; [done..|].
  assert (val (dec_of_Z 1000000) == inject_Z 1000000)%Q as E by (apply law_of_Z; vm_compute; split; discriminate).
  intros Hr. destruct (law_div_exact price (dec_of_Z 1000000)) as (c & Hc & Hv).
  - by rewrite E.
  - eapply representable_compat; [|exact Hr]. by rewrite E.
  - unfold TOKENS_PER_MILLION in Hq. rewrite Hq in Hc. injection Hc as <-. by rewrite Hv, E.
Qed.

(** The catalog's model of a mapping. *)
Definition lists (m : ModelMapping) (cm : CatalogModel) : Prop :=
  cm_id cm = slug m /\ cm_name cm = model_name m /\ cm_context_length cm = context_length m /\
  per_token (input_price_per_mtok m) (prompt (cm_pricing cm)) /\
  per_token (output_price_per_mtok m) (completion (cm_pricing cm)).

Lemma into_model_lists e cm : into_model e = Done cm -> lists e.2 cm.
Proof.
  unfold into_model, catalog_pricing, lists.
  intros (pr & (pi & Hi & (po & Ho & [= <-])%bind_Done)%bind_Done & [= <-])%bind_Done. cbn.
  split_and!; [done..|by apply per_token_price_spec|by apply per_token_price_spec].
Qed.

(** [c] comes no later than [c'] by the sum of its prices, then its input price,
    then its output price, then its provider's id. *)
Definition no_dearer (c c' : Provider * ModelMapping) : Prop :=
  exists sum sum',
    dec_checked_add (input_price_per_mtok c.2) (output_price_per_mtok c.2) = Some sum /\
    dec_checked_add (input_price_per_mtok c'.2) (output_price_per_mtok c'.2) = Some sum' /\
    ((val sum < val sum')%Q \/ (val sum == val sum')%Q /\
     ((val (input_price_per_mtok c.2) < val (input_price_per_mtok c'.2))%Q \/
      (val (input_price_per_mtok c.2) == val (input_price_per_mtok c'.2))%Q /\
      ((val (output_price_per_mtok c.2) < val (output_price_per_mtok c'.2))%Q \/
       (val (output_price_per_mtok c.2) == val (output_price_per_mtok c'.2))%Q /\
       String.compare (id c.1) (id c'.1) <> Gt))).

Lemma not_cheaper_spec c c' : not_cheaper c' c -> c' = c \/ no_dearer c c'.
Proof.
  intros [->|H]; [by left|right]. unfold is_cheaper_than, price_key, dec_add in H.
  apply bind_Done in H as (k' & (sum' & Hs'%expect_Done & [= <-])%bind_Done & H).
  apply bind_Done in H as (k & (sum & Hs%expect_Done & [= <-])%bind_Done & [= H]).
  exists sum, sum'. split_and!; [done..|]. revert H.
  unfold compare_price_key, then_with, compare_on. cbn [fst snd]. rewrite !(law_cmp (val := val)).
  destruct (Qcompare_spec (val sum') (val sum)) as [E1|E1|E1]; [|done|by left]. intros H. right.
  split; [by symmetry|]. revert H.
  destruct (Qcompare_spec (val (input_price_per_mtok c'.2)) (val (input_price_per_mtok c.2))) as [E2|E2|E2];
    [|done|by left]. intros H. right. split; [by symmetry|]. revert H.
  destruct (Qcompare_spec (val (output_price_per_mtok c'.2)) (val (output_price_per_mtok c.2))) as [E3|E3|E3];
    [|done|by left]. intros H. right. split; [by symmetry|].
  rewrite (cmp_antisym (cmp:=String.compare)). by destruct (String.compare (id c'.1) (id c.1)).
Qed.
End Listed.

(** C31: A profile's model list has exactly one entry per slug that an enabled
    provider of the profile maps, in strictly ascending slug order; its count is
    its length.  An entry is that of a mapping [m] of its slug: it has [m]'s name
    and context length, and [m]'s input and output price divided by a million
    (exactly, when that is a decimal) as its prompt and completion price; and
    no other mapping of the slug comes before [m] by the sum of the two prices,
    then the input price, then the output price, then the provider's id. *)
Theorem catalog_lists_cheapest (val : decimal -> Q) {L : DecimalLaws val} r profile s :
  CatalogSnapshot_from_registry r profile = Done s ->
  total_count (response s) = Z.of_nat (length (data (response s))) /\
  StronglySorted (fun a b => String.compare (cm_id a) (cm_id b) = Lt) (data (response s)) /\
  (forall p m, mapped r profile p m -> exists cm, cm ∈ data (response s) /\ cm_id cm = slug m) /\
  (forall cm, cm ∈ data (response s) ->
     exists p m, mapped r profile p m /\ lists val m cm /\
       forall p' m', mapped r profile p' m' -> slug m' = slug m ->
         (p', m') = (p, m) \/ no_dearer val (p, m) (p', m')).
Proof.
  pose proof (dec_cmp_laws val) as Lc.
  intros (maps & Hm & Hd & _ & _ & Ht)%snapshot_maps.
  assert (forall e cm, into_model e = Done cm -> cm_id cm = slug e.2) as Hid
    by (intros e cm H; by apply (into_model_lists val) in H as [? _]).
  split; [done|]. split; [|split].
  - by eapply listed_sorted.
  - intros p m Hin%mapped_candidates. destruct (cheapest_get _ _ (p, m) Hm Hin) as [c' Hc'].
    apply (bt_get_elem String.compare string_compare_eq) in Hc' as He.
    pose proof (cheapest_entry _ _ _ _ Hm He) as (_ & Hslug & _).
    apply list_elem_of_lookup in He as [i Hi].
    apply (Forall2_lookup_l _ _ _ _ _ Hd) in Hi as (cm & Hcm & Hmod).
    exists cm. split; [by eapply list_elem_of_lookup_2|]. by rewrite (Hid _ _ Hmod).
  - intros cm Hin. apply list_elem_of_lookup in Hin as [i Hi].
    apply (Forall2_lookup_r _ _ _ _ _ Hd) in Hi as ([k [p m]] & Hx & Hmod).
    apply list_elem_of_lookup_2, (cheapest_entry _ _ _ _ Hm) in Hx as (Hc & Hs & Hmin).
    exists p, m. split; [by apply mapped_candidates|]. split; [by apply (into_model_lists val) in Hmod|].
    intros p' m' Hc'%mapped_candidates Hs'. apply not_cheaper_spec, Hmin; [done|done|]. cbn in *. congruence.
Qed.

Lemma bt_get_outcome_map {A B} (f : string * A -> outcome (string * B)) l l' k :
  (forall e e', f e = Done e' -> e'.1 = e.1) -> outcome_map f l = Done l' ->
  match bt_get String.compare k l with
  | Some x => exists v, f (k, x) = Done (k, v) /\ bt_get String.compare k l' = Some v
  | None => bt_get String.compare k l' = None
  end.
Proof.
  intros Hf. revert l'. induction l as [|[j x] l IH]; intros l'; cbn; [by intros [= <-]|].
  intros ([j' v] & Hv & (ys & Hys & [= <-])%bind_Done)%bind_Done.
  pose proof (Hf _ _ Hv) as Hj. cbn in Hj. subst j'. cbn.
  destruct (String.compare k j) eqn:E; [|by apply IH..].
  apply string_compare_eq in E as ->. eauto.
Qed.

(** The endpoint list of a slug is a 404 exactly when no enabled provider
    of the profile maps it; otherwise it has one endpoint per such mapping,
    rendered with the public alias where there is one, ordered by priority,
    provider id and provider model id. *)
Theorem catalog_endpoints {L : CmpLaws dec_cmp} r profile s sl :
  CatalogSnapshot_from_registry r profile = Done s ->
  match snapshot_endpoint_response s sl with
  | EndpointsNotFound code _ =>
      code = 404 /\ forall p m, (p, m) ∈ catalog_candidates r profile -> slug m <> sl
  | EndpointsFound e =>
      me_id e = sl /\
      exists cs, cs ≡ₚ for_slug sl (catalog_candidates r profile) /\ cs <> [] /\
        StronglySorted (fun a b => compare_sort_key a b <> Gt) cs /\
        Forall2 (fun c ep => into_endpoint c = Done ep) cs (me_endpoints e)
  end.
Proof.
  intros (maps & Hm & _ & He & _)%snapshot_maps. unfold snapshot_endpoint_response.
  assert (forall e e', model_endpoints (cheapest_by_slug maps) e = Done e' -> e'.1 = e.1) as Hkey.
  { unfold model_endpoints. by intros e e' (c & _ & (es & _ & [= <-])%bind_Done)%bind_Done. }
  pose proof (bt_get_outcome_map _ _ _ sl Hkey He) as Hget.
  pose proof (mo_candidates _ _ Hm sl) as Hc. pose proof (mo_no_empty _ _ Hm sl) as Hne.
  destruct (bt_get String.compare sl (candidates_by_slug maps)) as [cs|].
  - destruct Hget as (v & Hv & ->). cbn in Hc. subst cs. unfold model_endpoints in Hv. cbn in Hv.
    apply bind_Done in Hv as (sel & _ & (es & Hes & [= <-])%bind_Done). cbn. split; [done|].
    exists (sort_by compare_sort_key (for_slug sl (catalog_candidates r profile))).
    split_and!; [apply sort_by_perm| |apply sort_by_sorted; apply compare_sort_key_laws|by apply outcome_map_Done].
    intros E. pose proof (sort_by_perm compare_sort_key (for_slug sl (catalog_candidates r profile))) as Hp.
    rewrite E in Hp. apply Permutation_nil_l in Hp. by rewrite Hp in Hne.
  - rewrite Hget. split; [done|]. intros p m Hin Hs. cbn in Hc.
    assert ((p, m) ∈ for_slug sl (catalog_candidates r profile)) as Hin'
      by (apply elem_of_filter_b; split; [by apply String.eqb_eq|done]).
    rewrite <- Hc in Hin'. inversion Hin'.
Qed.

Context {R : RandCrate}.

(** C32: The catalog and the router agree: for every profile, a slug is listed
    by the catalog exactly when the routing table has routes for it, so every
    listed model can be requested and every routable model is listed. *)
Theorem catalog_agrees_with_routing {L : CmpLaws dec_cmp} r cfg g policy state profile s sl :
  from_registry_with_rng r cfg g = Ok (policy, state) ->
  CatalogSnapshot_from_registry r profile = Done s ->
  (exists cm, cm ∈ data (response s) /\ cm_id cm = sl) <-> is_Some (routes policy !! (profile, sl)).
Proof.
  intros Hr (maps & Hm & Hd & _)%snapshot_maps.
  destruct (from_registry_lookup _ _ _ _ _ (profile, sl) Hr) as [E _]. unfold RouteKey in *. rewrite E. clear E.
  assert (is_Some (sort_by compare_descriptor <$> non_empty (registry_routes r (profile, sl))) <->
          exists p m, (p, m) ∈ catalog_candidates r profile /\ slug m = sl) as ->.
  { split.
    - intros [x Hx]. destruct (registry_routes r (profile, sl)) as [|d ds] eqn:E; [done|].
      assert (d ∈ registry_routes r (profile, sl)) as Hin by (rewrite E; left).
      apply elem_of_registry_routes in Hin as (p & m & ? & ? & ? & ? & ? & _).
      exists p, m. split; [by apply elem_of_candidates|done].
    - intros (p & m & (? & ? & ? & ?)%elem_of_candidates & Hs).
      assert (descriptor p m ∈ registry_routes r (profile, sl)) as Hin
        by (apply elem_of_registry_routes; exists p, m; split_and!; done).
      destruct (registry_routes r (profile, sl)); [inversion Hin|]. cbn. eauto. }
  split.
  - intros (cm & Hin & <-). apply list_elem_of_lookup in Hin as [i Hi].
    apply (Forall2_lookup_r _ _ _ _ _ Hd) in Hi as ([k [p m]] & Hx & Hmod).
    apply list_elem_of_lookup_2, (cheapest_entry _ _ _ _ Hm) in Hx as (Hc & Hs & _).
    exists p, m. split; [done|]. unfold into_model in Hmod. by apply bind_Done in Hmod as (pr & _ & [= <-]).
  - intros (p & m & Hin & <-). destruct (cheapest_get _ _ (p, m) Hm Hin) as [c' Hc'].
    apply (bt_get_elem String.compare string_compare_eq) in Hc'.
    pose proof (cheapest_entry _ _ _ _ Hm Hc') as (_ & Hs & _).
    apply list_elem_of_lookup in Hc' as [i Hi].
    apply (Forall2_lookup_l _ _ _ _ _ Hd) in Hi as (cm & Hcm & Hmod).
    exists cm. split; [by eapply list_elem_of_lookup_2|].
    unfold into_model in Hmod. apply bind_Done in Hmod as (pr & _ & [= <-]). done.
Qed.
End Props.

(** ** Witnesses *)

Definition sample_snapshot : CatalogSnapshot :=
  match CatalogSnapshot_from_registry two_providers Production with
  | Done s => s
  | Panic _ => {| response := {| data := []; links_next := None; total_count := 0 |}; endpoints_by_slug := [] |}
  end.

Lemma sample_snapshot_Done : CatalogSnapshot_from_registry two_providers Production = Done sample_snapshot.
Proof. vm_reflexivity. Qed.

Lemma catalog_lists_cheapest_witness :
  exists cm, cm ∈ data (response sample_snapshot) /\
    exists p m, mapped two_providers Production p m /\ lists RefDecimal.val m cm /\
      forall p' m', mapped two_providers Production p' m' -> slug m' = slug m ->
        (p', m') = (p, m) \/ no_dearer RefDecimal.val (p, m) (p', m').
Proof.
  destruct (catalog_lists_cheapest (D := RefDecimal.decimal) RefDecimal.val two_providers Production _
              sample_snapshot_Done) as (_ & _ & Hall & Hin).
  destruct (Hall alpha (chat_model (dec 1 0) (dec 2 0))) as (cm & Hcm & _).
  - split; [left|]. split; [reflexivity|]. split; [|left]. apply elem_of_singleton. reflexivity.
  - exists cm. split; [exact Hcm|exact (Hin cm Hcm)].
Defined.

Lemma catalog_endpoints_witness :
  match snapshot_endpoint_response sample_snapshot "acme/none" with
  | EndpointsNotFound code _ => code = 404
  | EndpointsFound e => me_id e = "acme/none"
  end.
Proof.
  pose proof (catalog_endpoints (L := dec_cmp_laws (D := RefDecimal.decimal) RefDecimal.val)
    two_providers Production _ "acme/none" sample_snapshot_Done) as H.
  destruct (snapshot_endpoint_response sample_snapshot "acme/none") as [e|code msg]; exact (proj1 H).
Defined.

Lemma catalog_agrees_with_routing_witness :
  (exists cm, cm ∈ data (response sample_snapshot) /\ cm_id cm = "acme/cached") <->
  is_Some (routes policy2 !! (Production, "acme/cached")).
Proof.
  exact (catalog_agrees_with_routing (L := dec_cmp_laws (D := RefDecimal.decimal) RefDecimal.val)
    _ _ _ _ _ Production _ "acme/cached" policy2_Ok sample_snapshot_Done).
Defined.
