(* ===== verification/UpstreamCatalog.v ===== *)
(** [src/src/upstream_catalog.rs]: the upstream catalog's models as registry
    mappings, and their merge into a provider.  The HTTP request and the JSON
    decoding of its body are the environment's: a parameter gives the status
    and the decoded models of a URL. *)

From Stdlib Require Import QArith ZArith.
From S2P Require Import Prelude RustDecimal RoutingProfile Registry Pricing.

#[local] Open Scope Z_scope.

Definition TOKENS_PER_MILLION : Z := 1000000.

Record UpstreamPricing : Type := {
  up_prompt : option string;
  up_completion : option string;
  up_input_cache_read : option string
}.

Record UpstreamModel : Type := {
  um_id : string;
  um_name : option string;
  um_context_length : option Z;
  um_pricing : option UpstreamPricing
}.

Inductive UpstreamCatalogError : Type :=
| RequestError (url : string)
| StatusError (url : string) (status : Z)
| DecodeError (url : string).

(** What a GET of a URL gives: a status and the body's decoding. *)
Record HttpReply : Type := { hr_status : Z; hr_decoded : option (list UpstreamModel) }.

Record HydrationOutcome : Type := { added : Z; explicit_retained : Z }.

Definition hydration_default : HydrationOutcome := {| added := 0; explicit_retained := 0 |}.

Section Upstream.
Context {D : RustDecimal}.

Record UpstreamCatalog : Type := { mappings : list ModelMapping; advertised : Z }.

(** [price_per_token?.trim().parse().ok()?], not negative, per million. *)
Definition price_per_mtok (price_per_token : option string) : option decimal :=
  price_per_token ≫= fun text =>
  dec_from_str (trim text) ≫= fun parsed =>
  if dec_is_sign_negative parsed then None
  else dec_checked_mul parsed (dec_of_Z TOKENS_PER_MILLION).

(** [Option::filter]. *)
Definition option_filter {A} (p : A -> bool) (o : option A) : option A :=
  o ≫= fun a => if p a then Some a else None.

Definition mapping_from_model (model : UpstreamModel) : option ModelMapping :=
  um_pricing model ≫= fun pricing =>
  price_per_mtok (up_prompt pricing) ≫= fun input =>
  price_per_mtok (up_completion pricing) ≫= fun output =>
  let cached := price_per_mtok (up_input_cache_read pricing) in
  option_filter (fun length => 0 <? length) (um_context_length model) ≫= fun context_length =>
  let name := default (um_id model)
                (option_filter (fun n => negb (str_is_empty (trim n))) (um_name model)) in
  Some {| slug := um_id model; model_name := name; context_length := context_length;
          provider_model_id := um_id model; input_price_per_mtok := input;
          cached_input_price_per_mtok := cached; output_price_per_mtok := output;
          request_constraints := default_request_constraints |}.

Definition mappings_from_catalog (models : list UpstreamModel) : UpstreamCatalog :=
  {| mappings := omap mapping_from_model models; advertised := Z.of_nat (length models) |}.

(** [http_get url] is [None] when the client cannot be built or the request
    fails or takes longer than thirty seconds. *)
Definition fetch_catalog (http_get : string -> option HttpReply) (url : string)
    : result UpstreamCatalogError UpstreamCatalog :=
  ok_or (RequestError url) (http_get url) ≫= fun response =>
  if negb ((200 <=? hr_status response) && (hr_status response <? 300))
  then Err (StatusError url (hr_status response))
  else ok_or (DecodeError url) (hr_decoded response) ≫= fun data =>
       Ok (mappings_from_catalog data).

Definition set_models (p : Provider) (ms : list ModelMapping) : Provider :=
  {| id := id p; display_name := display_name p; public_display_name := public_display_name p;
     public_tag := public_tag p; base_url := base_url p; secret_env := secret_env p;
     enabled := enabled p; priority := priority p; catalog_url := catalog_url p;
     profiles := profiles p; models := ms |}.

(** The explicit slugs are those listed before the loop starts. *)
Definition explicit_slugs (p : Provider) : gset string := list_to_set (slug <$> models p).

(** The loop over the upstream mappings: the models and the count so far. *)
Definition add_upstream (explicit : gset string) (acc : list ModelMapping * Z) (m : ModelMapping)
    : list ModelMapping * Z :=
  if bool_decide (slug m ∈ explicit) then acc else (acc.1 ++ [m], acc.2 + 1).

Fixpoint hydrate_first (provider_id : string) (upstream : list ModelMapping) (ps : list Provider)
    : list Provider * HydrationOutcome :=
  match ps with
  | [] => ([], hydration_default)
  | p :: ps' =>
      if String.eqb (id p) provider_id then
        let explicit := explicit_slugs p in
        let '(ms, added) := foldl (add_upstream explicit) (models p, 0) upstream in
        (set_models p ms :: ps',
         {| added := added; explicit_retained := Z.of_nat (size explicit) |})
      else
        let '(ps', outcome) := hydrate_first provider_id upstream ps' in (p :: ps', outcome)
  end.

(** [hydrate_provider] extends the first provider with the id, in place. *)
Definition hydrate_provider (r : Registry) (provider_id : string) (upstream : list ModelMapping)
    : Registry * HydrationOutcome :=
  let '(ps, outcome) := hydrate_first provider_id upstream (providers r) in
  ({| providers := ps |}, outcome).

(** ** Lemmas *)

(** The upstream mappings a provider takes over. *)
Definition taken (p : Provider) (upstream : list ModelMapping) : list ModelMapping :=
  filter_b (fun m => negb (bool_decide (slug m ∈ explicit_slugs p))) upstream.

Lemma add_upstream_fold explicit upstream ms n :
  foldl (add_upstream explicit) (ms, n) upstream =
  (ms ++ filter_b (fun m => negb (bool_decide (slug m ∈ explicit))) upstream,
   n + Z.of_nat (length (filter_b (fun m => negb (bool_decide (slug m ∈ explicit))) upstream))).
Proof.
  revert ms n. induction upstream as [|m up IH]; intros ms n; cbn.
  - by rewrite app_nil_r, Z.add_0_r.
  - unfold add_upstream at 2. destruct (bool_decide (slug m ∈ explicit)); cbn [negb fst snd].
    + apply IH.
    + rewrite IH, <- app_assoc. cbn [app length]. f_equal. lia.
Qed.

Definition hydrated (p : Provider) (upstream : list ModelMapping) : Provider :=
  set_models p (models p ++ taken p upstream).

Lemma hydrate_first_spec pid upstream ps :
  NoDup (id <$> ps) ->
  (hydrate_first pid upstream ps).1 =
  (fun p => if String.eqb (id p) pid then hydrated p upstream else p) <$> ps.
Proof.
  induction ps as [|p ps IH]; cbn; [done|]. intros [Hp Hnd]%NoDup_cons.
  destruct (String.eqb_spec (id p) pid) as [<-|Hne].
  - rewrite add_upstream_fold. cbn. f_equal.
    assert (Forall (fun q => id q <> id p) ps) as Hall.
    { apply Forall_forall. intros q Hq E. apply Hp. rewrite <- E. by apply list_elem_of_fmap_2. }
    clear -Hall. induction Hall as [|q ps Hq _ IH]; [done|]. cbn.
    destruct (String.eqb_spec (id q) (id p)); [done|]. by rewrite <- IH.
  - specialize (IH Hnd). destruct (hydrate_first pid upstream ps) as [ps' o]. cbn in *. by rewrite IH.
Qed.

Lemma taken_spec p upstream m : m ∈ taken p upstream <-> m ∈ upstream /\ slug m ∉ slug <$> models p.
Proof.
  unfold taken, explicit_slugs. rewrite elem_of_filter_b, negb_true_iff, bool_decide_eq_false.
  rewrite elem_of_list_to_set. tauto.
Qed.

Lemma hydrated_slugs p upstream :
  NoDup (slug <$> models p) -> NoDup (slug <$> upstream) -> NoDup (slug <$> models (hydrated p upstream)).
Proof.
  intros H1 H2. cbn. rewrite fmap_app. apply NoDup_app. split_and!; [done| |].
  - intros s Hs (m & -> & Hm)%list_elem_of_fmap. apply taken_spec in Hm as [_ Hm]. done.
  - eapply sublist_NoDup; [exact H2|]. apply sublist_fmap, filter_b_sublist.
Qed.
End Upstream.
