(* ===== verification/UpstreamProps.v ===== *)
(** The properties of the upstream coverage ([upstream_catalog.rs]): what
    hydration adds, and exactly when the hydrated registry is still accepted
    by the price table the service starts with. *)

From Stdlib Require Import QArith ZArith Lqa.
From S2P Require Import Prelude RustDecimal RoutingProfile Registry Pricing UpstreamCatalog Fixtures.

#[local] Open Scope Z_scope.

(** Documented signs of decimals: a value whose sign is not negative is not
    below zero, and a product of such values is not either. *)
Class DecimalSigns {D : RustDecimal} (val : decimal -> Q) : Prop := {
  law_sign a : dec_is_sign_negative a = false -> (0 <= val a)%Q;
  law_mul_nonneg a b c : (0 <= val a)%Q -> (0 <= val b)%Q -> dec_checked_mul a b = Some c -> (0 <= val c)%Q
}.

Lemma fit_nonneg m s c : 0 <= m -> RefDecimal.fit m s = Some c -> 0 <= RefDecimal.mant c.
Proof.
  revert m. induction s as [|s IH]; intros m Hm; cbn [RefDecimal.fit].
  - destruct (_ && _); [by intros [= <-]|done].
  - destruct (_ && _); [by intros [= <-]|]. apply IH.
    unfold div_away. apply Z.mul_nonneg_nonneg; [by apply Z.sgn_nonneg|].
    apply Z.div_pos; lia.
Qed.

Lemma val_nonneg a : (0 <= RefDecimal.val a)%Q <-> 0 <= RefDecimal.mant a.
Proof. unfold RefDecimal.val, Qle. cbn. lia. Qed.

#[global] Instance ref_signs : DecimalSigns (D := RefDecimal.decimal) RefDecimal.val.
Proof.
  split.
  - intros a H%Z.ltb_ge. by apply val_nonneg.
  - intros a b c Ha%val_nonneg Hb%val_nonneg H. apply val_nonneg.
    eapply fit_nonneg; [|exact H]. by apply Z.mul_nonneg_nonneg.
Qed.

Section Props.
Context {D : RustDecimal} (val : decimal -> Q) {L : DecimalLaws val} {N : DecimalSigns val}.

Lemma price_per_mtok_nonneg text c : price_per_mtok text = Some c -> dec_lt c dec_zero = false.
Proof.
  unfold price_per_mtok. destruct text as [text|]; cbn; [|done].
  destruct (dec_from_str (trim text)) as [d|]; cbn; [|done].
  destruct (dec_is_sign_negative d) eqn:E; [done|]. intros H.
  apply (dec_negative_false val). eapply law_mul_nonneg; [by apply law_sign| |exact H].
  rewrite law_of_Z by (unfold TOKENS_PER_MILLION, u64_max; lia). discriminate.
Qed.

(** A mapping made from an upstream model. *)
Lemma mapping_from_model_spec model m :
  mapping_from_model model = Some m ->
  slug m = um_id model /\ (mapping_ok m <-> blank (model_name m) = false) /\
  (forall s, s ∈ price_sides m -> dec_lt s.2 dec_zero = false).
Proof.
  unfold mapping_from_model. destruct (um_pricing model) as [pr|]; cbn; [|done].
  destruct (price_per_mtok (up_prompt pr)) as [i|] eqn:Ei; cbn; [|done].
  destruct (price_per_mtok (up_completion pr)) as [o|] eqn:Eo; cbn; [|done].
  unfold option_filter at 1. destruct (um_context_length model) as [n|]; cbn; [|done].
  destruct (Z.ltb_spec 0 n); cbn; [|done]. intros [= <-]. split; [done|]. split.
  - unfold mapping_ok. cbn. split; [by intros [? _]|]. intros Hb. split_and!; [done|lia| |done].
    unfold default_completion_endpoints. set_solver.
  - unfold price_sides. cbn. intros s [->|Hs]%elem_of_cons; [by eapply price_per_mtok_nonneg|].
    destruct (price_per_mtok (up_input_cache_read pr)) as [c|] eqn:Ec; cbn in Hs.
    + apply elem_of_cons in Hs as [->|Hs]; [|apply list_elem_of_singleton in Hs as ->]; by eapply price_per_mtok_nonneg.
    + apply list_elem_of_singleton in Hs as ->. by eapply price_per_mtok_nonneg.
Qed.

(** Every mapping of the list was made from an upstream model. *)
Definition from_upstream (upstream : list ModelMapping) : Prop :=
  forall m, m ∈ upstream -> exists model, mapping_from_model model = Some m.

Lemma catalog_from_upstream models : from_upstream (mappings (mappings_from_catalog models)).
Proof. intros m (model & _ & H)%list_elem_of_omap. by exists model. Qed.

(** The names of the taken mappings that would fail validation. *)
Definition names_ok (ms : list ModelMapping) : Prop := Forall (fun m => blank (model_name m) = false) ms.

Lemma hydrated_provider_ok p upstream :
  from_upstream upstream ->
  provider_ok (hydrated p upstream) <-> provider_ok p /\ names_ok (taken p upstream).
Proof.
  intros Hu. unfold provider_ok, names_ok. cbn. rewrite Forall_app.
  assert (Forall mapping_ok (taken p upstream) <->
          Forall (fun m => blank (model_name m) = false) (taken p upstream)) as ->; [|tauto].
  rewrite !Forall_forall. split; intros H m Hm; specialize (H m Hm);
    apply taken_spec in Hm as [Hm _]; destruct (Hu m Hm) as [model Hmod];
    apply mapping_from_model_spec in Hmod as (_ & Hiff & _); tauto.
Qed.

Lemma hydrated_priceable p upstream :
  from_upstream upstream -> priceable p ->
  priceable (hydrated p upstream) <-> NoDup (slug <$> taken p upstream).
Proof.
  intros Hu [Hnd Hneg]. unfold priceable. cbn. rewrite fmap_app, NoDup_app. split; [tauto|].
  intros Ht. split.
  - split_and!; [done| |done]. intros s Hs (m & -> & Hm)%list_elem_of_fmap.
    by apply taken_spec in Hm as [_ Hm].
  - intros m s [Hm|Hm]%elem_of_app; [by apply Hneg|].
    apply taken_spec in Hm as [Hm _]. destruct (Hu m Hm) as [model Hmod].
    by apply mapping_from_model_spec in Hmod as (_ & _ & H); apply H.
Qed.

Definition hydrate_one (pid : string) (upstream : list ModelMapping) (p : Provider) : Provider :=
  if String.eqb (id p) pid then hydrated p upstream else p.

Lemma hydrate_providers r pid upstream :
  NoDup (id <$> providers r) ->
  providers (hydrate_provider r pid upstream).1 = hydrate_one pid upstream <$> providers r.
Proof.
  intros Hnd. unfold hydrate_provider. pose proof (hydrate_first_spec pid upstream _ Hnd) as H.
  by destruct (hydrate_first pid upstream (providers r)).
Qed.

Lemma hydrate_one_id pid upstream p : id (hydrate_one pid upstream p) = id p.
Proof. unfold hydrate_one. by destruct (String.eqb (id p) pid). Qed.

Lemma hydrate_one_enabled pid upstream p : enabled (hydrate_one pid upstream p) = enabled p.
Proof. unfold hydrate_one. by destruct (String.eqb (id p) pid). Qed.

Lemma hydrate_ids pid upstream (ps : list Provider) : id <$> (hydrate_one pid upstream <$> ps) = id <$> ps.
Proof. rewrite <- list_fmap_compose. apply list_fmap_ext. intros i p _. apply hydrate_one_id. Qed.

Lemma hydrate_enabled pid upstream (ps : list Provider) :
  filter_b enabled (hydrate_one pid upstream <$> ps) = hydrate_one pid upstream <$> filter_b enabled ps.
Proof.
  induction ps as [|p ps IH]; [done|]. cbn. rewrite hydrate_one_enabled.
  destruct (enabled p); cbn; by rewrite IH.
Qed.

(** Hydrating an enabled provider changes what acceptance demands only for it. *)
Lemma Forall_hydrate_one (P : Provider -> Prop) (Q : Prop) pid upstream ps p :
  NoDup (id <$> ps) -> p ∈ ps -> id p = pid -> Forall P ps ->
  (P (hydrated p upstream) <-> Q) -> Forall P (hydrate_one pid upstream <$> ps) <-> Q.
Proof.
  intros Hnd Hp Hid HP Hh. rewrite Forall_fmap, <- Hh, !Forall_forall. split.
  - intros H. specialize (H p Hp). unfold hydrate_one in H. cbn in H.
    by rewrite Hid, String.eqb_refl in H.
  - intros H q Hq. cbn. unfold hydrate_one. destruct (String.eqb_spec (id q) pid) as [E|].
    + assert (q = p) as -> by (eapply NoDup_fmap_inj_in; [exact Hnd|done..|congruence]). done.
    + rewrite Forall_forall in HP. by apply HP.
Qed.

(** An upstream model that becomes a mapping: it has prices that parse, are not
    negative and fit per million tokens, and a positive context length. *)
Definition usable (model : UpstreamModel) : bool :=
  is_some_and (fun pr => is_some (price_per_mtok (up_prompt pr)) && is_some (price_per_mtok (up_completion pr)))
    (um_pricing model) &&
  is_some_and (fun n => 0 <? n) (um_context_length model).

(** It has an id or a name that is not blank. *)
Definition named (model : UpstreamModel) : Prop :=
  blank (um_id model) = false \/ exists n, um_name model = Some n /\ blank n = false.

(** The upstream models a provider takes over: the usable ones it does not list. *)
Definition taken_models (p : Provider) (upstream_models : list UpstreamModel) : list UpstreamModel :=
  filter_b (fun model => usable model && negb (bool_decide (um_id model ∈ slug <$> models p))) upstream_models.

Lemma mapping_from_model_usable model :
  if usable model then exists m, mapping_from_model model = Some m /\ slug m = um_id model /\
                                 (blank (model_name m) = false <-> named model)
  else mapping_from_model model = None.
Proof.
  unfold usable, mapping_from_model, option_filter at 1.
  destruct (um_pricing model) as [pr|]; cbn; [|done].
  destruct (price_per_mtok (up_prompt pr)); cbn; [|done].
  destruct (price_per_mtok (up_completion pr)); cbn; [|done].
  destruct (um_context_length model) as [n|]; cbn; [|done]. destruct (0 <? n); cbn; [|done].
  eexists. split_and!; [done..|]. cbn. unfold named, option_filter.
  destruct (um_name model) as [name|]; cbn; [|split; [by left|by intros [?|(? & ? & _)]]].
  unfold blank. destruct (str_is_empty (trim name)) eqn:E; cbn.
  - split; [by left|]. intros [?|(x & [= <-] & Hx)]; [done|congruence].
  - split; [|done]. intros _. right. by exists name.
Qed.

Lemma taken_models_spec p upstream_models :
  let upstream := mappings (mappings_from_catalog upstream_models) in
  slug <$> taken p upstream = um_id <$> taken_models p upstream_models /\
  (names_ok (taken p upstream) <-> Forall named (taken_models p upstream_models)).
Proof.
  cbn. unfold taken, taken_models, names_ok. induction upstream_models as [|model ms [IH1 IH2]]; [done|].
  cbn [omap list_omap filter_b]. pose proof (mapping_from_model_usable model) as Hu.
  destruct (usable model); [|by rewrite Hu]. destruct Hu as (m & -> & Hslug & Hname). cbn [filter_b andb].
  assert (bool_decide (slug m ∈ explicit_slugs p) = bool_decide (um_id model ∈ slug <$> models p)) as ->.
  { apply bool_decide_ext. unfold explicit_slugs. by rewrite elem_of_list_to_set, Hslug. }
  destruct (bool_decide _); cbn; [done|]. rewrite Hslug, !Forall_cons, IH1, Hname, IH2. done.
Qed.

(** C34: Hydrating an enabled provider of a registry that the price table accepts
    leaves one that it accepts exactly when the upstream models the provider
    takes over (those whose prices parse, are not negative and fit a decimal per
    million tokens, whose context length is positive, and whose id the provider
    does not list) have distinct ids and each an id or a name that is not
    blank.  So a repeated id makes the table refuse the registry and stops the
    start, as does a model with neither; the table does not bound the prices,
    whose sums can still overflow where the catalog and the routes are built. *)
Theorem hydration_accepted r p pid upstream_models :
  is_ok (PriceTable_from_registry r) = true -> p ∈ enabled_providers r -> id p = pid ->
  is_ok (PriceTable_from_registry
           (hydrate_provider r pid (mappings (mappings_from_catalog upstream_models))).1) = true <->
  NoDup (um_id <$> taken_models p upstream_models) /\ Forall named (taken_models p upstream_models).
Proof.
  intros [[Hnd Hok] Hpr]%from_registry_Ok Hp Hid.
  destruct (taken_models_spec p upstream_models) as [<- <-].
  set (upstream := mappings (mappings_from_catalog upstream_models)).
  pose proof (catalog_from_upstream upstream_models) as Hu. fold upstream in Hu.
  rewrite from_registry_Ok. unfold registry_ok, enabled_providers.
  rewrite hydrate_providers, hydrate_enabled, hydrate_ids by done.
  assert (provider_ok p /\ priceable p) as [Hpo Hpp].
  { rewrite Forall_forall in Hok, Hpr. split; [apply Hok; by apply elem_of_enabled in Hp as [_ ?]|by apply Hpr]. }
  rewrite (Forall_hydrate_one provider_ok (names_ok (taken p upstream)) pid upstream _ p);
    [|done|by apply elem_of_enabled in Hp as [_ ?]|done|done|rewrite hydrated_provider_ok by done; tauto].
  rewrite (Forall_hydrate_one priceable (NoDup (slug <$> taken p upstream)) pid upstream _ p);
    [|by apply enabled_NoDup|done|done|done|by rewrite hydrated_priceable].
  tauto.
Qed.

(** Explicit mappings stay authoritative and other providers stay as they
    are: every price the reviewed registry answers, the hydrated registry
    answers the same; and what it answers beyond that is an upstream mapping
    of the hydrated provider. *)
Lemma hydration_keeps_reviewed r pid upstream provider_id s :
  NoDup (id <$> providers r) ->
  let r' := (hydrate_provider r pid upstream).1 in
  (forall x, registry_price r provider_id s = Some x -> registry_price r' provider_id s = Some x) /\
  (forall x, registry_price r provider_id s = None -> registry_price r' provider_id s = Some x ->
     provider_id = pid /\ exists m, m ∈ upstream /\ slug m = s /\ x = model_prices m).
Proof.
  intros Hnd r'. unfold registry_price, enabled_providers, r'.
  rewrite hydrate_providers, hydrate_enabled by done.
  induction (filter_b enabled (providers r)) as [|q ps IH]; [done|]. cbn.
  rewrite hydrate_one_id. destruct (String.eqb_spec (id q) provider_id) as [<-|Hne]; [|done]. cbn.
  unfold hydrate_one. destruct (String.eqb_spec (id q) pid) as [E|]; [|by split; intros x ?; try congruence].
  cbn. clear IH. rewrite find_b_app.
  destruct (find_b (fun m => String.eqb (slug m) s) (models q)) as [m|] eqn:Em; cbn; [by split; intros x|].
  split; [done|]. intros x _ Hx.
  destruct (find_b _ (taken q upstream)) as [m|] eqn:Ef; cbn in Hx; [|done]. injection Hx as <-.
  split; [done|]. apply find_b_Some in Ef as [Hs Hin]. apply taken_spec in Hin as [Hin _].
  apply String.eqb_eq in Hs. eauto.
Qed.
End Props.

(** ** Witnesses *)

Definition upstream_model (name : string) (price : string) : UpstreamModel :=
  {| um_id := name; um_name := None; um_context_length := Some 4096;
     um_pricing := Some {| up_prompt := Some price; up_completion := Some "0.000002";
                           up_input_cache_read := None |} |}.

(** Two offers, one negative price, and one already reviewed. *)
Definition upstream_models : list UpstreamModel :=
  [upstream_model "acme/new" "0.000001"; upstream_model "acme/auto" "-1"; upstream_model "acme/chat" "0.1"].

Example hydrates_one :
  slug <$> taken alpha (mappings (mappings_from_catalog upstream_models)) = ["acme/new"].
Proof. vm_reflexivity. Qed.

Example repeated_offer_refused :
  is_ok (PriceTable_from_registry
    (hydrate_provider one_provider "alpha"
      (mappings (mappings_from_catalog [upstream_model "acme/new" "0.1"; upstream_model "acme/new" "0.2"]))).1)
  = false.
Proof. vm_reflexivity. Qed.

Lemma hydration_accepted_witness :
  is_ok (PriceTable_from_registry
    (hydrate_provider one_provider "alpha" (mappings (mappings_from_catalog upstream_models))).1) = true
  <-> NoDup (um_id <$> taken_models alpha upstream_models) /\ Forall named (taken_models alpha upstream_models).
Proof.
  apply (hydration_accepted (D := RefDecimal.decimal) RefDecimal.val one_provider alpha "alpha" upstream_models);
    [vm_compute; reflexivity|left|reflexivity].
Defined.
