(* ===== verification/Database.v ===== *)
(** [src/src/db.rs]: the database's availability and its recovery supervisor.
    The status is one atomic byte and the wake-up one [tokio::sync::Notify], so
    the supervisor and the ledger operations that report to it interleave at
    every atomic access: the operations are the labelled steps of a transition
    system.  [Notify] and the SQL pool are not part of the repository.  *)

From Stdlib Require Import ZArith.
From stdpp Require Import relations.
From S2P Require Import Prelude.

#[local] Open Scope Z_scope.

(** ** Constants: durations in nanoseconds *)

Definition NANOS_PER_SEC : Z := 1000000000.
Definition from_secs (n : Z) : Z := n * NANOS_PER_SEC.
Definition from_millis (n : Z) : Z := n * 1000000.

(** [Duration::MAX], and [Duration::saturating_mul]. *)
Definition duration_max : Z := from_secs u64_max + (NANOS_PER_SEC - 1).
Definition saturating_mul (d n : Z) : Z := Z.min (d * n) duration_max.

Definition ACQUIRE_TIMEOUT : Z := from_secs 90.
Definition IDLE_TIMEOUT : Z := from_secs 30.
Definition MAX_LIFETIME : Z := from_secs (30 * 60).
Definition MAX_CONNECTIONS : Z := 10.
Definition INITIAL_RECOVERY_BACKOFF : Z := from_millis 250.
Definition MAX_RECOVERY_BACKOFF : Z := from_secs 30.

Record PgPoolOptions : Type := {
  acquire_timeout : Z;
  idle_timeout : Z;
  max_lifetime : Z;
  min_connections : Z;
  max_connections : Z
}.

Definition options : PgPoolOptions :=
  {| acquire_timeout := ACQUIRE_TIMEOUT; idle_timeout := IDLE_TIMEOUT;
     max_lifetime := MAX_LIFETIME; min_connections := 0; max_connections := MAX_CONNECTIONS |}.

(** ** Status *)

Inductive DatabaseStatus : Type := Starting | Ready | Degraded.

#[global] Instance DatabaseStatus_eq_dec : EqDecision DatabaseStatus.
Proof. solve_decision. Defined.

Definition status_as_str (s : DatabaseStatus) : string :=
  match s with Starting => "starting" | Ready => "ok" | Degraded => "degraded" end.

(** The byte the atomic holds, and [status]'s reading of it. *)
Definition status_u8 (s : DatabaseStatus) : Z :=
  match s with Starting => 0 | Ready => 1 | Degraded => 2 end.

Definition status_of_u8 (n : Z) : outcome DatabaseStatus :=
  if n =? 0 then Done Starting else if n =? 1 then Done Ready else if n =? 2 then Done Degraded
  else Panic "database status is written only by DatabaseHealth".

Lemma status_round_trip s : status_of_u8 (status_u8 s) = Done s.
Proof. by destruct s. Qed.

(** ** [tokio::sync::Notify] with one waiter *)

(** [notified n] is the state after a wait that completes at once, [None] when
    the waiter sleeps. *)
Class Notify : Type := {
  notify : Type;
  notify_new : notify;
  notify_one : notify -> notify;
  notified : notify -> option notify
}.

(** Documented: "if no task is waiting, a permit is stored, and the next call
    to [notified().await] will complete immediately". *)
Class NotifyLaws (N : Notify) : Prop := {
  law_notify_one n : is_Some (notified (notify_one n))
}.

(** The reference: at most one permit. *)
Module RefNotify.
#[global] Instance permit : Notify :=
  {| notify := bool; notify_new := false; notify_one _ := true;
     notified n := if n then Some false else None |}.
#[global] Instance laws : NotifyLaws permit.
Proof. split. cbn. eauto. Qed.
End RefNotify.

Section Health.
Context {N : Notify}.

Record DatabaseHealth : Type := { status : DatabaseStatus; recovery_requested : notify }.

Definition health_new (s : DatabaseStatus) : DatabaseHealth :=
  {| status := s; recovery_requested := notify_new |}.
Definition starting : DatabaseHealth := health_new Starting.
Definition ready : DatabaseHealth := health_new Ready.

Definition swap_status (s : DatabaseStatus) (h : DatabaseHealth) : DatabaseHealth :=
  {| status := s; recovery_requested := recovery_requested h |}.
Definition request_recovery (h : DatabaseHealth) : DatabaseHealth :=
  {| status := status h; recovery_requested := notify_one (recovery_requested h) |}.

(** The operations run to their end; the metrics and logs are not modelled. *)
Definition report_ready (h : DatabaseHealth) : DatabaseHealth := swap_status Ready h.
Definition report_failure (h : DatabaseHealth) : DatabaseHealth :=
  request_recovery (swap_status Degraded h).

(** ** The supervisor *)

(** Where [supervise_with] is: awaiting [recover()], between the two atomic
    accesses of [report_failure], in the sleep, before the status load of
    [wait_for_recovery_request], in its [notified().await]. *)
Inductive SupervisorPc : Type :=
| Recovering
| Notifying
| Sleeping
| Checking
| Awaiting.

#[global] Instance SupervisorPc_eq_dec : EqDecision SupervisorPc.
Proof. solve_decision. Defined.

(** [notifying] counts the ledger operations between the swap and the
    notification of their own [report_failure]. *)
Record System : Type := {
  health : DatabaseHealth;
  supervisor : SupervisorPc;
  recovery_backoff : Z;
  notifying : nat
}.

Section Supervise.
Context (initial_backoff max_backoff : Z).

Definition supervise_start (h : DatabaseHealth) : System :=
  {| health := h; supervisor := Recovering; recovery_backoff := initial_backoff; notifying := 0 |}.

Definition next_backoff (b : Z) : Z := Z.min (saturating_mul b 2) max_backoff.

Definition with_health (h : DatabaseHealth) (pc : SupervisorPc) (s : System) : System :=
  {| health := h; supervisor := pc; recovery_backoff := recovery_backoff s; notifying := notifying s |}.
Definition with_backoff (b : Z) (pc : SupervisorPc) (s : System) : System :=
  {| health := health s; supervisor := pc; recovery_backoff := b; notifying := notifying s |}.
Definition with_notifying (h : DatabaseHealth) (n : nat) (s : System) : System :=
  {| health := h; supervisor := supervisor s; recovery_backoff := recovery_backoff s; notifying := n |}.

(** The supervisor's next atomic access; [recovered] is what [recover()] gives
    if it is awaited, and [None] a task that stays asleep. *)
Definition supervisor_step (recovered : bool) (s : System) : option System :=
  match supervisor s with
  | Recovering =>
      Some (if recovered
            then with_backoff initial_backoff Checking (with_health (report_ready (health s)) Checking s)
            else with_health (swap_status Degraded (health s)) Notifying s)
  | Notifying => Some (with_health (request_recovery (health s)) Sleeping s)
  | Sleeping => Some (with_backoff (next_backoff (recovery_backoff s)) Recovering s)
  | Checking =>
      Some (with_health (health s)
              (if bool_decide (status (health s) = Ready) then Awaiting else Recovering) s)
  | Awaiting =>
      notified (recovery_requested (health s)) ≫= fun n =>
      Some (with_health {| status := status (health s); recovery_requested := n |} Checking s)
  end.

Inductive Label : Type :=
| Supervise (recovered : bool)
| OpReady
| OpFailure
| OpNotify.

(** One atomic access of the supervisor or of a ledger operation. *)
Definition system_step (l : Label) (s : System) : option System :=
  match l with
  | Supervise recovered => supervisor_step recovered s
  | OpReady => Some (with_notifying (report_ready (health s)) (notifying s) s)
  | OpFailure => Some (with_notifying (swap_status Degraded (health s)) (S (notifying s)) s)
  | OpNotify =>
      match notifying s with
      | O => None
      | S n => Some (with_notifying (request_recovery (health s)) n s)
      end
  end.

Definition steps (s s' : System) : Prop := exists l, system_step l s = Some s'.
Definition reachable (s : System) : Prop := rtc steps (supervise_start starting) s.

(** ** Invariants *)

(** A supervisor that is or is about to fall asleep on a degraded database has
    a wake-up on its way. *)
Definition wakeable (s : System) : Prop :=
  match supervisor s with
  | Awaiting => status (health s) <> Ready ->
                (0 < notifying s)%nat \/ is_Some (notified (recovery_requested (health s)))
  | _ => True
  end.

(** [recovery_backoff] is the doubling sequence from the initial backoff,
    capped. *)
Definition backoff_after (k : nat) : Z := Nat.iter k next_backoff initial_backoff.
Definition backoff_wf (s : System) : Prop := exists k, recovery_backoff s = backoff_after k.

Definition waits_known (s : System) : Prop :=
  match supervisor s with
  | Checking | Awaiting | Notifying | Sleeping => status (health s) <> Starting
  | Recovering => True
  end.

Context {L : NotifyLaws N}.

Lemma wakeable_step l s s' : wakeable s -> system_step l s = Some s' -> wakeable s'.
Proof.
  destruct s as [[st n] pc b k]. unfold wakeable. destruct l as [r| | |]; cbn.
  - unfold supervisor_step. destruct pc; cbn.
    + by intros _ [= <-]; destruct r.
    + by intros _ [= <-].
    + by intros _ [= <-].
    + intros _ [= <-]. cbn. by case_bool_decide.
    + by intros _ (? & _ & [= <-])%bind_Some.
  - intros _ [= <-]. cbn. by destruct pc.
  - intros _ [= <-]. cbn. destruct pc; try done. intros _. left. lia.
  - destruct k as [|k]; [done|]. intros _ [= <-]. cbn. destruct pc; try done.
    intros _. right. apply law_notify_one.
Qed.

Lemma waits_known_step l s s' : waits_known s -> system_step l s = Some s' -> waits_known s'.
Proof.
  destruct s as [[st n] pc b k]. unfold waits_known. destruct l as [r| | |]; cbn.
  - unfold supervisor_step. destruct pc; cbn; intros H.
    + intros [= <-]. by destruct r.
    + by intros [= <-].
    + by intros [= <-].
    + intros [= <-]. cbn. by case_bool_decide.
    + by intros (? & _ & [= <-])%bind_Some.
  - intros _ [= <-]. cbn. by destruct pc.
  - intros _ [= <-]. cbn. by destruct pc.
  - destruct k as [|k]; [done|]. intros H [= <-]. by destruct pc.
Qed.

Lemma backoff_wf_step l s s' : backoff_wf s -> system_step l s = Some s' -> backoff_wf s'.
Proof.
  destruct s as [[st n] pc b k]. unfold backoff_wf. cbn. intros [j ->]. destruct l as [r| | |]; cbn.
  - unfold supervisor_step. destruct pc; cbn.
    + intros [= <-]. destruct r; cbn; [by exists O|eauto].
    + intros [= <-]. cbn. eauto.
    + intros [= <-]. by exists (S j).
    + intros [= <-]. cbn. eauto.
    + intros (? & _ & [= <-])%bind_Some. cbn. eauto.
  - intros [= <-]. cbn. eauto.
  - intros [= <-]. cbn. eauto.
  - destruct k as [|k]; [done|]. intros [= <-]. cbn. eauto.
Qed.

(** Every invariant of the steps that the start satisfies holds when reached. *)
Lemma reachable_ind (P : System -> Prop) s :
  P (supervise_start starting) -> (forall l x y, P x -> system_step l x = Some y -> P y) ->
  reachable s -> P s.
Proof. intros H0 Hs. apply rtc_ind_r; [done|]. intros x y _ [l Hl] Hx. by eapply Hs. Qed.

(** ** Progress *)

(** The internal steps left before [recover()] is called again. *)
Definition rank (s : System) : nat :=
  notifying s +
  match supervisor s with
  | Recovering => 0 | Sleeping | Checking => 1 | Notifying | Awaiting => 2
  end.

(** A step that no new ledger operation and no recovery attempt makes. *)
Definition internal (l : Label) (s : System) : Prop :=
  match l with
  | Supervise _ => supervisor s <> Recovering
  | OpNotify => True
  | OpReady | OpFailure => False
  end.

Lemma internal_step l s s' :
  internal l s -> status (health s) <> Ready -> system_step l s = Some s' ->
  status (health s') = status (health s) /\ (rank s' < rank s)%nat.
Proof.
  destruct s as [[st n] pc b k]. unfold rank. destruct l as [r| | |]; cbn; try done.
  - intros Hi Hst. unfold supervisor_step. destruct pc; cbn; try done.
    + intros [= <-]. cbn. split; [done|lia].
    + intros [= <-]. cbn. split; [done|lia].
    + intros [= <-]. cbn. case_bool_decide; [done|]. split; [done|lia].
    + intros (? & _ & [= <-])%bind_Some. cbn. split; [done|lia].
  - intros _ _. destruct k as [|k]; [done|]. intros [= <-]. cbn. split; [done|lia].
Qed.

Lemma internal_enabled s :
  wakeable s -> status (health s) <> Ready -> supervisor s <> Recovering ->
  exists l s', internal l s /\ system_step l s = Some s'.
Proof.
  destruct s as [[st n] pc b k]. unfold wakeable, internal. cbn. intros Hw Hst Hpc. destruct pc; try done.
  - exists (Supervise true). eexists. split; [done|reflexivity].
  - exists (Supervise true). eexists. split; [done|reflexivity].
  - exists (Supervise true). eexists. split; [done|reflexivity].
  - destruct (Hw Hst) as [Hk|[n' Hn]].
    + destruct k as [|k]; [lia|]. exists OpNotify. eexists. split; [done|reflexivity].
    + exists (Supervise true). eexists. split; [done|]. cbn. unfold supervisor_step. cbn. by rewrite Hn.
Qed.
End Supervise.
End Health.

(** [supervise]: the constants, with the migrations as [recover]. *)
Definition supervise_reachable {N : Notify} : System -> Prop :=
  reachable INITIAL_RECOVERY_BACKOFF MAX_RECOVERY_BACKOFF.
