(* ===== verification/DatabaseProps.v ===== *)
(** The properties of the database supervisor ([db.rs]): a degraded database is
    always on its way to another recovery attempt, and attempts back off
    within bounds. *)

From Stdlib Require Import ZArith.
From stdpp Require Import relations.
From S2P Require Import Prelude Database.

#[local] Open Scope Z_scope.

Section Props.
Context {N : Notify} {L : NotifyLaws N}.

Lemma reachable_wakeable i m s : reachable i m s -> wakeable s.
Proof. intros H. eapply (reachable_ind i m wakeable); [done| |exact H]. exact (wakeable_step i m). Qed.

(** Internal steps: the ones already on their way, when no ledger operation
    starts and no recovery attempt is made. *)
Definition internal_steps (s s' : System) : Prop :=
  exists l, internal l s /\ system_step INITIAL_RECOVERY_BACKOFF MAX_RECOVERY_BACKOFF l s = Some s'.

Lemma internal_run n s s' :
  status (health s) <> Ready -> nsteps internal_steps n s s' ->
  status (health s') = status (health s) /\ (n + rank s' <= rank s)%nat.
Proof.
  intros Hst Hrun. induction Hrun as [|n x y z (l & Hi & Hl) Hrun IH]; [split; [done|lia]|].
  destruct (internal_step _ _ _ _ _ Hi Hst Hl) as [Hs Hr]. rewrite <- Hs in Hst.
  destruct (IH Hst) as [Hs' Hr']. split; [congruence|lia].
Qed.

Lemma internal_run_steps n s s' :
  nsteps internal_steps n s s' -> rtc (steps INITIAL_RECOVERY_BACKOFF MAX_RECOVERY_BACKOFF) s s'.
Proof. induction 1 as [|n x y z (l & _ & Hl) _ IH]; [done|]. eapply rtc_l; [by exists l|done]. Qed.

(** C35: No wake-up is lost: whatever interleaving of ledger operations and
    supervisor accesses led to an unavailable database, the supervisor reaches
    its next recovery attempt by itself: every run of the accesses already on
    their way ends, within two accesses more than the notifications pending,
    and it can only end with the supervisor calling [recover()]. *)
Theorem degraded_recovers s :
  supervise_reachable s -> status (health s) <> Ready ->
  forall n s', nsteps internal_steps n s s' ->
    (n <= notifying s + 2)%nat /\
    ((forall s'', ~ internal_steps s' s'') -> supervisor s' = Recovering).
Proof.
  intros Hr Hst n s' Hrun. destruct (internal_run _ _ _ Hst Hrun) as [Hst' Hn]. split.
  - unfold rank in Hn. destruct (supervisor s); lia.
  - intros Hstop. destruct (decide (supervisor s' = Recovering)) as [|Hpc]; [done|]. exfalso.
    assert (wakeable s') as Hw.
    { eapply reachable_wakeable. unfold reachable. etrans; [exact Hr|by eapply internal_run_steps]. }
    destruct (internal_enabled INITIAL_RECOVERY_BACKOFF MAX_RECOVERY_BACKOFF s' Hw) as (l & s'' & Hi & Hl);
      [congruence|done|]. apply (Hstop s''). by exists l.
Qed.

(** The doubling sequence in closed form. *)
Lemma backoff_after_spec k :
  backoff_after INITIAL_RECOVERY_BACKOFF MAX_RECOVERY_BACKOFF k =
  Z.min (INITIAL_RECOVERY_BACKOFF * 2 ^ Z.of_nat k) MAX_RECOVERY_BACKOFF.
Proof.
  induction k as [|k IH]; [by vm_compute|].
  change (backoff_after _ _ (S k)) with
    (next_backoff MAX_RECOVERY_BACKOFF (backoff_after INITIAL_RECOVERY_BACKOFF MAX_RECOVERY_BACKOFF k)).
  rewrite IH.
  rewrite Nat2Z.inj_succ, Z.pow_succ_r by lia.
  assert (0 < 2 ^ Z.of_nat k) by (apply Z.pow_pos_nonneg; lia).
  unfold next_backoff, saturating_mul, duration_max, INITIAL_RECOVERY_BACKOFF, MAX_RECOVERY_BACKOFF,
    from_millis, from_secs, NANOS_PER_SEC, u64_max. lia.
Qed.

(** The pause before a recovery attempt is 250 ms doubled once per
    consecutive failure and capped at 30 s, so it never leaves that range and
    never overflows. *)
Theorem backoff_bounds s :
  supervise_reachable s ->
  (exists k, recovery_backoff s = Z.min (from_millis 250 * 2 ^ Z.of_nat k) (from_secs 30)) /\
  from_millis 250 <= recovery_backoff s <= from_secs 30.
Proof.
  intros Hr. assert (backoff_wf INITIAL_RECOVERY_BACKOFF MAX_RECOVERY_BACKOFF s) as [k Hk].
  { eapply reachable_ind; [by exists O|intros l x y; apply backoff_wf_step|exact Hr]. }
  rewrite backoff_after_spec in Hk. split; [by exists k|]. rewrite Hk.
  assert (0 < 2 ^ Z.of_nat k) by (apply Z.pow_pos_nonneg; lia).
  unfold INITIAL_RECOVERY_BACKOFF, MAX_RECOVERY_BACKOFF, from_millis, from_secs, NANOS_PER_SEC. lia.
Qed.

(** Once a recovery attempt has succeeded or failed the status is known
    for good: it is never [Starting] again while the supervisor waits. *)
Lemma status_known s :
  supervise_reachable s -> supervisor s <> Recovering -> status (health s) <> Starting.
Proof.
  intros Hr Hpc. assert (waits_known s) as Hw by (eapply reachable_ind; [done|intros l x y; apply waits_known_step|exact Hr]).
  unfold waits_known in Hw. by destruct (supervisor s).
Qed.
End Props.

(** ** Witnesses *)

(** A ledger failure between the recovery and the status check. *)
Definition run_labels (ls : list Label) : option System :=
  foldl (fun s l => s ≫= system_step INITIAL_RECOVERY_BACKOFF MAX_RECOVERY_BACKOFF l)
    (Some (supervise_start INITIAL_RECOVERY_BACKOFF starting)) ls.

Definition raced_labels : list Label :=
  [Supervise false; Supervise false; Supervise false; Supervise true; Supervise true; OpFailure; OpNotify].

Definition raced : System (N := RefNotify.permit) :=
  default (supervise_start INITIAL_RECOVERY_BACKOFF starting) (run_labels raced_labels).

Lemma run_steps {N : Notify} ls (s0 s : System) :
  foldl (fun s l => s ≫= system_step INITIAL_RECOVERY_BACKOFF MAX_RECOVERY_BACKOFF l) (Some s0) ls = Some s ->
  rtc (steps INITIAL_RECOVERY_BACKOFF MAX_RECOVERY_BACKOFF) s0 s.
Proof.
  revert s0. induction ls as [|l ls IH]; intros s0; cbn [foldl]; [by intros [= ->]|].
  cbn [mbind option_bind].
  destruct (system_step INITIAL_RECOVERY_BACKOFF MAX_RECOVERY_BACKOFF l s0) as [s1|] eqn:E; cbn.
  - intros H. eapply rtc_l; [by exists l|by apply IH].
  - intros H. exfalso. clear IH. induction ls; [done|]. by apply IHls.
Qed.

Lemma raced_reachable : supervise_reachable raced.
Proof. apply (run_steps raced_labels). by vm_compute. Qed.

Lemma degraded_recovers_witness :
  supervisor raced = Awaiting /\
  ((0 <= notifying raced + 2)%nat /\
   ((forall s'', ~ internal_steps raced s'') -> supervisor raced = Recovering)).
Proof.
  split; [vm_compute; reflexivity|].
  apply (degraded_recovers raced raced_reachable); [vm_compute; discriminate|constructor].
Defined.

Lemma backoff_bounds_witness :
  (exists k, recovery_backoff raced = Z.min (from_millis 250 * 2 ^ Z.of_nat k) (from_secs 30)) /\
  from_millis 250 <= recovery_backoff raced <= from_secs 30.
Proof. exact (backoff_bounds raced raced_reachable). Defined.
