(* ===== verification/Gauge.v ===== *)
(** [src/src/db.rs], [record_availability] and the counters beside it: the
    availability gauge is set from a load that follows the status's swap, two
    atomic accesses among those of other reports and probes. *)

From Stdlib Require Import ZArith.
From S2P Require Import Prelude Database.

#[local] Open Scope Z_scope.

Definition DATABASE_AVAILABLE_METRIC : string := "seren_router_database_available".
Definition DATABASE_RECOVERY_ATTEMPTS_METRIC : string := "seren_router_database_recovery_attempts_total".
Definition DATABASE_OPERATION_FAILURES_METRIC : string := "seren_router_database_operation_failures_total".

(** The label a recovery attempt is counted under. *)
Definition recovery_phase (s : DatabaseStatus) : string :=
  match s with Starting => "initial" | Ready | Degraded => "recovery" end.

Definition gauge_of (s : DatabaseStatus) : Z := if bool_decide (s = Ready) then 1 else 0.

(** One call of [record_availability], or a report that is about to make it. *)
Inductive RecorderPc : Type :=
| Loads
| Sets (loaded : DatabaseStatus)
| Recorded.

Record Gauges : Type := {
  ga_status : DatabaseStatus;
  ga_gauge : option Z;
  ga_recorders : list RecorderPc
}.

Inductive GaugeLabel : Type :=
| Swap (s : DatabaseStatus)
| Probe
| Load (i : nat)
| Set_ (i : nat).

Definition gauge_step (l : GaugeLabel) (g : Gauges) : option Gauges :=
  match l with
  | Swap s => Some {| ga_status := s; ga_gauge := ga_gauge g; ga_recorders := ga_recorders g ++ [Loads] |}
  | Probe => Some {| ga_status := ga_status g; ga_gauge := ga_gauge g; ga_recorders := ga_recorders g ++ [Loads] |}
  | Load i =>
      match ga_recorders g !! i with
      | Some Loads => Some {| ga_status := ga_status g; ga_gauge := ga_gauge g;
                              ga_recorders := <[i := Sets (ga_status g)]> (ga_recorders g) |}
      | _ => None
      end
  | Set_ i =>
      match ga_recorders g !! i with
      | Some (Sets s) => Some {| ga_status := ga_status g; ga_gauge := Some (gauge_of s);
                                 ga_recorders := <[i := Recorded]> (ga_recorders g) |}
      | _ => None
      end
  end.

Definition gauge_run (ls : list GaugeLabel) (g : Gauges) : option Gauges :=
  foldl (fun g l => g ≫= gauge_step l) (Some g) ls.

Definition gauges_start : Gauges := {| ga_status := Starting; ga_gauge := None; ga_recorders := [] |}.

(** ** When the gauge is right *)

(** Every load still to be set is of the current status, and so is the gauge
    when nobody is about to set it. *)
Definition fresh (g : Gauges) : Prop :=
  (forall i s, ga_recorders g !! i = Some (Sets s) -> s = ga_status g) /\
  (Forall (eq Recorded) (ga_recorders g) -> ga_recorders g <> [] -> ga_gauge g = Some (gauge_of (ga_status g))).

(** A swap that meets no recorder between its load and its set. *)
Definition uncrossed (g : Gauges) (l : GaugeLabel) : Prop :=
  match l with
  | Swap s => forall i t, ga_recorders g !! i = Some (Sets t) -> t = s
  | _ => True
  end.

Lemma gauge_step_fresh l g g' : fresh g -> uncrossed g l -> gauge_step l g = Some g' -> fresh g'.
Proof.
  intros [Hs Hg] Hu H. destruct l as [s| |i|i]; cbn in H.
  - injection H as <-. split; cbn.
    + intros i t [Hi|(_ & Hi)]%lookup_app_Some; [by eapply Hu|]. by apply list_lookup_singleton_Some in Hi as [_ ?].
    + intros [_ Hf]%Forall_app _. by inversion Hf.
  - injection H as <-. split; cbn.
    + intros i t [Hi|(_ & Hi)]%lookup_app_Some; [by eapply Hs|]. by apply list_lookup_singleton_Some in Hi as [_ ?].
    + intros [_ Hf]%Forall_app _. by inversion Hf.
  - destruct (ga_recorders g !! i) as [[| |]|] eqn:Ei; try done. injection H as <-. split; cbn.
    + intros j t Hj. destruct (decide (i = j)) as [<-|Hne].
      * rewrite list_lookup_insert_eq in Hj by by eapply lookup_lt_Some. congruence.
      * rewrite list_lookup_insert_ne in Hj by done. by eapply Hs.
    + intros Hf _. eapply (Forall_lookup_1 _ _ i) in Hf; [|apply list_lookup_insert_eq; by eapply lookup_lt_Some].
      done.
  - destruct (ga_recorders g !! i) as [[|s|]|] eqn:Ei; try done. injection H as <-. apply Hs in Ei as Es. split; cbn.
    + intros j t Hj. destruct (decide (i = j)) as [<-|Hne].
      * by rewrite list_lookup_insert_eq in Hj by by eapply lookup_lt_Some.
      * rewrite list_lookup_insert_ne in Hj by done. by eapply Hs.
    + intros _ _. by rewrite Es.
Qed.

(** Otherwise a slow recorder overwrites the newer value: with every call
    finished, the gauge says available while the database is degraded, until
    the next report or readiness probe. *)
Lemma gauge_can_be_stale :
  exists g, gauge_run [Swap Ready; Load 0; Swap Degraded; Load 1; Set_ 1; Set_ 0] gauges_start = Some g /\
    Forall (eq Recorded) (ga_recorders g) /\ ga_status g = Degraded /\ ga_gauge g = Some 1.
Proof. eexists. split; [reflexivity|]. repeat constructor. Qed.
