(* ===== verification/Ledger.v ===== *)
(** [src/src/ledger.rs] with [src/migrations]: the generation ledger.  The table
    and its two statements are translated from the SQL text: rows keyed by the
    primary key, the CHECK constraints, and NUMERIC(18, 10) columns.  Whether a
    statement reaches the server and its reply comes back within the timeout is
    the environment's choice. *)

From Stdlib Require Import ZArith.
From S2P Require Import Prelude RustDecimal RoutingProfile Registry Json Database.

#[local] Open Scope Z_scope.

Definition LEDGER_OPERATION_TIMEOUT : Z := from_secs 2.

(** Timestamps of the [jiff] crate, as the ledger uses them. *)
Class Jiff : Type := { timestamp : Type; timestamp_to_string : timestamp -> string }.

(** The seconds since the epoch, printed as they are. *)
Module RefJiff.
#[global] Instance epoch : Jiff := {| timestamp := Z; timestamp_to_string := pretty |}.
End RefJiff.

Inductive SqlError : Type :=
| PoolTimedOut
| ConnectionError
| UniqueViolation
| CheckViolation
| NumericOverflow.

(** What becomes of a statement: executed and answered, lost before it
    executes, or executed with the answer lost. *)
Inductive Delivery : Type :=
| Answered
| Lost (e : SqlError)
| AnswerLost (e : SqlError).

Section Ledger.
Context {D : RustDecimal} {T : Jiff}.

(** ** The table *)

(** The [generations] columns after the three migrations. *)
Record Row : Type := {
  row_id : string;
  row_created_at : timestamp;
  row_canonical_slug : string;
  row_provider_id : string;
  row_prompt_tokens : option Z;
  row_completion_tokens : option Z;
  row_cost_usd : option decimal;
  row_latency_ms : Z;
  row_status : Z;
  row_routing_profile : string;
  row_provider_cost_usd : option decimal;
  row_sell_price_usd : option decimal
}.

Definition Table : Type := gmap string Row.

(** A NUMERIC(18, 10) column rounds half away from zero at ten places and
    refuses eight integer digits' overflow.  The negative overflow is left to
    the nonnegative CHECK, which every written value is subject to. *)
Definition numeric_18_10 (c : decimal) : option decimal :=
  let stored := dec_rescale 10 (dec_round_away 10 c) in
  if dec_lt stored (dec_of_Z (10 ^ 8)) then Some stored else None.

Definition nonnegative (c : option decimal) : bool := is_none_or (fun c => negb (dec_lt c dec_zero)) c.

(** The CHECK constraints; a CHECK whose operand is null passes. *)
Definition row_checks (r : Row) : bool :=
  existsb (String.eqb (row_routing_profile r)) ["production"; "beta"]
  && nonnegative (row_provider_cost_usd r)
  && nonnegative (row_sell_price_usd r)
  && match row_cost_usd r, row_sell_price_usd r with
     | Some cost, Some sell => match dec_cmp cost sell with Eq => true | _ => false end
     | _, _ => true
     end.

(** The historical rows' UPDATE of the third migration. *)
Definition migrate_0003 (r : Row) : Row :=
  match row_cost_usd r with
  | None => r
  | Some cost =>
      {| row_id := row_id r; row_created_at := row_created_at r;
         row_canonical_slug := row_canonical_slug r; row_provider_id := row_provider_id r;
         row_prompt_tokens := row_prompt_tokens r; row_completion_tokens := row_completion_tokens r;
         row_cost_usd := row_cost_usd r; row_latency_ms := row_latency_ms r;
         row_status := row_status r; row_routing_profile := row_routing_profile r;
         row_provider_cost_usd := Some cost; row_sell_price_usd := Some cost |}
  end.

Record GenerationWrite : Type := {
  gw_id : string;
  gw_routing_profile : RoutingProfile;
  gw_canonical_slug : string;
  gw_provider_id : string;
  gw_prompt_tokens : Z;
  gw_completion_tokens : Z;
  gw_cost_usd : decimal;
  gw_latency_ms : Z;
  gw_status : Z
}.

(** The row the INSERT makes: the cost twice, no sell price, [now()]. *)
Definition inserted_row (now : timestamp) (g : GenerationWrite) (cost : decimal) : Row :=
  {| row_id := gw_id g; row_created_at := now; row_canonical_slug := gw_canonical_slug g;
     row_provider_id := gw_provider_id g; row_prompt_tokens := Some (gw_prompt_tokens g);
     row_completion_tokens := Some (gw_completion_tokens g); row_cost_usd := Some cost;
     row_latency_ms := gw_latency_ms g; row_status := gw_status g;
     row_routing_profile := profile_as_str (gw_routing_profile g);
     row_provider_cost_usd := Some cost; row_sell_price_usd := None |}.

Definition execute_insert (now : timestamp) (g : GenerationWrite) (t : gmap string Row)
    : result SqlError (gmap string Row) :=
  ok_or NumericOverflow (numeric_18_10 (gw_cost_usd g)) ≫= fun cost =>
  let row := inserted_row now g cost in
  if negb (row_checks row) then Err CheckViolation
  else if is_some (t !! gw_id g) then Err UniqueViolation
  else Ok (<[gw_id g := row]> t).

Record Generation : Type := {
  g_id : string;
  g_created_at : timestamp;
  g_canonical_slug : string;
  g_provider_id : string;
  g_prompt_tokens : option Z;
  g_completion_tokens : option Z;
  g_reported_cost_usd : option decimal;
  g_provider_cost_usd : option decimal;
  g_latency_ms : Z
}.

(** The SELECT's columns: the CASE and the COALESCE. *)
Definition selected (r : Row) : Generation :=
  {| g_id := row_id r; g_created_at := row_created_at r; g_canonical_slug := row_canonical_slug r;
     g_provider_id := row_provider_id r; g_prompt_tokens := row_prompt_tokens r;
     g_completion_tokens := row_completion_tokens r;
     g_reported_cost_usd :=
       match row_sell_price_usd r with
       | Some sell => Some sell
       | None => option_or (row_provider_cost_usd r) (row_cost_usd r)
       end;
     g_provider_cost_usd := row_provider_cost_usd r; g_latency_ms := row_latency_ms r |}.

Definition execute_select (id : string) (profile : RoutingProfile) (t : gmap string Row)
    : option Generation :=
  t !! id ≫= fun r =>
  if String.eqb (row_routing_profile r) (profile_as_str profile) then Some (selected r) else None.

(** ** The ledger *)

Record Ledger : Type := { public_provider_aliases : list (string * string) }.

Definition ledger_with_health : Ledger := {| public_provider_aliases := [] |}.

Definition public_alias (p : Provider) : option (string * string) :=
  match public_display_name p, public_tag p with
  | Some display_name, Some _ => Some (id p, display_name)
  | _, _ => None
  end.

Definition with_public_provider_aliases (r : Registry) (l : Ledger) : Ledger :=
  {| public_provider_aliases :=
       foldl (fun m a => bt_insert String.compare a.1 a.2 m) [] (omap public_alias (providers r)) |}.

Definition public_provider_name (l : Ledger) (provider_id : string) : string :=
  default provider_id (bt_get String.compare provider_id (public_provider_aliases l)).

Context {N : Notify}.

(** The state the ledger's pool and health share with the rest. *)
Record LedgerState : Type := { table : gmap string Row; database_health : DatabaseHealth }.

(** A write statement's effect on the table under a delivery, and its result. *)
Definition deliver (d : Delivery) (t : gmap string Row)
    (statement : gmap string Row -> result SqlError (gmap string Row))
    : result SqlError unit * gmap string Row :=
  match d with
  | Lost e => (Err e, t)
  | Answered => match statement t with Ok t' => (Ok tt, t') | Err e => (Err e, t) end
  | AnswerLost e => (Err e, match statement t with Ok t' => t' | Err _ => t end)
  end.

Definition report {A} (r : result SqlError A) (h : DatabaseHealth) : DatabaseHealth :=
  match r with Ok _ => report_ready h | Err _ => report_failure h end.

Definition insert (d : Delivery) (now : timestamp) (g : GenerationWrite) (s : LedgerState)
    : result SqlError unit * LedgerState :=
  let '(r, t) := deliver d (table s) (execute_insert now g) in
  (r, {| table := t; database_health := report r (database_health s) |}).

Definition fetch (d : Delivery) (id : string) (profile : RoutingProfile) (s : LedgerState)
    : result SqlError (option Generation) * LedgerState :=
  let r := match d with
           | Answered => Ok (execute_select id profile (table s))
           | Lost e | AnswerLost e => Err e
           end in
  (r, {| table := table s; database_health := report r (database_health s) |}).

(** ** GET /api/v1/generation *)

Context {J : SerdeJson}.

Definition JsonResponse : Type := Z * Value.

Definition api_error (status : Z) (message : string) : JsonResponse :=
  (status, json_object [("error", json_object [("message", JString message)])]).

Definition decimal_value (value : decimal) : outcome Value :=
  expect "Decimal always serializes as a JSON number" (number_from_str (dec_to_string value))
    ≫= fun n => Done (Number n).

Definition json_i64 (n : Z) : Value := Number (pretty n).
Definition json_option_i64 (n : option Z) : Value :=
  match n with Some n => json_i64 n | None => Null end.

Definition generation_response (g : Generation) (provider_name : string) : outcome JsonResponse :=
  match g_reported_cost_usd g with Some c => decimal_value c | None => Done Null end ≫= fun total_cost =>
  Done (200, json_object [("data", json_object
    [("id", JString (g_id g)); ("created_at", JString (timestamp_to_string (g_created_at g)));
     ("model", JString (g_canonical_slug g)); ("provider_name", JString provider_name);
     ("tokens_prompt", json_option_i64 (g_prompt_tokens g));
     ("tokens_completion", json_option_i64 (g_completion_tokens g));
     ("total_cost", total_cost); ("latency", json_i64 (g_latency_ms g))])]).

(** [query] is [None] when the query string has no usable [id]. *)
Definition get_generation (l : Ledger) (d : Delivery) (profile : RoutingProfile)
    (query : option string) (s : LedgerState) : outcome (JsonResponse * LedgerState) :=
  match query with
  | Some id =>
      if str_is_empty (trim id) then Done (api_error 400 "id is required", s)
      else
        let '(r, s) := fetch d id profile s in
        match r with
        | Ok (Some g) =>
            generation_response g (public_provider_name l (g_provider_id g)) ≫= fun response =>
            Done (response, s)
        | Ok None => Done (api_error 404 "generation not found", s)
        | Err _ => Done (api_error 503 "generation ledger unavailable", s)
        end
  | None => Done (api_error 400 "id is required", s)
  end.

(** ** Lemmas *)

Lemma execute_insert_Ok now g t t' :
  execute_insert now g t = Ok t' <->
  exists cost, numeric_18_10 (gw_cost_usd g) = Some cost /\ row_checks (inserted_row now g cost) = true /\
    t !! gw_id g = None /\ t' = <[gw_id g := inserted_row now g cost]> t.
Proof.
  unfold execute_insert. rewrite bind_Ok. setoid_rewrite ok_or_Ok. split.
  - intros (cost & Hc & H). exists cost. destruct (row_checks _); [|done].
    destruct (t !! gw_id g) eqn:E; [done|]. by injection H as <-.
  - intros (cost & Hc & Hk & E & ->). exists cost. by rewrite Hk, E.
Qed.

(** Whatever its delivery, an insert only ever adds the row of its own id. *)
Lemma insert_table d now g s r s' :
  insert d now g s = (r, s') ->
  table s' = table s \/
  (exists cost, table s !! gw_id g = None /\ table s' = <[gw_id g := inserted_row now g cost]> (table s)).
Proof.
  unfold insert, deliver. destruct d; [|intros [= _ <-]; by left|].
  - destruct (execute_insert now g (table s)) as [t'|e] eqn:E; intros [= _ <-]; [|by left].
    apply execute_insert_Ok in E as (cost & _ & _ & ? & ->). right. eauto.
  - destruct (execute_insert now g (table s)) as [t'|e'] eqn:E; intros [= _ <-]; [|by left].
    apply execute_insert_Ok in E as (cost & _ & _ & ? & ->). right. eauto.
Qed.

Lemma aliases_get (as_ : list (string * string)) (m : list (string * string)) k :
  NoDup as_.*1 ->
  bt_get String.compare k (foldl (fun m a => bt_insert String.compare a.1 a.2 m) m as_) =
  match find_b (fun a => String.eqb a.1 k) as_ with
  | Some a => Some a.2
  | None => bt_get String.compare k m
  end.
Proof.
  revert m. induction as_ as [|[j v] as_ IH]; intros m; cbn; [done|].
  intros [Hj Hnd]%NoDup_cons. rewrite IH by done. cbn.
  destruct (String.eqb_spec j k) as [->|Hne].
  - destruct (find_b _ as_) as [a|] eqn:E.
    + apply find_b_Some in E as [Ha Hin]. apply String.eqb_eq in Ha as <-.
      destruct Hj. by apply list_elem_of_fmap_2.
    + by rewrite (bt_get_insert_eq _ string_compare_eq).
  - by rewrite (bt_get_insert_ne _ string_compare_eq).
Qed.

Lemma omap_find_alias ps k :
  NoDup (id <$> ps) ->
  find_b (fun a => String.eqb a.1 k) (omap public_alias ps) =
  find_b (fun p => String.eqb (id p) k) ps ≫= public_alias.
Proof.
  induction ps as [|p ps IH]; cbn; [done|]. intros [Hp Hnd]%NoDup_cons.
  destruct (public_alias p) as [[i n]|] eqn:E; cbn.
  - assert (i = id p) as ->
      by (unfold public_alias in E; destruct (public_display_name p), (public_tag p); by simplify_eq).
    destruct (String.eqb_spec (id p) k); [done|]. by apply IH.
  - rewrite (IH Hnd). destruct (String.eqb_spec (id p) k) as [<-|]; [|done]. cbn. rewrite E.
    destruct (find_b _ ps) as [q|] eqn:Eq; [|done].
    apply find_b_Some in Eq as [Hq%String.eqb_eq Hin]. destruct Hp. rewrite <- Hq. by apply list_elem_of_fmap_2.
Qed.

Lemma alias_keys ps : NoDup (id <$> ps) -> NoDup (omap public_alias ps).*1.
Proof.
  intros H. eapply sublist_NoDup; [exact H|]. clear H. induction ps as [|p ps IH]; cbn; [constructor|].
  unfold public_alias at 1. destruct (public_display_name p), (public_tag p); cbn; by constructor.
Qed.

(** The ledger's name for a provider is the registry's catalog name of an
    aliased provider, and the id of any other one. *)
Lemma public_provider_name_spec r l k :
  NoDup (id <$> providers r) ->
  public_provider_name (with_public_provider_aliases r l) k =
  match find_b (fun p => String.eqb (id p) k) (providers r) ≫= public_alias with
  | Some a => a.2
  | None => k
  end.
Proof.
  intros Hnd. unfold public_provider_name. cbn [public_provider_aliases with_public_provider_aliases].
  rewrite aliases_get by by apply alias_keys. rewrite omap_find_alias by done.
  by destruct (find_b _ _ ≫= public_alias) as [[]|].
Qed.
End Ledger.
