(* ===== verification/LedgerProps.v ===== *)
(** The properties of the generation ledger ([ledger.rs]): what is written is
    read back exactly and only under its own profile, rows are never changed,
    and the generation endpoint's answers. *)

From Stdlib Require Import QArith ZArith.
From S2P Require Import Prelude RustDecimal RoutingProfile Registry Json RefJson Pricing.
From S2P Require Import Database Ledger Fixtures.

#[local] Open Scope Z_scope.

Section Props.
Context {D : RustDecimal} {T : Jiff} {N : Notify}.

Lemma fetch_answered id profile s :
  fetch Answered id profile s =
  (Ok (execute_select id profile (table s)),
   {| table := table s; database_health := report_ready (database_health s) |}).
Proof. done. Qed.

(** A value with ten decimal places is stored as it is. *)
Lemma stored_exact (val : decimal -> Q) {L : DecimalLaws val} c n stored :
  Z.abs n < 2 ^ 96 -> (val c == n # pow10 10)%Q -> numeric_18_10 c = Some stored -> (val stored == val c)%Q.
Proof.
  intros Hn E. unfold numeric_18_10. destruct (dec_lt _ _); [|done]. intros [= <-].
  assert (val (dec_round_away 10 c) == n # pow10 10)%Q as Hr.
  { rewrite law_round by lia. rewrite E. unfold round_away. cbn [Qnum Qden].
    by rewrite RefDecimal.div_away_exact. }
  rewrite (law_rescale 10 _ n) by (done || lia). by rewrite Hr, E.
Qed.

(** C36: Round trip and isolation: a generation whose insert succeeded is read
    back under its profile with the fields written and exactly the cost
    written, both as the reported and as the provider cost; under any other
    profile the id is unknown; and the database counts as available. *)
Theorem ledger_round_trip (val : decimal -> Q) {L : DecimalLaws val} now g s s' n :
  insert Answered now g s = (Ok tt, s') ->
  Z.abs n < 2 ^ 96 -> (val (gw_cost_usd g) == n # pow10 10)%Q ->
  (exists gen cost, (fetch Answered (gw_id g) (gw_routing_profile g) s').1 = Ok (Some gen) /\
    g_id gen = gw_id g /\ g_created_at gen = now /\ g_canonical_slug gen = gw_canonical_slug g /\
    g_provider_id gen = gw_provider_id g /\ g_prompt_tokens gen = Some (gw_prompt_tokens g) /\
    g_completion_tokens gen = Some (gw_completion_tokens g) /\ g_latency_ms gen = gw_latency_ms g /\
    g_reported_cost_usd gen = Some cost /\ g_provider_cost_usd gen = Some cost /\
    (val cost == val (gw_cost_usd g))%Q) /\
  (forall profile, profile <> gw_routing_profile g ->
     (fetch Answered (gw_id g) profile s').1 = Ok None) /\
  status (database_health s') = Ready.
Proof.
  intros H Hn E. unfold insert, deliver in H.
  destruct (execute_insert now g (table s)) as [t'|e] eqn:Ei; [|done]. injection H as <-.
  apply execute_insert_Ok in Ei as (cost & Hc & _ & _ & ->). cbn.
  split_and!; [|intros profile Hp|done]; unfold execute_select; rewrite lookup_insert_eq; cbn.
  - rewrite String.eqb_refl. exists (selected (inserted_row now g cost)), cost.
    split_and!; try done. by eapply stored_exact.
  - destruct (String.eqb_spec (profile_as_str (gw_routing_profile g)) (profile_as_str profile)) as [Ep|]; [|done].
    by destruct (gw_routing_profile g), profile.
Qed.

(** ** Histories *)

Inductive LedgerOp : Type :=
| Insert (d : Delivery) (now : timestamp) (g : GenerationWrite)
| Fetch (d : Delivery) (id : string) (profile : RoutingProfile).

Definition apply_op (s : LedgerState) (op : LedgerOp) : LedgerState :=
  match op with
  | Insert d now g => (insert d now g s).2
  | Fetch d id profile => (fetch d id profile s).2
  end.

Definition run_ops (s : LedgerState) (ops : list LedgerOp) : LedgerState := foldl apply_op s ops.

Lemma apply_op_keeps s op id r : table s !! id = Some r -> table (apply_op s op) !! id = Some r.
Proof.
  intros Hr. destruct op as [d now g|d i p]; cbn; [|done].
  destruct (insert d now g s) as [res s'] eqn:E. cbn.
  apply insert_table in E as [->|(cost & Hn & ->)]; [done|].
  rewrite lookup_insert_ne; [done|]. intros E'. rewrite E' in Hn. congruence.
Qed.

(** The ledger is append-only: through any history of inserts and lookups,
    delivered, lost or with their answers lost, a row once written stays what
    it was; so a later insert of the same id is refused, whoever makes it. *)
Theorem ledger_append_only s ops id r :
  table s !! id = Some r ->
  table (run_ops s ops) !! id = Some r /\
  forall now g, gw_id g = id -> is_ok (insert Answered now g (run_ops s ops)).1 = false.
Proof.
  intros Hr. assert (table (run_ops s ops) !! id = Some r) as Hk.
  { revert s Hr. unfold run_ops. induction ops as [|op ops IH]; intros s Hr; cbn; [done|].
    apply IH. by apply apply_op_keeps. }
  split; [done|]. intros now g <-. unfold insert, deliver.
  destruct (execute_insert now g _) as [t'|e] eqn:E; [|done].
  apply execute_insert_Ok in E as (cost & _ & _ & Hn & _). by rewrite Hk in Hn.
Qed.

(** A ledger operation that fails, lost, unanswered or refused alike, marks
    the database degraded with a wake-up stored for the supervisor; one that
    succeeds marks it available. *)
Lemma ledger_reports_health {L : NotifyLaws N} s op :
  let failed := match op with
                | Insert d now g => negb (is_ok (insert d now g s).1)
                | Fetch d id profile => negb (is_ok (fetch d id profile s).1)
                end in
  let h := database_health (apply_op s op) in
  if failed then status h = Degraded /\ is_Some (notified (recovery_requested h)) else status h = Ready.
Proof.
  destruct op as [d now g|d i p]; cbn.
  - unfold insert. destruct (deliver d (table s) (execute_insert now g)) as [[[]|e] t]; cbn; [done|].
    split; [done|apply law_notify_one].
  - destruct d; cbn; [done|by split; [|apply law_notify_one]..].
Qed.

(** A provider repeating a response id is a failed insert: the database is
    reported degraded although it is available. *)
Lemma repeated_id_degrades now g s cost r :
  numeric_18_10 (gw_cost_usd g) = Some cost -> row_checks (inserted_row now g cost) = true ->
  table s !! gw_id g = Some r ->
  insert Answered now g s =
  (Err UniqueViolation, {| table := table s; database_health := report_failure (database_health s) |}).
Proof. intros Hc Hk Hr. unfold insert, deliver, execute_insert. cbn. rewrite Hc. cbn. by rewrite Hk, Hr. Qed.

(** ** Historical rows *)

(** The migration keeps what a historical row reports. *)
Lemma migrate_reports r :
  row_provider_cost_usd r = None -> row_sell_price_usd r = None ->
  g_reported_cost_usd (selected (migrate_0003 r)) = row_cost_usd r.
Proof.
  intros Hp Hs. unfold migrate_0003. destruct (row_cost_usd r) as [c|] eqn:E; cbn; [done|].
  by rewrite Hs, Hp, E.
Qed.

(** ** The endpoint *)

Context {J : SerdeJson}.

Definition field (path : list string) (body : Value) : option Value := pointer path body.

(** The answer to a query about a stored row. *)
Definition answers (l : Ledger) (r : Row) (body : Value) : Prop :=
  field ["data"; "id"] body = Some (JString (row_id r)) /\
  field ["data"; "model"] body = Some (JString (row_canonical_slug r)) /\
  field ["data"; "provider_name"] body = Some (JString (public_provider_name l (row_provider_id r))) /\
  field ["data"; "tokens_prompt"] body = Some (json_option_i64 (row_prompt_tokens r)) /\
  field ["data"; "tokens_completion"] body = Some (json_option_i64 (row_completion_tokens r)) /\
  field ["data"; "latency"] body = Some (json_i64 (row_latency_ms r)) /\
  match g_reported_cost_usd (selected r) with
  | None => field ["data"; "total_cost"] body = Some Null
  | Some c => exists n, number_from_str (dec_to_string c) = Some n /\
                        field ["data"; "total_cost"] body = Some (Number n)
  end.

(** The generation endpoint answers every request, as long as decimals
    print as JSON numbers: 400 to a missing or blank id; 503 when the lookup is
    lost; the row's data, under the provider's public name, when there is a row
    of that id written under the caller's profile; and the same 404 whether the
    id is unknown or belongs to another profile. *)
Theorem get_generation_spec l d profile query s :
  (forall c : decimal, is_Some (number_from_str (dec_to_string c))) ->
  exists code body s', get_generation l d profile query s = Done ((code, body), s') /\
  match query with
  | None => code = 400 /\ s' = s
  | Some id =>
      if str_is_empty (trim id) then code = 400 /\ s' = s
      else table s' = table s /\
           match d with
           | Answered =>
               match table s !! id with
               | Some r =>
                   if String.eqb (row_routing_profile r) (profile_as_str profile)
                   then code = 200 /\ answers l r body
                   else (code, body) = api_error 404 "generation not found"
               | None => (code, body) = api_error 404 "generation not found"
               end
           | _ => code = 503
           end
  end.
Proof.
  intros Hp. unfold get_generation. destruct query as [id|]; [|by do 3 eexists].
  destruct (str_is_empty (trim id)); [by do 3 eexists|].
  destruct d; cbn -[api_error]; [|by do 3 eexists..]. unfold execute_select.
  destruct (table s !! id) as [r|]; cbn -[api_error]; [|by do 3 eexists].
  destruct (String.eqb _ _); [|by do 3 eexists]. cbn [option_bind]. unfold generation_response.
  destruct (g_reported_cost_usd (selected r)) as [c|] eqn:Ec.
  - destruct (Hp c) as [n Hn]. unfold decimal_value. rewrite Hn. cbn [expect mbind outcome_bind].
    do 3 eexists. split; [reflexivity|]. split; [done|]. split; [done|]. unfold answers. rewrite Ec.
    split_and!; try reflexivity. by exists n.
  - cbn [mbind outcome_bind]. do 3 eexists. split; [reflexivity|]. split; [done|]. split; [done|].
    unfold answers. rewrite Ec. split_and!; reflexivity.
Qed.
End Props.

(** ** Witnesses *)

Definition sample_write : GenerationWrite :=
  {| gw_id := "gen-1"; gw_routing_profile := Beta; gw_canonical_slug := "acme/chat";
     gw_provider_id := "bravo"; gw_prompt_tokens := 1000; gw_completion_tokens := 500;
     gw_cost_usd := dec 20000000 10; gw_latency_ms := 321; gw_status := 200 |}.

Definition empty_ledger : LedgerState (T := RefJiff.epoch) (N := RefNotify.permit) :=
  {| table := ∅; database_health := starting |}.
Definition written : LedgerState := (insert Answered 7 sample_write empty_ledger).2.
Definition written_row : Row (T := RefJiff.epoch) := inserted_row 7 sample_write (dec 20000000 10).

Lemma written_Ok : insert Answered 7 sample_write empty_ledger = (Ok tt, written).
Proof. vm_reflexivity. Qed.

Lemma written_lookup : table written !! "gen-1" = Some written_row.
Proof. vm_reflexivity. Qed.

Lemma ledger_round_trip_witness :
  (exists gen cost, (fetch Answered (gw_id sample_write) (gw_routing_profile sample_write) written).1
      = Ok (Some gen) /\
    g_id gen = gw_id sample_write /\ g_created_at gen = 7 /\
    g_canonical_slug gen = gw_canonical_slug sample_write /\
    g_provider_id gen = gw_provider_id sample_write /\
    g_prompt_tokens gen = Some (gw_prompt_tokens sample_write) /\
    g_completion_tokens gen = Some (gw_completion_tokens sample_write) /\
    g_latency_ms gen = gw_latency_ms sample_write /\
    g_reported_cost_usd gen = Some cost /\ g_provider_cost_usd gen = Some cost /\
    (RefDecimal.val cost == RefDecimal.val (gw_cost_usd sample_write))%Q) /\
  (forall profile, profile <> gw_routing_profile sample_write ->
     (fetch Answered (gw_id sample_write) profile written).1 = Ok None) /\
  status (database_health written) = Ready.
Proof.
  assert (Z.abs 20000000 < 2 ^ 96) as Hn by lia.
  assert (RefDecimal.val (gw_cost_usd sample_write) == 20000000 # pow10 10)%Q as He by reflexivity.
  exact (ledger_round_trip (D := RefDecimal.decimal) RefDecimal.val 7 sample_write empty_ledger written 20000000
           written_Ok Hn He).
Defined.

Lemma ledger_append_only_witness :
  table (run_ops written [Insert Answered 9 sample_write; Fetch (Lost PoolTimedOut) "gen-1" Beta]) !! "gen-1"
    = Some written_row /\
  forall now g, gw_id g = "gen-1" ->
    is_ok (insert Answered now g
      (run_ops written [Insert Answered 9 sample_write; Fetch (Lost PoolTimedOut) "gen-1" Beta])).1 = false.
Proof. exact (ledger_append_only written _ "gen-1" written_row written_lookup). Defined.

Lemma get_generation_spec_witness :
  exists code body s', get_generation (J := RefJson.json) ledger_with_health Answered Beta (Some "gen-1") written
    = Done ((code, body), s') /\
  (table s' = table written /\ (code = 200 /\ answers (J := RefJson.json) ledger_with_health written_row body)).
Proof.
  assert (forall c : RefDecimal.t, is_Some (number_from_str (SerdeJson := RefJson.json)
    (dec_to_string (RustDecimal := RefDecimal.decimal) c))) as Hp by (intros c; cbn; eauto).
  destruct (get_generation_spec (D := RefDecimal.decimal) (J := RefJson.json)
    ledger_with_health Answered Beta (Some "gen-1") written Hp) as (code & body & s' & H & Hs).
  exists code, body, s'. split; [exact H|]. exact Hs.
Defined.
