(* ===== verification/Generation.v ===== *)
(** [src/src/proxy.rs], the generation's side: the context that follows a
    completion from its first byte to its ledger row, its timings and
    measurements, and the streamed body that feeds the usage transformer.

    [Instant]s are nanosecond counts read by the environment; the ledger insert
    that [record_at] spawns is a value to be run, and the log lines are kept
    only where they say that a record was omitted. *)

From Stdlib Require Import ZArith.
From S2P Require Import Prelude Float64 RustDecimal RoutingProfile Registry Json Measurements.
From S2P Require Import Pricing UsageCost Sse Database Ledger.

#[local] Open Scope Z_scope.

(** [i64::try_from] of a [u64] or [u128]. *)
Definition try_i64 (n : Z) : option Z := if n <=? i64_max then Some n else None.

(** [i16::try_from] of a [u16]. *)
Definition try_i16 (n : Z) : option Z := if n <=? 32767 then Some n else None.

Definition saturating_duration_since (later earlier : Z) : Z := Z.max 0 (later - earlier).
Definition as_millis (d : Z) : Z := d / 1000000.
Definition saturating_add (d e : Z) : Z := Z.min (d + e) duration_max.

(** ** Contexts *)

Record GenerationTiming : Type := {
  gt_request_started_at : Z;
  gt_attempt_started_at : Z;
  gt_headers_received_at : Z;
  gt_first_output_at : option Z;
  gt_processing_duration : Z;
  gt_profile : RoutingProfile
}.

Definition streaming (request_started_at attempt_started_at headers_received_at : Z)
    (profile : RoutingProfile) : GenerationTiming :=
  {| gt_request_started_at := request_started_at; gt_attempt_started_at := attempt_started_at;
     gt_headers_received_at := headers_received_at; gt_first_output_at := None;
     gt_processing_duration := 0; gt_profile := profile |}.

Definition non_streaming (request_started_at attempt_started_at headers_received_at processing_duration : Z)
    (profile : RoutingProfile) : GenerationTiming :=
  {| gt_request_started_at := request_started_at; gt_attempt_started_at := attempt_started_at;
     gt_headers_received_at := headers_received_at; gt_first_output_at := Some headers_received_at;
     gt_processing_duration := processing_duration; gt_profile := profile |}.

Record GenerationContext : Type := {
  gc_canonical_slug : string;
  gc_provider_id : string;
  gc_status : Z;
  gc_request_started_at : Z;
  gc_attempt_started_at : Z;
  gc_headers_received_at : Z;
  gc_first_output_at : option Z;
  gc_processing_duration : Z;
  gc_endpoint : string;
  gc_profile : RoutingProfile
}.

Definition GenerationContext_new (canonical_slug : string) (served_provider : ServedProvider)
    (status : Z) (timing : GenerationTiming) (endpoint : string) : GenerationContext :=
  {| gc_canonical_slug := canonical_slug; gc_provider_id := served_provider; gc_status := status;
     gc_request_started_at := gt_request_started_at timing;
     gc_attempt_started_at := gt_attempt_started_at timing;
     gc_headers_received_at := gt_headers_received_at timing;
     gc_first_output_at := gt_first_output_at timing;
     gc_processing_duration := gt_processing_duration timing;
     gc_endpoint := endpoint; gc_profile := gt_profile timing |}.

Definition observe_first_output (observed_at : Z) (g : GenerationContext) : GenerationContext :=
  {| gc_canonical_slug := gc_canonical_slug g; gc_provider_id := gc_provider_id g;
     gc_status := gc_status g; gc_request_started_at := gc_request_started_at g;
     gc_attempt_started_at := gc_attempt_started_at g;
     gc_headers_received_at := gc_headers_received_at g;
     gc_first_output_at := option_or (gc_first_output_at g) (Some observed_at);
     gc_processing_duration := gc_processing_duration g;
     gc_endpoint := gc_endpoint g; gc_profile := gc_profile g |}.

Definition observe_processing (duration : Z) (g : GenerationContext) : GenerationContext :=
  {| gc_canonical_slug := gc_canonical_slug g; gc_provider_id := gc_provider_id g;
     gc_status := gc_status g; gc_request_started_at := gc_request_started_at g;
     gc_attempt_started_at := gc_attempt_started_at g;
     gc_headers_received_at := gc_headers_received_at g;
     gc_first_output_at := gc_first_output_at g;
     gc_processing_duration := saturating_add (gc_processing_duration g) duration;
     gc_endpoint := gc_endpoint g; gc_profile := gc_profile g |}.

Section Generation.
Context {D : RustDecimal}.

(** ** Recording a costed completion *)

(** One sample of the segment histogram: endpoint, profile, provider, segment,
    duration. *)
Definition SegmentSample : Type := string * RoutingProfile * string * string * Z.

Definition proxy_segments (g : GenerationContext) (completed_at : Z) : list SegmentSample :=
  match gc_first_output_at g with
  | None => []
  | Some first_output_at =>
      (fun s => (gc_endpoint g, gc_profile g, gc_provider_id g, s.1, s.2)) <$>
      [("pre_sidecar", saturating_duration_since (gc_attempt_started_at g) (gc_request_started_at g));
       ("sidecar_headers", saturating_duration_since (gc_headers_received_at g) (gc_attempt_started_at g));
       ("first_output", saturating_duration_since first_output_at (gc_attempt_started_at g));
       ("sidecar_stream", saturating_duration_since completed_at (gc_headers_received_at g));
       ("post_first_output", saturating_duration_since completed_at first_output_at);
       ("app_processing", gc_processing_duration g);
       ("total", saturating_duration_since completed_at (gc_request_started_at g))]
  end.

Definition measured (g : GenerationContext) (costed : CostedUsage) (completed_at : Z)
    : option Observation :=
  gc_first_output_at g ≫= fun first_output_at =>
  let stream_duration := saturating_duration_since completed_at first_output_at in
  if stream_duration =? 0 then None
  else Some {| Measurements.completion_tokens := Pricing.completion_tokens (cu_usage costed);
               stream_duration := stream_duration;
               time_to_first_token :=
                 saturating_duration_since first_output_at (gc_attempt_started_at g) |}.

Definition record_measurement (g : GenerationContext) (costed : CostedUsage) (completed_at : Z)
    (store : MeasurementStore) : MeasurementStore :=
  match measured g costed completed_at with
  | None => store
  | Some o =>
      match observe_for store (gc_profile g) (gc_provider_id g) (gc_canonical_slug g) o with
      | Ok (_, store') => store'
      | Err _ => store
      end
  end.

(** What recording leaves: the measurements, the histogram samples, and the
    ledger row to insert or the reason why there is none. *)
Record Recorded : Type := {
  re_store : MeasurementStore;
  re_segments : list SegmentSample;
  re_write : string + GenerationWrite
}.

Definition ledger_write (g : GenerationContext) (costed : CostedUsage) (completed_at : Z)
    : outcome (string + GenerationWrite) :=
  match response_id costed with
  | None => Done (inl "costed response omitted a provider response id")
  | Some id =>
  match try_i64 (prompt_tokens (cu_usage costed)) with
  | None => Done (inl "prompt token count exceeds the ledger BIGINT")
  | Some prompt_tokens =>
  match try_i64 (Pricing.completion_tokens (cu_usage costed)) with
  | None => Done (inl "completion token count exceeds the ledger BIGINT")
  | Some completion_tokens =>
  let latency_ms :=
    default i64_max
      (try_i64 (as_millis (saturating_duration_since completed_at (gc_request_started_at g)))) in
  expect "HTTP status fits in SMALLINT" (try_i16 (gc_status g)) ≫= fun status =>
  Done (inr {| gw_id := id; gw_routing_profile := gc_profile g;
               gw_canonical_slug := gc_canonical_slug g; gw_provider_id := gc_provider_id g;
               gw_prompt_tokens := prompt_tokens; gw_completion_tokens := completion_tokens;
               gw_cost_usd := cu_cost_usd costed; gw_latency_ms := latency_ms;
               gw_status := status |})
  end end end.

Definition record_at (g : GenerationContext) (costed : CostedUsage) (completed_at : Z)
    (store : MeasurementStore) : outcome Recorded :=
  ledger_write g costed completed_at ≫= fun write =>
  Done {| re_store := record_measurement g costed completed_at store;
          re_segments := proxy_segments g completed_at; re_write := write |}.

(** ** The streamed body *)

(** A chunk or an error of the upstream's body, with the clock readings made
    around it. *)
Record Arrival : Type := {
  ar_item : option (list byte);
  ar_observed_at : Z;
  ar_processing : Z;
  ar_recorded_at : Z
}.

(** What the stream does besides its output: [generation.record] or
    [generation.warn_incomplete], either consuming the generation. *)
Inductive StreamEvent : Type :=
| Records (g : GenerationContext) (costed : CostedUsage) (completed_at : Z)
| Incomplete (reason : string).

(** The state of the unfold; [ss_end] is the clock at the end of the input. *)
Record StreamState : Type := {
  ss_input : list Arrival;
  ss_end : Arrival;
  ss_transformer : option UsageCostTransformer;
  ss_generation : option GenerationContext
}.

(** [if let Some(completed) = completed && let Some(generation) = ..take()]. *)
Definition record_completed (completed : option CostedUsage) (generation : option GenerationContext)
    (at_ : Z) : option GenerationContext * list StreamEvent :=
  match completed, generation with
  | Some usage, Some g => (None, [Records g usage at_])
  | _, _ => (generation, [])
  end.

(** [if .. && let Some(generation) = ..take() { generation.warn_incomplete(..) }]. *)
Definition warn_if (b : bool) (reason : string) (generation : option GenerationContext)
    : option GenerationContext * list StreamEvent :=
  match b, generation with
  | true, Some _ => (None, [Incomplete reason])
  | _, _ => (generation, [])
  end.

Context {J : SerdeJson}.

Definition StreamPoll : Type := outcome (option (option (list byte) * StreamState) * list StreamEvent).

Definition with_event (log : list StreamEvent) (p : StreamPoll) : StreamPoll :=
  p ≫= fun r => Done (r.1, log ++ r.2).

(** The [loop]: it reads arrivals until there is output to yield.  A yielded
    [None] item is the upstream's error. *)
Fixpoint stream_loop (input : list Arrival) (fin : Arrival) (transformer : option UsageCostTransformer)
    (generation : option GenerationContext) : StreamPoll :=
  match input with
  | a :: input' =>
      match ar_item a with
      | Some chunk =>
          let generation :=
            match chunk with
            | [] => generation
            | _ => observe_first_output (ar_observed_at a) <$> generation
            end in
          expect "transformer is present until the source ends" transformer ≫= fun current =>
          transform current chunk ≫= fun '(next, output, completed) =>
          let generation := observe_processing (ar_processing a) <$> generation in
          let transformer := if closed next then None else Some next in
          let '(generation, recorded) := record_completed completed generation (ar_recorded_at a) in
          let '(generation, warned) :=
            warn_if (closed next && negb (is_some completed))
              "stream was closed before a costed terminal usage event" generation in
          with_event (recorded ++ warned)
            match output with
            | [] => stream_loop input' fin transformer generation
            | _ => Done (Some (Some output, {| ss_input := input'; ss_end := fin;
                                               ss_transformer := transformer;
                                               ss_generation := generation |}), [])
            end
      | None =>
          let '(generation, warned) := warn_if true "upstream stream returned an error" generation in
          Done (Some (None, {| ss_input := input'; ss_end := fin; ss_transformer := None;
                               ss_generation := generation |}), warned)
      end
  | [] =>
      expect "transformer is present until the source ends" transformer ≫= fun current =>
      finish current ≫= fun '(output, completed) =>
      let generation := observe_processing (ar_processing fin) <$> generation in
      let '(generation, recorded) := record_completed completed generation (ar_recorded_at fin) in
      let '(generation, warned) :=
        warn_if true "stream ended before a costed usage event and [DONE]" generation in
      Done (match output with
            | [] => None
            | _ => Some (Some output, {| ss_input := []; ss_end := fin; ss_transformer := None;
                                         ss_generation := generation |})
            end, recorded ++ warned)
  end.

(** One poll of [stream_with_response_transformer]. *)
Definition stream_poll (s : StreamState) : StreamPoll :=
  match ss_transformer s with
  | None => Done (None, [])
  | Some _ => stream_loop (ss_input s) (ss_end s) (ss_transformer s) (ss_generation s)
  end.

Definition stream_with_response_transformer (input : list Arrival) (fin : Arrival)
    (transformer : UsageCostTransformer) (generation : option GenerationContext) : StreamState :=
  {| ss_input := input; ss_end := fin; ss_transformer := Some transformer;
     ss_generation := generation |}.

(** The body polled to its end: the items the client receives, and what was
    recorded.  Every yielding poll but the last consumes an arrival. *)
Fixpoint stream_run (fuel : nat) (s : StreamState)
    : outcome (list (option (list byte)) * list StreamEvent) :=
  match fuel with
  | O => Panic "out of fuel"
  | S fuel' =>
      stream_poll s ≫= fun '(polled, log) =>
      match polled with
      | None => Done ([], log)
      | Some (item, s') => stream_run fuel' s' ≫= fun r => Done (item :: r.1, log ++ r.2)
      end
  end.
End Generation.

(** ** Recorded measurements *)

(** A clock reading, in nanoseconds from the epoch of the process clock. *)
Definition instant_ok (t : Z) : Prop := 0 <= t <= duration_max.

Definition instants_ok (g : GenerationContext) (completed_at : Z) : Prop :=
  instant_ok (gc_attempt_started_at g) /\ instant_ok completed_at /\
  forall t, gc_first_output_at g = Some t -> instant_ok t.

Lemma record_measurement_observed {D : RustDecimal} g costed completed_at store :
  observed store -> tokens_ok (Pricing.completion_tokens (cu_usage costed)) -> instants_ok g completed_at ->
  observed (record_measurement g costed completed_at store).
Proof.
  intros Hs Ht (Ha & Hc & Hf). unfold record_measurement, measured.
  destruct (gc_first_output_at g) as [first|]; [|done]. specialize (Hf first eq_refl). cbn [mbind option_bind].
  destruct (Z.eqb_spec (saturating_duration_since completed_at first) 0) as [|Hne]; [done|].
  destruct (observe_for _ _ _ _ _) as [[m store']|] eqn:E; [|done].
  eapply observed_step; [exact Hs| |exact E].
  unfold observation_wf, saturating_duration_since, instant_ok, tokens_ok in *.
  unfold duration_max, from_secs, NANOS_PER_SEC, Float64.NANOS_PER_SEC, u64_max in *.
  cbn [Measurements.completion_tokens stream_duration time_to_first_token]. lia.
Qed.

Lemma record_at_observed {D : RustDecimal} g costed completed_at store r :
  observed store -> tokens_ok (Pricing.completion_tokens (cu_usage costed)) -> instants_ok g completed_at ->
  record_at g costed completed_at store = Done r -> observed (re_store r).
Proof.
  intros Hs Ht Hi. unfold record_at. intros (w & _ & [= <-])%bind_Done.
  by apply record_measurement_observed.
Qed.

Lemma record_total {D : RustDecimal} g costed at_ store : gc_status g <= 999 -> exists r, record_at g costed at_ store = Done r.
Proof.
  intros Hs. unfold record_at, ledger_write. destruct (response_id costed); [|cbn; eauto].
  destruct (try_i64 _); [|cbn; eauto]. destruct (try_i64 _); [|cbn; eauto].
  unfold try_i16. rewrite (proj2 (Z.leb_le (gc_status g) 32767)) by lia. cbn. eauto.
Qed.
