(* ===== verification/StreamRecords.v ===== *)
(** What a streamed body records is always fit for the measurement store: its
    token counts are 64-bit and its instants are clock readings, so a store
    built by observations stays one. *)

From Stdlib Require Import ZArith Strings.Byte.
From S2P Require Import Prelude Float64 RustDecimal RoutingProfile Registry Json Measurements Pricing UsageCost.
From S2P Require Import Sse SseProps Database Ledger Generation.

#[local] Open Scope Z_scope.

Section Records.
Context {D : RustDecimal} {J : SerdeJson} (Hprintable : printable).

(** ** The usages of a transformer *)

Definition counted (o : option CostedUsage) : Prop :=
  forall u, o = Some u -> tokens_ok (completion_tokens (cu_usage u)).

Lemma counted_None : counted None.
Proof. done. Qed.
#[local] Hint Resolve counted_None : core.

Lemma counted_or o1 o2 : counted o1 -> counted o2 -> counted (option_or o1 o2).
Proof. by destruct o1. Qed.

Lemma injected_counted v p policy v' u :
  inject_usage_cost_value_with_policy v p policy = Done (Ok (v', u)) -> counted (Some u).
Proof. intros H u' [= <-]. by eapply inject_tokens_ok. Qed.

Lemma cost_public_counted t defer v v' usage :
  cost_public t defer v = Done (Some (v', usage)) -> counted usage.
Proof.
  unfold cost_public. destruct (_ && _); [|by intros [= _ <-]].
  destruct (prices t) as [p|]; [|by intros [= _ <-]].
  intros ([[v1 u]|] & Hi & [= _ <-])%bind_Done. by eapply injected_counted.
Qed.

Lemma cost_internal_counted t defer v v' usage :
  cost_internal t defer v = Done (v', usage) -> counted usage.
Proof.
  unfold cost_internal. destruct (prices t) as [p|]; [|by intros [= _ <-]].
  destruct (_ && _); [|by intros [= _ <-]].
  intros ([[v1 u]|] & Hi & [= _ <-])%bind_Done; [by eapply injected_counted|done].
Qed.

Lemma keep_usage_counted usage t :
  counted usage -> counted (costed_usage t) -> counted (costed_usage (keep_usage usage t)).
Proof. by destruct usage. Qed.

Lemma close_counted t model t' o c :
  close_with_generic_error t model = Done (t', o, c) -> counted (costed_usage t') /\ counted c.
Proof. unfold close_with_generic_error. by intros (e & _ & [= <- _ <-])%bind_Done. Qed.

Lemma public_event_counted t event model t' o c :
  counted (costed_usage t) -> transform_public_event t event model = Done (t', o, c) ->
  counted (costed_usage t') /\ counted c.
Proof.
  intros Ht. unfold transform_public_event. intros ([body sep] & _ & H)%bind_Done.
  destruct (single_data_line body) as [[pre data]|]; [|by eapply close_counted].
  destruct (bytes_eqb data DONE).
  { destruct (_ && _); [by eapply close_counted|]. by injection H as <- _ <-. }
  destruct (from_slice data) as [v|]; [|by eapply close_counted].
  destruct (sanitize_public_completion_value v model) as [v1|]; [|by eapply close_counted].
  apply bind_Done in H as (v2 & _ & H). apply bind_Done in H as (costed & Hc & H).
  destruct costed as [[v3 usage]|]; [|by eapply close_counted]. apply cost_public_counted in Hc.
  destruct (to_vec v3) as [json|]; [|by eapply close_counted].
  injection H as <- _ <-. split; [by apply keep_usage_counted|done].
Qed.

Lemma internal_event_counted t event t' o c :
  counted (costed_usage t) -> transform_internal_event t event = Done (t', o, c) ->
  counted (costed_usage t') /\ counted c.
Proof.
  intros Ht. unfold transform_internal_event. intros ([body sep] & _ & H)%bind_Done.
  destruct (single_data_line body) as [[pre data]|]; [|by injection H as <- _ <-].
  destruct (bytes_eqb data DONE); [by injection H as <- _ <-|].
  destruct (from_slice data) as [v|]; [|by injection H as <- _ <-].
  destruct (strip_provider_specific_fields v) as [v1 sanitized].
  apply bind_Done in H as (v2 & _ & H). apply bind_Done in H as ([v3 usage] & Hc & H).
  apply cost_internal_counted in Hc. destruct (_ && _); [by injection H as <- _ <-|].
  destruct (to_vec v3) as [json|]; [|by injection H as <- _ <-].
  injection H as <- _ <-. split; [by apply keep_usage_counted|done].
Qed.

Lemma transform_event_counted t event t' o c :
  counted (costed_usage t) -> transform_event t event = Done (t', o, c) ->
  counted (costed_usage t') /\ counted c.
Proof.
  unfold transform_event. destruct (response_model t); [apply public_event_counted|apply internal_event_counted].
Qed.

Lemma drain_counted f t output completed t' o c :
  counted (costed_usage t) -> counted completed -> drain f t output completed = Done (t', o, c) ->
  counted (costed_usage t') /\ counted c.
Proof.
  revert t output completed. induction f as [|f IH]; intros t output completed Ht Hc; [done|].
  cbn [drain]. destruct (next_event_end (pending t)) as [e|]; [|by intros [= <- _ <-]].
  intros ([[t1 x] ec] & He & H)%bind_Done. apply transform_event_counted in He as [H1 H2]; [|done].
  assert (counted (option_or ec completed)) as H3 by by apply counted_or.
  destruct (closed t1); [by injection H as <- _ <-|]. by eapply IH.
Qed.

Lemma transform_counted t b t' o c :
  counted (costed_usage t) -> transform t b = Done (t', o, c) -> counted (costed_usage t') /\ counted c.
Proof.
  unfold transform. destruct (closed t); [by intros ? [= <- _ <-]|]. intros Ht. by apply drain_counted.
Qed.

Lemma finish_counted t o c : counted (costed_usage t) -> finish t = Done (o, c) -> counted c.
Proof.
  intros Ht. unfold finish. destruct (closed t); [by intros [= _ <-]|].
  destruct (response_model t); [|destruct (is_some_and _ _); by intros [= _ <-]].
  destruct (is_some_and _ _); [destruct (_ && _)|]; try by intros (e & _ & [= _ <-])%bind_Done.
  by intros [= _ <-].
Qed.

(** ** The records of a stream *)

Definition arrival_ok (a : Arrival) : Prop := instant_ok (ar_observed_at a) /\ instant_ok (ar_recorded_at a).

(** A generation whose status is HTTP's and whose instants are clock readings. *)
Definition generation_ok (g : GenerationContext) : Prop :=
  gc_status g <= 999 /\ instant_ok (gc_attempt_started_at g) /\
  forall t, gc_first_output_at g = Some t -> instant_ok t.

Definition all_ok (g : option GenerationContext) : Prop := forall g', g = Some g' -> generation_ok g'.

Definition event_ok (e : StreamEvent) : Prop :=
  match e with
  | Records g u at_ => generation_ok g /\ tokens_ok (completion_tokens (cu_usage u)) /\ instant_ok at_
  | Incomplete _ => True
  end.

Record state_ok (s : StreamState) : Prop := {
  so_input : Forall arrival_ok (ss_input s);
  so_end : arrival_ok (ss_end s);
  so_usage : forall t, ss_transformer s = Some t -> counted (costed_usage t);
  so_generation : all_ok (ss_generation s)
}.

Lemma first_output_ok a g : instant_ok a -> generation_ok g -> generation_ok (observe_first_output a g).
Proof.
  intros Ha (Hs & Ht & Hf). split_and!; [done|done|]. cbn.
  destruct (gc_first_output_at g) as [t|]; cbn; intros x [= <-]; [by apply Hf|done].
Qed.

Lemma all_ok_processing d g : all_ok g -> all_ok (observe_processing d <$> g).
Proof. destruct g as [g|]; [|done]. intros H g' [= <-]. by apply (H g). Qed.

Lemma all_ok_first (chunk : list byte) a g :
  instant_ok a -> all_ok g ->
  all_ok match chunk with [] => g | _ => observe_first_output a <$> g end.
Proof.
  intros Ha Hg. destruct chunk, g as [g|]; [done..| |done]. intros g' [= <-].
  apply first_output_ok; [done|by apply Hg].
Qed.

Lemma record_completed_ok completed g at_ :
  counted completed -> all_ok g -> instant_ok at_ ->
  all_ok (record_completed completed g at_).1 /\ Forall event_ok (record_completed completed g at_).2.
Proof.
  intros Hc Hg Ha. unfold record_completed. destruct completed as [u|], g as [g|]; try done.
  split; [done|]. apply Forall_singleton. split_and!; [by apply Hg|by apply Hc|done].
Qed.

Lemma warn_if_ok b reason g : all_ok g -> all_ok (warn_if b reason g).1 /\ Forall event_ok (warn_if b reason g).2.
Proof. intros Hg. destruct b, g; try done. split; [done|]. by apply Forall_singleton. Qed.

Definition polled_ok (r : option (option (list byte) * StreamState) * list StreamEvent) : Prop :=
  (forall item s, r.1 = Some (item, s) -> state_ok s) /\ Forall event_ok r.2.

Lemma stream_loop_ok input fin t g r :
  state_ok {| ss_input := input; ss_end := fin; ss_transformer := t; ss_generation := g |} ->
  stream_loop input fin t g = Done r -> polled_ok r.
Proof.
  revert t g r. induction input as [|a input IH]; intros t g r [Hi Hf Ht Hg]; cbn in Hi, Hf, Ht, Hg; cbn [stream_loop].
  - intros (current & Hcur & ([output completed] & Hfin & H)%bind_Done)%bind_Done.
    destruct t as [t|]; [|discriminate]. injection Hcur as ->.
    apply finish_counted in Hfin; [|by apply Ht].
    pose proof (record_completed_ok completed (observe_processing (ar_processing fin) <$> g) (ar_recorded_at fin)
      Hfin (all_ok_processing _ _ Hg) (proj2 Hf)) as [H1 H2].
    destruct (record_completed _ _ _) as [g1 l1].
    pose proof (warn_if_ok true "stream ended before a costed usage event and [DONE]" g1 H1) as [H3 H4].
    destruct (warn_if _ _ g1) as [g2 l2]. injection H as <-. split; [|by apply Forall_app].
    cbn. intros item s. destruct output; [done|]. intros [= _ <-]. by split.
  - apply Forall_cons in Hi as [Ha Hi]. destruct (ar_item a) as [chunk|].
    2:{ pose proof (warn_if_ok true "upstream stream returned an error" g Hg) as [H3 H4].
        destruct (warn_if _ _ g) as [g2 l2]. intros [= <-]. split; [|done]. intros item s [= _ <-]. by split. }
    intros (current & Hcur & ([[next output] completed] & Htr & H)%bind_Done)%bind_Done.
    destruct t as [t|]; [|discriminate]. injection Hcur as ->.
    apply transform_counted in Htr as [Hn Hc]; [|by apply Ht].
    pose proof (record_completed_ok completed _ (ar_recorded_at a) Hc
      (all_ok_processing (ar_processing a) _ (all_ok_first chunk _ g (proj1 Ha) Hg)) (proj2 Ha)) as [H1 H2].
    destruct (record_completed _ _ _) as [g1 l1].
    pose proof (warn_if_ok (closed next && negb (is_some completed))
      "stream was closed before a costed terminal usage event" g1 H1) as [H3 H4].
    destruct (warn_if _ _ g1) as [g2 l2].
    apply bind_Done in H as (r' & Hr & [= <-]).
    assert (state_ok {| ss_input := input; ss_end := fin;
      ss_transformer := if closed next then None else Some next; ss_generation := g2 |}) as Hst.
    { split; [done|done| |done]. cbn. by destruct (closed next); intros t' [= <-]. }
    assert (polled_ok r') as [P1 P2].
    { destruct output; [by eapply IH|]. injection Hr as <-. split; [|done]. by intros item s [= _ <-]. }
    split; [done|]. cbn. by rewrite !Forall_app.
Qed.

Lemma stream_run_ok fuel s items log :
  state_ok s -> stream_run fuel s = Done (items, log) -> Forall event_ok log.
Proof.
  revert s items log. induction fuel as [|f IH]; intros s items log Hs; [done|]. cbn [stream_run].
  intros ([polled log1] & Hp & H)%bind_Done.
  assert (polled_ok (polled, log1)) as [P1 P2].
  { unfold stream_poll in Hp. destruct (ss_transformer s) eqn:Et; [|by injection Hp as <- <-].
    rewrite <-Et in Hp. eapply stream_loop_ok, Hp. by destruct s. }
  cbn in P1, P2. destruct polled as [[item s']|]; [|by injection H as _ <-].
  apply bind_Done in H as ([items' log'] & Hr & [= _ <-]). cbn. apply Forall_app. split; [done|].
  eapply IH; [|exact Hr]. by eapply P1.
Qed.

(** Recording an event in a store built by observations leaves one. *)
Lemma event_recorded g u at_ store :
  event_ok (Records g u at_) -> observed store ->
  exists r, record_at g u at_ store = Done r /\ observed (re_store r).
Proof.
  intros ((Hs & Ht & Hf) & Hu & Ha) Ho.
  destruct (record_total g u at_ store Hs) as [r Hr]. exists r. split; [done|].
  by eapply record_at_observed; [| |split_and!|exact Hr].
Qed.
End Records.
