(* ===== verification/StreamProps.v ===== *)
(** The properties of the streamed body ([stream_with_response_transformer]):
    it always ends, and a public stream is recorded exactly once or ends in a
    visible failure. *)

From Stdlib Require Import QArith ZArith Strings.Byte.
From S2P Require Import Prelude Float64 RustDecimal RoutingProfile Registry Json RefJson Measurements Pricing UsageCost.
From S2P Require Import Sse SseSpec SseProps Database Ledger Generation StreamRecords Fixtures.

#[local] Open Scope Z_scope.

Section Props.
Context {D : RustDecimal} {J : SerdeJson}.

(** An open transformer of a public, priced stream. *)
Record public (model : string) (p : ProviderPrices) (t : UsageCostTransformer) : Prop := {
  pu_model : response_model t = Some model;
  pu_prices : prices t = Some p;
  pu_open : closed t = false
}.

Lemma error_event_nonempty model e : generic_upstream_error_event model = Done e -> e <> [].
Proof. unfold generic_upstream_error_event. by intros (x & _ & [= <-])%bind_Done. Qed.

Lemma data_prefix_nonempty pre (l : list byte) : pre ∈ data_prefixes -> pre ++ l <> [].
Proof. unfold data_prefixes. by intros [->|[->|H]%elem_of_cons]%elem_of_cons; [..|inversion H]. Qed.

Lemma public_event_nonempty model x : public_event model x -> x <> [].
Proof.
  intros [e He|pre sep Hpre _|pre sep fs json Hpre _ _ _]; [by eapply error_event_nonempty|..];
    by apply data_prefix_nonempty.
Qed.

Lemma app_nonempty {A} (l k : list A) : k <> [] -> l ++ k <> [].
Proof. by destruct l. Qed.

(** The chunk that closes a public stream is never silent. *)
Lemma drain_closing model f t o c t' out c' :
  response_model t = Some model -> drain f t o c = Done (t', out, c') -> closed t = false ->
  closed t' = true -> out <> [].
Proof.
  revert t o c. induction f as [|f IH]; intros t o c Hm; [done|]. rewrite drain_S.
  destruct (next_event_end (pending t)) as [e|] eqn:E; [|by intros [= <- _ _] ? ?; congruence].
  intros ([[t1 x] ec] & Ht & H)%bind_Done Hc Hc'.
  pose proof (transform_event_frame _ _ _ _ _ Ht) as (_ & _ & Hrm & _). cbn in Hrm.
  unfold transform_event in Ht. cbn [response_model set_pending] in Ht. rewrite Hm in Ht.
  apply public_event_step in Ht as [Hev _]; [|by apply next_event_end_framed].
  destruct (closed t1) eqn:Hc1.
  - injection H as <- <- <-. by apply app_nonempty, (public_event_nonempty model).
  - eapply IH; [|exact H|done|done]. congruence.
Qed.

(** One chunk of a public stream. *)
Inductive chunk_outcome (model : string) (p : ProviderPrices) :
    UsageCostTransformer -> list byte -> option CostedUsage -> Prop :=
| co_open t out : public model p t -> chunk_outcome model p t out None
| co_billed t out u : closed t = true -> out <> [] -> chunk_outcome model p t out (Some u)
| co_failed t pre e : closed t = true -> generic_upstream_error_event model = Done e ->
    chunk_outcome model p t (pre ++ e) None.

Lemma transform_chunk model p t b t' out c :
  public model p t -> transform t b = Done (t', out, c) -> chunk_outcome model p t' out c.
Proof.
  intros [Hm Hp Hc] H. pose proof (public_stream_billed _ _ _ _ _ _ _ Hm Hp Hc H) as Hb.
  unfold transform in H. rewrite Hc in H.
  pose proof (drain_public _ (set_pending (pending t ++ b) t) model _ _ _ Hm Hc H) as (_ & Hm' & Hp' & _).
  pose proof (drain_closing model _ (set_pending (pending t ++ b) t) _ _ _ _ _ Hm H Hc) as Hne.
  destruct (closed t') eqn:Hc'.
  - destruct Hb as [[u ->]|(-> & pre & e & He & ->)]; [apply co_billed|apply co_failed]; auto.
  - subst c. apply co_open. split; [done|by rewrite Hp'|done].
Qed.

(** ** Who a generation is *)

(** The context's identity and attempt timing; only the first output and the
    processing time change along a stream. *)
Definition same_generation (g g' : GenerationContext) : Prop :=
  gc_canonical_slug g' = gc_canonical_slug g /\ gc_provider_id g' = gc_provider_id g /\
  gc_status g' = gc_status g /\ gc_request_started_at g' = gc_request_started_at g /\
  gc_attempt_started_at g' = gc_attempt_started_at g /\
  gc_headers_received_at g' = gc_headers_received_at g /\
  gc_endpoint g' = gc_endpoint g /\ gc_profile g' = gc_profile g.

Lemma same_generation_trans g1 g2 g3 :
  same_generation g1 g2 -> same_generation g2 g3 -> same_generation g1 g3.
Proof. unfold same_generation. intros H1 H2. destruct_and!. split_and!; congruence. Qed.

Lemma observed_same g d : same_generation g (observe_processing d g).
Proof. done. Qed.

Lemma chunk_same g (a : Z) (chunk : list byte) :
  exists g', match chunk with [] => Some g | _ :: _ => observe_first_output a <$> Some g end = Some g' /\
             same_generation g g'.
Proof. destruct chunk; eexists; split; done. Qed.

(** ** One poll *)

(** An item that shows the client a failure: the upstream's error passed on, or
    bytes ending in the generic error event. *)
Definition failure_item (model : string) (item : option (list byte)) : Prop :=
  item = None \/ exists pre e, generic_upstream_error_event model = Done e /\ item = Some (pre ++ e).

Inductive poll_outcome (model : string) (p : ProviderPrices) (g : GenerationContext) (n : nat) :
    option (option (list byte) * StreamState) -> list StreamEvent -> Prop :=
| po_more out s t g' : ss_transformer s = Some t -> public model p t ->
    ss_generation s = Some g' -> same_generation g g' -> (length (ss_input s) < n)%nat ->
    poll_outcome model p g n (Some (Some out, s)) []
| po_recorded polled g' u at_ : same_generation g g' ->
    (forall item s, polled = Some (item, s) -> ss_transformer s = None) ->
    poll_outcome model p g n polled [Records g' u at_]
| po_failed item s reason : ss_transformer s = None -> failure_item model item ->
    poll_outcome model p g n (Some (item, s)) [Incomplete reason].

Lemma poll_outcome_mono model p g g' n m polled log :
  same_generation g g' -> (n <= m)%nat ->
  poll_outcome model p g' n polled log -> poll_outcome model p g m polled log.
Proof.
  intros Hg Hn [out s t g2 ? ? ? ? ?|x g2 u at_ ? ?|item s r ? ?].
  - eapply po_more; [done|done|done|by eapply same_generation_trans|lia].
  - apply po_recorded; [by eapply same_generation_trans|done].
  - by apply po_failed.
Qed.

Lemma stream_loop_outcome model p input fin t g polled log :
  public model p t -> stream_loop input fin (Some t) (Some g) = Done (polled, log) ->
  poll_outcome model p g (length input) polled log.
Proof.
  revert t g. induction input as [|a input IH]; intros t g Ht; cbn [stream_loop expect mbind outcome_bind].
  - intros ([out c] & Hf & H)%bind_Done.
    pose proof (public_finish t model out c (pu_model _ _ _ Ht) Hf) as Hout.
    rewrite (pu_open _ _ _ Ht) in Hout.
    destruct Hout as [(He & ->)|(pre & tail & Hpre & _ & -> & -> & Hu)]; cbn in H.
    + injection H as <- <-. apply error_event_nonempty in He as Hne.
      destruct out as [|x out]; [done|]. apply po_failed; [done|]. right. by exists [], (x :: out).
    + destruct Hu as [Hu|[u Hu]]; [by rewrite (pu_prices _ _ _ Ht) in Hu|]. rewrite Hu in H. cbn in H.
      injection H as <- <-. apply po_recorded; [apply observed_same|].
      intros item s. by destruct (pre ++ _); intros [= _ <-].
  - destruct (ar_item a) as [chunk|].
    2:{ cbn. intros [= <- <-]. apply po_failed; [done|by left]. }
    destruct (chunk_same g (ar_observed_at a) chunk) as (g1 & Eg & Hg1).
    intros ([[t' out] c] & Htr & H)%bind_Done. rewrite Eg in H. cbn [fmap option_fmap option_map] in H.
    pose proof (transform_chunk _ _ _ _ _ _ _ Ht Htr) as Hco.
    assert (same_generation g (observe_processing (ar_processing a) g1)) as Hg2
      by (eapply same_generation_trans; [exact Hg1|apply observed_same]).
    destruct Hco as [t' out Hpub|t' out u Hcl Hne|t' pre e Hcl He].
    + rewrite (pu_open _ _ _ Hpub) in H. cbn in H. destruct out as [|x out]; cbn in H.
      * apply bind_Done in H as ([polled' log'] & H & [= <- <-]).
        cbn. eapply poll_outcome_mono; [exact Hg2| |by apply (IH _ _ Hpub H)]. lia.
      * injection H as <- <-. eapply po_more; cbn; [done|done|done|done|lia].
    + rewrite Hcl in H. cbn in H. destruct out as [|x out]; [done|]. injection H as <- <-.
      apply po_recorded; [done|]. by intros item s [= _ <-].
    + rewrite Hcl in H. cbn in H. apply error_event_nonempty in He as Hne.
      destruct (pre ++ e) as [|x out] eqn:Eo; [by destruct (app_nonempty pre e Hne)|].
      injection H as <- <-. apply po_failed; [done|]. right. exists pre, e. by rewrite Eo.
Qed.

Lemma stream_run_done f s r : ss_transformer s = None -> stream_run (S f) s = Done r -> r = ([], []).
Proof. cbn. unfold stream_poll. intros ->. by intros [= <-]. Qed.

(** It records once, or fails once. *)
Lemma stream_settles model p t g input fin fuel items log :
  public model p t ->
  stream_run fuel (stream_with_response_transformer input fin t (Some g)) = Done (items, log) ->
  (exists g' u at_, same_generation g g' /\ log = [Records g' u at_]) \/
  (exists reason its final, log = [Incomplete reason] /\ items = its ++ [final] /\
     failure_item model final).
Proof.
  unfold stream_with_response_transformer. revert t g input fin items log.
  induction fuel as [|f IH]; intros t g input fin items log Hpub; [done|]. cbn [stream_run].
  unfold stream_poll. cbn [ss_transformer ss_input ss_end ss_generation].
  intros ([polled log1] & Hp & H)%bind_Done. apply (stream_loop_outcome model p) in Hp; [|done].
  destruct Hp as [out s t' g' Ht' Hpub' Hg' Hsame Hlen|polled g' u at_ Hsame Hend|item s reason Hend Hfail].
  - apply bind_Done in H as ([items' log'] & Hr & [= <- <-]). cbn [fst snd app].
    destruct s as [input' fin' tr' gen']. cbn in Ht', Hg'. subst tr' gen'.
    destruct (IH _ _ _ _ _ _ Hpub' Hr) as [(g2 & u & at_ & Hg2 & ->)|(reason & its & final & -> & -> & Hf)].
    + left. exists g2, u, at_. split; [by eapply same_generation_trans|done].
    + right. exists reason, (Some out :: its), final. done.
  - left. exists g', u, at_. split; [done|]. destruct polled as [[item s]|]; [|by injection H as <- <-].
    apply bind_Done in H as (r & Hr & [= <- <-]).
    destruct f as [|f]; [done|]. by apply stream_run_done in Hr as ->; [|by eapply Hend].
  - apply bind_Done in H as (r & Hr & [= <- <-]).
    destruct f as [|f]; [done|]. apply stream_run_done in Hr as ->; [|done].
    right. by exists reason, [], item.
Qed.

(** ** Recording *)

Lemma latency_fits d : 0 <= d -> 0 <= default i64_max (try_i64 (as_millis d)) <= i64_max.
Proof.
  intros Hd. unfold try_i64. destruct (Z.leb_spec (as_millis d) i64_max); [|by vm_compute].
  change (0 <= as_millis d <= i64_max). split; [|done]. apply Z.div_pos; lia.
Qed.

(** Recording a costed completion of an HTTP status never panics; it
    writes a ledger row exactly when the response has an id and its token
    counts fit the ledger's BIGINT columns, and that row carries the response's
    id, tokens and cost under the request's profile, model and served
    provider, with a latency that fits its column.  A store built by
    observations stays one, so routing over it cannot panic. *)
Theorem record_writes g costed completed_at store :
  gc_status g <= 999 ->
  exists r, record_at g costed completed_at store = Done r /\
  (observed store -> tokens_ok (Pricing.completion_tokens (cu_usage costed)) ->
   instants_ok g completed_at -> observed (re_store r)) /\
  match re_write r with
  | inr w =>
      response_id costed = Some (gw_id w) /\ gw_routing_profile w = gc_profile g /\
      gw_canonical_slug w = gc_canonical_slug g /\ gw_provider_id w = gc_provider_id g /\
      gw_prompt_tokens w = prompt_tokens (cu_usage costed) /\
      gw_completion_tokens w = Pricing.completion_tokens (cu_usage costed) /\
      gw_cost_usd w = cu_cost_usd costed /\ gw_status w = gc_status g /\
      gw_prompt_tokens w <= i64_max /\ gw_completion_tokens w <= i64_max /\
      0 <= gw_latency_ms w <= i64_max
  | inl _ =>
      response_id costed = None \/ i64_max < prompt_tokens (cu_usage costed) \/
      i64_max < Pricing.completion_tokens (cu_usage costed)
  end.
Proof.
  intros Hst.
  assert (exists r, record_at g costed completed_at store = Done r) as [r Hr] by by apply record_total.
  exists r. split; [done|]. split; [intros; by eapply record_at_observed|]. revert Hr.
  unfold record_at, ledger_write, try_i64 at 1 2.
  destruct (response_id costed) as [i|]; [|intros [= <-]; by left].
  destruct (Z.leb_spec (prompt_tokens (cu_usage costed)) i64_max);
    [|intros [= <-]; by right; left].
  destruct (Z.leb_spec (Pricing.completion_tokens (cu_usage costed)) i64_max);
    [|intros [= <-]; by right; right].
  unfold try_i16. rewrite (proj2 (Z.leb_le (gc_status g) 32767)) by lia. cbn [expect mbind outcome_bind].
  intros [= <-]. split_and!; try done; cbn [gw_latency_ms re_write];
    apply latency_fits; unfold saturating_duration_since; lia.
Qed.

(** ** What a stream records, its client was shown *)

Definition shown_bytes (items : list (option (list byte))) : list byte := concat (default [] <$> items).

Definition item_bytes (polled : option (option (list byte) * StreamState)) : list byte :=
  match polled with Some (item, _) => default [] item | None => [] end.

Section Shown.
Context (model : string) (p : ProviderPrices) (policy : ProviderReportedCostPolicy).

Definition event_shown (shown : list byte) (e : StreamEvent) : Prop :=
  match e with Records _ u _ => shown_usage p policy shown u | Incomplete _ => True end.

Definition open_backed (shown : list byte) (t : option UsageCostTransformer) : Prop :=
  forall t', t = Some t' -> response_model t' = Some model /\ backed p policy shown t'.

Lemma record_completed_shown shown c g at_ g' l :
  (forall u, c = Some u -> shown_usage p policy shown u) -> record_completed c g at_ = (g', l) ->
  Forall (event_shown shown) l.
Proof. intros Hc. destruct c as [u|], g; intros [= <- <-]; repeat constructor. by apply Hc. Qed.

Lemma warn_if_shown shown b reason g g' l : warn_if b reason g = (g', l) -> Forall (event_shown shown) l.
Proof. destruct b, g; intros [= <- <-]; by repeat constructor. Qed.

Lemma stream_loop_shown input fin shown t g polled log :
  open_backed shown t -> stream_loop input fin t g = Done (polled, log) ->
  Forall (event_shown (shown ++ item_bytes polled)) log /\
  (forall item s, polled = Some (item, s) -> open_backed (shown ++ item_bytes polled) (ss_transformer s)).
Proof.
  revert t g polled log. induction input as [|a input IH]; intros t g polled log Ht; cbn [stream_loop].
  - intros (t0 & ->%expect_Done & ([out c] & Hf & H)%bind_Done)%bind_Done. destruct (Ht t0 eq_refl) as [Hm Hb].
    destruct (record_completed c _ _) as [g1 l1] eqn:E1, (warn_if _ _ g1) as [g2 l2] eqn:E2. injection H as <- <-.
    split; [|by destruct out; intros i s [= _ <-]]. apply Forall_app. split; [|by eapply warn_if_shown].
    eapply record_completed_shown; [|exact E1]. intros u ->. apply shown_usage_app, (bk_usage _ _ _ _ Hb).
    pose proof (public_finish _ _ _ _ Hm Hf) as Hc. destruct (closed t0); [by destruct Hc|].
    destruct Hc as [[_ Hc]|(? & ? & _ & _ & _ & Hc & _)]; [done|by rewrite Hc].
  - destruct (ar_item a) as [chunk|].
    2:{ destruct (warn_if _ _ g) as [g1 l1] eqn:E1. intros [= <- <-]. split; [by eapply warn_if_shown|].
        by intros i s [= _ <-]. }
    intros (t0 & ->%expect_Done & ([[t1 out] c] & Htr & H)%bind_Done)%bind_Done. destruct (Ht t0 eq_refl) as [Hm Hb].
    pose proof (transform_model _ _ _ _ _ Htr) as Hm1.
    apply (transform_backs p policy shown _ _ model) in Htr as [Hb1 Hc1]; [|done..]. cbn [fst snd] in *.
    destruct (record_completed c _ _) as [g1 l1] eqn:E1, (warn_if _ _ g1) as [g2 l2] eqn:E2.
    apply bind_Done in H as ([polled' log'] & H & [= <- <-]). cbn [fst snd].
    assert (open_backed (shown ++ out) (if closed t1 then None else Some t1)) as Hopen.
    { destruct (closed t1); [done|]. intros t2 [= <-]. split; [congruence|done]. }
    assert (Forall (event_shown (shown ++ out)) (l1 ++ l2)) as Hl.
    { apply Forall_app. split; [by eapply record_completed_shown|by eapply warn_if_shown]. }
    destruct out as [|x out].
    + rewrite app_nil_r in *. destruct (IH _ _ _ _ Hopen H) as [Hl' Hs']. split; [|done].
      apply Forall_app. split; [|done]. eapply List.Forall_impl; [|exact Hl].
      intros [? u ?|]; [apply shown_usage_app|done].
    + injection H as <- <-. rewrite app_nil_r. split; [done|]. by intros i s [= _ <-].
Qed.

Lemma stream_run_shown fuel shown s items log :
  open_backed shown (ss_transformer s) -> stream_run fuel s = Done (items, log) ->
  Forall (event_shown (shown ++ shown_bytes items)) log.
Proof.
  revert shown s items log. induction fuel as [|f IH]; intros shown s items log Hs; [done|]. cbn [stream_run].
  unfold stream_poll. destruct (ss_transformer s) as [t|] eqn:Et.
  2:{ cbn. intros [= <- <-]. constructor. }
  intros ([polled log1] & Hl & H)%bind_Done. apply (stream_loop_shown _ _ shown) in Hl as [Hlog Hnext]; [|done].
  destruct polled as [[item s']|].
  - apply bind_Done in H as ([items' log'] & Hr & [= <- <-]). cbn [fst snd].
    apply (IH _ _ _ _ (Hnext item s' eq_refl)) in Hr. unfold shown_bytes. cbn [fmap list_fmap concat].
    cbn [item_bytes] in *. rewrite app_assoc, Forall_app. split; [|exact Hr].
    eapply List.Forall_impl; [|exact Hlog]. intros [? u ?|]; [apply shown_usage_app|done].
  - injection H as <- <-. exact Hlog.
Qed.
End Shown.

(** C4: A public, priced stream with a generation does exactly one of two
    things.  It records once, for the same request, provider and attempt, a
    usage that the client was shown: some bytes of the stream are the JSON
    object that this usage's cost, computed from it at the provider's prices, was
    written into; and recording it yields the ledger row of that response id,
    tokens and cost, unless a token count does not fit the ledger's BIGINT (then
    the row alone is omitted, with a warning).  Or it omits the record, once, and
    the last thing the client receives is a failure (the upstream's error, or
    the generic error event). *)
Theorem stream_recorded_or_failed model p t g input fin fuel items log :
  public model p t -> costed_usage t = None -> gc_status g <= 999 ->
  stream_run fuel (stream_with_response_transformer input fin t (Some g)) = Done (items, log) ->
  (exists g' u at_, same_generation g g' /\ log = [Records g' u at_] /\
     shown_usage p (provider_cost_policy t) (shown_bytes items) u /\
     forall store, exists r, record_at g' u at_ store = Done r /\
       match re_write r with
       | inr w => response_id u = Some (gw_id w) /\ gw_cost_usd w = cu_cost_usd u /\
           gw_prompt_tokens w = prompt_tokens (cu_usage u) /\
           gw_completion_tokens w = Pricing.completion_tokens (cu_usage u) /\
           gw_provider_id w = gc_provider_id g /\ gw_canonical_slug w = gc_canonical_slug g /\
           gw_routing_profile w = gc_profile g
       | inl _ => i64_max < prompt_tokens (cu_usage u) \/ i64_max < Pricing.completion_tokens (cu_usage u)
       end) \/
  (exists reason its final, log = [Incomplete reason] /\ items = its ++ [final] /\
     failure_item model final).
Proof.
  intros Hpub Hnone Hst Hr. destruct (stream_settles _ _ _ _ _ _ _ _ _ Hpub Hr) as [(g' & u & at_ & Hg & ->)|?]; [left|by right].
  assert (shown_usage p (provider_cost_policy t) (shown_bytes items) u) as Hu.
  { assert (open_backed model p (provider_cost_policy t) [] (Some t)) as Hb.
    { intros t' [= <-]. split; [apply Hpub|]. split; [apply Hpub|done|]. intros u'. by rewrite Hnone. }
    apply (stream_run_shown model p (provider_cost_policy t) _ []) in Hr; [|exact Hb].
    exact (List.Forall_inv Hr). }
  exists g', u, at_. split_and!; [done..|]. intros store.
  destruct Hg as (Hs & Hp & Hstatus & _ & _ & _ & _ & Hprof).
  destruct (record_writes g' u at_ store) as (r & Hrec & _ & Hw); [by rewrite Hstatus|].
  exists r. split; [done|]. destruct (re_write r) as [reason|w].
  - destruct Hu as (? & ? & ? & ? & ? & _ & [i Hi] & _). destruct Hw as [Hw|Hw]; [congruence|done].
  - destruct Hw as (H1 & H2 & H3 & H4 & H5 & H6 & H7 & _). split_and!; congruence.
Qed.

(** ** Totality *)

Lemma finish_total t : printable -> exists r, finish t = Done r.
Proof.
  intros (Hv & _). unfold finish. destruct (closed t); [eauto|].
  destruct (response_model t) as [model|]; [|eauto].
  assert (exists e, generic_upstream_error_event model = Done e) as [e He].
  { unfold generic_upstream_error_event. destruct (Hv (generic_upstream_error model)) as [e ->]. cbn. eauto. }
  destruct (is_some_and _ _); [|rewrite He; cbn; eauto].
  destruct (_ && _); [rewrite He; cbn; eauto|eauto].
Qed.

Lemma transform_total model p t b :
  printable -> costable p -> public model p t -> exists r, transform t b = Done r.
Proof.
  intros Hp Hc [_ Hpr Hcl]. unfold transform. rewrite Hcl.
  destruct (drain_total (S (length (pending (set_pending (pending t ++ b) t))))
    (set_pending (pending t ++ b) t) [] None Hp) as (r & -> & _).
  - intros q Hq. cbn in Hq. rewrite Hpr in Hq. by injection Hq as <-.
  - cbn. lia.
  - eauto.
Qed.

Lemma chunk_silent model p t c : chunk_outcome model p t [] c -> public model p t.
Proof.
  inversion 1 as [| |? pre e _ He Eo]; [done|done|].
  apply error_event_nonempty in He. by apply (app_nonempty pre) in He.
Qed.

Lemma stream_loop_total model p input fin t g :
  printable -> costable p -> public model p t -> exists r, stream_loop input fin (Some t) g = Done r.
Proof.
  intros Hp Hc. revert t g. induction input as [|a input IH]; intros t g Ht; cbn [stream_loop expect mbind outcome_bind].
  - destruct (finish_total t Hp) as [[out c] ->]. cbn [mbind outcome_bind].
    destruct (record_completed _ _ _), (warn_if _ _ _). eauto.
  - destruct (ar_item a) as [chunk|]; [|destruct (warn_if _ _ _); eauto].
    destruct (transform_total model p t chunk Hp Hc Ht) as [[[t' out] c] Htr]. rewrite Htr. cbn [mbind outcome_bind].
    destruct (record_completed _ _ _) as [g1 l1], (warn_if _ _ g1) as [g2 l2].
    apply (transform_chunk model p) in Htr; [|done].
    destruct out as [|x out]; [|cbn; eauto].
    assert (public model p t') as Hpub by by eapply chunk_silent.
    rewrite (pu_open _ _ _ Hpub). destruct (IH t' g2 Hpub) as [[polled log] ->]. cbn. eauto.
Qed.

Lemma stream_run_total model p t g input fin :
  printable -> costable p -> public model p t ->
  exists r, stream_run (length input + 2) (stream_with_response_transformer input fin t (Some g)) = Done r.
Proof.
  intros Hp Hc. unfold stream_with_response_transformer.
  assert (forall f t g input fin, (length input + 2 <= f)%nat -> public model p t ->
    exists r, stream_run f {| ss_input := input; ss_end := fin; ss_transformer := Some t;
                              ss_generation := Some g |} = Done r) as H; [|intros; by apply H].
  clear t g input fin. induction f as [|f IH]; intros t g input fin Hf Ht; [lia|]. cbn [stream_run].
  unfold stream_poll. cbn [ss_transformer ss_input ss_end ss_generation].
  destruct (stream_loop_total model p input fin t (Some g) Hp Hc Ht) as [[polled log] Hl]. rewrite Hl.
  apply (stream_loop_outcome model p) in Hl; [|done]. cbn [mbind outcome_bind].
  assert (forall s, ss_transformer s = None -> stream_run f s = Done ([], [])) as Hend.
  { destruct f as [|f]; [lia|]. intros s Hs. cbn. unfold stream_poll. by rewrite Hs. }
  destruct Hl as [out s t' g' Ht' Hpub' Hg' Hsame Hlen|polled g' u at_ Hsame Hs|item s reason Hs Hfail].
  - destruct s as [input' fin' tr' gen']. cbn in Ht', Hg', Hlen. subst tr' gen'.
    destruct (IH t' g' input' fin') as [r ->]; [lia|done|]. cbn. eauto.
  - destruct polled as [[item s]|]; [|eauto]. rewrite Hend by by eapply Hs. cbn. eauto.
  - rewrite Hend by done. cbn. eauto.
Qed.

(** A stream that is open is public and priced, with a generation to record. *)
Definition streaming_ok (s : StreamState) : Prop :=
  state_ok s /\
  forall t, ss_transformer s = Some t ->
    exists model p g, public model p t /\ costable p /\ ss_generation s = Some g.

(** A poll of such a stream does not panic, leaves another, and logs only what
    can be recorded. *)
Lemma poll_ok s :
  printable -> streaming_ok s ->
  exists polled log, stream_poll s = Done (polled, log) /\ Forall event_ok log /\
    (forall item s', polled = Some (item, s') -> streaming_ok s').
Proof.
  intros Hp [Hs Ht]. unfold stream_poll. destruct s as [input fin tr gen]; cbn in *.
  destruct tr as [t|]; [|by do 2 eexists].
  destruct (Ht t eq_refl) as (model & p & g & Hpub & Hc & ->).
  destruct (stream_loop_total model p input fin t (Some g) Hp Hc Hpub) as [[polled log] Hl].
  exists polled, log. split; [done|].
  destruct (stream_loop_ok Hp _ _ _ _ _ Hs Hl) as [Hst Hev]. split; [done|].
  intros item s' Hpo. split; [by eapply Hst|].
  apply (stream_loop_outcome model p) in Hl; [|done].
  destruct Hl as [out s t' g' Ht' Hpub' Hg' _ _|polled g' u at_ _ Hend|i s reason Hend _].
  - injection Hpo as _ <-. intros t1 E. rewrite Ht' in E. injection E as <-. eauto 10.
  - intros t1 E. by rewrite (Hend _ _ Hpo) in E.
  - injection Hpo as _ <-. intros t1 E. congruence.
Qed.

(** A public stream always ends: polled to its end it never panics, its
    transformer is always there when it is needed, and it takes at most two
    polls more than the upstream sent chunks.  When its clock readings are in
    range, recording what it records does not panic either, and turns a store
    built by observations into another. *)
Lemma stream_ends model p t g input fin :
  printable -> costable p -> public model p t ->
  state_ok (stream_with_response_transformer input fin t (Some g)) ->
  exists items log,
    stream_run (length input + 2) (stream_with_response_transformer input fin t (Some g)) = Done (items, log) /\
    forall g' u at_ store, Records g' u at_ ∈ log -> observed store ->
      exists r, record_at g' u at_ store = Done r /\ observed (re_store r).
Proof.
  intros Hp Hc Ht Hs. destruct (stream_run_total model p t g input fin Hp Hc Ht) as [[items log] Hr].
  exists items, log. split; [done|]. intros g' u at_ store Hin. apply event_recorded.
  pose proof (stream_run_ok Hp _ _ _ _ Hs Hr) as Hall. rewrite Forall_forall in Hall. by apply Hall in Hin.
Qed.
End Props.

(** ** Witnesses *)

Definition chunk_at (t : Z) (bytes : list byte) : Arrival :=
  {| ar_item := Some bytes; ar_observed_at := t; ar_processing := 10; ar_recorded_at := t + 20 |}.
Definition upstream_chunks : list Arrival :=
  [chunk_at 1000 (take 10 usage_event); chunk_at 2000 (drop 10 usage_event); chunk_at 3000 done_event].
Definition upstream_end : Arrival :=
  {| ar_item := None; ar_observed_at := 4000; ar_processing := 10; ar_recorded_at := 4020 |}.

Definition sample_generation : GenerationContext :=
  GenerationContext_new "acme/chat" "bravo" 200 (streaming 100 200 300 Production) "chat".

Lemma public_sample : public "acme/chat" stream_prices public_transformer.
Proof. by split. Qed.

Definition sample_state : StreamState :=
  stream_with_response_transformer upstream_chunks upstream_end public_transformer (Some sample_generation).

Definition ran (r : outcome (list (option (list byte)) * list StreamEvent)) :=
  match r with Done r => r | Panic _ => ([], []) end.
Definition sample_run := ran (stream_run 5 sample_state).

Lemma sample_run_Done : stream_run 5 sample_state = Done (sample_run.1, sample_run.2).
Proof. vm_reflexivity. Qed.

(** The sample stream is recorded. *)
Example sample_recorded :
  (match sample_run.2 with [Records g u _] => Some (gc_first_output_at g, gc_processing_duration g) | _ => None end)
  = Some (Some 1000, 30).
Proof. vm_reflexivity. Qed.

Lemma stream_recorded_or_failed_witness :
  (exists g' u at_, same_generation sample_generation g' /\ sample_run.2 = [Records g' u at_] /\
     shown_usage stream_prices (provider_cost_policy public_transformer) (shown_bytes sample_run.1) u /\
     forall store, exists r, record_at g' u at_ store = Done r /\
       match re_write r with
       | inr w => response_id u = Some (gw_id w) /\ gw_cost_usd w = cu_cost_usd u /\
           gw_prompt_tokens w = prompt_tokens (cu_usage u) /\
           gw_completion_tokens w = Pricing.completion_tokens (cu_usage u) /\
           gw_provider_id w = gc_provider_id sample_generation /\ gw_canonical_slug w = gc_canonical_slug sample_generation /\
           gw_routing_profile w = gc_profile sample_generation
       | inl _ => i64_max < prompt_tokens (cu_usage u) \/ i64_max < Pricing.completion_tokens (cu_usage u)
       end) \/
  (exists reason its final, sample_run.2 = [Incomplete reason] /\ sample_run.1 = its ++ [final] /\
     failure_item "acme/chat" final).
Proof.
  exact (stream_recorded_or_failed "acme/chat" stream_prices public_transformer sample_generation
           upstream_chunks upstream_end 5 _ _ public_sample eq_refl ltac:(done) sample_run_Done).
Defined.

Lemma sample_state_ok : state_ok sample_state.
Proof.
  split; cbn [sample_state stream_with_response_transformer ss_input ss_end ss_transformer ss_generation].
  - repeat (constructor; [split; split; vm_compute; discriminate|]). constructor.
  - split; split; vm_compute; discriminate.
  - by intros t [= <-].
  - intros g [= <-]. split; [by vm_compute|]. split; [split; vm_compute; discriminate|done].
Qed.

Lemma stream_ends_witness :
  exists items log, stream_run (length upstream_chunks + 2) sample_state = Done (items, log) /\
    forall g' u at_ store, Records g' u at_ ∈ log -> observed store ->
      exists r, record_at g' u at_ store = Done r /\ observed (re_store r).
Proof.
  exact (stream_ends "acme/chat" stream_prices public_transformer sample_generation upstream_chunks upstream_end
           ref_printable stream_costable public_sample sample_state_ok).
Defined.

Definition sample_costed : CostedUsage :=
  {| response_id := Some "gen-1";
     cu_usage := {| prompt_tokens := 1000; Pricing.completion_tokens := 500 |};
     cu_cost_usd := dec 20000000 10 |}.

Lemma record_writes_witness :
  exists r, record_at sample_generation sample_costed 5000000 store_default = Done r /\
  (observed store_default -> tokens_ok 500 -> instants_ok sample_generation 5000000 -> observed (re_store r)) /\
  match re_write r with
  | inr w =>
      Some "gen-1" = Some (gw_id w) /\ gw_routing_profile w = Production /\
      gw_canonical_slug w = "acme/chat" /\ gw_provider_id w = "bravo" /\
      gw_prompt_tokens w = 1000 /\ gw_completion_tokens w = 500 /\
      gw_cost_usd w = dec 20000000 10 /\ gw_status w = 200 /\
      gw_prompt_tokens w <= i64_max /\ gw_completion_tokens w <= i64_max /\
      0 <= gw_latency_ms w <= i64_max
  | inl _ => Some "gen-1" = None \/ i64_max < 1000 \/ i64_max < 500
  end.
Proof.
  assert (gc_status sample_generation <= 999) as H by (cbn; lia).
  exact (record_writes sample_generation sample_costed 5000000 store_default H).
Defined.
