(* ===== verification/Proxy.v ===== *)
(** [src/src/proxy.rs], the request's side: a completion request is parsed,
    routed, sent to the sidecar with its fallbacks, and its response costed,
    sanitized and passed on.

    The sidecar is a function from the endpoint, the number of the attempt and
    the request body to a reply, [None] being a transport error; a reply's body
    is the list of its arrivals.  Instants are read from a [Clock]. *)

From Stdlib Require Import ZArith.
From S2P Require Import Prelude Float64 RustDecimal RoutingProfile Registry Json Preference Measurements.
From S2P Require Import Share Select Config Routing Pricing UsageCost Sse Database Ledger Generation.

#[local] Open Scope Z_scope.

Definition CHAT_COMPLETIONS_PATH : string := "v1/chat/completions".
Definition LEGACY_COMPLETIONS_PATH : string := "v1/completions".
Definition CONTENT_TYPE : string := "content-type".
Definition GENERATION_ID_HEADER : string := "x-generation-id".

Definition endpoint_label (e : CompletionEndpoint) : string :=
  match e with Chat => "chat" | Legacy => "legacy" end.

(** [Url::join] on a parsed URL. *)
Class UrlJoin {U : UrlCrate} : Type := { url_join : Url -> string -> option Url }.

(** [str::trim_end_matches] of a character. *)
Fixpoint trim_end_matches (c : ascii) (s : string) : string :=
  match s with
  | EmptyString => EmptyString
  | String a s' =>
      let rest := trim_end_matches c s' in
      if Ascii.eqb a c && str_is_empty rest then EmptyString else String a rest
  end.

(** The first piece of [str::split]. *)
Fixpoint before_char (c : ascii) (s : string) : string :=
  match s with
  | EmptyString => EmptyString
  | String a s' => if Ascii.eqb a c then EmptyString else String a (before_char c s')
  end.

(** ** Status codes *)

Definition is_success (status : Z) : bool := (200 <=? status) && (status <? 300).
Definition is_server_error (status : Z) : bool := (500 <=? status) && (status <? 600).
Definition TOO_MANY_REQUESTS : Z := 429.
Definition BAD_GATEWAY : Z := 502.

Definition retryable_status (status : Z) : bool :=
  (status =? TOO_MANY_REQUESTS) || is_server_error status.

(** ** The sidecar *)

Record UpstreamReply : Type := {
  ur_status : Z;
  ur_headers : HeaderMap;
  ur_body : list Arrival;
  ur_end : Arrival;
  ur_attempt_started_at : Z;
  ur_headers_received_at : Z
}.

Definition Sidecar : Type := CompletionEndpoint -> nat -> list byte -> option UpstreamReply.

(** [Response::bytes]: the whole body, or an error of its stream. *)
Fixpoint collect_body (arrivals : list Arrival) : option (list byte) :=
  match arrivals with
  | [] => Some []
  | a :: rest =>
      ar_item a ≫= fun chunk => collect_body rest ≫= fun bytes => Some (chunk ++ bytes)
  end.

Record Clock : Type := {
  ck_request_started_at : Z;
  ck_processing_duration : Z;
  ck_response_completed_at : Z
}.

(** ** Responses *)

Inductive Body : Type :=
| FullBody (bytes : list byte)
| JsonBody (value : Value)
| UpstreamBody (arrivals : list Arrival).

Section Proxy.
Context {D : RustDecimal} {R : RandCrate} {J : SerdeJson}.

(** A response body, or the transformed stream. *)
Definition ResponseBody : Type := Body + StreamState.

Record Response : Type := {
  r_status : Z;
  r_content_type : option string;
  r_generation_id : option string;
  r_body : ResponseBody;
  r_served_provider : option ServedProvider
}.

Definition APPLICATION_JSON : string := "application/json".

(** [(status, Json(value)).into_response()]. *)
Definition json_response (status : Z) (value : Value) : Response :=
  {| r_status := status; r_content_type := Some APPLICATION_JSON; r_generation_id := None;
     r_body := inl (JsonBody value); r_served_provider := None |}.

Definition downstream_response (status : Z) (content_type generation_id : option string)
    (body : ResponseBody) (served_provider : option ServedProvider) : Response :=
  {| r_status := status; r_content_type := content_type; r_generation_id := generation_id;
     r_body := body; r_served_provider := served_provider |}.

Definition json_message (message : string) : Value :=
  json_object [("error", json_object [("message", JString message)])].

Definition upstream_unavailable : Response := json_response BAD_GATEWAY (json_message "upstream unavailable").
Definition invalid_json_request : Response := json_response 400 (json_message "request body must be valid JSON").

Definition aliased_error_value (status : Z) (canonical_model : string) : Value :=
  json_object [("error", json_object
    [("code", Number (pretty status)); ("message", JString "upstream request failed");
     ("metadata", json_object [("model", JString canonical_model)])])].

Definition aliased_upstream_error (status : Z) (canonical_model : string)
    (served_provider : option ServedProvider) : outcome Response :=
  expect "static generic upstream error serializes" (to_vec (aliased_error_value status canonical_model))
    ≫= fun body =>
  Done (downstream_response status (Some APPLICATION_JSON) None (inl (FullBody body)) served_provider).

Definition sanitize_aliased_json_response (body : list byte) (canonical_model : string)
    : result PublicResponseRejection (list byte) :=
  ok_or RejectedJson (from_slice body) ≫= fun response =>
  sanitize_public_completion_value response canonical_model ≫= fun response =>
  ok_or RejectedJson (to_vec response).

(** ** State *)

Context {U : UrlCrate} {UJ : UrlJoin}.

Record ProxyState : Type := {
  chat_completions_url : Url;
  legacy_completions_url : Url;
  price_table : PriceTable;
  routing : RoutingPolicy;
  public_aliases : gset string
}.

Inductive ProxyConfigError : Type :=
| InvalidSidecarUrl
| InvalidRouting (e : CandidateError).

Definition has_public_alias (p : Provider) : bool :=
  is_some (public_display_name p) && is_some (public_tag p).

Definition ProxyState_new (sidecar_url : string) (table : PriceTable) (registry : Registry)
    (routing_config : RoutingConfig) (rng : StdRng)
    : outcome (result ProxyConfigError (ProxyState * RoutingState)) :=
  let normalized := trim_end_matches "/" sidecar_url +:+ "/" in
  let? base_url := ok_or InvalidSidecarUrl (url_parse normalized) in
  if negb (String.eqb (url_scheme base_url) "http" || String.eqb (url_scheme base_url) "https")
     || negb (str_is_empty (url_username base_url))
     || is_some (url_password base_url) || is_some (url_query base_url) || is_some (url_fragment base_url)
  then Done (Err InvalidSidecarUrl)
  else
    let? routing := map_err InvalidRouting (from_registry_with_rng registry routing_config rng) in
    expect "constant chat-completions path is valid" (url_join base_url CHAT_COMPLETIONS_PATH) ≫= fun chat =>
    expect "constant legacy-completions path is valid" (url_join base_url LEGACY_COMPLETIONS_PATH)
      ≫= fun legacy =>
    Done (Ok ({| chat_completions_url := chat; legacy_completions_url := legacy; price_table := table;
                 routing := routing.1;
                 public_aliases := list_to_set (id <$> filter_b has_public_alias (providers registry)) |},
              routing.2)).

Definition response_uses_public_alias (aliases : gset string) (served_provider : option ServedProvider)
    (selected_provider : string) : bool :=
  bool_decide (selected_provider ∈ aliases)
  || is_some_and (fun served => bool_decide (served ∈ aliases)) served_provider.

(** ** Attempts *)

(** The loop over the remaining fallbacks: the last reply, the attempt's
    number, and the bodies sent so far. *)
Fixpoint try_fallbacks (send : nat -> list byte -> option UpstreamReply) (request : Value)
    (fallback_models : list string) (attempt : nat) (upstream : option UpstreamReply)
    (sent : list (list byte)) : outcome (option UpstreamReply * list (list byte)) :=
  match fallback_models with
  | [] => Done (upstream, sent)
  | fallback_model :: rest =>
      let should_fallback :=
        match upstream with Some reply => retryable_status (ur_status reply) | None => true end in
      if negb should_fallback then Done (upstream, sent)
      else
        set_index "model" (JString fallback_model) request ≫= fun request =>
        expect "a parsed JSON completion request serializes" (to_vec request) ≫= fun fallback_body =>
        try_fallbacks send request rest (S attempt) (send (S attempt) fallback_body)
          (sent ++ [fallback_body])
  end.

Definition send_selected_then_fallback (send : nat -> list byte -> option UpstreamReply)
    (request : Value) (selected_body : list byte) (decision : RouteDecision)
    : outcome (option UpstreamReply * list (list byte)) :=
  try_fallbacks send request (fallback_models decision) 0 (send 0%nat selected_body) [selected_body].

(** ** Responding to the sidecar's reply *)

Definition is_event_stream (content_type : option string) : bool :=
  is_some_and (fun media_type => String.eqb (trim media_type) "text/event-stream")
    (before_char ";" <$> (content_type ≫= header_to_str)).

(** The response, and what the completion recorded when it was not streamed. *)
Definition Responded : Type := Response * option Recorded.
Definition unrecorded (r : outcome Response) : outcome Responded := r ≫= fun r => Done (r, None).

(** A successful event stream. *)
Definition respond_stream (p : ProxyState) (profile : RoutingProfile) (endpoint : CompletionEndpoint)
    (clock : Clock) (decision : RouteDecision) (upstream : UpstreamReply) (served : ServedProvider)
    : outcome Response :=
  match prices_for_request (decision_model decision) served (price_table p) with
  | Err _ => aliased_upstream_error BAD_GATEWAY (decision_model decision) (Some served)
  | Ok prices =>
      let generation :=
        GenerationContext_new (decision_model decision) served (ur_status upstream)
          (streaming (ck_request_started_at clock) (ur_attempt_started_at upstream)
             (ur_headers_received_at upstream) profile)
          (endpoint_label endpoint) in
      let transformer :=
        with_response_model (decision_model decision)
          (with_provider_cost_policy (provider_reported_cost_policy served) (transformer_new prices)) in
      let body := stream_with_response_transformer (ur_body upstream) (ur_end upstream) transformer
                    (Some generation) in
      Done (downstream_response (ur_status upstream) (header_get CONTENT_TYPE (ur_headers upstream))
              (header_get GENERATION_ID_HEADER (ur_headers upstream)) (inr body) (Some served))
  end.

(** A successful body that is not streamed: its cost is injected and the
    generation recorded. *)
Definition respond_costed (p : ProxyState) (store : MeasurementStore) (profile : RoutingProfile)
    (endpoint : CompletionEndpoint) (clock : Clock) (decision : RouteDecision) (upstream : UpstreamReply)
    (alias : bool) (served : ServedProvider) (upstream_body : list byte) : outcome Responded :=
  inject_usage_cost upstream_body (decision_model decision) served (price_table p) ≫= fun costed =>
  match costed with
  | Err _ => unrecorded (aliased_upstream_error BAD_GATEWAY (decision_model decision) (Some served))
  | Ok costed =>
      let generation :=
        GenerationContext_new (decision_model decision) served (ur_status upstream)
          (non_streaming (ck_request_started_at clock) (ur_attempt_started_at upstream)
             (ur_headers_received_at upstream) (ck_processing_duration clock) profile)
          (endpoint_label endpoint) in
      record_at generation (cr_usage costed) (ck_response_completed_at clock) store ≫= fun recorded =>
      let content_type :=
        if alias then Some APPLICATION_JSON else header_get CONTENT_TYPE (ur_headers upstream) in
      Done (downstream_response (ur_status upstream) content_type
              (header_get GENERATION_ID_HEADER (ur_headers upstream))
              (inl (FullBody (cr_body costed))) (Some served), Some recorded)
  end.

(** [match &served_provider] of a success always has a provider: one without
    has returned before. *)
Definition respond_body (p : ProxyState) (store : MeasurementStore) (profile : RoutingProfile)
    (endpoint : CompletionEndpoint) (clock : Clock) (decision : RouteDecision) (upstream : UpstreamReply)
    (alias : bool) (served : ServedProvider) : outcome Responded :=
  match collect_body (ur_body upstream) with
  | None => Done (upstream_unavailable, None)
  | Some upstream_body =>
      if alias then
        match sanitize_aliased_json_response upstream_body (decision_model decision) with
        | Ok body => respond_costed p store profile endpoint clock decision upstream alias served body
        | Err _ => unrecorded (aliased_upstream_error BAD_GATEWAY (decision_model decision) (Some served))
        end
      else respond_costed p store profile endpoint clock decision upstream alias served upstream_body
  end.

Definition respond (p : ProxyState) (store : MeasurementStore) (profile : RoutingProfile)
    (endpoint : CompletionEndpoint) (clock : Clock) (stream : bool) (decision : RouteDecision)
    (upstream : UpstreamReply) : outcome Responded :=
  let status := ur_status upstream in
  let content_type := header_get CONTENT_TYPE (ur_headers upstream) in
  let generation_id := header_get GENERATION_ID_HEADER (ur_headers upstream) in
  let served_provider := served_provider_from_headers (ur_headers upstream) in
  let alias := response_uses_public_alias (public_aliases p) served_provider (selected_provider decision) in
  if is_success status then
    match served_provider with
    | None => unrecorded (aliased_upstream_error BAD_GATEWAY (decision_model decision) None)
    | Some served =>
        if stream && is_event_stream content_type
        then unrecorded (respond_stream p profile endpoint clock decision upstream served)
        else respond_body p store profile endpoint clock decision upstream alias served
    end
  else if alias then unrecorded (aliased_upstream_error status (decision_model decision) served_provider)
  else Done (downstream_response status content_type generation_id
               (inl (UpstreamBody (ur_body upstream))) served_provider, None).

(** ** A request *)

Record ForwardOutcome : Type := {
  fo_response : Response;
  fo_state : RoutingState;
  fo_recorded : option Recorded;
  fo_sent : list (list byte)
}.

(** The flag [forward] reads; the router has its own, stricter check. *)
Definition requested_stream (request : Value) : bool :=
  default false (value_get "stream" request ≫= as_bool).

Definition forward (sidecar : Sidecar) (p : ProxyState) (store : MeasurementStore) (state : RoutingState)
    (profile : RoutingProfile) (endpoint : CompletionEndpoint) (clock : Clock) (body : list byte)
    : outcome ForwardOutcome :=
  match from_slice body with
  | None => Done {| fo_response := invalid_json_request; fo_state := state; fo_recorded := None; fo_sent := [] |}
  | Some request =>
      let stream := requested_stream request in
      route_for_endpoint (routing p) store state profile endpoint request ≫= fun routed =>
      match ro_result routed with
      | Err error =>
          let '(status, value) := route_error_response error in
          Done {| fo_response := json_response status value; fo_state := ro_state routed;
                  fo_recorded := None; fo_sent := [] |}
      | Ok decision =>
          expect "a parsed JSON completion request serializes" (to_vec (ro_request routed))
            ≫= fun selected_body =>
          send_selected_then_fallback (sidecar endpoint) (ro_request routed) selected_body decision
            ≫= fun '(upstream, sent) =>
          match upstream with
          | None =>
              Done {| fo_response := upstream_unavailable; fo_state := ro_state routed;
                      fo_recorded := None; fo_sent := sent |}
          | Some upstream =>
              respond p store profile endpoint clock stream decision upstream ≫= fun '(response, recorded) =>
              Done {| fo_response := response; fo_state := ro_state routed;
                      fo_recorded := recorded; fo_sent := sent |}
          end
      end
  end.

Definition chat_completions (sidecar : Sidecar) (p : ProxyState) (store : MeasurementStore)
    (state : RoutingState) (profile : RoutingProfile) :=
  forward sidecar p store state profile Chat.

Definition legacy_completions (sidecar : Sidecar) (p : ProxyState) (store : MeasurementStore)
    (state : RoutingState) (profile : RoutingProfile) :=
  forward sidecar p store state profile Legacy.
End Proxy.
