(* ===== verification/ProxyProps.v ===== *)
(** The properties of the proxy ([proxy.rs]): the fallback protocol, no
    uncosted success, what an aliased provider's client can see, and that every
    request is answered. *)

From Stdlib Require Import QArith ZArith Strings.Byte.
From S2P Require Import Prelude Float64 RustDecimal RoutingProfile Registry Json RefJson Preference Measurements.
From S2P Require Import Share Select SelectSpec Config Routing RoutingSpec Pricing UsageCost.
From S2P Require Import Sse SseSpec SseProps Database Ledger Generation StreamRecords StreamProps Proxy Fixtures RoutingProps.

#[local] Open Scope Z_scope.

Section Props.
Context {D : RustDecimal} {R : RandCrate} {J : SerdeJson} {U : UrlCrate}.

(** ** Fallbacks *)

(** The body of an attempt at a fallback: the request with its model replaced. *)
Definition attempt_body (request : Value) (model : string) : outcome (list byte) :=
  set_index "model" (JString model) request ≫= fun r =>
  expect "a parsed JSON completion request serializes" (to_vec r).

Definition retryable (reply : option UpstreamReply) : bool :=
  match reply with Some r => retryable_status (ur_status r) | None => true end.

Lemma bt_insert_twice {V} k (x y : V) m :
  bt_insert String.compare k x (bt_insert String.compare k y m) = bt_insert String.compare k x m.
Proof.
  assert (String.compare k k = Eq) as Hk by by apply string_compare_eq.
  induction m as [|[j w] m IH]; cbn; [by rewrite Hk|].
  destruct (String.compare k j) eqn:E; cbn; rewrite ?Hk, ?E; [done|done|by rewrite IH].
Qed.

Lemma set_index_twice k x y v v' :
  set_index k y v = Done v' -> set_index k x v' = set_index k x v.
Proof.
  destruct v; cbn; try done; intros [= <-]; cbn; do 2 f_equal.
  - unfold obj_insert. cbn. by rewrite (proj2 (string_compare_eq k k) eq_refl).
  - apply bt_insert_twice.
Qed.

Lemma attempt_body_twice m m' request request' :
  set_index "model" (JString m) request = Done request' ->
  attempt_body request' m' = attempt_body request m'.
Proof. intros H. unfold attempt_body. by rewrite (set_index_twice _ _ _ _ _ H). Qed.

(** The replies to the bodies sent from an attempt on. *)
Definition reply_at (send : nat -> list byte -> option UpstreamReply) (sent : list (list byte)) (i : nat)
    : option UpstreamReply := sent !! i ≫= send i.

(** How far a fallback run got: [n] fallbacks tried. *)
Record fallback_run (send : nat -> list byte -> option UpstreamReply) (request : Value)
    (models : list string) (selected_body : list byte) (upstream : option UpstreamReply)
    (sent : list (list byte)) (n : nat) : Prop := {
  fr_sent : exists bodies, sent = selected_body :: bodies /\
              Forall2 (fun m b => attempt_body request m = Done b) (take n models) bodies;
  fr_count : (n <= length models)%nat /\ length sent = S n;
  fr_reply : upstream = reply_at send sent n;
  fr_failed : forall i, (i < n)%nat -> retryable (reply_at send sent i) = true;
  fr_stop : (n < length models)%nat -> retryable upstream = false
}.

Lemma try_fallbacks_run send request0 request models rest n upstream sent selected_body upstream' sent' :
  (forall m, attempt_body request m = attempt_body request0 m) ->
  drop n models = rest -> (n <= length models)%nat ->
  (exists bodies, sent = selected_body :: bodies /\
     Forall2 (fun m b => attempt_body request0 m = Done b) (take n models) bodies) ->
  upstream = reply_at send sent n ->
  (forall i, (i < n)%nat -> retryable (reply_at send sent i) = true) ->
  try_fallbacks send request rest n upstream sent = Done (upstream', sent') ->
  exists k, fallback_run send request0 models selected_body upstream' sent' k.
Proof.
  revert request n upstream sent. induction rest as [|m rest IH];
    intros request n upstream sent Hreq Hrest Hn (bodies & Hs & Hb) Hup Hfail; cbn [try_fallbacks].
  - intros [= <- <-]. exists n. split; [by exists bodies| |done|done|].
    + split; [done|]. rewrite Hs. cbn. f_equal. rewrite <- (Forall2_length _ _ _ Hb), length_take. lia.
    + intros Hlt. apply (f_equal length) in Hrest. rewrite length_drop in Hrest. cbn in Hrest. lia.
  - fold (retryable upstream). destruct (retryable upstream) eqn:Er; cbn [negb].
    2:{ intros [= <- <-]. exists n. split; [by exists bodies| |done|done|done].
        split; [done|]. rewrite Hs. cbn. f_equal. rewrite <- (Forall2_length _ _ _ Hb), length_take. lia. }
    intros (r & Hr & (b & Hbody & H)%bind_Done)%bind_Done.
    assert (models !! n = Some m) as Hm.
    { rewrite <- (Nat.add_0_r n), <- lookup_drop, Hrest. done. }
    assert (attempt_body request0 m = Done b) as Hmb
      by (rewrite <- Hreq; unfold attempt_body; by rewrite Hr).
    assert (length bodies = n) as Hlen by (rewrite <- (Forall2_length _ _ _ Hb), length_take; lia).
    assert (forall i, (i <= n)%nat -> reply_at send (sent ++ [b]) i = reply_at send sent i) as Hsame.
    { intros i Hi. unfold reply_at. rewrite lookup_app_l; [done|]. rewrite Hs. cbn. lia. }
    apply (IH r (S n) _ (sent ++ [b])) in H; [done|..].
    + intros m'. rewrite <- Hreq. by eapply attempt_body_twice.
    + by rewrite <- Nat.add_1_r, <- drop_drop, Hrest.
    + apply lookup_lt_Some in Hm. lia.
    + exists (bodies ++ [b]). split; [by rewrite Hs|].
      rewrite (take_S_r _ _ _ Hm). apply Forall2_app; [done|]. by repeat constructor.
    + unfold reply_at. assert (length sent = S n) as Hl by (rewrite Hs; cbn; lia).
      rewrite lookup_app_r by lia. by rewrite Hl, Nat.sub_diag.
    + intros i Hi. rewrite Hsame by lia. destruct (decide (i = n)) as [->|]; [by rewrite <- Hup|]. apply Hfail. lia.
Qed.

(** C8: The fallback protocol: the selected route's request is sent first,
    then, one by one and in the decision's order, each fallback's request (the
    same one with its model replaced), only after every attempt so far failed
    with a transport error, a 429 or a 5xx; the first other reply is the
    answer and stops the attempts, and if none comes the last reply is. *)
Theorem fallback_protocol send request selected_body decision upstream sent :
  send_selected_then_fallback send request selected_body decision = Done (upstream, sent) ->
  exists n, fallback_run send request (fallback_models decision) selected_body upstream sent n.
Proof.
  unfold send_selected_then_fallback. intros H.
  apply (try_fallbacks_run send request request (fallback_models decision)
           (fallback_models decision) 0 _ _ selected_body) in H; [done|done|done|lia| |done|].
  - exists []. split; [done|]. rewrite take_0. constructor.
  - intros i Hi. lia.
Qed.

(** ** Successes *)

Lemma aliased_error_inv status model served r :
  aliased_upstream_error status model served = Done r ->
  exists body, to_vec (aliased_error_value status model) = Some body /\
    r = downstream_response status (Some APPLICATION_JSON) None (inl (FullBody body)) served.
Proof.
  unfold aliased_upstream_error. intros (b & Hb%expect_Done & [= <-])%bind_Done. eauto.
Qed.

(** The sidecar's answer to a request: the router's decision for the parsed
    body, and the last reply of the fallback protocol run on the routed
    request. *)
Definition sidecar_answer (sidecar : Sidecar) (p : ProxyState) (store : MeasurementStore)
    (state : RoutingState) (profile : RoutingProfile) (endpoint : CompletionEndpoint) (body : list byte)
    (decision : RouteDecision) (upstream : UpstreamReply) : Prop :=
  exists request routed selected sent,
    from_slice body = Some request /\
    route_for_endpoint (routing p) store state profile endpoint request = Done routed /\
    ro_result routed = Ok decision /\ to_vec (ro_request routed) = Some selected /\
    send_selected_then_fallback (sidecar endpoint) (ro_request routed) selected decision =
      Done (Some upstream, sent).

(** The price of the decision's model at the provider that the reply names. *)
Definition served_price (p : ProxyState) (decision : RouteDecision) (upstream : UpstreamReply)
    : option (ServedProvider * ProviderPrices) :=
  served_provider_from_headers (ur_headers upstream) ≫= fun served =>
  prices ← PriceTable_get (price_table p) served (canonical_slug (decision_model decision) served);
  Some (served, prices).

(** A generation of this decision, served by [served]. *)
Definition generation_of (profile : RoutingProfile) (decision : RouteDecision) (upstream : UpstreamReply)
    (served : ServedProvider) (g : GenerationContext) : Prop :=
  gc_provider_id g = served /\ gc_canonical_slug g = decision_model decision /\ gc_profile g = profile /\
  gc_status g = ur_status upstream.

(** A response that passes a sidecar success on: attributed, priced, and either
    the reply's stream, transformed, or its costed body, recorded. *)
Definition costed_success (p : ProxyState) (store : MeasurementStore) (profile : RoutingProfile)
    (decision : RouteDecision) (upstream : UpstreamReply) (response : Response)
    (recorded : option Recorded) : Prop :=
  exists served prices,
    served_price p decision upstream = Some (served, prices) /\
    r_served_provider response = Some served /\ r_status response = ur_status upstream /\
    ((exists s t g, r_body response = inr s /\ recorded = None /\
        ss_input s = ur_body upstream /\ ss_end s = ur_end upstream /\
        ss_transformer s = Some t /\ public (decision_model decision) prices t /\
        provider_cost_policy t = provider_reported_cost_policy served /\ costed_usage t = None /\
        ss_generation s = Some g /\ generation_of profile decision upstream served g) \/
     (exists collected body v v' json usage g at_ rec,
        collect_body (ur_body upstream) = Some collected /\
        (body = collected \/ sanitize_aliased_json_response collected (decision_model decision) = Ok body) /\
        from_slice body = Some v /\
        inject_usage_cost_value_with_policy (strip_provider_specific_fields v).1 prices
          (provider_reported_cost_policy served) = Done (Ok (v', usage)) /\
        to_vec v' = Some json /\ r_body response = inl (FullBody json) /\
        recorded = Some rec /\ record_at g usage at_ store = Done rec /\
        generation_of profile decision upstream served g)).

Lemma served_price_Ok p decision upstream served prices :
  served_provider_from_headers (ur_headers upstream) = Some served ->
  prices_for_request (decision_model decision) served (price_table p) = Ok prices ->
  served_price p decision upstream = Some (served, prices).
Proof. unfold served_price, prices_for_request. intros -> H%ok_or_Ok. cbn. by rewrite H. Qed.

Lemma inject_priced body model served table costed :
  inject_usage_cost body model served table = Done (Ok costed) ->
  exists prices v v', prices_for_request model served table = Ok prices /\ from_slice body = Some v /\
    inject_usage_cost_value_with_policy (strip_provider_specific_fields v).1 prices
      (provider_reported_cost_policy served) = Done (Ok (v', cr_usage costed)) /\
    to_vec v' = Some (cr_body costed).
Proof.
  unfold inject_usage_cost. destruct (from_slice body) as [v|] eqn:Ev; [|done]. cbn [ok_or].
  destruct (prices_for_request _ _ _) as [prices|] eqn:Ep; [|done].
  intros (r & Hr & H)%bind_Done. destruct r as [[v' u]|]; [|done]. cbn in H.
  destruct (to_vec v') as [json|] eqn:Ej; [|done]. injection H as <-. cbn. eauto 7.
Qed.

(** What becomes of a sidecar success: a costed success, or a 502 that records
    nothing. *)
Definition costed_or_502 (p : ProxyState) (store : MeasurementStore) (profile : RoutingProfile)
    (decision : RouteDecision) (upstream : UpstreamReply) (x : Response * option Recorded) : Prop :=
  costed_success p store profile decision upstream x.1 x.2 \/ (r_status x.1 = BAD_GATEWAY /\ x.2 = None).

Lemma aliased_502 p store profile decision upstream model served x :
  unrecorded (aliased_upstream_error BAD_GATEWAY model served) = Done x ->
  costed_or_502 p store profile decision upstream x.
Proof. intros (r & (b & _ & ->)%aliased_error_inv & [= <-])%bind_Done. by right. Qed.

Lemma respond_stream_costed p store profile endpoint clock decision upstream served x :
  served_provider_from_headers (ur_headers upstream) = Some served ->
  unrecorded (respond_stream p profile endpoint clock decision upstream served) = Done x ->
  costed_or_502 p store profile decision upstream x.
Proof.
  intros Hs. unfold respond_stream.
  destruct (prices_for_request _ _ _) as [prices|] eqn:Ep; [|apply aliased_502].
  intros [= <-]. left. exists served, prices. split; [by apply served_price_Ok|]. split_and!; [done..|]. left.
  do 3 eexists. split_and!; [done|done|done|done|done|by split|done..].
Qed.

Lemma respond_costed_costed p store profile endpoint clock decision upstream alias served collected body x :
  served_provider_from_headers (ur_headers upstream) = Some served ->
  collect_body (ur_body upstream) = Some collected ->
  body = collected \/ sanitize_aliased_json_response collected (decision_model decision) = Ok body ->
  respond_costed p store profile endpoint clock decision upstream alias served body = Done x ->
  costed_or_502 p store profile decision upstream x.
Proof.
  intros Hs Hbody Hc. unfold respond_costed. intros (costed & Hinj & H)%bind_Done.
  destruct costed as [costed|e]; [|by eapply aliased_502].
  apply bind_Done in H as (recorded & Hr & [= <-]). left.
  destruct (inject_priced _ _ _ _ _ Hinj) as (prices & v & v' & Hp & Hv & Hi & Hj).
  exists served, prices. split; [by apply served_price_Ok|]. split_and!; [done..|]. right.
  exists collected, body, v, v'. do 5 eexists.
  split_and!; [done|done|done|exact Hi|exact Hj|done|done|exact Hr|done..].
Qed.

Lemma respond_costed_or_502 p store profile endpoint clock stream decision upstream x :
  is_success (ur_status upstream) = true ->
  respond p store profile endpoint clock stream decision upstream = Done x ->
  costed_or_502 p store profile decision upstream x.
Proof.
  intros Es. unfold respond. rewrite Es.
  destruct (served_provider_from_headers (ur_headers upstream)) as [served|] eqn:Ev; [|apply aliased_502].
  destruct (_ && _); [by apply respond_stream_costed|].
  unfold respond_body. destruct (collect_body (ur_body upstream)) as [ub|] eqn:Eb; [|intros [= <-]; by right].
  destruct (response_uses_public_alias _ _ _).
  - destruct (sanitize_aliased_json_response _ _) eqn:Esan; [|apply aliased_502].
    eapply respond_costed_costed; eauto.
  - eapply respond_costed_costed; eauto.
Qed.

Lemma respond_failure_status p store profile endpoint clock stream decision upstream x :
  is_success (ur_status upstream) = false ->
  respond p store profile endpoint clock stream decision upstream = Done x ->
  r_status x.1 = ur_status upstream.
Proof.
  intros Es. unfold respond. rewrite Es. destruct (response_uses_public_alias _ _ _); [|by intros [= <-]].
  by intros (r & (b & _ & ->)%aliased_error_inv & [= <-])%bind_Done.
Qed.

(** A response to a request that the sidecar answered is [respond]'s. *)
Lemma forward_responds sidecar p store state profile endpoint clock body o decision upstream :
  forward sidecar p store state profile endpoint clock body = Done o ->
  sidecar_answer sidecar p store state profile endpoint body decision upstream ->
  exists stream, respond p store profile endpoint clock stream decision upstream =
                 Done (fo_response o, fo_recorded o).
Proof.
  unfold forward. intros H (request & routed & b & sent & Hreq & Hr & Hd & Hb & Hs).
  rewrite Hreq, Hr in H. cbn [mbind outcome_bind] in H. rewrite Hd, Hb in H. cbn [expect mbind outcome_bind] in H.
  rewrite Hs in H. cbn [mbind outcome_bind] in H.
  apply bind_Done in H as ([response recorded] & Hresp & [= <-]). by eexists.
Qed.

Lemma forward_success_answer sidecar p store state profile endpoint clock body o :
  forward sidecar p store state profile endpoint clock body = Done o ->
  is_success (r_status (fo_response o)) = true ->
  exists decision upstream, sidecar_answer sidecar p store state profile endpoint body decision upstream.
Proof.
  unfold forward, sidecar_answer. destruct (from_slice body) as [request|]; [|by intros [= <-]].
  intros (routed & Hr & H)%bind_Done. destruct (ro_result routed) as [decision|error] eqn:Ed.
  2:{ destruct error as [[]| | | | |]; injection H as <-; done. }
  apply bind_Done in H as (b & Hb%expect_Done & ([upstream sent] & Hs & H)%bind_Done).
  destruct upstream as [upstream|]; [|by injection H as <-]. intros _. exists decision, upstream.
  exists request, routed, b, sent. done.
Qed.

(** C3: No uncosted success.  The response has a success status only when the
    sidecar answered the routed request with a success that names the provider
    that served it, and the price table has a price for the decision's model
    (without that provider's prefix) at that provider; the body is then the
    sidecar's stream transformed at those prices under that provider's cost
    policy, with a generation of this decision to record, or the sidecar's
    collected body (sanitized, for an alias) with the cost at those prices
    injected and a generation of this decision recorded.  Any other success of
    the sidecar (unattributed, unpriced, unreadable, uncostable) becomes a 502
    that records nothing: in particular every one without a price. *)
Theorem no_uncosted_success sidecar p store state profile endpoint clock body o :
  forward sidecar p store state profile endpoint clock body = Done o ->
  (is_success (r_status (fo_response o)) = true ->
   exists decision upstream,
     sidecar_answer sidecar p store state profile endpoint body decision upstream /\
     is_success (ur_status upstream) = true /\
     costed_success p store profile decision upstream (fo_response o) (fo_recorded o)) /\
  (forall decision upstream,
     sidecar_answer sidecar p store state profile endpoint body decision upstream ->
     is_success (ur_status upstream) = true ->
     costed_success p store profile decision upstream (fo_response o) (fo_recorded o) \/
     (r_status (fo_response o) = BAD_GATEWAY /\ fo_recorded o = None)) /\
  (forall decision upstream,
     sidecar_answer sidecar p store state profile endpoint body decision upstream ->
     is_success (ur_status upstream) = true -> served_price p decision upstream = None ->
     r_status (fo_response o) = BAD_GATEWAY /\ fo_recorded o = None).
Proof.
  intros H.
  assert (forall decision upstream,
    sidecar_answer sidecar p store state profile endpoint body decision upstream ->
    is_success (ur_status upstream) = true ->
    costed_or_502 p store profile decision upstream (fo_response o, fo_recorded o)) as Hall.
  { intros d u Ha Hu. destruct (forward_responds _ _ _ _ _ _ _ _ _ _ _ H Ha) as [stream Hr].
    by eapply respond_costed_or_502. }
  split_and!; [|exact Hall|].
  - intros Hst. destruct (forward_success_answer _ _ _ _ _ _ _ _ _ H Hst) as (d & u & Ha). exists d, u.
    destruct (forward_responds _ _ _ _ _ _ _ _ _ _ _ H Ha) as [stream Hr].
    destruct (is_success (ur_status u)) eqn:Eu.
    + split_and!; [done..|]. destruct (Hall d u Ha Eu) as [?|[H502 _]]; [done|]. cbn in H502. by rewrite H502 in Hst.
    + apply respond_failure_status in Hr; [|done]. cbn in Hr. by rewrite Hr, Eu in Hst.
  - intros d u Ha Hu Hnone. destruct (Hall d u Ha Hu) as [(served & prices & Hs & _)|?]; [congruence|done].
Qed.

(** ** Aliased providers *)

(** A content type whose media type, up to any parameters, is the event stream's. *)
Definition event_stream_type (content_type : string) : Prop :=
  exists text, header_to_str content_type = Some text /\ trim (before_char ";" text) = "text/event-stream".

Lemma is_event_stream_type ct : is_event_stream (Some ct) = true -> event_stream_type ct.
Proof.
  unfold is_event_stream, event_stream_type. cbn. destruct (header_to_str ct) as [text|]; cbn; [|done].
  intros H%String.eqb_eq. eauto.
Qed.

(** What a client of an aliased provider may be shown of a reply. *)
Definition alias_safe (model : string) (p : ProxyState) (upstream : UpstreamReply) (r : Response) : Prop :=
  (r = upstream_unavailable) \/
  (exists status body, (status = ur_status upstream \/ status = BAD_GATEWAY) /\
     to_vec (aliased_error_value status model) = Some body /\
     r = downstream_response status (Some APPLICATION_JSON) None (inl (FullBody body))
           (served_provider_from_headers (ur_headers upstream))) \/
  (exists s t prices ct, r_body r = inr s /\ ss_transformer s = Some t /\ public model prices t /\
     header_get CONTENT_TYPE (ur_headers upstream) = Some ct /\ event_stream_type ct /\
     r_content_type r = Some ct /\ r_generation_id r = header_get GENERATION_ID_HEADER (ur_headers upstream)) \/
  (exists fs clean served costed, public_fields model fs /\ to_vec (Object fs) = Some clean /\
     inject_usage_cost clean model served (price_table p) = Done (Ok costed) /\
     r_body r = inl (FullBody (cr_body costed)) /\ r_content_type r = Some APPLICATION_JSON /\
     r_generation_id r = header_get GENERATION_ID_HEADER (ur_headers upstream)).

Lemma aliased_error_safe model p upstream status r :
  status = ur_status upstream \/ status = BAD_GATEWAY ->
  aliased_upstream_error status model (served_provider_from_headers (ur_headers upstream)) = Done r ->
  alias_safe model p upstream r.
Proof. intros Hst (b & Hb & ->)%aliased_error_inv. right. left. eauto. Qed.

Lemma sanitized_body_public body model clean :
  sanitize_aliased_json_response body model = Ok clean ->
  exists fs, public_fields model fs /\ to_vec (Object fs) = Some clean.
Proof.
  unfold sanitize_aliased_json_response.
  intros (v & _ & (v' & (fs & -> & _ & ->)%sanitize_Ok & Hc%ok_or_Ok)%bind_Ok)%bind_Ok.
  eexists. split; [apply sanitized_public|done].
Qed.

Context {UJ : UrlJoin}.

(** A provider with both public names. *)
Definition aliased (r : Registry) (provider_id : string) : Prop :=
  exists q, q ∈ providers r /\ id q = provider_id /\
    is_Some (public_display_name q) /\ is_Some (public_tag q).

Lemma new_aliases url table r cfg g p st provider_id :
  ProxyState_new url table r cfg g = Done (Ok (p, st)) ->
  provider_id ∈ public_aliases p <-> aliased r provider_id.
Proof.
  unfold ProxyState_new. destruct (ok_or InvalidSidecarUrl _) as [base|]; [|done].
  destruct (_ || _ || _ || _ || _); [done|].
  destruct (map_err InvalidRouting _) as [rt|]; [|done].
  intros (chat & _ & (legacy & _ & [= <- _])%bind_Done)%bind_Done. cbn.
  rewrite elem_of_list_to_set, list_elem_of_fmap. unfold aliased, has_public_alias. split.
  - intros (q & -> & [Ha Hq]%elem_of_filter_b). exists q.
    destruct (public_display_name q), (public_tag q); by eauto.
  - intros (q & Hq & <- & [n Hn] & [t Ht]). exists q. split; [done|].
    apply elem_of_filter_b. by rewrite Hn, Ht.
Qed.

(** C5: An aliased provider stays hidden: when the selected or the serving
    provider has a public alias in the registry, whatever the sidecar replies,
    the client gets the generic failure, a stream of public events of the
    canonical model, or a JSON body computed from the sanitized response alone
    (public fields, the canonical model's name, no provider-specific field at
    any depth).  Of the reply's own headers only a success's generation id and,
    for a stream, the content type that made it one (its media type is
    text/event-stream) are passed on; any other content type is replaced by
    application/json, and upstream bytes and error bodies are never passed on. *)
Theorem alias_hides_upstream url table registry cfg g p st
    store profile endpoint clock stream decision upstream r rec :
  ProxyState_new url table registry cfg g = Done (Ok (p, st)) ->
  aliased registry (selected_provider decision) \/
  (exists served, served_provider_from_headers (ur_headers upstream) = Some served /\
                  aliased registry served) ->
  respond p store profile endpoint clock stream decision upstream = Done (r, rec) ->
  alias_safe (decision_model decision) p upstream r.
Proof.
  intros Hnew Hal.
  assert (response_uses_public_alias (public_aliases p) (served_provider_from_headers (ur_headers upstream))
            (selected_provider decision) = true) as Ha.
  { unfold response_uses_public_alias. apply orb_true_iff. destruct Hal as [Hal|(served & -> & Hal)].
    - left. apply bool_decide_eq_true. by rewrite (new_aliases _ _ _ _ _ _ _ _ Hnew).
    - right. apply bool_decide_eq_true. by rewrite (new_aliases _ _ _ _ _ _ _ _ Hnew). }
  clear Hal. unfold respond. rewrite Ha. unfold unrecorded.
  destruct (is_success (ur_status upstream)).
  2:{ intros (x & Hx & [= <- <-])%bind_Done. eapply aliased_error_safe; [by left|exact Hx]. }
  assert (forall served x, served_provider_from_headers (ur_headers upstream) = served ->
    aliased_upstream_error BAD_GATEWAY (decision_model decision) served = Done x ->
    alias_safe (decision_model decision) p upstream x) as Herr.
  { intros served x <- Hx. eapply aliased_error_safe; [by right|exact Hx]. }
  destruct (served_provider_from_headers (ur_headers upstream)) as [served|].
  2:{ intros (x & Hx & [= <- <-])%bind_Done. by eapply Herr. }
  destruct (stream && _) eqn:Est.
  - intros (x & Hx & [= <- <-])%bind_Done. unfold respond_stream in Hx.
    destruct (prices_for_request _ _ _) as [prices|]; [|by eapply Herr].
    apply andb_true_iff in Est as [_ Est].
    destruct (header_get CONTENT_TYPE (ur_headers upstream)) as [ct|] eqn:Ect; [|done].
    injection Hx as <-. right. right. left. do 2 eexists. exists prices, ct. cbn.
    split_and!; [done|done|by split|done|by apply is_event_stream_type|done..].
  - unfold respond_body. destruct (collect_body (ur_body upstream)) as [body|].
    2:{ intros [= <- <-]. by left. }
    destruct (sanitize_aliased_json_response body (decision_model decision)) as [clean|] eqn:Es.
    2:{ unfold unrecorded. intros (x & Hx & [= <- <-])%bind_Done. by eapply Herr. }
    unfold respond_costed, unrecorded. intros (costed & Hc & H)%bind_Done. destruct costed as [costed|].
    2:{ apply bind_Done in H as (x & Hx & [= <- <-]). by eapply Herr. }
    apply bind_Done in H as (recorded & _ & [= <- <-]). right. right. right.
    destruct (sanitized_body_public _ _ _ Es) as (fs & Hfs & Hv).
    exists fs, clean, served, costed. done.
Qed.

(** ** Totality *)

(** Every price the table can answer yields a cost. *)
Definition table_costable (table : PriceTable) : Prop :=
  forall provider_id slug prices, PriceTable_get table provider_id slug = Some prices -> costable prices.

Lemma aliased_error_total status model served :
  printable -> exists r, aliased_upstream_error status model served = Done r.
Proof.
  intros (Hv & _). unfold aliased_upstream_error. destruct (Hv (aliased_error_value status model)) as [b ->].
  cbn. eauto.
Qed.

Lemma inject_cost_total body model served table :
  printable -> table_costable table -> exists r, inject_usage_cost body model served table = Done r.
Proof.
  intros Hp Ht. unfold inject_usage_cost. destruct (from_slice body) as [v|]; cbn [ok_or]; [|eauto].
  destruct (prices_for_request model served table) as [prices|] eqn:Ep; [|eauto].
  apply ok_or_Ok in Ep.
  destruct (inject_total (strip_provider_specific_fields v).1 prices (provider_reported_cost_policy served)
    Hp (Ht _ _ _ Ep)) as [[[]|] ->]; cbn [mbind outcome_bind]; [|eauto].
  destruct Hp as (Hv & _). destruct (Hv v0) as [b Hb]. cbn. rewrite Hb. cbn. eauto.
Qed.

(** What HTTP and the process clock guarantee of a reply. *)
Definition reply_ok (r : UpstreamReply) : Prop :=
  ur_status r <= 999 /\ instant_ok (ur_attempt_started_at r) /\ instant_ok (ur_headers_received_at r) /\
  Forall arrival_ok (ur_body r) /\ arrival_ok (ur_end r).

Lemma respond_total p store profile endpoint clock stream decision upstream :
  printable -> table_costable (price_table p) -> ur_status upstream <= 999 ->
  exists r, respond p store profile endpoint clock stream decision upstream = Done r.
Proof.
  intros Hp Ht Hs. unfold respond, unrecorded.
  assert (forall st m sv, exists x, aliased_upstream_error st m sv = Done x) as Herr
    by (intros; by apply aliased_error_total).
  assert (forall st m sv, exists x, (aliased_upstream_error st m sv ≫= fun r => Done (r, @None Recorded)) = Done x)
    as Hfail by (intros st m sv; destruct (Herr st m sv) as [x ->]; cbn; eauto).
  destruct (is_success _); [|destruct (response_uses_public_alias _ _ _); [apply Hfail|eauto]].
  destruct (served_provider_from_headers _) as [served|]; [|apply Hfail].
  assert (forall alias body, exists x,
    respond_costed p store profile endpoint clock decision upstream alias served body = Done x) as Hcost.
  { intros alias body. unfold respond_costed, unrecorded.
    destruct (inject_cost_total body (decision_model decision) served _ Hp Ht) as [[costed|] ->];
      cbn [mbind outcome_bind]; [|apply Hfail].
    match goal with |- context [record_at ?g ?c ?a ?st] => destruct (record_total g c a st) as [x ->] end;
      [done|]. cbn. eauto. }
  destruct (_ && _).
  - unfold respond_stream. destruct (prices_for_request _ _ _); [cbn; eauto|apply Hfail].
  - unfold respond_body, unrecorded. destruct (collect_body _); [|eauto].
    destruct (response_uses_public_alias _ _ _); [|apply Hcost].
    destruct (sanitize_aliased_json_response _ _); [apply Hcost|apply Hfail].
Qed.

Lemma inject_cost_tokens_ok body model served table costed :
  printable -> inject_usage_cost body model served table = Done (Ok costed) ->
  tokens_ok (Pricing.completion_tokens (cu_usage (cr_usage costed))).
Proof.
  intros Hp. unfold inject_usage_cost. destruct (ok_or InvalidJson (from_slice body)) as [v|]; [|discriminate].
  destruct (prices_for_request model served table) as [prices|]; [|discriminate].
  intros (r & Hr & H)%bind_Done. destruct r as [[v' c]|]; [|discriminate].
  destruct (ok_or InvalidJson (to_vec _)) as [b|]; [|discriminate]. injection H as <-. by apply inject_tokens_ok in Hr.
Qed.

(** A recorded body leaves a store built by observations, and so will whatever
    a streamed body comes to record. *)
Definition responded_ok (x : Response * option Recorded) : Prop :=
  (forall s, r_body x.1 = inr s -> streaming_ok s) /\ (forall r, x.2 = Some r -> observed (re_store r)).

Lemma error_responded_ok st m sv r : aliased_upstream_error st m sv = Done r -> responded_ok (r, None).
Proof. unfold aliased_upstream_error. by intros (b & _ & [= <-])%bind_Done. Qed.

Lemma unrecorded_error_ok st m sv x :
  unrecorded (aliased_upstream_error st m sv) = Done x -> responded_ok x.
Proof. intros (r & Hr & [= <-])%bind_Done. by eapply error_responded_ok. Qed.

Lemma respond_stream_ok p profile endpoint clock decision upstream served r :
  table_costable (price_table p) -> reply_ok upstream -> respond_stream p profile endpoint clock decision upstream served = Done r ->
  responded_ok (r, None).
Proof.
  intros Ht (Hs & Ha & Hh & Hb & He). unfold respond_stream.
  destruct (prices_for_request _ _ _) as [prices|] eqn:Ep; [|apply error_responded_ok]. apply ok_or_Ok in Ep.
  intros [= <-]. split; [|done]. cbn. intros s [= <-]. split; [split; cbn; [done|done| |]|].
  - by intros t [= <-].
  - intros g [= <-]. split_and!; [done|done|]. by cbn.
  - intros t [= <-]. do 3 eexists. split; [by split|]. split; [by eapply Ht|done].
Qed.

Lemma respond_costed_ok p store profile endpoint clock decision upstream alias served body x :
  printable -> observed store -> instant_ok (ck_response_completed_at clock) -> reply_ok upstream ->
  respond_costed p store profile endpoint clock decision upstream alias served body = Done x -> responded_ok x.
Proof.
  intros Hp Hs Hc (_ & Ha & Hh & _). unfold respond_costed. intros (costed & Hcosted & Hr)%bind_Done.
  destruct costed as [costed|]; [|by apply unrecorded_error_ok in Hr].
  apply bind_Done in Hr as (r & Hr & [= <-]). split; [done|]. cbn. intros r' [= <-].
  eapply record_at_observed; [exact Hs|by eapply inject_cost_tokens_ok| |exact Hr].
  split_and!; [done|done|]. by intros t [= <-].
Qed.

Lemma respond_ok p store profile endpoint clock stream decision upstream x :
  printable -> table_costable (price_table p) -> observed store -> instant_ok (ck_response_completed_at clock) -> reply_ok upstream ->
  respond p store profile endpoint clock stream decision upstream = Done x -> responded_ok x.
Proof.
  intros Hp Ht Hs Hc Hok. unfold respond.
  destruct (is_success _); [|destruct (response_uses_public_alias _ _ _);
    [apply unrecorded_error_ok|by intros [= <-]]].
  destruct (served_provider_from_headers _) as [served|]; [|apply unrecorded_error_ok].
  destruct (_ && _).
  { intros (r & Hr & [= <-])%bind_Done. by eapply respond_stream_ok. }
  unfold respond_body. destruct (collect_body _); [|by intros [= <-]].
  destruct (response_uses_public_alias _ _ _); [|by eapply respond_costed_ok].
  destruct (sanitize_aliased_json_response _ _); [by eapply respond_costed_ok|apply unrecorded_error_ok].
Qed.

Lemma try_fallbacks_total send fs models n upstream sent :
  printable -> exists r, try_fallbacks send (Object fs) models n upstream sent = Done r.
Proof.
  intros Hp. revert fs n upstream sent. induction models as [|m models IH]; intros fs n upstream sent;
    cbn [try_fallbacks]; [eauto|]. destruct (negb _); [eauto|]. cbn [set_index mbind outcome_bind].
  destruct Hp as (Hv & Hp). destruct (Hv (Object (obj_insert "model" (JString m) fs))) as [b ->].
  cbn [expect mbind outcome_bind]. apply IH.
Qed.

Lemma decided_object policy store state prof endpoint request out d :
  route_for_endpoint policy store state prof endpoint request = Done out -> ro_result out = Ok d ->
  exists fs, ro_request out = Object fs.
Proof.
  destruct out as [res req st]. cbn. intros H ->. apply route_decided in H as (parsed & ds & s & t & cs & []).
  destruct dc_parsed as (r & _ & Hset). destruct (consume_routing_sort r); cbn in Hset; try done;
    injection Hset as <-; eauto.
Qed.

(** The attempts always end, in no reply or in one the sidecar gave. *)
Lemma send_reply_ok send request b d :
  printable -> (exists fs, request = Object fs) ->
  (forall n body r, send n body = Some r -> reply_ok r) ->
  exists upstream sent, send_selected_then_fallback send request b d = Done (upstream, sent) /\
    forall u, upstream = Some u -> reply_ok u.
Proof.
  intros Hp [fs ->] Hsend. unfold send_selected_then_fallback.
  destruct (try_fallbacks_total send fs (fallback_models d) 0 (send 0%nat b) [b] Hp) as [[upstream sent] H].
  exists upstream, sent. split; [done|]. intros u ->.
  apply (try_fallbacks_run send (Object fs) (Object fs) (fallback_models d) (fallback_models d) 0 _ _ b)
    in H as [k Hrun]; [|done|done|lia| |done|].
  - pose proof (fr_reply _ _ _ _ _ _ _ Hrun) as Hr. unfold reply_at in Hr.
    symmetry in Hr. apply bind_Some in Hr as (x & _ & Hx). by eapply Hsend.
  - exists []. split; [done|]. rewrite take_0. constructor.
  - intros i Hi. lia.
Qed.

(** Every request is answered: whatever its bytes, whatever the sidecar's
    replies (or their absence), [forward] returns a response, leaves the
    rolling windows well formed and, when it records, a store built by
    observations (as a streamed body will), so the next request is
    answered too; nothing in the path from parsing to the recorded generation
    can panic, as long as values and decimals print as JSON, the table's prices
    yield costs, and statuses and clock readings are in range. *)
Lemma forward_answers (val : decimal -> Q) `{!DecimalLaws val}
    sidecar p store state profile endpoint clock body :
  policy_wf val (routing p) -> state_wf (routing p) state -> observed store ->
  printable -> table_costable (price_table p) ->
  instant_ok (ck_response_completed_at clock) ->
  (forall e n b r, sidecar e n b = Some r -> reply_ok r) ->
  exists o, forward sidecar p store state profile endpoint clock body = Done o /\
            state_wf (routing p) (fo_state o) /\
            (forall r, fo_recorded o = Some r -> observed (re_store r)) /\
            (forall s, r_body (fo_response o) = inr s -> streaming_ok s).
Proof.
  intros Hpol Hst Hstore Hp Ht Hclock Hside. unfold forward.
  destruct (from_slice body) as [request|]; [|by eexists].
  destruct (route_total val (routing p) store state profile endpoint request Hpol Hst (observed_valid _ Hstore))
    as (out & Hout & Hwf). rewrite Hout. cbn [mbind outcome_bind].
  destruct (ro_result out) as [decision|error] eqn:Er;
    [|destruct (route_error_response error); by eexists].
  destruct (decided_object _ _ _ _ _ _ _ _ Hout Er) as [fs Hfs]. rewrite Hfs.
  pose proof Hp as (Hv & _). destruct (Hv (Object fs)) as [b ->]. cbn [expect mbind outcome_bind].
  destruct (send_reply_ok (sidecar endpoint) (Object fs) b decision Hp (ex_intro _ fs eq_refl) (Hside endpoint))
    as (upstream & sent & -> & Hok). cbn [mbind outcome_bind].
  destruct upstream as [upstream|]; [|by eexists]. specialize (Hok upstream eq_refl).
  destruct (respond_total p store profile endpoint clock (requested_stream request) decision upstream Hp Ht (proj1 Hok))
    as [[response recorded] Hr]. rewrite Hr. cbn. eexists. split; [done|]. split; [done|].
  apply respond_ok in Hr as [H1 H2]; done.
Qed.
End Props.

(** ** Witnesses *)

Module RefUrlJoin.
#[global] Instance join : UrlJoin (U := RefUrl.url) := {| url_join u s := Some (u +:+ s) |}.
End RefUrlJoin.

Definition hidden : Provider :=
  {| id := "bravo"; display_name := "Bravo"; public_display_name := Some "House"; public_tag := Some "house";
     base_url := "https://example.test/v1"; secret_env := "EXAMPLE_KEY"; enabled := true;
     priority := 1; catalog_url := None; profiles := default_profiles;
     models := [chat_model (dec 1 0) (dec 2 0)] |}.
Definition hidden_registry : Registry := {| providers := [hidden] |}.

Definition hidden_table : PriceTable :=
  match PriceTable_from_registry hidden_registry with Ok t => t | Err _ => ∅ end.

Lemma hidden_table_Ok : PriceTable_from_registry hidden_registry = Ok hidden_table.
Proof. vm_reflexivity. Qed.

Lemma hidden_costable : table_costable hidden_table.
Proof.
  intros pid s prices. rewrite (from_registry_get _ _ pid s hidden_table_Ok).
  unfold registry_price. cbn [enabled_providers providers hidden_registry filter_b enabled hidden find_b id].
  destruct (String.eqb "bravo" pid); [|done].
  cbn [mbind option_bind find_b models slug chat_model hidden].
  destruct (String.eqb "acme/chat" s); [|done]. cbn [fmap option_fmap option_map]. intros [= <-].
  exact stream_costable.
Qed.

Definition hidden_proxy : ProxyState (D := RefDecimal.decimal) (U := RefUrl.url) * RoutingState (R := RefRand.rand) :=
  match ProxyState_new "http://sidecar/" hidden_table hidden_registry routing_config seed with
  | Done (Ok x) => x
  | _ => ({| chat_completions_url := ""; legacy_completions_url := ""; price_table := ∅; routing := policy2;
             public_aliases := ∅ |}, state0)
  end.

Lemma hidden_proxy_Ok :
  ProxyState_new "http://sidecar/" hidden_table hidden_registry routing_config seed =
  Done (Ok (hidden_proxy.1, hidden_proxy.2)).
Proof. vm_reflexivity. Qed.

Definition completion_json : list byte :=
  bytes_of ("{" +:+ q "choices" +:+ ":[]," +:+ q "id" +:+ ":" +:+ q "g" +:+ "," +:+ q "object" +:+ ":"
    +:+ q "chat.completion" +:+ "," +:+ q "usage" +:+ ":{" +:+ q "completion_tokens" +:+ ":500,"
    +:+ q "prompt_tokens" +:+ ":1000}}").

Definition completion_reply : UpstreamReply :=
  {| ur_status := 200;
     ur_headers := [(SERVED_PROVIDER_HEADER, "bravo"); (CONTENT_TYPE, "application/json")];
     ur_body := [chunk_at 400 completion_json]; ur_end := upstream_end;
     ur_attempt_started_at := 200; ur_headers_received_at := 300 |}.

(** The first attempt is lost, the second answered. *)
Definition flaky (n : nat) (body : list byte) : option UpstreamReply :=
  match n with O => None | _ => Some completion_reply end.

Definition steady : Sidecar := fun _ _ _ => Some completion_reply.

Definition sample_clock : Clock :=
  {| ck_request_started_at := 100; ck_processing_duration := 5; ck_response_completed_at := 900 |}.

Definition fallback_run_of :=
  match send_selected_then_fallback (J := RefJson.json) flaky (chat_request "bravo/acme/chat")
          (bytes_of "{}") floor_decision with
  | Done r => r
  | Panic _ => (None, [])
  end.

Example flaky_falls_back : length fallback_run_of.2 = 2%nat /\ is_Some fallback_run_of.1.
Proof. split; [vm_reflexivity|]. vm_compute. eauto. Qed.

Lemma fallback_protocol_witness :
  exists n, fallback_run (J := RefJson.json) flaky (chat_request "bravo/acme/chat") (fallback_models floor_decision)
    (bytes_of "{}") fallback_run_of.1 fallback_run_of.2 n.
Proof.
  apply (fallback_protocol flaky (chat_request "bravo/acme/chat") (bytes_of "{}") floor_decision).
  vm_reflexivity.
Defined.

Definition chat_body : list byte := bytes_of ("{" +:+ q "model" +:+ ":" +:+ q "acme/chat" +:+ "}").

Definition forwarded : ForwardOutcome (R := RefRand.rand) :=
  match forward steady hidden_proxy.1 store_default hidden_proxy.2 Production Chat sample_clock chat_body with
  | Done o => o
  | Panic _ => {| fo_response := upstream_unavailable; fo_state := hidden_proxy.2; fo_recorded := None; fo_sent := [] |}
  end.

Lemma forwarded_Done :
  forward steady hidden_proxy.1 store_default hidden_proxy.2 Production Chat sample_clock chat_body = Done forwarded.
Proof. vm_reflexivity. Qed.

Definition hidden_decision : RouteDecision :=
  {| profile := Production; decision_model := "acme/chat"; selected_provider := "bravo";
     fallback_models := []; has_alternatives := false |}.

Definition hidden_response :=
  match respond hidden_proxy.1 store_default Production Chat sample_clock false hidden_decision completion_reply with
  | Done r => r
  | Panic _ => (upstream_unavailable, None)
  end.

Lemma no_uncosted_success_witness :
  (exists decision upstream,
     sidecar_answer steady hidden_proxy.1 store_default hidden_proxy.2 Production Chat chat_body decision upstream /\
     is_success (ur_status upstream) = true /\
     costed_success hidden_proxy.1 store_default Production decision upstream
       (fo_response forwarded) (fo_recorded forwarded)) /\
  (forall decision upstream,
     sidecar_answer steady hidden_proxy.1 store_default hidden_proxy.2 Production Chat chat_body decision upstream ->
     is_success (ur_status upstream) = true -> served_price hidden_proxy.1 decision upstream = None ->
     r_status (fo_response forwarded) = BAD_GATEWAY /\ fo_recorded forwarded = None).
Proof.
  destruct (no_uncosted_success steady hidden_proxy.1 store_default hidden_proxy.2 Production Chat sample_clock
              chat_body forwarded forwarded_Done) as (Hs & _ & Hnone).
  split; [apply Hs; vm_reflexivity|exact Hnone].
Defined.

(** The same reply without its attribution. *)
Definition unattributed : Sidecar := fun _ _ _ =>
  Some {| ur_status := 200; ur_headers := [(CONTENT_TYPE, "application/json")];
          ur_body := [chunk_at 400 completion_json]; ur_end := upstream_end;
          ur_attempt_started_at := 200; ur_headers_received_at := 300 |}.

Example unattributed_is_502 :
  (r_status (fo_response forwarded) =? 200) && is_some (fo_recorded forwarded) &&
  match forward unattributed hidden_proxy.1 store_default hidden_proxy.2 Production Chat sample_clock chat_body with
  | Done o => (r_status (fo_response o) =? BAD_GATEWAY) && negb (is_some (fo_recorded o))
  | Panic _ => false
  end = true.
Proof. vm_reflexivity. Qed.

Lemma alias_hides_upstream_witness : alias_safe "acme/chat" hidden_proxy.1 completion_reply hidden_response.1.
Proof.
  apply (alias_hides_upstream "http://sidecar/" hidden_table hidden_registry routing_config seed
           hidden_proxy.1 hidden_proxy.2 store_default Production Chat sample_clock false hidden_decision
           completion_reply hidden_response.1 hidden_response.2 hidden_proxy_Ok).
  - left. exists hidden. split_and!; [left|reflexivity|by eexists|by eexists].
  - vm_reflexivity.
Defined.

Lemma hidden_routes_Ok :
  from_registry_with_rng hidden_registry routing_config seed = Ok (routing hidden_proxy.1, hidden_proxy.2).
Proof. vm_reflexivity. Qed.

Lemma forward_answers_witness :
  exists o, forward steady hidden_proxy.1 store_default state0 Production Chat sample_clock chat_body = Done o /\
            state_wf (routing hidden_proxy.1) (fo_state o) /\
            (forall r, fo_recorded o = Some r -> observed (re_store r)) /\
            (forall s, r_body (fo_response o) = inr s -> streaming_ok s).
Proof.
  apply (forward_answers (D := RefDecimal.decimal) RefDecimal.val).
  - exact (table_policy_wf _ _ _ hidden_routes_Ok).
  - apply state0_wf.
  - exact observed_default.
  - exact ref_printable.
  - exact hidden_costable.
  - split; vm_compute; discriminate.
  - intros e n b r [= <-]. unfold reply_ok, arrival_ok, instant_ok. cbn [completion_reply ur_body].
    rewrite Forall_singleton. split_and!; vm_compute; discriminate.
Defined.
