(* ===== verification/Service.v ===== *)
(** The running service: concurrent requests over the state they share (the
    routing state behind its mutex, the measurement store behind its lock, the
    ledger's table, the database's health and its supervisor).

    A task is a request's handler ([proxy.rs], [forward]), the body it streams,
    or a spawned ledger insert; every step of it that reads or writes shared
    state is one label, so a list of labels is one interleaving.  Parsing,
    costing and sanitizing touch nothing shared and belong to the step around
    them.  A task can be dropped only where it awaits. *)

From Stdlib Require Import ZArith.
From S2P Require Import Prelude Float64 RustDecimal RoutingProfile Registry Json Preference Measurements.
From S2P Require Import Share Select Config Routing Pricing UsageCost Sse Database Ledger Generation Proxy.

#[local] Open Scope Z_scope.

Section Service.
Context {D : RustDecimal} {R : RandCrate} {J : SerdeJson} {U : UrlCrate} {T : Jiff} {N : Notify}.

(** ** A decision in its three parts *)

(** What [route_for_endpoint] has before it reads any shared state: the key,
    the preference, the compatible descriptors and the rewritten request. *)
Record Prepared : Type := {
  pr_key : RouteKey;
  pr_preference : Preference;
  pr_descriptors : list RouteDescriptor;
  pr_request : Value
}.

Definition prepare (policy : RoutingPolicy) (profile : RoutingProfile) (endpoint : CompletionEndpoint)
    (request : Value) : outcome (result (RouteRequestError * Value) Prepared) :=
  match reject_provider_overrides request with
  | Err e => Done (Err (e, request))
  | Ok _ =>
  match parse_top_p request with
  | Err e => Done (Err (e, request))
  | Ok top_p =>
  match parse_stream request with
  | Err e => Done (Err (e, request))
  | Ok stream =>
  parse_request request ≫= fun parsed =>
  match parsed with
  | Err e => Done (Err (InvalidPreference e, request))
  | Ok (parsed, request) =>
  let request := consume_routing_sort request in
  let key := (profile, canonical_model parsed) in
  match routes policy !! key with
  | None => Done (Err (UnknownModel, request))
  | Some descriptors =>
      Done (Ok {| pr_key := key; pr_preference := preference parsed;
                  pr_descriptors := filter_b (compatible endpoint stream top_p) descriptors;
                  pr_request := request |})
  end end end end end.

(** The read of one candidate's measurements. *)
Definition read_candidate (store : MeasurementStore) (p : Prepared) (d : RouteDescriptor) : outcome Candidate :=
  candidate_of store (pr_key p).1 (pr_key p).2 d.

(** The critical section, and the request it rewrites. *)
Definition commit (policy : RoutingPolicy) (state : RoutingState) (p : Prepared) (candidates : list Candidate)
    : outcome RouteOutcome :=
  match candidates with
  | [] => Done {| ro_result := Err NoEligibleRoute; ro_request := pr_request p; ro_state := state |}
  | _ =>
      decide_route policy state (pr_key p) (pr_preference p) candidates ≫= fun '(decided, state') =>
      match decided with
      | None => Done {| ro_result := Err NoEligibleRoute; ro_request := pr_request p; ro_state := state' |}
      | Some (selected_provider, fallback_models) =>
          set_index "model" (JString (route_name selected_provider (pr_key p).2)) (pr_request p)
            ≫= fun request' =>
          Done {| ro_result := Ok {| profile := (pr_key p).1; decision_model := (pr_key p).2;
                                     selected_provider := selected_provider;
                                     fallback_models := fallback_models;
                                     has_alternatives :=
                                       match fallback_models with [] => false | _ => true end |};
                  ro_request := request'; ro_state := state' |}
      end
  end.

(** ** Tasks and the world *)

Inductive Task : Type :=
| Reading (endpoint : CompletionEndpoint) (stream : bool) (p : Prepared)
    (todo : list RouteDescriptor) (read : list Candidate)
| Sending (endpoint : CompletionEndpoint) (stream : bool) (d : RouteDecision) (request : Value)
| Streaming (s : StreamState)
| Inserting (w : GenerationWrite)
| Finished.

Record World : Type := {
  w_routing : RoutingState;
  w_store : MeasurementStore;
  w_table : gmap string Row;
  w_database : System;
  w_tasks : list Task
}.

(** One scheduled step; the arguments are what the environment contributes. *)
Inductive Label : Type :=
| Arrive (profile : RoutingProfile) (endpoint : CompletionEndpoint) (body : list byte)
| ReadCandidate (i : nat)
| Decide (i : nat)
| Receive (i : nat) (send : nat -> list byte -> option UpstreamReply) (clock : Clock)
| Poll (i : nat)
| Disconnect (i : nat)
| RunInsert (i : nat) (d : Delivery) (now : timestamp)
| Lookup (d : Delivery) (profile : RoutingProfile) (query : option string)
| Supervisor (recovered : bool)
| Notified.

(** What a step lets be observed. *)
Inductive Event : Type :=
| Decided (key : RouteKey) (provider : string)
| Responds (r : Response)
| Answers (r : JsonResponse)
| Yields (item : option (list byte))
| Enqueues (w : GenerationWrite)
| Issues (w : GenerationWrite).

Definition Stepped : Type := outcome (World * list Event).

Definition with_tasks (ts : list Task) (w : World) : World :=
  {| w_routing := w_routing w; w_store := w_store w; w_table := w_table w;
     w_database := w_database w; w_tasks := ts |}.
Definition with_routing (s : RoutingState) (w : World) : World :=
  {| w_routing := s; w_store := w_store w; w_table := w_table w;
     w_database := w_database w; w_tasks := w_tasks w |}.
Definition with_store (s : MeasurementStore) (w : World) : World :=
  {| w_routing := w_routing w; w_store := s; w_table := w_table w;
     w_database := w_database w; w_tasks := w_tasks w |}.
Definition with_database (t : gmap string Row) (s : System) (w : World) : World :=
  {| w_routing := w_routing w; w_store := w_store w; w_table := t;
     w_database := s; w_tasks := w_tasks w |}.

Definition set_task (i : nat) (t : Task) (w : World) : World := with_tasks (<[i := t]> (w_tasks w)) w.
Definition spawn (ts : list Task) (w : World) : World := with_tasks (w_tasks w ++ ts) w.

Definition spawn_inserts (ws : list GenerationWrite) (w : World) : World := spawn (Inserting <$> ws) w.

(** ** The steps *)

Context (proxy : ProxyState) (ledger : Ledger).

(** [forward] up to its first shared access. *)
Definition arrive (profile : RoutingProfile) (endpoint : CompletionEndpoint) (body : list byte) (w : World)
    : Stepped :=
  match from_slice body with
  | None => Done (w, [Responds invalid_json_request])
  | Some request =>
      prepare (routing proxy) profile endpoint request ≫= fun prepared =>
      match prepared with
      | Err (error, _) =>
          let '(status, value) := route_error_response error in
          Done (w, [Responds (json_response status value)])
      | Ok p =>
          Done (spawn [Reading endpoint (requested_stream request) p (pr_descriptors p) []] w, [])
      end
  end.

Definition decide_task (i : nat) (endpoint : CompletionEndpoint) (stream : bool) (p : Prepared)
    (candidates : list Candidate) (w : World) : Stepped :=
  commit (routing proxy) (w_routing w) p candidates ≫= fun out =>
  let w := with_routing (ro_state out) w in
  match ro_result out with
  | Err error =>
      let '(status, value) := route_error_response error in
      Done (set_task i Finished w, [Responds (json_response status value)])
  | Ok d =>
      Done (set_task i (Sending endpoint stream d (ro_request out)) w,
            [Decided (pr_key p) (selected_provider d)])
  end.

(** The write an insert task is spawned with, if any. *)
Definition enqueued (r : Recorded) : list GenerationWrite :=
  match re_write r with inr g => [g] | inl _ => [] end.

(** The attempts and the response to the last one: the measurement of a body
    that is not streamed is the step's one shared access. *)
Definition receive (i : nat) (endpoint : CompletionEndpoint) (stream : bool) (d : RouteDecision)
    (request : Value) (send : nat -> list byte -> option UpstreamReply) (clock : Clock) (w : World)
    : Stepped :=
  expect "a parsed JSON completion request serializes" (to_vec request) ≫= fun selected_body =>
  send_selected_then_fallback send request selected_body d ≫= fun '(upstream, _) =>
  match upstream with
  | None => Done (set_task i Finished w, [Responds upstream_unavailable])
  | Some upstream =>
      respond proxy (w_store w) (profile d) endpoint clock stream d upstream
        ≫= fun '(response, recorded) =>
      let w := set_task i (match r_body response with inr s => Streaming s | inl _ => Finished end) w in
      match recorded with
      | None => Done (w, [Responds response])
      | Some r =>
          Done (spawn_inserts (enqueued r) (with_store (re_store r) w),
                Responds response :: (Enqueues <$> enqueued r))
      end
  end.

(** [generation.record] of each event, in order. *)
Fixpoint record_events (log : list StreamEvent) (store : MeasurementStore)
    : outcome (MeasurementStore * list GenerationWrite) :=
  match log with
  | [] => Done (store, [])
  | Incomplete _ :: log => record_events log store
  | Records g usage at_ :: log =>
      record_at g usage at_ store ≫= fun r =>
      record_events log (re_store r) ≫= fun '(store, ws) => Done (store, enqueued r ++ ws)
  end.

Definition poll (i : nat) (s : StreamState) (w : World) : Stepped :=
  stream_poll s ≫= fun '(polled, log) =>
  record_events log (w_store w) ≫= fun '(store, ws) =>
  let '(task, items) := match polled with
                        | None => (Finished, [])
                        | Some (item, s') => (Streaming s', [Yields item])
                        end in
  Done (spawn_inserts ws (with_store store (set_task i task w)), items ++ (Enqueues <$> ws)).

(** The health label a ledger operation's result is reported with: its failure
    is two accesses, the second of which is a later [Notified]. *)
Definition report_label {A} (r : result SqlError A) : Database.Label :=
  match r with Ok _ => OpReady | Err _ => OpFailure end.

Definition database_step (l : Database.Label) (s : System) : option System :=
  system_step INITIAL_RECOVERY_BACKOFF MAX_RECOVERY_BACKOFF l s.

Definition run_insert (i : nat) (g : GenerationWrite) (d : Delivery) (now : timestamp) (w : World)
    : option World :=
  let '(r, t) := deliver d (w_table w) (execute_insert now g) in
  database_step (report_label r) (w_database w) ≫= fun s =>
  Some (set_task i Finished (with_database t s w)).

(** A lookup, whose SELECT runs only for a usable id. *)
Definition lookup_step (d : Delivery) (profile : RoutingProfile) (query : option string) (w : World)
    : option Stepped :=
  let s := {| table := w_table w; database_health := health (w_database w) |} in
  let answer := get_generation ledger d profile query s in
  match query with
  | Some id =>
      if str_is_empty (trim id) then Some (answer ≫= fun '(r, _) => Done (w, [Answers r]))
      else
        database_step (report_label (fetch d id profile s).1) (w_database w) ≫= fun db =>
        Some (answer ≫= fun '(r, _) => Done (with_database (w_table w) db w, [Answers r]))
  | None => Some (answer ≫= fun '(r, _) => Done (w, [Answers r]))
  end.

(** [None]: the label does not name an enabled step. *)
Definition world_step (l : Label) (w : World) : option Stepped :=
  match l with
  | Arrive profile endpoint body => Some (arrive profile endpoint body w)
  | ReadCandidate i =>
      match w_tasks w !! i with
      | Some (Reading endpoint stream p (d :: todo) read) =>
          Some (read_candidate (w_store w) p d ≫= fun c =>
                Done (set_task i (Reading endpoint stream p todo (read ++ [c])) w, []))
      | _ => None
      end
  | Decide i =>
      match w_tasks w !! i with
      | Some (Reading endpoint stream p [] read) => Some (decide_task i endpoint stream p read w)
      | _ => None
      end
  | Receive i send clock =>
      match w_tasks w !! i with
      | Some (Sending endpoint stream d request) => Some (receive i endpoint stream d request send clock w)
      | _ => None
      end
  | Poll i =>
      match w_tasks w !! i with
      | Some (Streaming s) => Some (poll i s w)
      | _ => None
      end
  | Disconnect i =>
      match w_tasks w !! i with
      | Some (Sending _ _ _ _) | Some (Streaming _) => Some (Done (set_task i Finished w, []))
      | _ => None
      end
  | RunInsert i d now =>
      match w_tasks w !! i with
      | Some (Inserting g) =>
          run_insert i g d now w ≫= fun w => Some (Done (w, [Issues g]))
      | _ => None
      end
  | Lookup d profile query => lookup_step d profile query w
  | Supervisor recovered =>
      database_step (Supervise recovered) (w_database w) ≫= fun s =>
      Some (Done (with_database (w_table w) s w, []))
  | Notified =>
      database_step OpNotify (w_database w) ≫= fun s =>
      Some (Done (with_database (w_table w) s w, []))
  end.

(** An interleaving; labels that are not enabled are skipped. *)
Fixpoint run (ls : list Label) (w : World) : Stepped :=
  match ls with
  | [] => Done (w, [])
  | l :: ls =>
      match world_step l w with
      | None => run ls w
      | Some stepped =>
          stepped ≫= fun '(w, events) =>
          run ls w ≫= fun '(w, rest) => Done (w, events ++ rest)
      end
  end.
End Service.
