(* ===== verification/ServiceProps.v ===== *)
(** The properties of the running service ([Service]): whatever the
    interleaving of requests, streams, ledger inserts and the supervisor, no
    step panics, no decision and no ledger write is lost, and a decision is what
    the atomic [route_for_endpoint] says when nothing intervenes. *)

From Stdlib Require Import QArith ZArith Permutation.
From S2P Require Import Prelude Float64 RustDecimal RoutingProfile Registry Json RefJson Preference Measurements.
From S2P Require Import Share Select SelectSpec Config Routing RoutingSpec Pricing UsageCost Sse SseSpec SseProps.
From S2P Require Import Database Ledger Generation StreamRecords StreamProps Proxy ProxyProps Service Fixtures RoutingProps.

#[local] Open Scope Z_scope.

Section Props.
Context {D : RustDecimal} {R : RandCrate} {J : SerdeJson} {U : UrlCrate} {T : Jiff} {N : Notify}.

(** ** The parts of a decision *)

Definition uninterrupted (policy : RoutingPolicy) (store : MeasurementStore) (state : RoutingState)
    (prof : RoutingProfile) (endpoint : CompletionEndpoint) (request : Value) : outcome RouteOutcome :=
  prepare policy prof endpoint request ≫= fun prepared =>
  match prepared with
  | Err (e, request) => Done {| ro_result := Err e; ro_request := request; ro_state := state |}
  | Ok p => outcome_map (read_candidate store p) (pr_descriptors p) ≫= commit policy state p
  end.

(** Refinement: the steps of a decision (preparing the request, reading
    each candidate's measurements, the critical section), run with nothing in
    between, are exactly the atomic [route_for_endpoint], in its result, its
    rewritten request, its state and its panics. *)
Lemma steps_refine_route policy store state prof endpoint request :
  uninterrupted policy store state prof endpoint request =
  route_for_endpoint policy store state prof endpoint request.
Proof.
  unfold uninterrupted, prepare, route_for_endpoint.
  destruct (reject_provider_overrides request) as [u|]; [|done].
  destruct (parse_top_p request) as [top|]; [|done].
  destruct (parse_stream request) as [stream|]; [|done].
  destruct (parse_request request) as [[[parsed r]|]|]; cbn; [|done..].
  destruct (routes policy !! _) as [ds|]; cbn [mbind outcome_bind]; [|done].
  unfold read_candidate. cbn [pr_key pr_descriptors fst snd].
  destruct (outcome_map _ _) as [[|c cs]|]; cbn; done.
Qed.

(** ** Safety of every interleaving *)

Context (val : decimal -> Q) {L : DecimalLaws val}.
Context (proxy : ProxyState) (ledger : Ledger).
Context (Hpolicy : policy_wf val (routing proxy)) (Hprint : printable).
Context (Hcostable : table_costable (price_table proxy)).

Record prepared_ok (p : Prepared) : Prop := {
  po_preference : pr_preference p <> Balanced;
  po_descriptors : forall d, d ∈ pr_descriptors p -> accepted d;
  po_request : exists fs, pr_request p = Object fs
}.

Definition task_ok (t : Task) : Prop :=
  match t with
  | Reading _ _ p todo read => prepared_ok p /\ forall d, d ∈ todo -> accepted d
  | Sending _ _ _ request => exists fs, request = Object fs
  | Streaming s => streaming_ok s
  | Inserting _ | Finished => True
  end.

Record world_ok (w : World) : Prop := {
  wo_routing : state_wf (routing proxy) (w_routing w);
  wo_store : observed (w_store w);
  wo_database : supervise_reachable (w_database w);
  wo_tasks : Forall task_ok (w_tasks w)
}.

(** What the environment guarantees: replies are HTTP's and clocks are in range. *)
Definition label_ok (l : Label) : Prop :=
  match l with
  | Receive _ send clock =>
      instant_ok (ck_response_completed_at clock) /\
      forall n b r, send n b = Some r -> reply_ok r
  | _ => True
  end.

Lemma prepare_total prof endpoint request :
  exists x, prepare (routing proxy) prof endpoint request = Done x /\
            forall p, x = Ok p -> prepared_ok p.
Proof.
  unfold prepare.
  destruct (reject_provider_overrides request) as [[]|]; [|by eexists].
  destruct (parse_top_p request) as [top|]; [|by eexists].
  destruct (parse_stream request) as [stream|]; [|by eexists].
  destruct (parse_request_total request) as [x Hx]. rewrite Hx. cbn [mbind outcome_bind].
  destruct x as [[parsed r]|]; [|by eexists].
  pose proof (proj1 (parse_request_Ok _ _ _) Hx) as Hpa.
  pose proof (parsed_as_not_balanced _ _ _ Hpa) as Hb.
  destruct Hpa as (fs & m & -> & _ & _ & -> & _).
  destruct (routes (routing proxy) !! _) as [ds|] eqn:Hds; [|by eexists].
  eexists. split; [done|]. intros p [= <-]. split; cbn [pr_preference pr_descriptors pr_request]; [done| |].
  - intros d [_ Hd]%elem_of_filter_b. destruct Hpolicy as (_ & _ & Hacc). by eapply Hacc.
  - apply consume_routing_sort_object.
Qed.

Lemma read_candidate_total store p d :
  observed store -> accepted d -> exists c, read_candidate store p d = Done c.
Proof.
  intros Hs Hd. destruct (candidates_total store (pr_key p).1 (pr_key p).2 [d] (observed_valid _ Hs)) as [cs Hcs].
  { by intros x ->%list_elem_of_singleton. }
  cbn in Hcs. apply bind_Done in Hcs as (c & Hc & _). eauto.
Qed.

Lemma commit_total state p candidates :
  state_wf (routing proxy) state -> prepared_ok p ->
  exists out, commit (routing proxy) state p candidates = Done out /\
    state_wf (routing proxy) (ro_state out) /\
    (forall d, ro_result out = Ok d -> exists fs, ro_request out = Object fs).
Proof.
  intros Hst [Hb _ [fs Hfs]]. unfold commit. destruct candidates as [|c cs]; [by eexists|].
  destruct (decide_route_total val (routing proxy) state (pr_key p) (pr_preference p) (c :: cs) Hpolicy Hst Hb)
    as (x & st' & -> & Hst'). cbn [mbind outcome_bind].
  destruct x as [[sel fbs]|]; [|by eexists]. rewrite Hfs. cbn. eexists. split; [done|]. cbn. eauto.
Qed.
(** ** Worlds *)

Lemma set_task_ok i t w : world_ok w -> task_ok t -> world_ok (set_task i t w).
Proof. intros [? ? ? ?] Ht. split; cbn; [done..|]. by apply Forall_insert. Qed.

Lemma spawn_ok ts w : world_ok w -> Forall task_ok ts -> world_ok (spawn ts w).
Proof. intros [? ? ? ?] Ht. split; cbn; [done..|]. by apply Forall_app. Qed.

Lemma spawn_inserts_ok ws w : world_ok w -> world_ok (spawn_inserts ws w).
Proof. intros Hw. apply spawn_ok; [done|]. by apply Forall_fmap, Forall_true. Qed.

Lemma with_routing_ok st w : world_ok w -> state_wf (routing proxy) st -> world_ok (with_routing st w).
Proof. by intros [? ? ? ?] ?. Qed.

Lemma with_store_ok st w : world_ok w -> observed st -> world_ok (with_store st w).
Proof. by intros [? ? ? ?] ?. Qed.

Lemma with_database_ok t l s w :
  world_ok w -> database_step l (w_database w) = Some s -> world_ok (with_database t s w).
Proof.
  intros [? ? Hd ?] Hs. split; cbn; [done..| |done].
  eapply rtc_r; [exact Hd|]. by exists l.
Qed.

Lemma task_at i t w : world_ok w -> w_tasks w !! i = Some t -> task_ok t.
Proof. intros [_ _ _ Ht] Hi. by eapply Forall_lookup_1 in Ht. Qed.

(** A step that neither panics nor leaves the invariant. *)
Definition step_ok (x : Stepped) : Prop := exists w' events, x = Done (w', events) /\ world_ok w'.

Lemma done_ok w events : world_ok w -> step_ok (Done (w, events)).
Proof. intros H. by exists w, events. Qed.

Lemma finished_ok : task_ok Finished.
Proof. done. Qed.

#[local] Hint Resolve finished_ok set_task_ok spawn_ok spawn_inserts_ok with_routing_ok with_store_ok done_ok : core.

Lemma arrive_ok prof endpoint body w : world_ok w -> step_ok (arrive proxy prof endpoint body w).
Proof.
  intros Hw. unfold arrive. destruct (from_slice body) as [request|]; [|by apply done_ok].
  destruct (prepare_total prof endpoint request) as (x & -> & Hx). cbn [mbind outcome_bind].
  destruct x as [p|[e r]]; [|destruct (route_error_response e); by apply done_ok].
  specialize (Hx p eq_refl). apply done_ok, spawn_ok; [done|]. apply Forall_singleton.
  split; [done|]. apply po_descriptors, Hx.
Qed.

Lemma decide_ok i endpoint stream p cs w : world_ok w -> prepared_ok p -> step_ok (decide_task proxy i endpoint stream p cs w).
Proof.
  intros Hw Hp. unfold decide_task.
  destruct (commit_total (w_routing w) p cs (wo_routing _ Hw) Hp) as (out & -> & Hst & Hreq).
  cbn [mbind outcome_bind]. destruct (ro_result out) as [d|e]; [|destruct (route_error_response e); by auto].
  apply done_ok, set_task_ok; [by apply with_routing_ok|]. by apply (Hreq d).
Qed.

Lemma receive_ok i endpoint stream d request send clock w :
  world_ok w -> (exists fs, request = Object fs) -> label_ok (Receive i send clock) ->
  step_ok (receive proxy i endpoint stream d request send clock w).
Proof.
  intros Hw [fs ->] [Hclock Hsend]. unfold receive.
  destruct (proj1 Hprint (Object fs)) as [b Hb]. rewrite Hb. cbn [expect mbind outcome_bind].
  destruct (send_reply_ok send (Object fs) b d Hprint (ex_intro _ fs eq_refl) Hsend) as (upstream & sent & -> & Hreply).
  cbn [mbind outcome_bind]. destruct upstream as [upstream|]; [|auto]. specialize (Hreply upstream eq_refl).
  destruct (respond_total proxy (w_store w) (profile d) endpoint clock stream d upstream Hprint Hcostable (proj1 Hreply))
    as [[response recorded] Hr]. rewrite Hr. cbn [mbind outcome_bind].
  apply respond_ok in Hr as [Hbody Hrec]; [|done|done|apply Hw|done|done]. cbn in Hbody, Hrec.
  assert (world_ok (set_task i (match r_body response with inr s => Streaming s | inl _ => Finished end) w)) as Hw'.
  { apply set_task_ok; [done|]. destruct (r_body response); [done|by apply Hbody]. }
  destruct recorded as [r|]; auto.
Qed.

Lemma record_events_total log store :
  Forall event_ok log -> observed store ->
  exists store' ws, record_events log store = Done (store', ws) /\ observed store'.
Proof.
  intros Hlog. revert store. induction Hlog as [|[g u at_|reason] log He _ IH]; intros store Hs; cbn [record_events].
  - by do 2 eexists.
  - destruct (event_recorded g u at_ store He Hs) as (r & -> & Hr). cbn [mbind outcome_bind].
    destruct (IH _ Hr) as (store' & ws & -> & Hs'). by do 2 eexists.
  - by apply IH.
Qed.

Lemma poll_step_ok i s w : world_ok w -> streaming_ok s -> step_ok (poll i s w).
Proof.
  intros Hw Hs. unfold poll. destruct (poll_ok s Hprint Hs) as (polled & log & -> & Hlog & Hnext).
  cbn [mbind outcome_bind].
  destruct (record_events_total log (w_store w) Hlog (wo_store _ Hw)) as (store & ws & -> & Ho).
  cbn [mbind outcome_bind]. destruct polled as [[item s']|];
    apply done_ok, spawn_inserts_ok, with_store_ok, Ho; apply set_task_ok; try done. by eapply Hnext.
Qed.

Lemma get_generation_total l d prof query s : exists r s', get_generation l d prof query s = Done (r, s').
Proof.
  unfold get_generation. destruct query as [id|]; [|by do 2 eexists].
  destruct (str_is_empty (trim id)); [by do 2 eexists|]. destruct (fetch d id prof s) as [[[g|]|e] s']; [|by do 2 eexists..].
  unfold generation_response, decimal_value. destruct Hprint as (_ & Hd & _).
  destruct (g_reported_cost_usd g) as [c|]; [destruct (Hd c) as [text ->]|]; cbn; by do 2 eexists.
Qed.

Lemma lookup_ok d prof query w stepped :
  world_ok w -> lookup_step ledger d prof query w = Some stepped -> step_ok stepped.
Proof.
  intros Hw. unfold lookup_step.
  destruct (get_generation_total ledger d prof query
    {| table := w_table w; database_health := health (w_database w) |}) as (r & s' & E).
  rewrite E. cbn [mbind outcome_bind].
  destruct query as [id|]; [|intros [= <-]; auto]. destruct (str_is_empty (trim id)); [intros [= <-]; auto|].
  intros (db & Hdb & [= <-])%bind_Some. apply done_ok. by eapply with_database_ok.
Qed.

Lemma world_step_ok l w stepped :
  world_ok w -> label_ok l -> world_step proxy ledger l w = Some stepped -> step_ok stepped.
Proof.
  intros Hw Hl. destruct l as [prof endpoint body|i|i|i send clock|i|i|i d now|d prof query|recovered|];
    cbn [world_step]; try (destruct (w_tasks w !! i) as [t|] eqn:Ht; [|done]; apply task_at in Ht; [|done]).
  - intros [= <-]. by apply arrive_ok.
  - destruct t as [endpoint stream p [|d todo] read| | | |]; try done. destruct Ht as [Hp Hd].
    destruct (read_candidate_total (w_store w) p d (wo_store _ Hw)) as [c ->]; [by apply Hd; left|].
    intros [= <-]. apply done_ok, set_task_ok; [done|]. split; [done|]. intros x Hx. apply Hd. by right.
  - destruct t as [endpoint stream p [|d todo] read| | | |]; try done. intros [= <-]. by apply decide_ok, Ht.
  - destruct t as [|endpoint stream d request| | |]; try done. intros [= <-]. by apply receive_ok.
  - destruct t as [| |s| |]; try done. intros [= <-]. by apply poll_step_ok.
  - destruct t; try done; intros [= <-]; auto.
  - destruct t as [| | |g|]; try done. unfold run_insert. destruct (deliver _ _ _) as [r t'].
    intros (w' & (s & Hs & [= <-])%bind_Some & [= <-])%bind_Some. apply done_ok, set_task_ok; [|done].
    by eapply with_database_ok.
  - by apply lookup_ok.
  - intros (s & Hs & [= <-])%bind_Some. apply done_ok. by eapply with_database_ok.
  - intros (s & Hs & [= <-])%bind_Some. apply done_ok. by eapply with_database_ok.
Qed.

Lemma run_ok ls w : world_ok w -> Forall label_ok ls -> step_ok (run proxy ledger ls w).
Proof.
  revert w. induction ls as [|l ls IH]; intros w Hw; cbn [run]; [auto|]. intros [Hl Hls]%Forall_cons.
  destruct (world_step proxy ledger l w) as [stepped|] eqn:E; [|by apply IH].
  destruct (world_step_ok l w stepped Hw Hl E) as (w1 & e1 & -> & Hw1). cbn [mbind outcome_bind].
  destruct (IH w1 Hw1 Hls) as (w2 & e2 & -> & Hw2). cbn. by apply done_ok.
Qed.

(** ** Rolling windows *)

Definition decisions (key : RouteKey) (events : list Event) : list string :=
  omap (fun e => match e with
                 | Decided k p => if decide (k = key) then Some p else None
                 | _ => None
                 end) events.

Definition window (key : RouteKey) (w : World) : list string :=
  match shares (w_routing w) !! key with Some t => history t | None => [] end.

(** The last [n] elements. *)
Definition last_n {A} (n : nat) (l : list A) : list A := drop (length l - n) l.

Lemma last_n_short {A} n (l : list A) : (length l <= n)%nat -> last_n n l = l.
Proof. intros H. unfold last_n. replace (length l - n)%nat with 0%nat by lia. done. Qed.

Lemma last_n_app {A} n (l k : list A) : last_n n (last_n n l ++ k) = last_n n (l ++ k).
Proof.
  destruct (Nat.le_gt_cases (length l) n) as [Hle|Hgt]; [by rewrite (last_n_short n l)|].
  unfold last_n. rewrite !length_app, length_drop.
  replace (length l + length k - n)%nat with ((length l - n) + length k)%nat by lia.
  rewrite <- drop_drop, (drop_app_le l) by lia. f_equal. lia.
Qed.

Definition window_size : nat := Z.to_nat (share_window (config (routing proxy))).

Lemma window_short key w : world_ok w -> (length (window key w) <= window_size)%nat.
Proof.
  intros [Hst _ _ _]. unfold window, window_size. destruct (shares (w_routing w) !! key) as [t|] eqn:E; [|cbn; lia].
  apply Hst in E as [W Hc]. pose proof (wf_length t W) as Hl. unfold history_len in Hl. lia.
Qed.

Lemma record_window t p t' :
  share_wf t -> record t p = Done t' -> history t' = last_n (Z.to_nat (capacity t)) (history t ++ [p]).
Proof.
  intros W Hr. destruct (record_wf t p W) as (t2 & E & _ & _ & Hh). rewrite Hr in E. injection E as <-. rewrite Hh.
  pose proof (wf_length t W) as Hl. pose proof (wf_capacity t W). unfold window_tail, history_len in *.
  destruct (Z.eqb_spec (Z.of_nat (length (history t))) (capacity t)) as [Ec|Ec].
  - unfold last_n. rewrite length_app. cbn [length].
    replace (length (history t) + 1 - Z.to_nat (capacity t))%nat with 1%nat by lia.
    destruct (history t) as [|q l]; [cbn in *; lia|done].
  - rewrite last_n_short; [done|]. rewrite length_app. cbn. lia.
Qed.

Lemma commit_window state p cs out key :
  state_wf (routing proxy) state -> commit (routing proxy) state p cs = Done out ->
  match shares (ro_state out) !! key with Some t => history t | None => [] end =
  last_n window_size
    (match shares state !! key with Some t => history t | None => [] end ++
     match ro_result out with
     | Ok d => if decide (pr_key p = key) then [selected_provider d] else []
     | Err _ => []
     end).
Proof.
  intros Hst.
  assert (length (match shares state !! key with Some t => history t | None => [] end) <= window_size)%nat as Hlen.
  { unfold window_size. destruct (shares state !! key) as [t|] eqn:E; [|cbn; lia].
    apply Hst in E as [W Hc]. pose proof (wf_length t W) as Hl. unfold history_len in Hl. lia. }
  unfold commit. destruct cs as [|c cs]; [intros [= <-]; cbn; by rewrite app_nil_r, last_n_short|].
  intros ([decided st'] & Hd & H)%bind_Done.
  assert (forall k t, tracker_for (routing proxy) state k = Done t ->
    history t = match shares state !! k with Some t => history t | None => [] end /\
    share_wf t /\ capacity t = share_window (config (routing proxy))) as Htr.
  { intros k t Ht. destruct (tracker_for_wf val _ _ k Hpolicy Hst) as (t2 & Ht2 & W & Hc).
    rewrite Ht in Ht2. injection Ht2 as <-. split_and!; [|done|done].
    apply tracker_for_cases in Ht as [->|[-> Hn]]; [done|]. by apply ShareTracker_new_history in Hn. }
  destruct decided as [[sel fbs]|].
  - apply bind_Done in H as (req & _ & [= <-]). cbn [ro_state ro_result selected_provider].
    apply decide_route_Some in Hd as (t & t' & r' & c' & Ht & Hrec & _ & _ & _ & ->). cbn [shares].
    destruct (Htr _ _ Ht) as (Hh & W & Hc). destruct (decide (pr_key p = key)) as [<-|Hne].
    + rewrite lookup_insert_eq. rewrite (record_window t sel t' W Hrec), Hh. unfold window_size. by rewrite Hc.
    + by rewrite lookup_insert_ne, app_nil_r, last_n_short.
  - injection H as <-. cbn [ro_state ro_result]. rewrite app_nil_r, (last_n_short _ _ Hlen).
    apply decide_route_None in Hd as (t & r' & Ht & _ & ->). cbn [shares].
    destruct (Htr _ _ Ht) as (Hh & _). destruct (decide (pr_key p = key)) as [<-|Hne].
    + by rewrite lookup_insert_eq.
    + by rewrite lookup_insert_ne.
Qed.

Lemma decisions_app key a b : decisions key (a ++ b) = decisions key a ++ decisions key b.
Proof. unfold decisions. by rewrite omap_app. Qed.

Lemma decisions_enqueues key ws : decisions key (Enqueues <$> ws) = [].
Proof. unfold decisions. by induction ws. Qed.

(** What a step that is not a critical section does to the windows. *)
Definition undecided (w : World) (r : World * list Event) : Prop :=
  w_routing r.1 = w_routing w /\ forall key, decisions key r.2 = [].

Lemma arrive_undecided prof endpoint body w r : arrive proxy prof endpoint body w = Done r -> undecided w r.
Proof.
  unfold arrive. destruct (from_slice body) as [request|]; [|by intros [= <-]].
  intros ([p|[e v]] & _ & H)%bind_Done; [by injection H as <-|].
  destruct (route_error_response e). by injection H as <-.
Qed.

Lemma receive_undecided i endpoint stream d request send clock w r :
  receive proxy i endpoint stream d request send clock w = Done r -> undecided w r.
Proof.
  unfold receive. intros (b & _ & ([upstream sent] & _ & H)%bind_Done)%bind_Done.
  destruct upstream as [upstream|]; [|by injection H as <-].
  apply bind_Done in H as ([response recorded] & _ & H).
  destruct recorded as [rec|]; injection H as <-; (split; [done|]); intros key; cbn; [|done].
  apply decisions_enqueues.
Qed.

Lemma poll_undecided i s w r : poll i s w = Done r -> undecided w r.
Proof.
  unfold poll. intros ([polled log] & _ & ([store ws] & _ & H)%bind_Done)%bind_Done.
  destruct polled as [[item s']|]; injection H as <-; (split; [done|]); intros key; cbn; apply decisions_enqueues.
Qed.

Lemma lookup_undecided d prof query w x r :
  lookup_step ledger d prof query w = Some x -> x = Done r -> undecided w r.
Proof.
  unfold lookup_step. destruct query as [id|].
  2:{ by intros [= <-] [= <-]. }
  destruct (str_is_empty (trim id)); [intros E; injection E as <-; by intros ([a b] & _ & [= <-])%bind_Done|].
  by intros (db & _ & [= <-])%bind_Some ([a b] & _ & [= <-])%bind_Done.
Qed.

Lemma step_window key l w w' events :
  world_ok w -> world_step proxy ledger l w = Some (Done (w', events)) ->
  window key w' = last_n window_size (window key w ++ decisions key events).
Proof.
  intros Hw H.
  assert (undecided w (w', events) \/
          exists i endpoint stream p cs, decide_task proxy i endpoint stream p cs w = Done (w', events)) as [[Hr Hd]|Hdec].
  { destruct l as [prof endpoint body|i|i|i send clock|i|i|i d now|d prof query|recovered|];
      cbn [world_step] in H; try (destruct (w_tasks w !! i) as [t|]; [|done]).
    - left. injection H. apply arrive_undecided.
    - destruct t as [endpoint stream p [|d todo] read| | | |]; try done. left.
      injection H. by intros (c & _ & [= <- <-])%bind_Done.
    - destruct t as [endpoint stream p [|d todo] read| | | |]; try done. right. injection H. eauto 10.
    - destruct t as [|endpoint stream d request| | |]; try done. left. injection H. apply receive_undecided.
    - destruct t as [| |s| |]; try done. left. injection H. apply poll_undecided.
    - destruct t; try done; left; by injection H as <- <-.
    - destruct t as [| | |g|]; try done. left. unfold run_insert in H. destruct (deliver _ _ _) as [x t'].
      by apply bind_Some in H as (w1 & (s & _ & [= <-])%bind_Some & [= <- <-]).
    - left. by eapply lookup_undecided.
    - left. by apply bind_Some in H as (s & _ & [= <- <-]).
    - left. by apply bind_Some in H as (s & _ & [= <- <-]). }
  - specialize (Hd key). cbn [fst snd] in Hr, Hd. unfold window. rewrite Hd, Hr, app_nil_r.
    symmetry. apply last_n_short.
    exact (window_short key w Hw).
  - destruct Hdec as (i & endpoint & stream & p & cs & Hdec). unfold decide_task in Hdec.
    apply bind_Done in Hdec as (out & Hc & Hdec).
    apply (commit_window _ _ _ _ key (wo_routing _ Hw)) in Hc.
    destruct (ro_result out) as [d|e]; [|destruct (route_error_response e)]; injection Hdec as <- <-;
      unfold window; cbn; rewrite Hc; f_equal. f_equal. by destruct (decide _).
Qed.

(** C6: No lost update: after any interleaving, every rolling window is the
    last decisions made on its key, in the order of their critical sections,
    after what it held before: as if the decisions had been made one after the
    other.  (A cancelled or failed request stays counted once decided.) *)
Theorem windows_replay_decisions ls w w' events key :
  world_ok w -> Forall label_ok ls -> run proxy ledger ls w = Done (w', events) ->
  window key w' = last_n window_size (window key w ++ decisions key events).
Proof.
  revert w events. induction ls as [|l ls IH]; intros w events Hw; cbn [run].
  - intros _ [= <- <-]. cbn. rewrite app_nil_r, last_n_short; [done|by apply window_short].
  - intros [Hl Hls]%Forall_cons. destruct (world_step proxy ledger l w) as [stepped|] eqn:E; [|by apply IH].
    destruct (world_step_ok l w stepped Hw Hl E) as (w1 & e1 & -> & Hw1). cbn [mbind outcome_bind].
    intros ([w2 e2] & Hr & [= <- <-])%bind_Done.
    rewrite (IH w1 e2 Hw1 Hls Hr), (step_window key l w w1 e1 Hw E).
    by rewrite last_n_app, decisions_app, app_assoc.
Qed.
End Props.

(** ** Witness *)

Definition open_world : World :=
  {| w_routing := state0; w_store := store_default; w_table := ∅;
     w_database := supervise_start INITIAL_RECOVERY_BACKOFF starting; w_tasks := [] |}.

Definition answering : nat -> list byte -> option UpstreamReply := fun _ _ => Some completion_reply.

(** Two requests whose reads and critical sections cross; one is answered and
    its row written, the other's client leaves. *)
Definition race : list Label :=
  [Arrive Production Chat chat_body; Arrive Production Chat chat_body; ReadCandidate 0; ReadCandidate 1;
   Decide 1; Decide 0; Receive 1 answering sample_clock; Disconnect 0; RunInsert 2 Answered 7].

Definition raced : World * list Event :=
  match run hidden_proxy.1 ledger_with_health race open_world with
  | Done x => x
  | Panic _ => (open_world, [])
  end.

Lemma raced_Done : run hidden_proxy.1 ledger_with_health race open_world = Done (raced.1, raced.2).
Proof.
  assert (is_done (run hidden_proxy.1 ledger_with_health race open_world) = true) as H by vm_reflexivity.
  unfold raced. by destruct (run hidden_proxy.1 ledger_with_health race open_world) as [[w events]|].
Qed.

Example race_decides_twice : decisions (Production, "acme/chat") raced.2 = ["bravo"; "bravo"].
Proof. vm_reflexivity. Qed.

Lemma open_world_ok proxy : world_ok proxy open_world.
Proof.
  split; cbn; [apply state0_wf|apply observed_default| |constructor].
  unfold supervise_reachable, reachable. by cbn.
Qed.

Lemma completion_reply_ok : reply_ok completion_reply.
Proof.
  unfold reply_ok, arrival_ok, instant_ok. cbn [completion_reply ur_body].
  rewrite Forall_singleton. split_and!; vm_compute; discriminate.
Qed.

Lemma race_ok : Forall label_ok race.
Proof.
  assert (label_ok (Receive (T := RefJiff.epoch) 1 answering sample_clock)) as H.
  { split; [split; vm_compute; discriminate|]. intros n b r [= <-]. apply completion_reply_ok. }
  unfold race. rewrite !Forall_cons. split_and!; try exact I; [exact H|constructor].
Qed.

Lemma windows_replay_decisions_witness :
  window (Production, "acme/chat") raced.1 =
  last_n (window_size hidden_proxy.1)
    (window (Production, "acme/chat") open_world ++ decisions (Production, "acme/chat") raced.2).
Proof.
  apply (windows_replay_decisions (D := RefDecimal.decimal) RefDecimal.val hidden_proxy.1 ledger_with_health) with (ls := race).
  - exact (table_policy_wf _ _ _ hidden_routes_Ok).
  - exact ref_printable.
  - exact hidden_costable.
  - apply open_world_ok.
  - exact race_ok.
  - exact raced_Done.
Defined.
