(* ===== verification/ServiceLedger.v ===== *)
(** The ledger writes of the running service ([Service]): none is lost or
    repeated by any interleaving, and the table only gains their rows. *)

From Stdlib Require Import QArith ZArith Permutation.
From S2P Require Import Prelude Float64 RustDecimal RoutingProfile Registry Json RefJson Preference Measurements.
From S2P Require Import Share Select SelectSpec Config Routing RoutingSpec Pricing UsageCost Sse SseSpec SseProps.
From S2P Require Import Database Ledger Generation StreamRecords StreamProps Proxy ProxyProps Service Fixtures RoutingProps.
From S2P Require Import ServiceProps.

#[local] Open Scope Z_scope.

Section Props.
Context {D : RustDecimal} {R : RandCrate} {J : SerdeJson} {U : UrlCrate} {T : Jiff} {N : Notify}.
Context (proxy : ProxyState) (ledger : Ledger).

(** ** Ledger writes *)

Definition enqueues (events : list Event) : list GenerationWrite :=
  omap (fun e => match e with Enqueues g => Some g | _ => None end) events.
Definition issues (events : list Event) : list GenerationWrite :=
  omap (fun e => match e with Issues g => Some g | _ => None end) events.
Definition pending_write (t : Task) : option GenerationWrite :=
  match t with Inserting g => Some g | _ => None end.
Definition pending_writes (w : World) : list GenerationWrite := omap pending_write (w_tasks w).

Lemma omap_insert {A B} (f : A -> option B) l i x y :
  l !! i = Some x -> option_list (f y) ++ omap f l ≡ₚ option_list (f x) ++ omap f (<[i := y]> l).
Proof.
  intros Hi. rewrite <- (take_drop_middle l i x Hi) at 1.
  rewrite insert_take_drop by by eapply lookup_lt_Some.
  rewrite !omap_app. cbn. destruct (f x), (f y); cbn; solve_Permutation.
Qed.

Lemma enqueues_app a b : enqueues (a ++ b) = enqueues a ++ enqueues b.
Proof. unfold enqueues. by rewrite omap_app. Qed.
Lemma issues_app a b : issues (a ++ b) = issues a ++ issues b.
Proof. unfold issues. by rewrite omap_app. Qed.
Lemma enqueues_list ws : enqueues (Enqueues <$> ws) = ws.
Proof. unfold enqueues. induction ws as [|g ws IH]; [done|]. cbn. by rewrite IH. Qed.
Lemma issues_list ws : issues (Enqueues <$> ws) = [].
Proof. unfold issues. by induction ws. Qed.

Lemma pending_spawn ws w : pending_writes (spawn_inserts ws w) = pending_writes w ++ ws.
Proof.
  unfold pending_writes. cbn. rewrite omap_app. f_equal.
  induction ws as [|g ws IH]; [done|]. cbn. by rewrite IH.
Qed.

Lemma pending_set i old new w :
  w_tasks w !! i = Some old -> pending_write old = None -> pending_write new = None ->
  pending_writes w ≡ₚ pending_writes (set_task i new w).
Proof.
  intros Hi Ho Hn. pose proof (omap_insert pending_write _ _ old new Hi) as H. by rewrite Ho, Hn in H.
Qed.

(** Every write is accounted for: what was queued or becomes queued is issued
    or still queued. *)
Definition accounted (w : World) (r : World * list Event) : Prop :=
  enqueues r.2 ++ pending_writes w ≡ₚ issues r.2 ++ pending_writes r.1.

Lemma accounted_quiet w w' events :
  w_tasks w' = w_tasks w -> enqueues events = [] -> issues events = [] -> accounted w (w', events).
Proof. intros Ht He Hi. unfold accounted, pending_writes. cbn [fst snd]. by rewrite He, Hi, Ht. Qed.

(** The table only gains rows of issued writes. *)
Definition gains (t t' : gmap string Row) (gs : list GenerationWrite) : Prop :=
  (forall id r, t !! id = Some r -> t' !! id = Some r) /\
  (forall id r, t' !! id = Some r ->
     t !! id = Some r \/ exists g now cost, g ∈ gs /\ gw_id g = id /\ r = inserted_row now g cost).

Lemma gains_refl t gs : gains t t gs.
Proof. split; [done|]. intros id r H. by left. Qed.

Lemma gains_trans t1 t2 t3 gs1 gs2 : gains t1 t2 gs1 -> gains t2 t3 gs2 -> gains t1 t3 (gs1 ++ gs2).
Proof.
  intros [K1 G1] [K2 G2]. split; [by auto|]. intros id r [H|(g & now & cost & Hg & ?)]%G2.
  - apply G1 in H as [H|(g & now & cost & Hg & ?)]; [by left|]. right. exists g, now, cost.
    split; [by apply elem_of_app; left|done].
  - right. exists g, now, cost. split; [by apply elem_of_app; right|done].
Qed.

Lemma deliver_gains d now g t r t' : deliver d t (execute_insert now g) = (r, t') -> gains t t' [g].
Proof.
  intros H.
  assert (t' = t \/ exists cost, t !! gw_id g = None /\ t' = <[gw_id g := inserted_row now g cost]> t) as [->|(cost & Hn & ->)].
  { unfold deliver in H. destruct d; [|injection H as _ <-; by left|];
      destruct (execute_insert now g t) as [t2|] eqn:E; injection H as _ <-; try (by left);
      apply execute_insert_Ok in E as (cost & _ & _ & ? & ->); right; eauto. }
  - apply gains_refl.
  - split.
    + intros id x Hx. rewrite lookup_insert_ne; [done|]. intros <-. congruence.
    + intros id x. destruct (decide (gw_id g = id)) as [<-|Hne].
      * rewrite lookup_insert_eq. intros [= <-]. right. exists g, now, cost. split; [by left|done].
      * rewrite lookup_insert_ne by done. by left.
Qed.

Lemma receive_accounted i endpoint stream d request send clock w r :
  w_tasks w !! i = Some (Sending endpoint stream d request) ->
  receive proxy i endpoint stream d request send clock w = Done r -> accounted w r /\ w_table r.1 = w_table w.
Proof.
  intros Hi. unfold receive. intros (b & _ & ([upstream sent] & _ & H)%bind_Done)%bind_Done.
  assert (forall t, pending_write t = None -> pending_writes w ≡ₚ pending_writes (set_task i t w)) as Hset
    by (intros t Ht; by eapply pending_set).
  destruct upstream as [upstream|]; [|injection H as <-; split; [by apply Hset|done]].
  apply bind_Done in H as ([response recorded] & _ & H).
  assert (pending_write (match r_body response with inr s => Streaming s | inl _ => Finished end) = None) as Hn
    by by destruct (r_body response).
  destruct recorded as [rec|]; injection H as <-; (split; [|done]); [|by apply Hset].
  unfold accounted. cbn [fst snd]. rewrite pending_spawn.
  change (enqueues (Responds response :: (Enqueues <$> enqueued rec))) with (enqueues (Enqueues <$> enqueued rec)).
  change (issues (Responds response :: (Enqueues <$> enqueued rec))) with (issues (Enqueues <$> enqueued rec)).
  rewrite enqueues_list, issues_list. cbn [app]. rewrite Permutation_app_comm. apply Permutation_app; [|done].
  by rewrite (Hset _ Hn).
Qed.

Lemma poll_accounted i s w r :
  w_tasks w !! i = Some (Streaming s) -> poll i s w = Done r -> accounted w r /\ w_table r.1 = w_table w.
Proof.
  intros Hi. unfold poll. intros ([polled log] & _ & ([store ws] & _ & H)%bind_Done)%bind_Done.
  assert (forall t e, pending_write t = None -> enqueues e = ws -> issues e = [] ->
    accounted w (spawn_inserts ws (with_store store (set_task i t w)), e)) as Hacc.
  { intros t e Ht He Hi'. unfold accounted. cbn [fst snd]. rewrite pending_spawn, He, Hi'. cbn [app].
    rewrite Permutation_app_comm. apply Permutation_app; [|done]. by eapply (pending_set i). }
  destruct polled as [[item s']|]; injection H as <-; (split; [|done]); apply Hacc; try done.
  - apply enqueues_list.
  - apply issues_list.
  - apply enqueues_list.
  - apply issues_list.
Qed.

Lemma step_writes l w w' events :
  world_step proxy ledger l w = Some (Done (w', events)) ->
  accounted w (w', events) /\ gains (w_table w) (w_table w') (issues events).
Proof.
  intros H.
  assert (forall r, accounted w r /\ w_table r.1 = w_table w ->
    accounted w r /\ gains (w_table w) (w_table r.1) (issues r.2)) as Hsame.
  { intros r [Ha ->]. split; [done|apply gains_refl]. }
  destruct l as [prof endpoint body|i|i|i send clock|i|i|i d now|d prof query|recovered|];
    cbn [world_step] in H; try (destruct (w_tasks w !! i) as [t|] eqn:Hi; [|done]).
  - apply (Hsame (w', events)). injection H as H. unfold arrive in H.
    destruct (from_slice body) as [request|]; [|injection H as <- <-; by split; [apply accounted_quiet|]].
    apply bind_Done in H as ([p|[e v]] & _ & H).
    + injection H as <- <-. unfold accounted, pending_writes. cbn. by rewrite omap_app, app_nil_r.
    + destruct (route_error_response e). injection H as <- <-. by split; [apply accounted_quiet|].
  - destruct t as [endpoint stream p [|d todo] read| | | |]; try done. apply (Hsame (w', events)).
    injection H as H. apply bind_Done in H as (c & _ & [= <- <-]). split; [|done]. by eapply pending_set.
  - destruct t as [endpoint stream p [|d todo] read| | | |]; try done. apply (Hsame (w', events)).
    injection H as H. unfold decide_task in H. apply bind_Done in H as (out & _ & H).
    destruct (ro_result out) as [d|e]; [|destruct (route_error_response e)]; injection H as <- <-; (split; [|done]).
    + exact (pending_set i _ (Sending endpoint stream d (ro_request out)) w Hi eq_refl eq_refl).
    + exact (pending_set i _ Finished w Hi eq_refl eq_refl).
  - destruct t as [|endpoint stream d request| | |]; try done. apply (Hsame (w', events)).
    injection H as H. by eapply receive_accounted.
  - destruct t as [| |s| |]; try done. apply (Hsame (w', events)). injection H as H. by eapply poll_accounted.
  - apply (Hsame (w', events)). destruct t; try done; injection H as <- <-; (split; [|done]); by eapply (pending_set i).
  - destruct t as [| | |g|]; try done. unfold run_insert in H. destruct (deliver _ _ _) as [x t'] eqn:Ed.
    apply bind_Some in H as (w1 & (s & _ & [= <-])%bind_Some & [= <- <-]).
    split; [|by eapply deliver_gains].
    pose proof (omap_insert pending_write _ _ _ Finished Hi) as Hp. exact Hp.
  - apply (Hsame (w', events)). unfold lookup_step in H.
    destruct query as [id|]; [|injection H as <- <-; by split; [apply accounted_quiet|]].
    destruct (str_is_empty (trim id)).
    + injection H as H. apply bind_Done in H as ([a b] & _ & [= <- <-]). by split; [apply accounted_quiet|].
    + apply bind_Some in H as (db & _ & [= H]).
      apply bind_Done in H as ([a b] & _ & [= <- <-]). by split; [apply accounted_quiet|].
  - apply (Hsame (w', events)). apply bind_Some in H as (s & _ & [= <- <-]).
    by split; [apply accounted_quiet|].
  - apply (Hsame (w', events)). apply bind_Some in H as (s & _ & [= <- <-]).
    by split; [apply accounted_quiet|].
Qed.

(** C7: No lost or repeated write: through any interleaving, the ledger writes
    that were queued or become queued are, each exactly once, either issued to
    the database or still queued; rows are never changed or removed, and every
    new row is the row of an issued write, under its id. *)
Theorem ledger_writes_once ls w w' events :
  run proxy ledger ls w = Done (w', events) ->
  enqueues events ++ pending_writes w ≡ₚ issues events ++ pending_writes w' /\
  gains (w_table w) (w_table w') (issues events).
Proof.
  revert w events. induction ls as [|l ls IH]; intros w events; cbn [run].
  - intros [= <- <-]. split; [done|apply gains_refl].
  - destruct (world_step proxy ledger l w) as [stepped|] eqn:E; [|by apply IH].
    intros ([w1 e1] & -> & ([w2 e2] & Hr & [= <- <-])%bind_Done)%bind_Done.
    apply step_writes in E as [Ha Hg]. apply IH in Hr as [Ha2 Hg2]. unfold accounted in Ha. cbn [fst snd] in Ha.
    rewrite enqueues_app, issues_app. split; [|by eapply gains_trans].
    rewrite (Permutation_app_comm (enqueues e1)), <- app_assoc, Ha.
    rewrite (Permutation_app_comm (enqueues e2)), <- app_assoc, (Permutation_app_comm (pending_writes w1)), Ha2.
    by rewrite app_assoc.
Qed.
End Props.

(** ** Witness *)

Lemma ledger_writes_once_witness :
  enqueues raced.2 ++ pending_writes open_world ≡ₚ issues raced.2 ++ pending_writes raced.1 /\
  gains (w_table open_world) (w_table raced.1) (issues raced.2).
Proof. apply (ledger_writes_once hidden_proxy.1 ledger_with_health race). exact raced_Done. Defined.

Example race_writes_one : length (issues raced.2) = 1%nat /\ size (w_table raced.1) = 1%nat.
Proof. split; vm_reflexivity. Qed.

(** ** Draining

    The requests and their bodies have ended, and with them the connections an
    orderly shutdown drains; the inserts spawned beside them may remain. *)
Definition drained (w : World) : bool :=
  forallb (fun t => match t with Inserting _ | Finished => true | _ => false end) (w_tasks w).

Definition answered_world : World :=
  match run hidden_proxy.1 ledger_with_health (take 8 race) open_world with
  | Done (w, _) => w
  | Panic _ => open_world
  end.

(** A drained service can still hold the row of an answered completion, which
    the exit then drops. *)
Lemma drained_with_queued_row : drained answered_world = true /\ length (pending_writes answered_world) = 1%nat.
Proof. split; vm_reflexivity. Qed.
