(* ===== verification/ServiceDecisions.v ===== *)
(** The decisions of the running service ([Service]) stay sound although other
    requests and observations come between their steps. *)

From Stdlib Require Import QArith ZArith Permutation.
From S2P Require Import Prelude Float64 RustDecimal RoutingProfile Registry Json RefJson Preference Measurements.
From S2P Require Import Share Select SelectSpec Config Routing RoutingSpec Pricing UsageCost Sse SseSpec SseProps.
From S2P Require Import Database Ledger Generation StreamRecords StreamProps Proxy ProxyProps Service Fixtures RoutingProps.
From S2P Require Import ServiceProps.

#[local] Open Scope Z_scope.

Section Props.
Context {D : RustDecimal} {R : RandCrate} {J : SerdeJson} {U : UrlCrate} {T : Jiff} {N : Notify}.
Context (proxy : ProxyState) (ledger : Ledger).

(** ** Decisions *)

(** The providers a decision attempts, in order: distinct, and each serving
    the request's model, endpoint and streaming mode. *)
Definition decision_serves (r : Registry) (endpoint : CompletionEndpoint) (stream : bool) (d : RouteDecision) : Prop :=
  exists top ids, fallback_models d = (fun p => route_name p (decision_model d)) <$> ids /\
    NoDup (selected_provider d :: ids) /\
    forall p, p ∈ selected_provider d :: ids -> serves r (profile d) (decision_model d) endpoint stream top p.

Section Decisions.
Context (r : Registry) (cfg : RoutingConfig) (g : StdRng) (state0 : RoutingState).
Context (Hregistry : from_registry_with_rng r cfg g = Ok (routing proxy, state0)).

Definition task_serves (t : Task) : Prop :=
  match t with
  | Reading endpoint stream p todo read =>
      exists top, (forall d, d ∈ todo -> serves r (pr_key p).1 (pr_key p).2 endpoint stream top (rd_provider_id d)) /\
                  (forall c, c ∈ read -> serves r (pr_key p).1 (pr_key p).2 endpoint stream top (c_provider_id c))
  | Sending endpoint stream d _ => decision_serves r endpoint stream d
  | Streaming _ | Inserting _ | Finished => True
  end.

Lemma prepare_serves prof endpoint request p :
  prepare (routing proxy) prof endpoint request = Done (Ok p) ->
  exists top, forall d, d ∈ pr_descriptors p ->
    serves r (pr_key p).1 (pr_key p).2 endpoint (requested_stream request) top (rd_provider_id d).
Proof.
  unfold prepare.
  destruct (reject_provider_overrides request) as [u|]; [|done].
  destruct (parse_top_p request) as [top|]; [|done].
  destruct (parse_stream request) as [stream|] eqn:Es; [|done].
  assert (requested_stream request = stream) as Hstream.
  { unfold parse_stream in Es. unfold requested_stream. destruct (value_get "stream" request) as [v|]; cbn in *;
      [|by injection Es]. destruct (is_null v) eqn:En; [by destruct v; injection Es as <-|].
    apply ok_or_Ok in Es. by rewrite Es. }
  intros ([[parsed rw]|] & _ & H)%bind_Done; [|done].
  destruct (routes (routing proxy) !! _) as [ds|] eqn:Hds; [|done]. injection H as <-. exists top.
  cbn [pr_descriptors pr_key fst snd]. intros d [Hc Hd]%elem_of_filter_b.
  rewrite (table_elem _ _ _ _ _ _ _ _ Hregistry Hds) in Hd.
  apply elem_of_registry_routes in Hd as (prov & m & ? & ? & ? & ? & ? & ->). rewrite Hstream.
  exists prov, m. split_and!; done.
Qed.

Lemma commit_serves endpoint stream top state p cs out d :
  (forall c, c ∈ cs -> serves r (pr_key p).1 (pr_key p).2 endpoint stream top (c_provider_id c)) ->
  commit (routing proxy) state p cs = Done out -> ro_result out = Ok d ->
  decision_serves r endpoint stream d /\ (profile d, decision_model d) = pr_key p.
Proof.
  intros Hcs H Hd. unfold commit in H. destruct cs as [|c0 cs]; [injection H as <-; done|].
  apply bind_Done in H as ([decided st'] & Hdec & H). destruct decided as [[sel fbs]|]; [|injection H as <-; done].
  apply bind_Done in H as (req & _ & [= <-]). injection Hd as <-. cbn [profile decision_model].
  split; [|by destruct (pr_key p)].
  apply decide_route_Some in Hdec as (t & t' & r' & c & _ & _ & Hs & -> & (rr & Hf) & _).
  apply plan_fallbacks_spec in Hf as (ids & Hids & Hnd & Hin & _).
  exists top, ids. cbn [fallback_models selected_provider decision_model profile]. split_and!; [done| |].
  - constructor; [|done]. intros (x & Hx & E)%Hin. apply elem_of_without_provider in Hx as [Hne _]. congruence.
  - intros q [->|Hq]%elem_of_cons; [by eapply Hcs, select_route_elem|].
    apply Hin in Hq as (x & [_ Hx]%elem_of_without_provider & <-). auto.
Qed.

(** What a step decides serves its request. *)
Definition decides_well (events : list Event) : Prop :=
  forall key p, Decided key p ∈ events ->
    exists endpoint stream top, serves r key.1 key.2 endpoint stream top p.

Lemma decides_none events : (forall key, decisions key events = []) -> decides_well events.
Proof.
  intros H key p Hin. specialize (H key). unfold decisions in H. exfalso.
  assert (p ∈ decisions key events) as Hp.
  { unfold decisions. apply list_elem_of_omap. exists (Decided key p). split; [done|].
    by rewrite decide_True. }
  unfold decisions in Hp. rewrite H in Hp. inversion Hp.
Qed.

Lemma tasks_insert (P : Task -> Prop) i t ts : Forall P ts -> P t -> Forall P (<[i := t]> ts).
Proof. intros. by apply Forall_insert. Qed.

Lemma tasks_inserts (ws : list GenerationWrite) ts :
  Forall task_serves ts -> Forall task_serves (ts ++ (Inserting <$> ws)).
Proof. intros H. apply Forall_app. split; [done|]. by apply Forall_fmap, Forall_true. Qed.
Lemma arrive_serves prof endpoint body w w' events :
  Forall task_serves (w_tasks w) -> arrive proxy prof endpoint body w = Done (w', events) ->
  Forall task_serves (w_tasks w').
Proof.
  intros Hw. unfold arrive. destruct (from_slice body) as [request|]; [|by intros [= <- _]].
  intros ([p|[e v]] & Hp & H)%bind_Done; [|destruct (route_error_response e); by injection H as <- _].
  injection H as <- _. apply prepare_serves in Hp as [top Hp]. cbn. apply Forall_app. split; [done|].
  apply Forall_singleton. exists top. split; [exact Hp|]. intros c Hc. inversion Hc.
Qed.

Lemma decide_serves i endpoint stream p cs w w' events :
  Forall task_serves (w_tasks w) -> task_serves (Reading endpoint stream p [] cs) ->
  decide_task proxy i endpoint stream p cs w = Done (w', events) ->
  Forall task_serves (w_tasks w') /\ decides_well events.
Proof.
  intros Hw (top & _ & Hcs). unfold decide_task. intros (out & Hc & H)%bind_Done.
  destruct (ro_result out) as [d|e] eqn:Ed.
  - injection H as <- <-. destruct (commit_serves _ _ _ _ _ _ _ _ Hcs Hc Ed) as [Hd Hk].
    split; [by apply tasks_insert|]. intros key q Hq. apply list_elem_of_singleton in Hq as [= -> ->].
    destruct Hd as (top' & ids & _ & _ & Hs). rewrite <- Hk. cbn [fst snd]. exists endpoint, stream, top'.
    apply Hs. by left.
  - destruct (route_error_response e). injection H as <- <-.
    split; [by apply tasks_insert|by apply decides_none].
Qed.

Lemma receive_serves i endpoint stream d request send clock w w' events :
  Forall task_serves (w_tasks w) -> receive proxy i endpoint stream d request send clock w = Done (w', events) ->
  Forall task_serves (w_tasks w').
Proof.
  intros Hw. unfold receive. intros (b & _ & ([upstream sent] & _ & H)%bind_Done)%bind_Done.
  destruct upstream as [upstream|]; [|injection H as <- _; by apply tasks_insert].
  apply bind_Done in H as ([response recorded] & _ & H).
  destruct recorded as [rec|]; injection H as <- _; [apply tasks_inserts|]; apply tasks_insert;
    try done; by destruct (r_body response).
Qed.

Lemma poll_serves i s w w' events :
  Forall task_serves (w_tasks w) -> poll i s w = Done (w', events) -> Forall task_serves (w_tasks w').
Proof.
  intros Hw. unfold poll. intros ([polled log] & _ & ([store ws] & _ & H)%bind_Done)%bind_Done.
  destruct polled as [[item s']|]; injection H as <- _; by apply tasks_inserts, tasks_insert.
Qed.

Lemma step_serves l w w' events :
  Forall task_serves (w_tasks w) -> world_step proxy ledger l w = Some (Done (w', events)) ->
  Forall task_serves (w_tasks w') /\ decides_well events.
Proof.
  intros Hw H.
  destruct l as [prof endpoint body|i|i|i send clock|i|i|i d now|d prof query|recovered|];
    cbn [world_step] in H; try (destruct (w_tasks w !! i) as [t|] eqn:Hi; [|done];
      pose proof (Forall_lookup_1 _ _ _ _ Hw Hi) as Ht).
  - injection H as H. split; [by eapply arrive_serves|apply decides_none; by apply (arrive_undecided proxy _ _ _ _ _ H)].
  - destruct t as [endpoint stream p [|d todo] read| | | |]; try done. destruct Ht as (top & Htodo & Hread).
    injection H as H. apply bind_Done in H as (c & Hc & [= <- <-]). split; [|by apply decides_none].
    apply tasks_insert; [done|]. exists top. split; [intros x Hx; apply Htodo; by right|].
    intros x [Hx|Hx%list_elem_of_singleton]%elem_of_app; [by apply Hread|subst x].
    apply candidate_of_Done in Hc as [-> _]. apply Htodo. by left.
  - destruct t as [endpoint stream p [|d todo] read| | | |]; try done. injection H as H. by eapply decide_serves.
  - destruct t as [|endpoint stream d request| | |]; try done. injection H as H.
    split; [by eapply receive_serves|apply decides_none; by apply (receive_undecided proxy _ _ _ _ _ _ _ _ _ H)].
  - destruct t as [| |s| |]; try done. injection H as H.
    split; [by eapply poll_serves|apply decides_none; by apply (poll_undecided _ _ _ _ H)].
  - destruct t; try done; injection H as <- <-; (split; [by apply tasks_insert|by apply decides_none]).
  - destruct t as [| | |gw|]; try done. unfold run_insert in H. destruct (deliver _ _ _) as [x t'].
    apply bind_Some in H as (w1 & (s & _ & [= <-])%bind_Some & [= <- <-]).
    split; [by apply tasks_insert|by apply decides_none].
  - destruct (lookup_undecided ledger _ _ _ _ _ (w', events) H eq_refl) as [_ Hd].
    split; [|by apply decides_none]. unfold lookup_step in H.
    destruct query as [id|]; [|by injection H as <- _].
    destruct (str_is_empty (trim id)); [injection H as H|apply bind_Some in H as (db & _ & [= H])];
      by apply bind_Done in H as ([a b] & _ & [= <- _]).
  - apply bind_Some in H as (s & _ & [= <- <-]). split; [done|by apply decides_none].
  - apply bind_Some in H as (s & _ & [= <- <-]). split; [done|by apply decides_none].
Qed.

(** C10: Decisions stay sound under interleaving: although the measurements a
    decision reads and the window it updates may change between its steps,
    every decision of a schedule names an enabled registry provider that serves
    its model on its profile, and the attempts of every request in flight are
    distinct providers serving its model, endpoint and streaming mode. *)
Theorem interleaved_decisions_sound ls w w' events :
  w_tasks w = [] -> run proxy ledger ls w = Done (w', events) ->
  decides_well events /\
  forall i endpoint stream d request,
    w_tasks w' !! i = Some (Sending endpoint stream d request) -> decision_serves r endpoint stream d.
Proof.
  intros H0 Hr. assert (Forall task_serves (w_tasks w)) as Hw by by rewrite H0. clear H0.
  assert (Forall task_serves (w_tasks w') /\ decides_well events) as [Ht Hd].
  { revert w events Hw Hr. induction ls as [|l ls IH]; intros w events Hw; cbn [run].
    - intros [= <- <-]. split; [done|by apply decides_none].
    - destruct (world_step proxy ledger l w) as [stepped|] eqn:E; [|by apply IH].
      intros ([w1 e1] & -> & ([w2 e2] & Hr & [= <- <-])%bind_Done)%bind_Done.
      apply step_serves in E as [Hw1 Hd1]; [|done]. apply (IH w1 e2 Hw1) in Hr as [Hw2 Hd2].
      split; [done|]. intros key p [Hk|Hk]%elem_of_app; eauto. }
  split; [done|]. intros i endpoint stream d request Hi. by apply (Forall_lookup_1 _ _ _ _ Ht Hi).
Qed.
End Decisions.
End Props.

(** ** Witness *)

(** The race of [ServiceProps], stopped while one request is still in flight. *)
Definition half_raced : World * list Event :=
  match run hidden_proxy.1 ledger_with_health (take 6 race) open_world with
  | Done x => x
  | Panic _ => (open_world, [])
  end.

Lemma half_raced_Done : run hidden_proxy.1 ledger_with_health (take 6 race) open_world = Done (half_raced.1, half_raced.2).
Proof. vm_reflexivity. Qed.

Example half_raced_in_flight :
  (fun t => match t with Sending _ _ _ _ => true | _ => false end) <$> w_tasks half_raced.1 = [true; true].
Proof. vm_reflexivity. Qed.

Lemma interleaved_decisions_sound_witness :
  decides_well hidden_registry half_raced.2 /\
  forall i endpoint stream d request,
    w_tasks half_raced.1 !! i = Some (Sending endpoint stream d request) ->
    decision_serves hidden_registry endpoint stream d.
Proof.
  apply (interleaved_decisions_sound hidden_proxy.1 ledger_with_health hidden_registry routing_config seed
           hidden_proxy.2 hidden_routes_Ok (take 6 race) open_world).
  - reflexivity.
  - exact half_raced_Done.
Defined.
