(* ===== verification/ServiceProgress.v ===== *)
(** The progress of the running service's tasks ([Service]): a measure that
    every step of a task lowers and no other step touches, so a request, its
    stream or an insert ends within a number of its own steps that the size of
    the sidecar's reply bounds, and a request is answered once. *)

From Stdlib Require Import QArith ZArith.
From S2P Require Import Prelude Float64 RustDecimal RoutingProfile Registry Json RefJson Preference Measurements.
From S2P Require Import Share Select SelectSpec Config Routing RoutingSpec Pricing UsageCost Sse SseSpec SseProps.
From S2P Require Import Database Ledger Generation StreamRecords StreamProps Proxy ProxyProps Service Fixtures RoutingProps.
From S2P Require Import ServiceProps ServiceDecisions.

#[local] Open Scope Z_scope.

Section Progress.
Context {D : RustDecimal} {R : RandCrate} {J : SerdeJson} {U : UrlCrate} {T : Jiff} {N : Notify}.
Context (proxy : ProxyState) (ledger : Ledger).

(** ** The measure *)

(** The polls an unfold can still answer before it is dropped. *)
Definition polls_left (s : StreamState) : nat :=
  match ss_transformer s with None => 1 | Some _ => length (ss_input s) + 2 end.

(** The steps a task can still take when replies have at most [B] chunks. *)
Definition rank (B : nat) (t : Task) : nat :=
  match t with
  | Reading _ _ _ todo _ => length todo + (B + 4)
  | Sending _ _ _ _ => B + 3
  | Streaming s => polls_left s
  | Inserting _ => 1
  | Finished => 0
  end.

(** The responses a task still owes. *)
Definition owed (t : Task) : nat :=
  match t with Reading _ _ _ _ _ | Sending _ _ _ _ => 1 | _ => 0 end.

Definition responses (events : list Event) : nat :=
  length (omap (fun e => match e with Responds r => Some r | _ => None end) events).

(** The task a step belongs to. *)
Definition label_task (l : Label) : option nat :=
  match l with
  | ReadCandidate i | Decide i | Receive i _ _ | Poll i | Disconnect i | RunInsert i _ _ => Some i
  | Arrive _ _ _ | Lookup _ _ _ | Supervisor _ | Notified => None
  end.

Definition bounded_label (B : nat) (l : Label) : Prop :=
  match l with
  | Receive _ send _ => forall n b r, send n b = Some r -> (length (ur_body r) <= B)%nat
  | _ => True
  end.

(** The events of each step of task [i] in an interleaving. *)
Fixpoint own (i : nat) (ls : list Label) (w : World) : list (list Event) :=
  match ls with
  | [] => []
  | l :: ls =>
      match world_step proxy ledger l w with
      | None => own i ls w
      | Some (Panic _) => []
      | Some (Done (w', events)) =>
          (if decide (label_task l = Some i) then [events] else []) ++ own i ls w'
      end
  end.

Lemma responses_app a b : responses (a ++ b) = (responses a + responses b)%nat.
Proof. unfold responses. by rewrite omap_app, length_app. Qed.

Lemma responses_enqueues ws : responses (Enqueues <$> ws) = 0%nat.
Proof. unfold responses. by induction ws. Qed.

(** ** Streams shrink *)

Lemma with_event_Done log p r :
  with_event log p = Done r -> exists r', p = Done r' /\ r.1 = r'.1.
Proof. unfold with_event. intros (r' & ? & [= <-])%bind_Done. eauto. Qed.

Lemma stream_loop_shrinks input fin t g polled log item s :
  stream_loop input fin t g = Done (polled, log) -> polled = Some (item, s) ->
  (polls_left s < length input + 2)%nat.
Proof.
  revert t g polled log. induction input as [|a input IH]; intros t g polled log; cbn [stream_loop length].
  - intros (cur & _ & ([out c] & _ & H)%bind_Done)%bind_Done.
    destruct (record_completed _ _ _), (warn_if _ _ _). injection H as <- _.
    destruct out; [done|]. intros [= _ <-]. cbn. lia.
  - destruct (ar_item a) as [chunk|].
    + intros (cur & _ & ([[next out] c] & _ & H)%bind_Done)%bind_Done.
      destruct (record_completed _ _ _) as [g1 l1], (warn_if _ _ g1) as [g2 l2].
      apply with_event_Done in H as ([polled' log'] & H & E). cbn in E. subst polled'.
      destruct out as [|x out].
      * intros E. apply (IH _ _ _ _ H) in E. lia.
      * injection H as <- _. intros [= _ <-]. unfold polls_left. cbn. destruct (closed next); lia.
    + destruct (warn_if _ _ _). intros [= <- _] [= _ <-]. cbn. lia.
Qed.

Lemma stream_poll_shrinks s item s' log :
  stream_poll s = Done (Some (item, s'), log) -> (polls_left s' < polls_left s)%nat.
Proof.
  unfold stream_poll. intros H. destruct (ss_transformer s) as [t|] eqn:Et; [|done].
  unfold polls_left at 2. rewrite Et. by eapply stream_loop_shrinks in H.
Qed.

(** ** A streamed body is the reply's *)

Definition whole (r : Response) : Prop := exists b, r_body r = inl b.

Lemma aliased_error_whole st m sv response recorded :
  unrecorded (aliased_upstream_error st m sv) = Done (response, recorded) -> whole response.
Proof.
  unfold unrecorded, aliased_upstream_error.
  intros (x & (b & _ & [= <-])%bind_Done & [= <- _])%bind_Done. by eexists.
Qed.

Lemma respond_body_whole store prof endpoint clock d upstream alias served response recorded :
  respond_body proxy store prof endpoint clock d upstream alias served = Done (response, recorded) ->
  whole response.
Proof.
  unfold respond_body. destruct (collect_body _) as [body|]; [|intros [= <- _]; by eexists].
  assert (forall b, respond_costed proxy store prof endpoint clock d upstream alias served b
                    = Done (response, recorded) -> whole response) as Hcosted.
  { intros b. unfold respond_costed. intros ([costed|e] & _ & H)%bind_Done; [|by eapply aliased_error_whole].
    apply bind_Done in H as (rec & _ & [= <- _]). by eexists. }
  destruct alias; [|apply Hcosted].
  destruct (sanitize_aliased_json_response _ _); [apply Hcosted|apply aliased_error_whole].
Qed.

Lemma respond_stream_body store prof endpoint clock stream d upstream response recorded s :
  respond proxy store prof endpoint clock stream d upstream = Done (response, recorded) ->
  r_body response = inr s -> ss_input s = ur_body upstream.
Proof.
  intros H Hs.
  assert (whole response -> ss_input s = ur_body upstream) as Hwhole by (intros [b Hb]; congruence).
  unfold respond in H. destruct (is_success _).
  - destruct (served_provider_from_headers _) as [served|]; [|by eapply Hwhole, aliased_error_whole].
    destruct (stream && _); [|by eapply Hwhole, respond_body_whole].
    unfold respond_stream in H. destruct (prices_for_request _ _ _); [|by eapply Hwhole, aliased_error_whole].
    injection H as <- _. by injection Hs as <-.
  - destruct (response_uses_public_alias _ _ _); [by eapply Hwhole, aliased_error_whole|].
    injection H as <- _. apply Hwhole. by eexists.
Qed.

(** The reply that is responded to is one the sidecar gave. *)
Lemma send_reply_from (P : UpstreamReply -> Prop) send request body d upstream sent :
  (forall n b r, send n b = Some r -> P r) ->
  send_selected_then_fallback send request body d = Done (Some upstream, sent) -> P upstream.
Proof.
  intros Hsend. unfold send_selected_then_fallback.
  assert (forall ms request n last log, (forall u, last = Some u -> P u) ->
    try_fallbacks send request ms n last log = Done (Some upstream, sent) -> P upstream) as H;
    [|apply H; intros u; apply Hsend].
  clear request body. induction ms as [|m ms IH]; intros request n last log Hlast; cbn [try_fallbacks].
  - intros [= -> _]. by apply Hlast.
  - destruct (negb _); [intros [= -> _]; by apply Hlast|].
    intros (request' & _ & (b & _ & H)%bind_Done)%bind_Done. eapply IH, H. intros u. apply Hsend.
Qed.

(** ** Steps *)

(** What a step does to the task it belongs to. *)
Definition advanced (B i : nat) (cancelled : bool) (t : Task) (r : World * list Event) : Prop :=
  exists t', w_tasks r.1 !! i = Some t' /\ (rank B t' < rank B t)%nat /\
             (responses r.2 + owed t' <= owed t)%nat /\
             (cancelled = false -> (responses r.2 + owed t' = owed t)%nat).

Definition is_disconnect (l : Label) : bool := match l with Disconnect _ => true | _ => false end.

(** A step's world keeps every other task where it was. *)
Definition kept (except : option nat) (w w' : World) : Prop :=
  forall j t, except <> Some j -> w_tasks w !! j = Some t -> w_tasks w' !! j = Some t.

Lemma kept_tasks ex w w' : w_tasks w' = w_tasks w -> kept ex w w'.
Proof. unfold kept. by intros ->. Qed.

Lemma kept_set i t w w' : w_tasks w' = w_tasks w -> kept (Some i) w (set_task i t w').
Proof. intros H j t' Hj Ht. cbn. rewrite H, list_lookup_insert_ne; [done|congruence]. Qed.

Lemma kept_spawn ex ts w w' : kept ex w w' -> kept ex w (spawn ts w').
Proof. intros H j t Hj Ht. cbn. apply lookup_app_l_Some. by apply H. Qed.

Lemma set_task_at i old t w : w_tasks w !! i = Some old -> w_tasks (set_task i t w) !! i = Some t.
Proof. intros H. cbn. apply list_lookup_insert_eq. by eapply lookup_lt_Some. Qed.

Lemma spawn_at i ts t w : w_tasks w !! i = Some t -> w_tasks (spawn ts w) !! i = Some t.
Proof. intros H. cbn. by apply lookup_app_l_Some. Qed.

(** A step of task [i] that replaces it by [new] and may spawn inserts. *)
Lemma advanced_to B i c t new w w' ts events :
  w_tasks w !! i = Some t -> w_tasks w' = w_tasks w ->
  (rank B new < rank B t)%nat -> (responses events + owed new <= owed t)%nat ->
  (c = false -> (responses events + owed new = owed t)%nat) ->
  kept (Some i) w (spawn ts (set_task i new w')) /\
  advanced B i c t (spawn ts (set_task i new w'), events).
Proof.
  intros Ht Hw Hr Ho Hc. split; [by apply kept_spawn, kept_set|].
  exists new. split_and!; [|done..]. apply spawn_at, (set_task_at i t). by rewrite Hw.
Qed.

Lemma spawn_nil w : spawn [] w = w.
Proof. unfold spawn, with_tasks. rewrite app_nil_r. by destruct w. Qed.

Lemma decide_advances B i endpoint stream p read w r :
  w_tasks w !! i = Some (Reading endpoint stream p [] read) ->
  decide_task proxy i endpoint stream p read w = Done r ->
  kept (Some i) w r.1 /\ advanced B i false (Reading endpoint stream p [] read) r.
Proof.
  intros Ht. unfold decide_task. intros (out & _ & H)%bind_Done.
  destruct (ro_result out) as [d|e]; [|destruct (route_error_response e)]; injection H as <-;
    cbn [fst]; rewrite <- (spawn_nil (set_task _ _ _)); apply advanced_to; cbn; auto; lia.
Qed.

Lemma receive_advances B i endpoint stream d request send clock w r :
  w_tasks w !! i = Some (Sending endpoint stream d request) ->
  bounded_label B (Receive i send clock) ->
  receive proxy i endpoint stream d request send clock w = Done r ->
  kept (Some i) w r.1 /\ advanced B i false (Sending endpoint stream d request) r.
Proof.
  intros Ht HB. unfold receive. intros (b & _ & ([upstream sent] & Hsend & H)%bind_Done)%bind_Done.
  destruct upstream as [upstream|].
  2:{ injection H as <-. cbn [fst]. rewrite <- (spawn_nil (set_task _ _ _)).
      apply advanced_to; cbn; auto; lia. }
  apply (send_reply_from (fun r => (length (ur_body r) <= B)%nat)) in Hsend; [|exact HB].
  apply bind_Done in H as ([response recorded] & Hr & H).
  assert (forall new, new = match r_body response with inr s => Streaming s | inl _ => Finished end ->
          (rank B new < B + 3)%nat /\ owed new = 0%nat) as Hnew.
  { intros new ->. destruct (r_body response) as [b'|s] eqn:Es; cbn; [lia|]. split; [|done].
    apply (respond_stream_body _ _ _ _ _ _ _ _ _ _ Hr) in Es. unfold polls_left. rewrite Es.
    destruct (ss_transformer s); lia. }
  destruct (Hnew _ eq_refl) as [Hrank Howed].
  destruct recorded as [rec|]; injection H as <-; cbn [fst].
  - change (with_store ?x (set_task i ?t w)) with (set_task i t (with_store x w)).
    unfold spawn_inserts. apply advanced_to; [done..| |intros _];
      change (Responds response :: ?l) with ([Responds response] ++ l);
      rewrite responses_app, responses_enqueues, Howed; cbn; lia.
  - rewrite <- (spawn_nil (set_task _ _ _)). apply advanced_to; [done..| |intros _]; rewrite Howed; cbn; lia.
Qed.

Lemma poll_advances B i s w r :
  w_tasks w !! i = Some (Streaming s) -> poll i s w = Done r ->
  kept (Some i) w r.1 /\ advanced B i false (Streaming s) r.
Proof.
  intros Ht. unfold poll. intros ([polled log] & Hp & ([store ws] & _ & H)%bind_Done)%bind_Done.
  assert (forall item, responses (Yields item :: (Enqueues <$> ws)) = 0%nat) as Hy
    by exact (fun _ => responses_enqueues ws).
  pose proof (responses_enqueues ws) as Hn.
  destruct polled as [[item s']|]; injection H as <-; cbn [fst app];
    change (with_store store (set_task i ?t w)) with (set_task i t (with_store store w));
    unfold spawn_inserts; apply advanced_to; try done; cbn [rank owed];
    try intros _; rewrite ?Hy, ?Hn; try done.
  - by eapply stream_poll_shrinks.
  - unfold polls_left. destruct (ss_transformer s); lia.
Qed.

(** The steps of the environment and of other tasks. *)
Lemma step_keeps l w w' events :
  world_step proxy ledger l w = Some (Done (w', events)) -> label_task l = None -> kept None w w'.
Proof.
  destruct l as [prof endpoint body|i|i|i send clock|i|i|i d now|d prof query|recovered|]; try done;
    cbn [world_step]; intros H _.
  - injection H as H. unfold arrive in H. destruct (from_slice body) as [request|].
    2:{ injection H as <- _. by apply kept_tasks. }
    apply bind_Done in H as ([p|[e v]] & _ & H); [|destruct (route_error_response e)]; injection H as <- _;
      try apply kept_spawn; by apply kept_tasks.
  - unfold lookup_step in H. apply kept_tasks. destruct query as [id|].
    2:{ by injection H as <- _. }
    destruct (str_is_empty (trim id)).
    + injection H as H. by apply bind_Done in H as ([a b] & _ & [= <- _]).
    + apply bind_Some in H as (db & _ & [= H]). by apply bind_Done in H as ([a b] & _ & [= <- _]).
  - apply bind_Some in H as (db & _ & [= <- _]). by apply kept_tasks.
  - apply bind_Some in H as (db & _ & [= <- _]). by apply kept_tasks.
Qed.

Lemma step_advances B i l w t w' events :
  world_step proxy ledger l w = Some (Done (w', events)) -> bounded_label B l ->
  label_task l = Some i -> w_tasks w !! i = Some t ->
  kept (Some i) w w' /\ advanced B i (is_disconnect l) t (w', events).
Proof.
  intros H HB Hl Ht.
  destruct l as [prof endpoint body|j|j|j send clock|j|j|j d now|d prof query|recovered|]; try done;
    injection Hl as ->; cbn [world_step] in H; rewrite Ht in H.
  - destruct t as [endpoint stream p [|d todo] read| | | |]; try done.
    injection H as H. apply bind_Done in H as (c & _ & [= <- <-]).
    rewrite <- (spawn_nil (set_task _ _ _)). apply advanced_to; cbn; auto; lia.
  - destruct t as [endpoint stream p [|d todo] read| | | |]; try done.
    injection H as H. by apply (decide_advances B) in H.
  - destruct t as [|endpoint stream d request| | |]; try done.
    injection H as H. by apply (receive_advances B) in H.
  - destruct t as [| |s| |]; try done. injection H as H. by apply (poll_advances B) in H.
  - destruct t as [|endpoint stream d request|s| |]; try done; injection H as <- <-;
      rewrite <- (spawn_nil (set_task _ _ _)); apply advanced_to; try done; cbn; try lia.
    unfold polls_left. destruct (ss_transformer s); lia.
  - destruct t as [| | |g|]; try done. unfold run_insert in H. destruct (deliver _ _ _) as [x tbl].
    apply bind_Some in H as (w1 & (db & _ & [= <-])%bind_Some & [= <- <-]).
    rewrite <- (spawn_nil (set_task _ _ _)). apply advanced_to; cbn; auto; lia.
Qed.

Lemma enabled_task l w x i :
  world_step proxy ledger l w = Some x -> label_task l = Some i -> is_Some (w_tasks w !! i).
Proof.
  destruct l; try done; intros H [= ->]; cbn [world_step] in H; by destruct (w_tasks w !! i).
Qed.

(** A step of anything else leaves task [i] alone. *)
Lemma step_leaves B i l w t w' events :
  world_step proxy ledger l w = Some (Done (w', events)) -> bounded_label B l ->
  label_task l <> Some i -> w_tasks w !! i = Some t -> w_tasks w' !! i = Some t.
Proof.
  intros H HB Hl Ht. destruct (label_task l) as [j|] eqn:Ej.
  - destruct (enabled_task l w _ j H Ej) as [tj Hj].
    apply (step_advances B j l w tj) in H as [Hk _]; [|done..]. by apply Hk.
  - apply step_keeps in H; [|done]. by apply H.
Qed.

(** ** Interleavings *)

Lemma run_advances B i ls w t w' events :
  Forall (bounded_label B) ls -> run proxy ledger ls w = Done (w', events) -> w_tasks w !! i = Some t ->
  exists t', w_tasks w' !! i = Some t' /\
    (length (own i ls w) + rank B t' <= rank B t)%nat /\
    (responses (concat (own i ls w)) + owed t' <= owed t)%nat /\
    (Disconnect i ∉ ls -> (responses (concat (own i ls w)) + owed t' = owed t)%nat).
Proof.
  revert w t events. induction ls as [|l ls IH]; intros w t events HB; cbn [run own].
  { intros [= <- _] Ht. exists t. by rewrite Ht. }
  apply Forall_cons in HB as [Hl HB]. destruct (world_step proxy ledger l w) as [stepped|] eqn:E.
  2:{ intros Hrun Ht. destruct (IH w t events HB Hrun Ht) as (t' & ? & ? & ? & Hd). exists t'.
      split_and!; [done..|]. intros Hnot. apply Hd. set_solver. }
  intros ([w1 e1] & -> & ([w2 e2] & Hrun & [= <- _])%bind_Done)%bind_Done Ht.
  destruct (decide (label_task l = Some i)) as [Hi|Hi].
  - destruct (step_advances B i l w t w1 e1 E Hl Hi Ht) as [_ (t1 & Ht1 & Hrank & Howe & Heq)]. cbn [fst snd] in *.
    destruct (IH w1 t1 e2 HB Hrun Ht1) as (t' & ? & ? & ? & Hd). exists t'.
    cbn [app length concat]. rewrite responses_app. split_and!; [done|lia|lia|].
    intros Hnot. assert (is_disconnect l = false) as Hc.
    { destruct l; try done. cbn in Hi. injection Hi as ->. set_solver. }
    specialize (Heq Hc). enough (responses (concat (own i ls w1)) + owed t' = owed t1)%nat by lia.
    apply Hd. set_solver.
  - pose proof (step_leaves B i l w t w1 e1 E Hl Hi Ht) as Ht1.
    destruct (IH w1 t e2 HB Hrun Ht1) as (t' & ? & ? & ? & Hd). exists t'. cbn [app].
    split_and!; [done..|]. intros Hnot. apply Hd. set_solver.
Qed.

(** A request whose client leaves, or that a timeout cuts off, before its answer
    or the end of its stream: whatever follows, the task never records a
    measurement nor spawns its ledger insert; only its decision stays counted. *)
Lemma disconnected_task_is_silent B i ls w t w' events :
  Forall (bounded_label B) ls -> run proxy ledger (Disconnect i :: ls) w = Done (w', events) ->
  w_tasks w !! i = Some t -> is_Some (world_step proxy ledger (Disconnect i) w) ->
  exists w1, world_step proxy ledger (Disconnect i) w = Some (Done (w1, [])) /\
    w_routing w1 = w_routing w /\ w_store w1 = w_store w /\ w_table w1 = w_table w /\
    own i ls w1 = [].
Proof.
  intros HB Hrun Ht Hs.
  assert (world_step proxy ledger (Disconnect i) w = Some (Done (set_task i Finished w, []))) as E.
  { cbn [world_step] in *. rewrite Ht in *. destruct Hs, t; done. }
  exists (set_task i Finished w). split_and!; [exact E|done..|].
  cbn [run] in Hrun. rewrite E in Hrun. cbn [mbind outcome_bind] in Hrun.
  apply bind_Done in Hrun as ([w2 e2] & Hrun & _).
  destruct (run_advances B i ls (set_task i Finished w) Finished w2 e2 HB Hrun) as (t' & _ & Hlen & _).
  - cbn. by apply list_lookup_insert_eq, lookup_lt_Some with t.
  - apply nil_length_inv. cbn in Hlen. lia.
Qed.

(** ** Every unfinished task can step *)

Context (val : decimal -> Q) {L : DecimalLaws val}.
Context (Hpolicy : policy_wf val (routing proxy)) (Hprint : printable).
Context (Hcostable : table_costable (price_table proxy)).

Definition idle_clock : Clock :=
  {| ck_request_started_at := 0; ck_processing_duration := 0; ck_response_completed_at := 0 |}.

(** The step a task takes next, for some contribution of the environment. *)
Definition next_label (now : timestamp) (i : nat) (t : Task) : option Label :=
  match t with
  | Reading _ _ _ (_ :: _) _ => Some (ReadCandidate i)
  | Reading _ _ _ [] _ => Some (Decide i)
  | Sending _ _ _ _ => Some (Receive i (fun _ _ => None) idle_clock)
  | Streaming _ => Some (Poll i)
  | Inserting _ => Some (RunInsert i Answered now)
  | Finished => None
  end.

Lemma next_label_enabled B now i w t :
  w_tasks w !! i = Some t -> t <> Finished ->
  exists l, next_label now i t = Some l /\ label_task l = Some i /\ is_disconnect l = false /\
    label_ok l /\ bounded_label B l /\ is_Some (world_step proxy ledger l w).
Proof.
  intros Ht Hf. destruct t as [endpoint stream p [|d todo] read|endpoint stream d request|s|g|];
    [..|done]; (eexists; split; [done|]; cbn [label_task is_disconnect label_ok bounded_label world_step];
    rewrite ?Ht; split_and!; try done; try by eexists).
  unfold run_insert. destruct (deliver _ _ _) as [[x|x] tbl]; cbn; by eexists.
Qed.

(** C11: Every task ends, and answers once.  Assume a well-formed routing policy,
    JSON values and decimals that print, a price table every price of which
    yields a cost for all token counts (without overflowing a decimal: the table
    itself accepts larger prices), a well-formed world, and labels whose statuses
    and clock readings are in range.  In any interleaving whose sidecar
    replies have at most [B] chunks, a task takes at most [rank B] steps of its
    own (whatever the other requests, streams, inserts and the supervisor do
    meanwhile), a request is answered at most once and, unless its client
    leaves, owes no answer only after exactly one; and while it is not finished
    a step of its own other than a disconnect is enabled and does not panic. *)
Theorem tasks_finish B now ls w w' events i t :
  world_ok proxy w -> Forall label_ok ls -> Forall (bounded_label B) ls ->
  run proxy ledger ls w = Done (w', events) -> w_tasks w !! i = Some t ->
  exists t', w_tasks w' !! i = Some t' /\
    (length (own i ls w) + rank B t' <= rank B t)%nat /\
    (responses (concat (own i ls w)) + owed t' <= owed t)%nat /\
    (Disconnect i ∉ ls -> (responses (concat (own i ls w)) + owed t' = owed t)%nat) /\
    (t' <> Finished ->
     exists l r, next_label now i t' = Some l /\ label_task l = Some i /\ is_disconnect l = false /\
       world_step proxy ledger l w' = Some (Done r)).
Proof.
  intros Hw Hls HB Hrun Ht.
  destruct (run_advances B i ls w t w' events HB Hrun Ht) as (t' & Ht' & Hrank & Howed & Hexact).
  exists t'. split_and!; [done..|]. intros Hf.
  destruct (next_label_enabled B now i w' t' Ht' Hf) as (l & Hn & Hl & Hd & Hok & _ & [x Hx]).
  destruct (run_ok val proxy ledger Hpolicy Hprint Hcostable ls w Hw Hls) as (w2 & e2 & E & Hw').
  rewrite Hrun in E. injection E as <- <-.
  destruct (world_step_ok val proxy ledger Hpolicy Hprint Hcostable l w' x Hw' Hok Hx) as (w3 & e3 & -> & _).
  exists l, (w3, e3). done.
Qed.
End Progress.

(** ** Witness *)

(** The rest of the race, from where both requests are in flight: task 1 is
    answered, task 0's client leaves. *)
Definition rest : list Label := drop 6 race.

Definition rest_raced : World * list Event :=
  match run hidden_proxy.1 ledger_with_health rest half_raced.1 with
  | Done x => x
  | Panic _ => (open_world, [])
  end.

Lemma rest_raced_Done : run hidden_proxy.1 ledger_with_health rest half_raced.1 = Done (rest_raced.1, rest_raced.2).
Proof.
  assert (is_done (run hidden_proxy.1 ledger_with_health rest half_raced.1) = true) as H by vm_reflexivity.
  unfold rest_raced. by destruct (run hidden_proxy.1 ledger_with_health rest half_raced.1) as [[w events]|].
Qed.

Lemma rest_ok : Forall label_ok rest.
Proof. exact (Forall_drop _ 6 _ race_ok). Qed.

Lemma rest_bounded : Forall (bounded_label 1) rest.
Proof.
  assert (bounded_label (T := RefJiff.epoch) 1 (Receive 1 answering sample_clock)) as H.
  { intros n b r [= <-]. cbn. lia. }
  unfold rest, race. cbn [drop]. rewrite !Forall_cons. split_and!; try exact I; [exact H|constructor].
Qed.

Lemma half_raced_ok : world_ok hidden_proxy.1 half_raced.1.
Proof.
  destruct (run_ok (D := RefDecimal.decimal) RefDecimal.val hidden_proxy.1 ledger_with_health
              (table_policy_wf _ _ _ hidden_routes_Ok) ref_printable hidden_costable
              (take 6 race) open_world) as (w & e & E & Hw).
  - apply open_world_ok.
  - exact (Forall_take _ 6 _ race_ok).
  - rewrite half_raced_Done in E. by injection E as <- _.
Qed.

Example rest_answers :
  (fun es => length (omap (fun e => match e with Responds r => Some r | _ => None end) es)) <$>
    own hidden_proxy.1 ledger_with_health 1 rest half_raced.1 = [1%nat].
Proof. vm_reflexivity. Qed.

Definition in_flight : Task := default Finished (w_tasks half_raced.1 !! 1%nat).

Lemma tasks_finish_witness :
  exists t', w_tasks rest_raced.1 !! 1%nat = Some t' /\
    (length (own hidden_proxy.1 ledger_with_health 1 rest half_raced.1) + rank 1 t' <= rank 1 in_flight)%nat /\
    (responses (concat (own hidden_proxy.1 ledger_with_health 1 rest half_raced.1)) + owed t' <= owed in_flight)%nat /\
    (Disconnect 1 ∉ rest ->
     (responses (concat (own hidden_proxy.1 ledger_with_health 1 rest half_raced.1)) + owed t' = owed in_flight)%nat) /\
    (t' <> Finished ->
     exists l r, next_label 7 1 t' = Some l /\ label_task l = Some 1%nat /\ is_disconnect l = false /\
       world_step hidden_proxy.1 ledger_with_health l rest_raced.1 = Some (Done r)).
Proof.
  apply (tasks_finish (D := RefDecimal.decimal) hidden_proxy.1 ledger_with_health RefDecimal.val) with (events := rest_raced.2).
  - exact (table_policy_wf _ _ _ hidden_routes_Ok).
  - exact ref_printable.
  - exact hidden_costable.
  - exact half_raced_ok.
  - exact rest_ok.
  - exact rest_bounded.
  - exact rest_raced_Done.
  - vm_reflexivity.
Defined.
