(* ===== verification/ServiceForward.v ===== *)
(** A request handled at once ([Proxy.forward]) is one interleaving of the
    running service ([Service]): its steps back to back.  So is a ledger lookup
    ([Ledger.get_generation]).  What is proved of every interleaving therefore
    holds of requests that are handled one after the other. *)

From Stdlib Require Import ZArith.
From S2P Require Import Prelude Float64 RustDecimal RoutingProfile Registry Json Preference Measurements.
From S2P Require Import Share Select Config Routing Pricing UsageCost Sse Database Ledger Generation.
From S2P Require Import Proxy Service RefJson RoutingProps Fixtures ProxyProps ServiceProps.

#[local] Open Scope Z_scope.

Section Forward.
Context {D : RustDecimal} {R : RandCrate} {J : SerdeJson} {U : UrlCrate} {T : Jiff} {N : Notify}.
Context (proxy : ProxyState) (ledger : Ledger).

(** ** What a handled request leaves behind *)

Definition is_live (t : Task) : bool := match t with Finished => false | _ => true end.

(** The tasks that outlive the handler: the body it streams, or its ledger
    insert. *)
Definition left_running (out : ForwardOutcome) : list Task :=
  match r_body (fo_response out) with inr s => [Streaming s] | inl _ => [] end ++
  (Inserting <$> match fo_recorded out with Some r => enqueued r | None => [] end).

Definition stored (out : ForwardOutcome) (store : MeasurementStore) : MeasurementStore :=
  match fo_recorded out with Some r => re_store r | None => store end.

(** The world after the request, its finished tasks swept. *)
Definition settled (out : ForwardOutcome) (w : World) : World :=
  spawn (left_running out) (with_store (stored out (w_store w)) (with_routing (fo_state out) w)).

(** Worlds that differ only in finished tasks at the end. *)
Definition swept (w w' : World) : Prop :=
  w_routing w' = w_routing w /\ w_store w' = w_store w /\ w_table w' = w_table w /\
  w_database w' = w_database w /\ filter_b is_live (w_tasks w') = filter_b is_live (w_tasks w).

(** The steps of request [i], which reads [n] candidates. *)
Definition request_schedule (i n : nat) (prof : RoutingProfile) (endpoint : CompletionEndpoint)
    (body : list byte) (send : nat -> list byte -> option UpstreamReply) (clock : Clock) : list Label :=
  Arrive prof endpoint body :: replicate n (ReadCandidate i) ++ [Decide i; Receive i send clock].

Definition responds (events : list Event) : list Response :=
  omap (fun e => match e with Responds r => Some r | _ => None end) events.

Lemma responds_enqueues ws : responds (Enqueues <$> ws) = [].
Proof. unfold responds. by induction ws. Qed.

Lemma set_task_twice i t t' w : set_task i t' (set_task i t w) = set_task i t' w.
Proof. unfold set_task, with_tasks. cbn. by rewrite list_insert_insert_eq. Qed.

Lemma spawned_at t w : w_tasks (spawn [t] w) !! length (w_tasks w) = Some t.
Proof. cbn. by rewrite lookup_app_r, Nat.sub_diag. Qed.

Lemma set_spawned t t' w : set_task (length (w_tasks w)) t' (spawn [t] w) = spawn [t'] w.
Proof.
  unfold set_task, spawn, with_tasks. cbn. by rewrite <- (Nat.add_0_r (length _)), insert_app_r.
Qed.

(** ** Reading the candidates back to back *)

Lemma run_reads i endpoint stream p ds read cs ls w :
  w_tasks w !! i = Some (Reading endpoint stream p ds read) ->
  outcome_map (read_candidate (w_store w) p) ds = Done cs ->
  run proxy ledger (replicate (length ds) (ReadCandidate i) ++ ls) w =
  run proxy ledger ls (set_task i (Reading endpoint stream p [] (read ++ cs)) w).
Proof.
  revert read cs w. induction ds as [|d ds IH]; intros read cs w Hi; cbn [outcome_map length replicate app].
  - intros [= <-]. rewrite app_nil_r. f_equal. unfold set_task, with_tasks.
    rewrite list_insert_id by done. by destruct w.
  - intros (c & Hc & (cs' & Hcs & [= <-])%bind_Done)%bind_Done. cbn [run world_step]. rewrite Hi, Hc.
    cbn [mbind outcome_bind].
    rewrite (IH (read ++ [c]) cs').
    + rewrite set_task_twice, <- app_assoc. cbn [app].
      by destruct (run proxy ledger ls _) as [[w' events]|].
    + cbn. apply list_lookup_insert_eq. by eapply lookup_lt_Some.
    + done.
Qed.

Lemma run_disabled l ls w : world_step proxy ledger l w = None -> run proxy ledger (l :: ls) w = run proxy ledger ls w.
Proof. intros H. cbn [run]. by rewrite H. Qed.

Lemma run_enabled l ls w w1 e1 w2 e2 :
  world_step proxy ledger l w = Some (Done (w1, e1)) -> run proxy ledger ls w1 = Done (w2, e2) ->
  run proxy ledger (l :: ls) w = Done (w2, e1 ++ e2).
Proof. intros H1 H2. cbn [run]. rewrite H1. cbn. by rewrite H2. Qed.

(** The labels left for a task that has ended are skipped. *)
Lemma run_ended i send clock w :
  match w_tasks w !! i with Some t => is_live t | None => false end = false ->
  run proxy ledger [Decide i; Receive i send clock] w = Done (w, []) /\
  run proxy ledger [Receive i send clock] w = Done (w, []).
Proof. intros H. cbn [run world_step]. by destruct (w_tasks w !! i) as [[]|]. Qed.

(** ** The request *)

(** The steps after the reads, from a decided request's world. *)
Lemma receive_forward endpoint stream d request send clock w upstream sent b :
  let i := length (w_tasks w) in
  to_vec request = Some b -> send_selected_then_fallback send request b d = Done (upstream, sent) ->
  forall response recorded,
  match upstream with
  | None => response = upstream_unavailable /\ recorded = None
  | Some upstream => respond proxy (w_store w) (profile d) endpoint clock stream d upstream = Done (response, recorded)
  end ->
  exists w' events,
    run proxy ledger [Receive i send clock] (spawn [Sending endpoint stream d request] w) = Done (w', events) /\
    responds events = [response] /\
    swept (settled {| fo_response := response; fo_state := w_routing w; fo_recorded := recorded; fo_sent := sent |} w) w'.
Proof.
  intros i Hb Hs response recorded Hr. cbn [run world_step]. subst i. rewrite spawned_at.
  unfold receive. rewrite Hb. cbn [expect mbind outcome_bind]. rewrite Hs. cbn [mbind outcome_bind].
  destruct upstream as [upstream|].
  2:{ destruct Hr as [-> ->]. rewrite set_spawned. cbn. do 2 eexists. split; [done|]. split; [done|].
      unfold swept, settled. cbn. by rewrite !filter_b_app. }
  change (w_store (spawn [Sending endpoint stream d request] w)) with (w_store w). rewrite Hr.
  cbn [mbind outcome_bind]. rewrite set_spawned.
  destruct recorded as [r|]; cbn [mbind outcome_bind]; do 2 eexists; (split; [reflexivity|]).
  - split; [cbn; by rewrite app_nil_r, responds_enqueues|].
    unfold swept, settled. cbn. split_and!; try done. unfold left_running. cbn.
    rewrite !filter_b_app, <- app_assoc. by destruct (r_body response).
  - split; [done|]. unfold swept, settled. cbn. split_and!; try done. unfold left_running. cbn.
    rewrite app_nil_r, !filter_b_app. by destruct (r_body response).
Qed.

Lemma prepare_profile prof endpoint request p :
  prepare (routing proxy) prof endpoint request = Done (Ok p) -> (pr_key p).1 = prof.
Proof.
  unfold prepare. destruct (reject_provider_overrides request); [|done]. destruct (parse_top_p request); [|done].
  destruct (parse_stream request); [|done]. intros ([[parsed r]|e] & _ & H)%bind_Done; [|done].
  destruct (routes (routing proxy) !! _); [|done]. by injection H as <-.
Qed.

Lemma commit_profile st p cs out d :
  commit (routing proxy) st p cs = Done out -> ro_result out = Ok d -> profile d = (pr_key p).1.
Proof.
  unfold commit. destruct cs as [|c cs]; [by intros [= <-]|].
  intros ([[[sel fbs]|] st'] & _ & H)%bind_Done; [|by injection H as <-].
  apply bind_Done in H as (req & _ & [= <-]). by intros [= <-].
Qed.

(** A request refused before it reads any shared state. *)
Lemma swept_refused status value w :
  swept (settled {| fo_response := json_response status value; fo_state := w_routing w;
                    fo_recorded := None; fo_sent := [] |} w) w.
Proof. unfold swept, settled. cbn. by rewrite app_nil_r. Qed.

(** The first step of a request that parses. *)
Lemma run_arrive prof endpoint body request prepared (w : World) ls :
  from_slice body = Some request -> prepare (routing proxy) prof endpoint request = Done prepared ->
  run proxy ledger (Arrive prof endpoint body :: ls) w =
  match prepared with
  | Err (e, _) => let '(status, value) := route_error_response e in
                  run proxy ledger ls w ≫= fun '(w, events) => Done (w, Responds (json_response status value) :: events)
  | Ok p => run proxy ledger ls (spawn [Reading endpoint (requested_stream request) p (pr_descriptors p) []] w)
  end.
Proof.
  intros Hj Hp. cbn [run world_step]. unfold arrive. rewrite Hj, Hp. cbn [mbind outcome_bind].
  destruct prepared as [p|[e v]].
  - cbn [mbind outcome_bind]. by destruct (run proxy ledger ls _) as [[w' events]|].
  - destruct (route_error_response e) as [status value]. cbn [mbind outcome_bind].
    by destruct (run proxy ledger ls w) as [[w' events]|].
Qed.

(** Its critical section, once every candidate is read. *)
Lemma decide_spawned endpoint stream p cs routed w :
  commit (routing proxy) (w_routing w) p cs = Done routed ->
  let w1 := with_routing (ro_state routed) w in
  world_step proxy ledger (Decide (length (w_tasks w))) (spawn [Reading endpoint stream p [] cs] w) =
  Some match ro_result routed with
       | Err e => let '(status, value) := route_error_response e in
                  Done (spawn [Finished] w1, [Responds (json_response status value)])
       | Ok d => Done (spawn [Sending endpoint stream d (ro_request routed)] w1,
                       [Decided (pr_key p) (selected_provider d)])
       end.
Proof.
  intros Hc w1. cbn [world_step]. rewrite spawned_at. f_equal. unfold decide_task.
  change (w_routing (spawn _ w)) with (w_routing w). rewrite Hc. cbn [mbind outcome_bind].
  assert (forall t, set_task (length (w_tasks w)) t (with_routing (ro_state routed) (spawn [Reading endpoint stream p [] cs] w))
            = spawn [t] w1) as Hset by (intros t; apply (set_spawned (Reading endpoint stream p [] cs) t w1)).
  destruct (ro_result routed) as [d|e]; [|destruct (route_error_response e)]; by rewrite Hset.
Qed.

(** The whole schedule of a request whose candidates were read. *)
Lemma run_schedule prof endpoint body send clock request p cs w :
  from_slice body = Some request -> prepare (routing proxy) prof endpoint request = Done (Ok p) ->
  outcome_map (read_candidate (w_store w) p) (pr_descriptors p) = Done cs ->
  run proxy ledger (request_schedule (length (w_tasks w)) (length (pr_descriptors p)) prof endpoint body send clock) w =
  run proxy ledger [Decide (length (w_tasks w)); Receive (length (w_tasks w)) send clock]
    (spawn [Reading endpoint (requested_stream request) p [] cs] w).
Proof.
  intros Hj Hp Hcs. unfold request_schedule. rewrite (run_arrive _ _ _ request (Ok p)) by done.
  rewrite (run_reads _ _ _ _ _ [] cs) by (apply spawned_at || done). by rewrite set_spawned.
Qed.

(** What [forward] answers once it has heard from the sidecar, or not. *)
Lemma upstream_answered prof endpoint clock stream d (state : RoutingState) sent upstream (w : World) out :
  match upstream with
  | None => Done {| fo_response := upstream_unavailable; fo_state := state; fo_recorded := None; fo_sent := sent |}
  | Some upstream =>
      respond proxy (w_store w) prof endpoint clock stream d upstream ≫= fun '(response, recorded) =>
      Done {| fo_response := response; fo_state := state; fo_recorded := recorded; fo_sent := sent |}
  end = Done out ->
  exists response recorded,
    match upstream with
    | None => response = upstream_unavailable /\ recorded = None
    | Some upstream => respond proxy (w_store w) prof endpoint clock stream d upstream = Done (response, recorded)
    end /\
    out = {| fo_response := response; fo_state := state; fo_recorded := recorded; fo_sent := sent |}.
Proof.
  destruct upstream as [upstream|]; [|intros [= <-]; by do 2 eexists].
  intros ([response recorded] & Hr & [= <-])%bind_Done. by exists response, recorded.
Qed.

(** C12: A handled request is an interleaving: whenever [forward] returns, the
    running service has the schedule of that one request's steps, run back to
    back from the same world, which responds with the same response and leaves
    the same routing state, measurements, table, database and live tasks (the
    streamed body, or the ledger insert it spawned). *)
Theorem forward_is_schedule sidecar prof endpoint clock body w out :
  forward sidecar proxy (w_store w) (w_routing w) prof endpoint clock body = Done out ->
  exists n w' events,
    run proxy ledger (request_schedule (length (w_tasks w)) n prof endpoint body (sidecar endpoint) clock) w
      = Done (w', events) /\
    responds events = [fo_response out] /\ swept (settled out w) w'.
Proof.
  unfold forward. destruct (from_slice body) as [request|] eqn:Hj.
  2:{ intros [= <-]. exists 0%nat, w, [Responds invalid_json_request]. split_and!; [|done|apply swept_refused].
      apply (run_enabled _ _ _ w [Responds invalid_json_request] w []); [cbn; unfold arrive; by rewrite Hj|].
      apply run_ended. by rewrite lookup_ge_None_2. }
  rewrite <- steps_refine_route. unfold uninterrupted.
  intros (routed & Hrouted & H)%bind_Done. apply bind_Done in Hrouted as ([p|[e v]] & Hp & Hrouted).
  2:{ injection Hrouted as <-. cbn [ro_result ro_state ro_request] in H. exists 0%nat.
      destruct (route_error_response e) as [status value] eqn:Ee. injection H as <-.
      exists w, [Responds (json_response status value)]. split_and!; [|done|apply swept_refused].
      unfold request_schedule. rewrite (run_arrive _ _ _ request (Err (e, v))), Ee by done. cbn [replicate app].
      by rewrite (proj1 (run_ended _ _ _ w ltac:(by rewrite lookup_ge_None_2))). }
  apply bind_Done in Hrouted as (cs & Hcs & Hc).
  exists (length (pr_descriptors p)). rewrite (run_schedule _ _ _ _ _ request p cs w Hj Hp Hcs).
  pose proof (decide_spawned endpoint (requested_stream request) p cs routed w Hc) as Hdecide.
  set (w1 := with_routing (ro_state routed) w) in *.
  destruct (ro_result routed) as [d|e] eqn:Ed.
  - apply bind_Done in H as (b & Hb%expect_Done & ([upstream sent] & Hs & H)%bind_Done).
    rewrite <- (prepare_profile _ _ _ _ Hp), <- (commit_profile _ _ _ _ _ Hc Ed) in H.
    destruct (upstream_answered (profile d) endpoint clock (requested_stream request) d (ro_state routed) sent upstream w1
      out H) as (response & recorded & Hr & ->).
    destruct (receive_forward endpoint (requested_stream request) d (ro_request routed) (sidecar endpoint) clock w1
      upstream sent b Hb Hs response recorded Hr) as (w' & events & Hrun & Hresp & Hsw).
    exists w', ([Decided (pr_key p) (selected_provider d)] ++ events). split_and!; [|done|done].
    by eapply run_enabled.
  - destruct (route_error_response e) as [status value]. injection H as <-.
    exists (spawn [Finished] w1), ([Responds (json_response status value)] ++ []). split_and!; [|done|].
    + eapply run_enabled; [done|]. apply run_ended. change (w_tasks w) with (w_tasks w1). by rewrite spawned_at.
    + unfold swept, settled. cbn. by rewrite !filter_b_app.
Qed.

(** ** The ledger lookup *)

Definition ledger_of (w : World) : LedgerState :=
  {| table := w_table w; database_health := health (w_database w) |}.

(** The world after a lookup whose failure, if any, has been notified. *)
Definition looked_up (s : LedgerState) (w : World) : World :=
  with_database (table s) (with_health (database_health s) (supervisor (w_database w)) (w_database w)) w.

Lemma looked_up_same w : looked_up (ledger_of w) w = w.
Proof. by destruct w as [? ? ? [] ?]. Qed.

(** A lookup is an interleaving too, of its query and of the notification that
    ends the report of its failure. *)
Lemma lookup_is_schedule d prof query w r s :
  get_generation ledger d prof query (ledger_of w) = Done (r, s) ->
  exists ls, ls `prefix_of` [Lookup d prof query; Notified] /\
    run proxy ledger ls w = Done (looked_up s w, [Answers r]).
Proof.
  intros Hg.
  assert (forall w1 : World, lookup_step ledger d prof query w = Some (Done (w1, [Answers r])) ->
    run proxy ledger [Lookup d prof query] w = Done (w1, [Answers r])) as Hone.
  { intros w1 H1. cbn [run world_step]. by rewrite H1. }
  assert (forall w1 : World, w1 = looked_up s w -> lookup_step ledger d prof query w = Some (Done (w1, [Answers r])) ->
    exists ls, ls `prefix_of` [Lookup d prof query; Notified] /\
      run proxy ledger ls w = Done (looked_up s w, [Answers r])) as Hdone.
  { intros w1 -> H1. exists [Lookup d prof query]. split; [by exists [Notified]|by apply Hone]. }
  assert (lookup_step ledger d prof query w =
    match query with
    | Some id => if str_is_empty (trim id) then Some (Done (w, [Answers r]))
                 else database_step (report_label (fetch d id prof (ledger_of w)).1) (w_database w) ≫= fun db =>
                      Some (Done (with_database (w_table w) db w, [Answers r]))
    | None => Some (Done (w, [Answers r]))
    end) as Hstep.
  { unfold lookup_step. change {| table := _; database_health := _ |} with (ledger_of w). rewrite Hg. done. }
  rewrite Hstep in Hdone. clear Hone.
  destruct query as [id|].
  2:{ injection Hg as _ <-. apply (Hdone w); [by rewrite looked_up_same|done]. }
  unfold get_generation in Hg. destruct (str_is_empty (trim id)) eqn:Et.
  { injection Hg as _ <-. apply (Hdone w); [by rewrite looked_up_same|done]. }
  assert (s = (fetch d id prof (ledger_of w)).2) as ->.
  { destruct (fetch d id prof (ledger_of w)) as [[[g|]|e] s1]; [|by injection Hg|by injection Hg].
    by apply bind_Done in Hg as (x & _ & [= _ <-]). }
  clear Hg. destruct d as [|e|e].
  - eapply Hdone; [|reflexivity]. cbn. by destruct w as [? ? ? [] ?].
  - exists [Lookup (Lost e) prof (Some id); Notified]. split; [done|]. cbn [run world_step]. rewrite Hstep. cbn.
    by destruct w as [? ? ? [] ?].
  - exists [Lookup (AnswerLost e) prof (Some id); Notified]. split; [done|]. cbn [run world_step]. rewrite Hstep. cbn.
    by destruct w as [? ? ? [] ?].
Qed.
End Forward.

(** ** Witness *)

Definition answering_sidecar : Sidecar := fun _ => answering.

Definition handled_chat : outcome ForwardOutcome :=
  forward answering_sidecar hidden_proxy.1 (w_store open_world) (w_routing open_world) Production Chat sample_clock chat_body.

Definition chat_out : ForwardOutcome :=
  match handled_chat with
  | Done out => out
  | Panic _ => {| fo_response := upstream_unavailable; fo_state := w_routing open_world; fo_recorded := None; fo_sent := [] |}
  end.

Lemma handled_chat_Done : handled_chat = Done chat_out.
Proof.
  assert (is_done handled_chat = true) as H by vm_reflexivity.
  unfold chat_out. by destruct handled_chat.
Qed.

Example chat_leaves_insert : length (left_running chat_out) = 1%nat.
Proof. vm_reflexivity. Qed.

Lemma forward_is_schedule_witness :
  exists n w' events,
    run hidden_proxy.1 ledger_with_health (request_schedule 0 n Production Chat chat_body answering sample_clock) open_world
      = Done (w', events) /\
    responds events = [fo_response chat_out] /\ swept (settled chat_out open_world) w'.
Proof.
  apply (forward_is_schedule hidden_proxy.1 ledger_with_health answering_sidecar Production Chat sample_clock chat_body open_world).
  exact handled_chat_Done.
Defined.
