(* ===== verification/ServiceIsolation.v ===== *)
(** The isolation of the routing profiles that share a service ([Service]): a
    profile's slice of the state is its rolling windows, its measurements and
    its ledger rows.  What another profile's requests, streams and inserts do
    never changes it, and what a profile's own requests are answered is
    determined by it (with the one random generator the profiles share). *)

From Stdlib Require Import ZArith.
From S2P Require Import Prelude Float64 RustDecimal RoutingProfile Registry Json Preference Measurements.
From S2P Require Import Share Select Config Routing RoutingSpec Pricing UsageCost Sse Database Ledger Generation.
From S2P Require Import Proxy Service RefJson RoutingProps Fixtures ProxyProps ServiceProps ServiceDecisions ServiceProgress ServiceForward LedgerProps.

#[local] Open Scope Z_scope.

(** ** What a stream's generation keeps *)

Section Stream.
Context {D : RustDecimal} {J : SerdeJson}.
Context (P : GenerationContext -> Prop).
Context (Pfirst : forall a g, P g -> P (observe_first_output a g)).
Context (Pprocessing : forall d g, P g -> P (observe_processing d g)).

Definition every (g : option GenerationContext) : Prop := forall g', g = Some g' -> P g'.

Definition records_every (log : list StreamEvent) : Prop := forall g u at_, Records g u at_ ∈ log -> P g.

Lemma every_processing d g : every g -> every (observe_processing d <$> g).
Proof. destruct g as [g|]; [|done]. intros H g' [= <-]. by apply Pprocessing, H. Qed.

Lemma every_first (chunk : list byte) a g :
  every g -> every match chunk with [] => g | _ => observe_first_output a <$> g end.
Proof. destruct chunk, g as [g|]; try done. intros H g' [= <-]. by apply Pfirst, H. Qed.

Lemma records_every_nil : records_every [].
Proof. intros g u at_ H. by apply not_elem_of_nil in H. Qed.

Lemma records_every_app a b : records_every a -> records_every b -> records_every (a ++ b).
Proof. intros Ha Hb g u at_ [H|H]%elem_of_app; eauto. Qed.

Lemma record_completed_every completed g at_ :
  every g -> every (record_completed completed g at_).1 /\ records_every (record_completed completed g at_).2.
Proof.
  intros Hg. unfold record_completed. destruct completed as [u|], g as [g|]; try (by split; [|apply records_every_nil]).
  split; [done|]. intros g' u' at' [= -> _ _]%list_elem_of_singleton. by apply Hg.
Qed.

Lemma warn_if_every b reason g : every g -> every (warn_if b reason g).1 /\ records_every (warn_if b reason g).2.
Proof.
  intros Hg. destruct b, g; try (by split; [|apply records_every_nil]).
  split; [done|]. by intros g' u' at' ?%list_elem_of_singleton.
Qed.

Definition polled_every (r : option (option (list byte) * StreamState) * list StreamEvent) : Prop :=
  (forall item s, r.1 = Some (item, s) -> every (ss_generation s)) /\ records_every r.2.

Lemma with_event_every log p r :
  records_every log -> (forall r', p = Done r' -> polled_every r') -> with_event log p = Done r -> polled_every r.
Proof.
  unfold with_event. intros Hl Hp (r' & Hr & [= <-])%bind_Done. destruct (Hp r' Hr) as [H1 H2].
  split; [done|]. by apply records_every_app.
Qed.

Lemma stream_loop_every input fin t g r : every g -> stream_loop input fin t g = Done r -> polled_every r.
Proof.
  revert t g r. induction input as [|a input IH]; intros t g r Hg; cbn [stream_loop].
  - intros (cur & _ & ([out c] & _ & H)%bind_Done)%bind_Done.
    pose proof (record_completed_every c _ (ar_recorded_at fin) (every_processing (ar_processing fin) g Hg)) as Hr.
    destruct (record_completed _ _ _) as [g1 l1]. destruct Hr as [Hg1 Hl1]. cbn in Hg1, Hl1.
    pose proof (warn_if_every true "stream ended before a costed usage event and [DONE]" g1 Hg1) as Hw.
    destruct (warn_if _ _ g1) as [g2 l2]. destruct Hw as [Hg2 Hl2]. injection H as <-.
    split; [|by apply records_every_app]. cbn. destruct out; [done|]. by intros item s [= _ <-].
  - destruct (ar_item a) as [chunk|].
    + intros (cur & _ & ([[next out] c] & _ & H)%bind_Done)%bind_Done.
      pose proof (record_completed_every c _ (ar_recorded_at a)
        (every_processing (ar_processing a) _ (every_first chunk (ar_observed_at a) g Hg))) as Hr.
      destruct (record_completed _ _ _) as [g1 l1]. destruct Hr as [Hg1 Hl1]. cbn in Hg1, Hl1.
      pose proof (warn_if_every (closed next && negb (is_some c))
        "stream was closed before a costed terminal usage event" g1 Hg1) as Hw.
      destruct (warn_if _ _ g1) as [g2 l2]. destruct Hw as [Hg2 Hl2]. cbn in Hg2, Hl2.
      eapply with_event_every, H; [by apply records_every_app|]. intros r'.
      destruct out; [by apply IH|]. intros [= <-]. split; [|apply records_every_nil]. by intros item s [= _ <-].
    + pose proof (warn_if_every true "upstream stream returned an error" g Hg) as Hw.
      destruct (warn_if _ _ g) as [g1 l1]. destruct Hw as [Hg1 Hl1]. intros [= <-].
      split; [|done]. by intros item s [= _ <-].
Qed.

Lemma stream_poll_every s r : every (ss_generation s) -> stream_poll s = Done r -> polled_every r.
Proof.
  unfold stream_poll. destruct (ss_transformer s); [apply stream_loop_every|].
  intros _ [= <-]. split; [done|apply records_every_nil].
Qed.
End Stream.

(** ** Slices *)

Section Isolation.
Context {D : RustDecimal} {R : RandCrate} {J : SerdeJson} {U : UrlCrate} {T : Jiff} {N : Notify}.

Definition owned (p : RoutingProfile) (t : gmap string Row) (id : string) : option Row :=
  t !! id ≫= fun r => if String.eqb (row_routing_profile r) (profile_as_str p) then Some r else None.

Definition same_windows (p : RoutingProfile) (s s' : RoutingState) : Prop :=
  forall m, shares s' !! ((p, m) : RouteKey) = shares s !! ((p, m) : RouteKey).
Definition same_measurements (p : RoutingProfile) (s s' : MeasurementStore) : Prop :=
  forall provider m, get_for s' p provider m = get_for s p provider m.
Definition same_rows (p : RoutingProfile) (t t' : gmap string Row) : Prop := forall id, owned p t' id = owned p t id.

(** Worlds that a profile cannot tell apart. *)
Record same_slice (p : RoutingProfile) (w w' : World) : Prop := {
  sl_windows : same_windows p (w_routing w) (w_routing w');
  sl_measurements : same_measurements p (w_store w) (w_store w');
  sl_rows : same_rows p (w_table w) (w_table w')
}.

#[export] Instance same_windows_equiv p : Equivalence (same_windows p).
Proof. split; [by intros s m|by intros s s' H m; rewrite (H m)|by intros s1 s2 s3 H1 H2 m; rewrite (H2 m), (H1 m)]. Qed.
#[export] Instance same_measurements_equiv p : Equivalence (same_measurements p).
Proof. split; [by intros s x m|by intros s s' H x m; rewrite (H x m)|by intros s1 s2 s3 H1 H2 x m; rewrite (H2 x m), (H1 x m)]. Qed.
#[export] Instance same_rows_equiv p : Equivalence (same_rows p).
Proof. split; [by intros s m|by intros s s' H m; rewrite (H m)|by intros s1 s2 s3 H1 H2 m; rewrite (H2 m), (H1 m)]. Qed.
#[export] Instance same_slice_equiv p : Equivalence (same_slice p).
Proof.
  split; [by intros w|by intros w w' [? ? ?]|]. intros w1 w2 w3 [? ? ?] [? ? ?]. split; by etrans.
Qed.

Lemma profile_as_str_inj p q : profile_as_str p = profile_as_str q -> p = q.
Proof. by destruct p, q. Qed.

(** ** What another profile's operations do to a slice *)

Lemma record_at_other g u at_ store r p :
  record_at g u at_ store = Done r -> gc_profile g <> p ->
  same_measurements p store (re_store r) /\ Forall (fun w => gw_routing_profile w <> p) (enqueued r).
Proof.
  unfold record_at. intros (write & Hw & [= <-])%bind_Done Hp. split; cbn [re_store].
  - intros provider m. unfold record_measurement. destruct (measured g u at_) as [o|]; [|done].
    destruct (observe_for _ _ _ _ _) as [[m' store']|] eqn:E; [|done].
    eapply observe_for_get_other; [exact E|]. congruence.
  - unfold enqueued. cbn [re_write]. destruct write as [reason|write]; [constructor|]. apply Forall_singleton.
    unfold ledger_write in Hw. destruct (response_id u); [|done]. destruct (try_i64 _); [|done].
    destruct (try_i64 _); [|done]. by apply bind_Done in Hw as (status & _ & [= <-]).
Qed.

Lemma record_events_other p log store store' ws :
  records_every (fun g => gc_profile g <> p) log -> record_events log store = Done (store', ws) ->
  same_measurements p store store' /\ Forall (fun w => gw_routing_profile w <> p) ws.
Proof.
  revert store store' ws. induction log as [|[g u at_|reason] log IH]; intros store store' ws Hlog; cbn [record_events].
  - by intros [= <- <-].
  - intros (r & Hr & ([store1 ws1] & H1 & [= <- <-])%bind_Done)%bind_Done.
    apply (record_at_other _ _ _ _ _ p) in Hr as [Hs Hw]; [|eapply Hlog; by left].
    apply IH in H1 as [Hs1 Hw1]; [|intros g' u' at' Hin; eapply Hlog; by right].
    split; [by etrans|by apply Forall_app].
  - apply IH. intros g' u' at' Hin. eapply Hlog. by right.
Qed.

Lemma deliver_insert_other p d now g t :
  gw_routing_profile g <> p -> same_rows p t (deliver d t (execute_insert now g)).2.
Proof.
  intros Hp. assert (forall t', execute_insert now g t = Ok t' -> same_rows p t t') as Hi.
  { intros t' (cost & _ & _ & Hn & ->)%execute_insert_Ok id. unfold owned.
    destruct (decide (id = gw_id g)) as [->|Hne]; [|by rewrite lookup_insert_ne].
    rewrite lookup_insert_eq, Hn. cbn. destruct (String.eqb_spec (profile_as_str (gw_routing_profile g)) (profile_as_str p))
      as [E|]; [|done]. by apply profile_as_str_inj in E. }
  unfold deliver. destruct d; cbn; [|done|]; destruct (execute_insert now g t) as [t'|]; cbn; try done; by apply Hi.
Qed.

Lemma commit_other policy st pr cs out p :
  commit policy st pr cs = Done out -> (pr_key pr).1 <> p -> same_windows p st (ro_state out).
Proof.
  unfold commit. destruct cs as [|c cs]; [by intros [= <-]|].
  intros ([x st'] & Hd & H)%bind_Done Hk m.
  rewrite <- (decide_route_other _ _ _ _ _ _ _ (p, m) Hd) by (intros E; by rewrite <- E in Hk).
  destruct x as [[sel fbs]|]; [by apply bind_Done in H as (req & _ & [= <-])|by injection H as <-].
Qed.

Context (proxy : ProxyState) (ledger : Ledger).

(** ** The profile of a response's stream and record *)

Definition recorded_for (prof : RoutingProfile) (store : MeasurementStore) (x : Responded) : Prop :=
  (forall s, r_body x.1 = inr s -> every (fun g => gc_profile g = prof) (ss_generation s)) /\
  (forall r, x.2 = Some r -> exists g u at_, gc_profile g = prof /\ record_at g u at_ store = Done r).

Lemma whole_recorded_for prof store response : (exists b, r_body response = inl b) -> recorded_for prof store (response, None).
Proof. intros [b Hb]. split; cbn; [congruence|done]. Qed.

Lemma aliased_recorded_for prof store st m sv x :
  unrecorded (aliased_upstream_error st m sv) = Done x -> recorded_for prof store x.
Proof.
  unfold unrecorded, aliased_upstream_error. intros (r & (b & _ & [= <-])%bind_Done & [= <-])%bind_Done.
  apply whole_recorded_for. by eexists.
Qed.

Lemma respond_body_recorded_for store prof endpoint clock d upstream alias served x :
  respond_body proxy store prof endpoint clock d upstream alias served = Done x -> recorded_for prof store x.
Proof.
  unfold respond_body. destruct (collect_body _) as [body|].
  2:{ intros [= <-]. apply whole_recorded_for. by eexists. }
  assert (forall b, respond_costed proxy store prof endpoint clock d upstream alias served b = Done x ->
                    recorded_for prof store x) as Hcosted.
  { intros b. unfold respond_costed. intros ([costed|e] & _ & H)%bind_Done; [|by eapply aliased_recorded_for].
    apply bind_Done in H as (rec & Hrec & [= <-]). split; [by intros s|]. cbn. intros r [= <-].
    do 3 eexists. split; [|exact Hrec]. done. }
  destruct alias; [|apply Hcosted].
  destruct (sanitize_aliased_json_response _ _); [apply Hcosted|apply aliased_recorded_for].
Qed.

Lemma respond_recorded_for store prof endpoint clock stream d upstream x :
  respond proxy store prof endpoint clock stream d upstream = Done x -> recorded_for prof store x.
Proof.
  unfold respond. destruct (is_success _).
  - destruct (served_provider_from_headers _) as [served|]; [|by apply aliased_recorded_for].
    destruct (stream && _); [|by apply respond_body_recorded_for].
    unfold respond_stream. destruct (prices_for_request _ _ _); [|by apply aliased_recorded_for].
    intros [= <-]. split; [|done]. cbn. intros s [= <-]. cbn. by intros g [= <-].
  - destruct (response_uses_public_alias _ _ _); [by apply aliased_recorded_for|].
    intros [= <-]. apply whole_recorded_for. by eexists.
Qed.

(** ** A request of another profile *)

Lemma forward_other sidecar p p' store st endpoint clock body out :
  forward sidecar proxy store st p endpoint clock body = Done out -> p <> p' ->
  same_windows p' st (fo_state out) /\ same_measurements p' store (stored out store).
Proof.
  unfold forward. intros H Hne. destruct (from_slice body) as [request|]; [|by injection H as <-].
  rewrite <- steps_refine_route in H. unfold uninterrupted in H. apply bind_Done in H as (routed & Hr & H).
  assert (same_windows p' st (ro_state routed)) as Hw.
  { apply bind_Done in Hr as (prepared & Hp & Hr). destruct prepared as [pr|[e v]]; [|by injection Hr as <-].
    apply bind_Done in Hr as (cs & _ & Hc). eapply commit_other; [exact Hc|]. by rewrite (prepare_profile _ _ _ _ _ Hp). }
  destruct (ro_result routed) as [d|e]; [|destruct (route_error_response e); by injection H as <-].
  apply bind_Done in H as (b & _ & ([upstream sent] & _ & H)%bind_Done).
  destruct upstream as [upstream|]; [|by injection H as <-].
  apply bind_Done in H as ([response recorded] & Hresp & [= <-]). split; [done|].
  apply respond_recorded_for in Hresp as [_ Hrec]. cbn [fst snd] in Hrec. unfold stored. cbn [fo_recorded].
  destruct recorded as [rec|]; [|done]. destruct (Hrec rec eq_refl) as (g & u & at_ & Hg & Hr').
  apply (record_at_other _ _ _ _ _ p') in Hr' as [Hm _]; [done|congruence].
Qed.

Lemma get_generation_table d p query l r l' :
  get_generation ledger d p query l = Done (r, l') -> table l' = table l.
Proof.
  unfold get_generation. destruct query as [id|]; [|by intros [= _ <-]].
  destruct (str_is_empty (trim id)); [by intros [= _ <-]|].
  destruct (fetch d id p l) as [x l1] eqn:Hf. unfold fetch in Hf. injection Hf as _ <-.
  destruct x as [[g|]|e]; [|by intros [= _ <-]..]. by intros (v & _ & [= _ <-])%bind_Done.
Qed.

(** ** Steps of another profile *)

Definition task_profile (t : Task) : option RoutingProfile :=
  match t with
  | Reading _ _ p _ _ => Some (pr_key p).1
  | Sending _ _ d _ => Some (profile d)
  | Streaming s => gc_profile <$> ss_generation s
  | Inserting g => Some (gw_routing_profile g)
  | Finished => None
  end.

Definition foreign (p : RoutingProfile) (t : Task) : Prop := task_profile t <> Some p.

(** A step that leaves a profile's slice alone, and its tasks as they were. *)
Record leaves_alone (p : RoutingProfile) (w : World) (r : World * list Event) : Prop := {
  la_slice : same_slice p w r.1;
  la_tasks : forall i t, w_tasks r.1 !! i = Some t -> task_profile t = Some p -> w_tasks w !! i = Some t;
  la_decisions : forall m, decisions (p, m) r.2 = []
}.

(** The ways a step changes the world: nothing but a task and spawned ones,
    after a state that keeps the slice. *)
Lemma leaves_alone_intro p w w' i t ts events :
  same_slice p w w' -> w_tasks w' = w_tasks w -> foreign p t -> Forall (foreign p) ts ->
  (forall m, decisions (p, m) events = []) ->
  leaves_alone p w (spawn ts (set_task i t w'), events).
Proof.
  intros Hs Ht Hf Hts He. split; cbn [fst snd]; [|intros j u Hj Hu|done].
  - by destruct Hs.
  - cbn in Hj. rewrite Ht in Hj. apply lookup_app_Some in Hj as [Hj|[_ Hj]].
    + destruct (decide (j = i)) as [->|Hne]; [|by rewrite list_lookup_insert_ne in Hj].
      pose proof (lookup_lt_Some _ _ _ Hj) as Hlt. rewrite length_insert in Hlt.
      rewrite list_lookup_insert_eq in Hj by done. by injection Hj as <-.
    + by apply (Forall_lookup_1 _ _ _ _ Hts) in Hj.
Qed.

Lemma leaves_alone_same p w w' events :
  same_slice p w w' -> w_tasks w' = w_tasks w -> (forall m, decisions (p, m) events = []) ->
  leaves_alone p w (w', events).
Proof. intros Hs Ht He. split; cbn; [done|by rewrite Ht|done]. Qed.

Lemma leaves_alone_set p w w' i t events :
  same_slice p w w' -> w_tasks w' = w_tasks w -> foreign p t -> (forall m, decisions (p, m) events = []) ->
  leaves_alone p w (set_task i t w', events).
Proof. intros. rewrite <- (spawn_nil (set_task i t w')). by apply leaves_alone_intro. Qed.

Lemma inserts_foreign p ws :
  Forall (fun g => gw_routing_profile g <> p) ws -> Forall (foreign p) (Inserting <$> ws).
Proof. intros H. apply Forall_fmap. eapply Forall_impl; [exact H|]. intros g Hg. unfold foreign. cbn. congruence. Qed.

Lemma with_store_slice p st w : same_measurements p (w_store w) st -> same_slice p w (with_store st w).
Proof. by split. Qed.
Lemma with_routing_slice p st w : same_windows p (w_routing w) st -> same_slice p w (with_routing st w).
Proof. by split. Qed.

Lemma arrive_leaves p prof endpoint body w r :
  arrive proxy prof endpoint body w = Done r -> prof <> p -> leaves_alone p w r.
Proof.
  unfold arrive. destruct (from_slice body) as [request|]; [|by intros [= <-] _; apply leaves_alone_same].
  intros ([pr|[e v]] & Hp & H)%bind_Done Hne; [|destruct (route_error_response e); injection H as <-;
    by apply leaves_alone_same].
  injection H as <-. apply prepare_profile in Hp. split; cbn [fst snd]; [done| |done].
  cbn. intros i t [Hi|[_ Hi]]%lookup_app_Some Ht; [done|].
  apply list_lookup_singleton_Some in Hi as [_ <-]. cbn in Ht. congruence.
Qed.

Lemma decide_leaves p i endpoint stream pr cs w r :
  decide_task proxy i endpoint stream pr cs w = Done r -> (pr_key pr).1 <> p -> leaves_alone p w r.
Proof.
  unfold decide_task. intros (out & Hc & H)%bind_Done Hne.
  pose proof (with_routing_slice p (ro_state out) w (commit_other _ _ _ _ _ p Hc Hne)) as Hs.
  destruct (ro_result out) as [d|e] eqn:Ed; [|destruct (route_error_response e)]; injection H as <-;
    apply leaves_alone_set; try done.
  - unfold foreign. cbn. rewrite (commit_profile _ _ _ _ _ _ Hc Ed). congruence.
  - intros m. cbn. rewrite decide_False; [done|]. intros E. apply Hne. by rewrite E.
Qed.

Lemma receive_leaves p i endpoint stream d request send clock w r :
  receive proxy i endpoint stream d request send clock w = Done r -> profile d <> p -> leaves_alone p w r.
Proof.
  unfold receive. intros (b & _ & ([upstream sent] & _ & H)%bind_Done)%bind_Done Hne.
  destruct upstream as [upstream|]; [|injection H as <-; by apply leaves_alone_set].
  apply bind_Done in H as ([response recorded] & Hr & H). apply respond_recorded_for in Hr as [Hs Hrec].
  cbn [fst snd] in Hs, Hrec.
  assert (foreign p (match r_body response with inr s => Streaming s | inl _ => Finished end)) as Hf.
  { unfold foreign. destruct (r_body response) as [b'|s]; cbn; [done|]. specialize (Hs s eq_refl).
    destruct (ss_generation s) as [g|]; cbn; [|done]. rewrite (Hs g eq_refl). congruence. }
  destruct recorded as [rec|]; injection H as <-; [|by apply leaves_alone_set].
  destruct (Hrec rec eq_refl) as (g & u & at_ & Hg & Hr).
  apply (record_at_other _ _ _ _ _ p) in Hr as [Hm Hw]; [|congruence].
  change (with_store ?x (set_task i ?t w)) with (set_task i t (with_store x w)).
  apply leaves_alone_intro; [by apply with_store_slice|done|done|by apply inserts_foreign|].
  intros m. cbn. apply decisions_enqueues.
Qed.

Lemma poll_leaves p i s w r :
  poll i s w = Done r -> (gc_profile <$> ss_generation s) <> Some p -> leaves_alone p w r.
Proof.
  unfold poll. intros ([polled log] & Hp & ([store ws] & Hrec & H)%bind_Done)%bind_Done Hne.
  apply (stream_poll_every (fun g => gc_profile g <> p)) in Hp as [Hg Hlog]; [|done|done|].
  2:{ intros g Eg. rewrite Eg in Hne. cbn in Hne. congruence. }
  apply (record_events_other p) in Hrec as [Hm Hw]; [|done]. cbn [fst snd] in Hg.
  destruct polled as [[item s']|]; injection H as <-;
    change (with_store store (set_task i ?t w)) with (set_task i t (with_store store w));
    (apply leaves_alone_intro; [by apply with_store_slice|done| |by apply inserts_foreign|]); try done;
    try (intros m; cbn; apply decisions_enqueues).
  unfold foreign. cbn. specialize (Hg item s' eq_refl). destruct (ss_generation s') as [g|]; cbn; [|done].
  intros [= E]. by apply (Hg g).
Qed.

(** A label that is not of profile [p]: not its request, not a step of one of
    its tasks. *)
Definition label_foreign (p : RoutingProfile) (l : Label) (w : World) : Prop :=
  match l with
  | Arrive prof _ _ => prof <> p
  | _ => forall i t, label_task l = Some i -> w_tasks w !! i = Some t -> foreign p t
  end.

Lemma step_leaves_alone p l w r :
  world_step proxy ledger l w = Some (Done r) -> label_foreign p l w -> leaves_alone p w r.
Proof.
  intros H Hl. destruct l as [prof endpoint body|i|i|i send clock|i|i|i d now|d prof query|recovered|];
    cbn [world_step label_foreign label_task] in H, Hl;
    try (destruct (w_tasks w !! i) as [t|] eqn:Ht; [|done]; specialize (Hl i t eq_refl Ht)).
  - injection H as H. by eapply arrive_leaves.
  - destruct t as [endpoint stream pr [|d todo] read| | | |]; try done.
    injection H as H. apply bind_Done in H as (c & _ & [= <-]). by apply leaves_alone_set.
  - destruct t as [endpoint stream pr [|d todo] read| | | |]; try done. injection H as H.
    eapply decide_leaves; [exact H|]. unfold foreign in Hl. cbn in Hl. congruence.
  - destruct t as [|endpoint stream d request| | |]; try done. injection H as H.
    eapply receive_leaves; [exact H|]. unfold foreign in Hl. cbn in Hl. congruence.
  - destruct t as [| |s| |]; try done. injection H as H. by eapply poll_leaves.
  - destruct t; try done; injection H as <-; by apply leaves_alone_set.
  - destruct t as [| | |g|]; try done. unfold run_insert in H.
    pose proof (deliver_insert_other p d now g (w_table w)) as Hd.
    destruct (deliver d (w_table w) (execute_insert now g)) as [x tbl]. cbn in Hd.
    apply bind_Some in H as (w1 & (db & _ & [= <-])%bind_Some & [= <-]). apply leaves_alone_set; try done.
    split; cbn; [done|done|]. apply Hd. unfold foreign in Hl. cbn in Hl. congruence.
  - unfold lookup_step in H. destruct query as [id|].
    2:{ injection H as <-. by apply leaves_alone_same. }
    destruct (str_is_empty (trim id)).
    + injection H as H. apply bind_Done in H as ([a b] & _ & [= <-]). by apply leaves_alone_same.
    + apply bind_Some in H as (db & _ & [= H]). apply bind_Done in H as ([a b] & _ & [= <-]).
      by apply leaves_alone_same.
  - apply bind_Some in H as (db & _ & [= <-]). by apply leaves_alone_same.
  - apply bind_Some in H as (db & _ & [= <-]). by apply leaves_alone_same.
Qed.

(** ** Interleavings in which a profile rests *)

(** No request of [p] arrives, and none of its tasks takes a step. *)
Definition rests (p : RoutingProfile) (ls : list Label) (w : World) : Prop :=
  (forall prof endpoint body, Arrive prof endpoint body ∈ ls -> prof <> p) /\
  (forall i t, w_tasks w !! i = Some t -> task_profile t = Some p -> forall l, l ∈ ls -> label_task l <> Some i).

Lemma rests_head p l ls w : rests p (l :: ls) w -> label_foreign p l w.
Proof.
  intros [Ha Ht]. destruct l; cbn [label_foreign]; try (intros j t Hj Hjt E; by eapply Ht; [exact Hjt|exact E|by left|]).
  eapply Ha. by left.
Qed.

Lemma rests_tail p l ls w w' events :
  rests p (l :: ls) w -> leaves_alone p w (w', events) -> rests p ls w'.
Proof.
  intros [Ha Ht] [_ Hk _]. cbn in Hk. split; [intros prof endpoint body Hin; eapply Ha; by right|].
  intros i t Hi Hp l' Hl'. eapply Ht; [by apply Hk|done|by right].
Qed.

Lemma rests_skip p l ls w : rests p (l :: ls) w -> rests p ls w.
Proof.
  intros [Ha Ht]. split; [intros prof endpoint body Hin; eapply Ha; by right|].
  intros i t Hi Hp l' Hl'. eapply Ht; [done|done|by right].
Qed.

(** C13: Profiles do not touch each other: in any interleaving in which a
    profile rests (none of its requests arrives, its tasks in flight wait),
    whatever the other profile's requests, streams, inserts and lookups and the
    supervisor do, the profile's rolling windows, measurements and ledger rows
    are unchanged, no decision is made on its models, and it has no new task. *)
Theorem profiles_isolated p ls w w' events :
  rests p ls w -> run proxy ledger ls w = Done (w', events) -> leaves_alone p w (w', events).
Proof.
  revert w events. induction ls as [|l ls IH]; intros w events Hr; cbn [run].
  - intros [= <- <-]. by apply leaves_alone_same.
  - destruct (world_step proxy ledger l w) as [stepped|] eqn:E; [|by apply IH, (rests_skip p l)].
    intros ([w1 e1] & -> & ([w2 e2] & Hrun & [= <- <-])%bind_Done)%bind_Done.
    pose proof (step_leaves_alone p l w (w1, e1) E (rests_head p l ls w Hr)) as H1.
    pose proof (IH w1 e2 (rests_tail p l ls w w1 e1 Hr H1) Hrun) as [Hs2 Ht2 Hd2].
    destruct H1 as [Hs1 Ht1 Hd1]. cbn [fst snd] in *. split; cbn [fst snd]; [by etrans| |].
    + intros i t Hi Hp. apply Ht1; [|done]. by apply Ht2.
    + intros m. by rewrite decisions_app, Hd1, Hd2.
Qed.

(** ** What a profile's own requests are answered *)

(** Two computations with related results, or the same panic. *)
Definition same_outcome {A} (rel : A -> A -> Prop) (o o' : outcome A) : Prop :=
  match o, o' with
  | Done a, Done a' => rel a a'
  | Panic m, Panic m' => m = m'
  | _, _ => False
  end.

Lemma same_outcome_bind {A B} (ra : A -> A -> Prop) (rb : B -> B -> Prop) o o' (f f' : A -> outcome B) :
  same_outcome ra o o' -> (forall a a', ra a a' -> same_outcome rb (f a) (f' a')) ->
  same_outcome rb (o ≫= f) (o' ≫= f').
Proof. destruct o, o'; cbn; [|done..|by intros ->]. intros Ha Hf. by apply Hf. Qed.

Lemma same_outcome_refl {A} (rel : A -> A -> Prop) `{!Reflexive rel} o : same_outcome rel o o.
Proof. by destruct o; cbn. Qed.

(** A shared head. *)
Lemma same_outcome_head {A B} (rb : B -> B -> Prop) (o : outcome A) (f f' : A -> outcome B) :
  (forall a, same_outcome rb (f a) (f' a)) -> same_outcome rb (o ≫= f) (o ≫= f').
Proof. intros Hf. eapply (same_outcome_bind eq); [apply (same_outcome_refl eq)|]. by intros a a' <-. Qed.

(** Routing states with the same slice and the same generator. *)
Definition same_routing (p : RoutingProfile) (s s' : RoutingState) : Prop := same_windows p s s' /\ rng s' = rng s.

Lemma outcome_map_ext {A B} (f g : A -> outcome B) l : (forall x, f x = g x) -> outcome_map f l = outcome_map g l.
Proof. intros H. induction l as [|x l IH]; cbn; [done|]. by rewrite H, IH. Qed.

Lemma candidate_of_own p store store' m d :
  same_measurements p store store' -> candidate_of store' p m d = candidate_of store p m d.
Proof. intros Hs. unfold candidate_of. by rewrite Hs. Qed.

Lemma decide_route_own policy st st' key pref cs :
  same_routing key.1 st st' ->
  same_outcome (fun x x' => x'.1 = x.1 /\ same_routing key.1 x.2 x'.2)
    (decide_route policy st key pref cs) (decide_route policy st' key pref cs).
Proof.
  intros [Hw Hr]. destruct key as [p m]. unfold decide_route, tracker_for. cbn [fst snd] in *. rewrite (Hw m), Hr.
  assert (forall t g, same_routing p {| shares := <[(p, m) := t]> (shares st); rng := g |}
                                     {| shares := <[(p, m) := t]> (shares st'); rng := g |}) as Hs.
  { intros t g. split; [|done]. intros m'. cbn. destruct (decide (m' = m)) as [->|Hne];
      [by rewrite !lookup_insert_eq|]. rewrite !lookup_insert_ne by congruence. apply Hw. }
  apply same_outcome_head. intros t. apply same_outcome_head. intros [[c|] g]; [|split; [done|apply Hs]].
  apply same_outcome_head. intros fbs. apply same_outcome_head. intros t'. split; [done|apply Hs].
Qed.

Lemma route_own policy store store' st st' p endpoint request :
  same_measurements p store store' -> same_routing p st st' ->
  same_outcome (fun x x' => ro_result x' = ro_result x /\ ro_request x' = ro_request x /\
                            same_routing p (ro_state x) (ro_state x'))
    (route_for_endpoint policy store st p endpoint request) (route_for_endpoint policy store' st' p endpoint request).
Proof.
  intros Hm Hr. unfold route_for_endpoint.
  destruct (reject_provider_overrides request) as [u|]; [|done].
  destruct (parse_top_p request) as [top|]; [|done]. destruct (parse_stream request) as [stream|]; [|done].
  apply same_outcome_head. intros [[parsed r]|e]; [|done].
  destruct (routes policy !! _) as [ds|]; [|done].
  rewrite (outcome_map_ext (candidate_of store' p (canonical_model parsed)) (candidate_of store p (canonical_model parsed)))
    by (intros d; by apply candidate_of_own).
  apply same_outcome_head. intros [|c cs]; [done|].
  eapply same_outcome_bind; [by apply (decide_route_own policy st st' (p, canonical_model parsed))|].
  intros [x s1] [x' s2] [E Hs]. cbn in E, Hs. subst x'. destruct x as [[sel fbs]|]; [|done].
  apply same_outcome_head. intros req. done.
Qed.

(** What two recordings share: the row and the samples, and the slice. *)
Definition same_recorded (p : RoutingProfile) (store store' : MeasurementStore) (r r' : option Recorded) : Prop :=
  match r, r' with
  | Some r, Some r' => re_write r' = re_write r /\ re_segments r' = re_segments r /\
                       same_measurements p (re_store r) (re_store r')
  | None, None => same_measurements p store store'
  | _, _ => False
  end.

Lemma record_measurement_own p g u at_ store store' :
  gc_profile g = p -> same_measurements p store store' ->
  same_measurements p (record_measurement g u at_ store) (record_measurement g u at_ store').
Proof.
  intros <- Hs provider m. unfold record_measurement. destruct (measured g u at_) as [o|]; [|apply Hs].
  destruct (observe_for store _ _ _ o) as [[x s1]|[]] eqn:E.
  - destruct (observe_for store' _ _ _ o) as [[x' s2]|[]] eqn:E'.
    2:{ apply observe_for_Err in E'. apply (observe_for_Err store (gc_profile g) (gc_provider_id g) (gc_canonical_slug g)) in E'.
        congruence. }
    destruct (decide ((gc_profile g, provider, m) = (gc_profile g, gc_provider_id g, gc_canonical_slug g))) as [Eq|Hne].
    + injection Eq as -> ->. apply observe_for_get in E as [-> ->], E' as [-> ->]. by rewrite Hs.
    + rewrite (observe_for_get_other _ _ _ _ _ _ _ _ _ _ E Hne), (observe_for_get_other _ _ _ _ _ _ _ _ _ _ E' Hne).
      apply Hs.
  - apply observe_for_Err in E. apply (observe_for_Err store' (gc_profile g) (gc_provider_id g) (gc_canonical_slug g)) in E.
    rewrite E. apply Hs.
Qed.

Definition same_responded (p : RoutingProfile) (store store' : MeasurementStore) (x x' : Responded) : Prop :=
  x'.1 = x.1 /\ same_recorded p store store' x.2 x'.2.

Lemma unrecorded_own p store store' o :
  same_measurements p store store' -> same_outcome (same_responded p store store') (unrecorded o) (unrecorded o).
Proof. intros Hs. apply same_outcome_head. intros r. by split. Qed.

Lemma respond_own p store store' endpoint clock stream d upstream :
  same_measurements p store store' ->
  same_outcome (same_responded p store store')
    (respond proxy store p endpoint clock stream d upstream) (respond proxy store' p endpoint clock stream d upstream).
Proof.
  intros Hs. unfold respond. destruct (is_success _).
  2:{ destruct (response_uses_public_alias _ _ _); [by apply unrecorded_own|done]. }
  destruct (served_provider_from_headers _) as [served|]; [|by apply unrecorded_own].
  destruct (stream && _); [by apply unrecorded_own|].
  unfold respond_body. destruct (collect_body _) as [body|]; [|done].
  assert (forall alias b, same_outcome (same_responded p store store')
    (respond_costed proxy store p endpoint clock d upstream alias served b)
    (respond_costed proxy store' p endpoint clock d upstream alias served b)) as Hcosted.
  { intros alias b. unfold respond_costed. apply same_outcome_head. intros [costed|e]; [|by apply unrecorded_own].
    unfold record_at. eapply (same_outcome_bind (fun r r' => same_recorded p store store' (Some r) (Some r'))).
    - apply same_outcome_head. intros write. cbn. split_and!; [done..|]. by apply record_measurement_own.
    - intros r r' Hr. by split. }
  destruct (response_uses_public_alias _ _ _); [|apply Hcosted].
  destruct (sanitize_aliased_json_response _ _); [apply Hcosted|by apply unrecorded_own].
Qed.

(** What a profile can see of a handled request. *)
Definition same_forwarded (p : RoutingProfile) (store store' : MeasurementStore) (out out' : ForwardOutcome) : Prop :=
  fo_response out' = fo_response out /\ fo_sent out' = fo_sent out /\
  same_routing p (fo_state out) (fo_state out') /\
  same_recorded p store store' (fo_recorded out) (fo_recorded out').

Lemma forward_own sidecar p store store' st st' endpoint clock body :
  same_measurements p store store' -> same_routing p st st' ->
  same_outcome (same_forwarded p store store')
    (forward sidecar proxy store st p endpoint clock body) (forward sidecar proxy store' st' p endpoint clock body).
Proof.
  intros Hm Hr. unfold forward. destruct (from_slice body) as [request|]; [|done].
  eapply same_outcome_bind; [by apply (route_own _ store store' st st')|].
  intros x x' (E & Eq & Hs). rewrite E, Eq. destruct (ro_result x) as [d|e].
  2:{ destruct (route_error_response e). by split_and!. }
  apply same_outcome_head. intros b. apply same_outcome_head. intros [[upstream|] sent]; [|by split_and!].
  eapply same_outcome_bind; [by apply respond_own|]. intros [r rec] [r' rec'] [Er Hrec]. cbn in Er, Hrec. subst r'.
  by split_and!.
Qed.

Lemma select_own p id t t' : same_rows p t t' -> execute_select id p t' = execute_select id p t.
Proof.
  intros Hr. specialize (Hr id). unfold execute_select, owned in *. destruct (t !! id) as [r|], (t' !! id) as [r'|]; cbn in *;
    repeat case_match; congruence.
Qed.

(** C14: A profile's answers are its own: a completion request's response, the
    bodies it sends the sidecar, the row and samples it records and what it
    leaves of its profile's slice are determined by that slice and by the
    random generator, and a generation lookup's answer by the profile's rows:
    in two services that differ only in other profiles' windows, measurements
    and rows, the same request returns the same (or fails with the same panic). *)
Theorem answers_own_profile sidecar p w w' endpoint clock body d query :
  same_slice p w w' -> rng (w_routing w') = rng (w_routing w) ->
  health (w_database w') = health (w_database w) ->
  same_outcome (same_forwarded p (w_store w) (w_store w'))
    (forward sidecar proxy (w_store w) (w_routing w) p endpoint clock body)
    (forward sidecar proxy (w_store w') (w_routing w') p endpoint clock body) /\
  same_outcome (fun x x' => x'.1 = x.1 /\ same_rows p (table x.2) (table x'.2) /\
                            database_health x'.2 = database_health x.2)
    (get_generation ledger d p query (ledger_of w)) (get_generation ledger d p query (ledger_of w')).
Proof.
  intros [Hw Hm Hr] Hg Hh. split; [by apply forward_own|].
  unfold get_generation, fetch, ledger_of. cbn [table database_health]. rewrite Hh.
  destruct query as [id|]; [|done]. destruct (str_is_empty (trim id)); [done|].
  rewrite (select_own p id _ _ Hr). destruct d; [|done..].
  destruct (execute_select id p (w_table w)) as [g|]; [|done].
  apply same_outcome_head. by intros r.
Qed.
End Isolation.

(** ** Witnesses *)

(** The race of [ServiceProps] is all of the production profile. *)
Lemma race_rests : rests Beta race open_world.
Proof.
  split.
  - intros prof endpoint body Hin. unfold race in Hin. set_solver.
  - intros i t Hi. by destruct i.
Qed.

Lemma profiles_isolated_witness : leaves_alone Beta open_world (raced.1, raced.2).
Proof.
  apply (profiles_isolated hidden_proxy.1 ledger_with_health Beta race open_world).
  - exact race_rests.
  - exact raced_Done.
Defined.

(** A world with a beta row more. *)
Definition written_world : World := with_database (table written) (w_database open_world) open_world.

Lemma written_unseen : same_slice Production open_world written_world.
Proof.
  split; [done|done|]. intros id. unfold owned. cbn [w_table written_world with_database open_world].
  rewrite lookup_empty. cbn.
  destruct (decide (id = "gen-1")) as [->|Hne]; [by rewrite written_lookup|].
  assert (table written = <["gen-1" := written_row]> ∅) as -> by vm_reflexivity.
  by rewrite lookup_insert_ne, lookup_empty by done.
Qed.

Lemma answers_own_profile_witness :
  same_outcome (same_forwarded Production (w_store open_world) (w_store written_world))
    (forward answering_sidecar hidden_proxy.1 (w_store open_world) (w_routing open_world) Production Chat sample_clock chat_body)
    (forward answering_sidecar hidden_proxy.1 (w_store written_world) (w_routing written_world) Production Chat sample_clock chat_body) /\
  same_outcome (fun x x' => x'.1 = x.1 /\ same_rows Production (table x.2) (table x'.2) /\
                            database_health x'.2 = database_health x.2)
    (get_generation ledger_with_health Answered Production (Some "gen-1") (ledger_of open_world))
    (get_generation ledger_with_health Answered Production (Some "gen-1") (ledger_of written_world)).
Proof.
  apply (answers_own_profile hidden_proxy.1 ledger_with_health answering_sidecar Production open_world written_world).
  - exact written_unseen.
  - reflexivity.
  - reflexivity.
Defined.
