(* ===== verification/SidecarConfig.v ===== *)
(** [src/src/sidecar_config.rs]: the registry compiled into the AgentGateway
    sidecar's configuration: one route per enabled mapping, which sets the
    served-provider header, one failover model per profile and slug, and the
    retry policy.  The YAML printer is a parameter. *)

From Stdlib Require Import ZArith.
From S2P Require Import Prelude RustDecimal RoutingProfile Registry.

#[local] Open Scope Z_scope.

Inductive IpAddr : Type :=
| V4 (a b c d : Z)
| V6 (segments : list Z).

Record SocketAddr : Type := { ip : IpAddr; port : Z }.

Record SidecarConfigOptions : Type := {
  llm_port : Z;
  o_admin_addr : option SocketAddr;
  o_stats_addr : option SocketAddr;
  o_readiness_addr : SocketAddr;
  o_enable_ipv6 : bool
}.

Definition options_default : SidecarConfigOptions :=
  {| llm_port := 4000; o_admin_addr := None; o_stats_addr := None;
     o_readiness_addr := {| ip := V4 127 0 0 1; port := 19001 |}; o_enable_ipv6 := false |}.

Record RuntimeConfig : Type := {
  admin_addr : option SocketAddr;
  stats_addr : option SocketAddr;
  readiness_addr : SocketAddr;
  enable_ipv6 : bool
}.

Record HeaderModifier : Type := { hm_set : list (string * string) }.

Record ModelParams : Type := { mp_base_url : string; mp_model : string; mp_api_key : string }.
Record ModelOverrides : Type := { mo_model : string }.
Record Eviction : Type := { consecutive_failures : Z; duration : string }.
Record Health : Type := { eviction : Eviction }.

Record ModelRoute : Type := {
  mr_name : string;
  mr_provider : string;
  mr_params : ModelParams;
  mr_passthrough : string;
  mr_overrides : ModelOverrides;
  mr_response_headers : HeaderModifier;
  mr_health : Health
}.

Record VirtualTarget : Type := { vt_model : string; vt_priority : Z }.
Record Failover : Type := { targets : list VirtualTarget }.
Record VirtualRouting : Type := { failover : Failover }.
Record VirtualModel : Type := { vm_name : string; vm_routing : VirtualRouting }.

Record ResourceName : Type := { rn_name : string; rn_namespace : string }.
Record PolicyTarget : Type := { pt_route : ResourceName }.
Record RetryPolicy : Type := { attempts : Z; codes : list Z; condition : string }.
Record RoutePolicy : Type := { retry : RetryPolicy }.

Record TargetedRoutePolicy : Type := {
  tp_name : ResourceName;
  tp_target : PolicyTarget;
  tp_policy : RoutePolicy
}.

Definition llm_retry : TargetedRoutePolicy :=
  {| tp_name := {| rn_name := "llm-retry"; rn_namespace := "internal" |};
     tp_target := {| pt_route := {| rn_name := "llm:request"; rn_namespace := "internal" |} |};
     tp_policy := {| retry := {| attempts := 2; codes := [429];
                                 condition := "response.code >= 500 && response.code < 600" |} |} |}.

Record LlmConfig : Type := {
  llm_config_port : Z;
  llm_models : list ModelRoute;
  virtual_models : list VirtualModel
}.

Record AgentGatewayConfig : Type := {
  ag_config : RuntimeConfig;
  llm : LlmConfig;
  policies : list TargetedRoutePolicy
}.

Section SidecarConfig.
Context {D : RustDecimal}.

Definition ModelRoute_new (p : Provider) (m : ModelMapping) : ModelRoute :=
  {| mr_name := id p +:+ "/" +:+ slug m; mr_provider := "openAI";
     mr_params := {| mp_base_url := base_url p; mp_model := provider_model_id m;
                     mp_api_key := "$" +:+ secret_env p |};
     mr_passthrough := "detect"; mr_overrides := {| mo_model := provider_model_id m |};
     mr_response_headers := {| hm_set := [(SERVED_PROVIDER_HEADER, id p)] |};
     mr_health := {| eviction := {| consecutive_failures := 1; duration := "60s" |} |} |}.

Definition TargetKey : Type := RoutingProfile * string.
Definition compare_target_key : TargetKey -> TargetKey -> comparison :=
  then_with (compare_on fst profile_cmp) (compare_on snd String.compare).

(** [entry(key).or_default().push(target)]. *)
Definition push_target (t : VirtualTarget) (m : list (TargetKey * list VirtualTarget)) (key : TargetKey)
    : list (TargetKey * list VirtualTarget) :=
  bt_insert compare_target_key key (default [] (bt_get compare_target_key key m) ++ [t]) m.

(** The loop's state: the routes and the targets so far. *)
Definition add_mapping_route (p : Provider)
    (acc : list ModelRoute * list (TargetKey * list VirtualTarget)) (m : ModelMapping)
    : list ModelRoute * list (TargetKey * list VirtualTarget) :=
  let route := ModelRoute_new p m in
  (acc.1 ++ [route],
   foldl (push_target {| vt_model := mr_name route; vt_priority := priority p |}) acc.2
     ((fun profile => (profile, slug m)) <$> profiles_iter (profiles p))).

Definition add_provider_routes (acc : list ModelRoute * list (TargetKey * list VirtualTarget))
    (p : Provider) : list ModelRoute * list (TargetKey * list VirtualTarget) :=
  foldl (add_mapping_route p) acc (models p).

Definition virtual_model (e : TargetKey * list VirtualTarget) : VirtualModel :=
  {| vm_name := sidecar_alias e.1.1 e.1.2;
     vm_routing := {| failover := {| targets := sort_by (compare_on vt_priority Z.compare) e.2 |} |} |}.

Definition build_config (r : Registry) (o : SidecarConfigOptions)
    : result RegistryValidationError AgentGatewayConfig :=
  validate r ≫= fun _ =>
  let '(routes, targets) := foldl add_provider_routes ([], []) (enabled_providers r) in
  Ok {| ag_config := {| admin_addr := o_admin_addr o; stats_addr := o_stats_addr o;
                        readiness_addr := o_readiness_addr o; enable_ipv6 := o_enable_ipv6 o |};
        llm := {| llm_config_port := llm_port o; llm_models := routes;
                  virtual_models := virtual_model <$> targets |};
        policies := [llm_retry] |}.

Inductive SidecarConfigError : Type :=
| RegistryError (e : RegistryValidationError)
| SerializeError.

Definition compile (yaml : AgentGatewayConfig -> option (list Byte.byte)) (r : Registry)
    (o : SidecarConfigOptions) : result SidecarConfigError (list Byte.byte) :=
  map_err RegistryError (build_config r o) ≫= fun config => ok_or SerializeError (yaml config).

(** ** Lemmas *)

(** The routes in registry order, and a key's targets in the same order. *)
Definition registry_model_routes (r : Registry) : list ModelRoute :=
  enabled_providers r ≫= fun p => ModelRoute_new p <$> models p.

Definition target_of (p : Provider) (m : ModelMapping) : VirtualTarget :=
  {| vt_model := id p +:+ "/" +:+ slug m; vt_priority := priority p |}.

Definition provider_targets (p : Provider) (ms : list ModelMapping) (key : TargetKey) : list VirtualTarget :=
  target_of p <$> filter_b (fun m => bool_decide (key.1 ∈ profiles p) && String.eqb (slug m) key.2) ms.

Definition registry_targets (r : Registry) (key : TargetKey) : list VirtualTarget :=
  enabled_providers r ≫= fun p => provider_targets p (models p) key.

Lemma compare_target_key_eq a b : compare_target_key a b = Eq <-> a = b.
Proof.
  destruct a as [p s], b as [q t]. unfold compare_target_key, then_with, compare_on. cbn. split.
  - destruct (profile_cmp p q) eqn:E; try done. apply profile_cmp_eq in E as ->.
    by intros ->%string_compare_eq.
  - intros [= <- <-]. rewrite (proj2 (profile_cmp_eq p p) eq_refl). by apply string_compare_eq.
Qed.

#[export] Instance compare_target_key_laws : CmpLaws compare_target_key.
Proof. apply then_with_laws; apply compare_on_laws; [apply profile_cmp_laws|apply string_compare_laws]. Qed.

Notation targets_at key m := (default [] (bt_get compare_target_key key m)).

Lemma push_target_at t m key key' :
  targets_at key' (push_target t m key) = targets_at key' m ++ (if bool_decide (key = key') then [t] else []).
Proof.
  unfold push_target. case_bool_decide as E.
  - subst key'. by rewrite (bt_get_insert_eq _ compare_target_key_eq).
  - by rewrite (bt_get_insert_ne _ compare_target_key_eq), app_nil_r.
Qed.

Lemma push_targets_at t keys m key :
  NoDup keys ->
  targets_at key (foldl (push_target t) m keys) = targets_at key m ++ (if bool_decide (key ∈ keys) then [t] else []).
Proof.
  revert m. induction keys as [|k keys IH]; intros m; cbn [foldl].
  - intros _. by rewrite app_nil_r.
  - intros [Hk Hnd]%NoDup_cons. rewrite (IH _ Hnd), push_target_at, <- app_assoc. f_equal.
    destruct (decide (k = key)) as [->|Hne].
    + rewrite (bool_decide_eq_true_2 (key = key)), (bool_decide_eq_true_2 (key ∈ key :: keys)) by (done || left).
      by rewrite bool_decide_eq_false_2.
    + rewrite (bool_decide_eq_false_2 (k = key)) by done. cbn.
      rewrite (bool_decide_ext (key ∈ k :: keys) (key ∈ keys)); [done|]. rewrite elem_of_cons. naive_solver.
Qed.

Lemma mapping_targets_at p m acc key :
  targets_at key (add_mapping_route p acc m).2 = targets_at key acc.2 ++ provider_targets p [m] key.
Proof.
  unfold add_mapping_route. cbn [snd]. rewrite push_targets_at.
  2:{ apply NoDup_fmap_2; [by intros ?? [=]|apply profiles_iter_NoDup]. }
  f_equal. unfold provider_targets. cbn [filter_b fmap list_fmap].
  destruct key as [q s]. cbn [fst snd].
  rewrite (bool_decide_ext _ (q ∈ profiles p /\ slug m = s)).
  2:{ rewrite list_elem_of_fmap. setoid_rewrite profiles_iter_spec. naive_solver. }
  rewrite bool_decide_and. destruct (bool_decide (q ∈ profiles p)); cbn; [|done].
  destruct (String.eqb_spec (slug m) s); [by rewrite bool_decide_eq_true_2|by rewrite bool_decide_eq_false_2].
Qed.

Lemma provider_targets_cons p m ms key :
  provider_targets p (m :: ms) key = provider_targets p [m] key ++ provider_targets p ms key.
Proof. unfold provider_targets. cbn. by destruct (_ && _). Qed.

Lemma provider_routes_at p ms acc key :
  let acc' := foldl (add_mapping_route p) acc ms in
  acc'.1 = acc.1 ++ (ModelRoute_new p <$> ms) /\
  targets_at key acc'.2 = targets_at key acc.2 ++ provider_targets p ms key.
Proof.
  revert acc. induction ms as [|m ms IH]; intros acc; cbn [foldl].
  - unfold provider_targets. cbn. by rewrite !app_nil_r.
  - destruct (IH (add_mapping_route p acc m)) as [-> ->].
    rewrite mapping_targets_at, (provider_targets_cons p m ms), <- !app_assoc.
    split; [|done]. cbn. by rewrite <- app_assoc.
Qed.

Lemma all_routes_at ps acc key :
  let acc' := foldl add_provider_routes acc ps in
  acc'.1 = acc.1 ++ (ps ≫= fun p => ModelRoute_new p <$> models p) /\
  targets_at key acc'.2 = targets_at key acc.2 ++ (ps ≫= fun p => provider_targets p (models p) key).
Proof.
  revert acc. induction ps as [|p ps IH]; intros acc; cbn [foldl].
  - cbn. by rewrite !app_nil_r.
  - destruct (IH (add_provider_routes acc p)) as [-> ->]. unfold add_provider_routes.
    destruct (provider_routes_at p (models p) acc key) as [-> ->]. cbn. by rewrite <- !app_assoc.
Qed.

Lemma push_targets_shape t keys m :
  bt_sorted compare_target_key m -> (forall k, bt_get compare_target_key k m <> Some []) ->
  bt_sorted compare_target_key (foldl (push_target t) m keys) /\
  (forall k, bt_get compare_target_key k (foldl (push_target t) m keys) <> Some []).
Proof.
  revert m. induction keys as [|k keys IH]; intros m Hs Hne; [done|]. cbn [foldl]. apply IH.
  - by apply (bt_insert_sorted _ compare_target_key_eq).
  - intros k'. unfold push_target. destruct (decide (k = k')) as [<-|].
    + rewrite (bt_get_insert_eq _ compare_target_key_eq). intros [= E]. by apply app_nil in E as [_ ?].
    + by rewrite (bt_get_insert_ne _ compare_target_key_eq).
Qed.

Lemma all_routes_shape ps acc :
  bt_sorted compare_target_key acc.2 -> (forall k, bt_get compare_target_key k acc.2 <> Some []) ->
  let acc' := foldl add_provider_routes acc ps in
  bt_sorted compare_target_key acc'.2 /\ (forall k, bt_get compare_target_key k acc'.2 <> Some []).
Proof.
  revert acc. induction ps as [|p ps IH]; intros acc Hs Hne; [done|]. cbn [foldl].
  assert (forall ms acc, bt_sorted compare_target_key acc.2 ->
    (forall k, bt_get compare_target_key k acc.2 <> Some []) ->
    bt_sorted compare_target_key (foldl (add_mapping_route p) acc ms).2 /\
    (forall k, bt_get compare_target_key k (foldl (add_mapping_route p) acc ms).2 <> Some [])) as H.
  { clear. intros ms. induction ms as [|m ms IH]; intros acc Hs Hne; [done|]. cbn [foldl].
    destruct (push_targets_shape {| vt_model := mr_name (ModelRoute_new p m); vt_priority := priority p |}
      ((fun profile => (profile, slug m)) <$> profiles_iter (profiles p)) acc.2 Hs Hne) as [H1 H2].
    by apply IH. }
  destruct (H (models p) acc Hs Hne) as [H1 H2]. by apply IH.
Qed.
End SidecarConfig.
