(* ===== verification/SidecarProps.v ===== *)
(** The properties of the generated sidecar configuration
    ([sidecar_config.rs]): it has a route, attributed to the right provider,
    for everything the router may send, and exactly the registry's failover
    models. *)

From Stdlib Require Import QArith ZArith.
From S2P Require Import Prelude Float64 RustDecimal RoutingProfile Registry Json Preference Measurements.
From S2P Require Import Share Select SelectSpec Config Routing RoutingSpec SidecarConfig Fixtures RoutingProps.

#[local] Open Scope Z_scope.

Definition no_slash (s : string) : bool :=
  forallb (fun c => negb (Ascii.eqb c "/")) (list_ascii_of_string s).

Lemma qualified_inj a b c d :
  no_slash a = true -> no_slash c = true -> a +:+ "/" +:+ b = c +:+ "/" +:+ d -> a = c /\ b = d.
Proof.
  assert (forall s, "" +:+ s = s) as E0 by done. assert (forall s, "/" +:+ s = String "/" s) as E1 by done.
  rewrite !E1. revert c. induction a as [|x a IH]; intros [|y c] Ha Hc; rewrite ?str_app_cons, ?E0.
  - by intros [= ->].
  - intros [= <- _]. by cbn in Hc.
  - intros [= -> _]. by cbn in Ha.
  - intros [= <- E]. cbn in Ha, Hc. apply andb_true_iff in Ha as [_ Ha], Hc as [_ Hc].
    by destruct (IH c Ha Hc E) as [-> ->].
Qed.

Section Props.
Context {D : RustDecimal} {R : RandCrate}.

Lemma build_config_Ok r o cfg :
  build_config r o = Ok cfg ->
  validate r = Ok tt /\ llm_models (llm cfg) = registry_model_routes r /\
  exists targets, virtual_models (llm cfg) = virtual_model <$> targets /\
    bt_sorted compare_target_key targets /\
    (forall key, bt_get compare_target_key key targets <> Some []) /\
    (forall key, default [] (bt_get compare_target_key key targets) = registry_targets r key).
Proof.
  unfold build_config. intros (u & Hv & H)%bind_Ok. destruct u. split; [done|].
  destruct (foldl add_provider_routes ([], []) (enabled_providers r)) as [routes targets] eqn:E.
  injection H as <-. cbn [llm llm_models virtual_models].
  pose proof (fun key => all_routes_at (enabled_providers r) ([], []) key) as Hat.
  pose proof (all_routes_shape (enabled_providers r) ([], [])) as Hshape. rewrite E in Hat, Hshape. cbn in *.
  split; [by destruct (Hat (Production, ""))|]. exists targets.
  destruct Hshape as [Hs Hne]; [constructor|done|]. split_and!; try done.
  intros key. by destruct (Hat key).
Qed.

(** The configuration's failover models are exactly the registry's: for
    each profile and slug that an enabled provider maps there is one, under
    the profile's alias, whose targets are all of that slug's provider routes
    in priority order, ties in registry order; there is no other, and no two
    share a name. *)
Theorem failover_models r o cfg :
  build_config r o = Ok cfg ->
  NoDup (vm_name <$> virtual_models (llm cfg)) /\
  (forall vm, vm ∈ virtual_models (llm cfg) <->
     exists profile sl, registry_targets r (profile, sl) <> [] /\ vm_name vm = sidecar_alias profile sl /\
       targets (failover (vm_routing vm)) =
         sort_by (compare_on vt_priority Z.compare) (registry_targets r (profile, sl))).
Proof.
  intros (_ & _ & ts & -> & Hs & Hne & Hat)%build_config_Ok. split.
  - assert (NoDup ts.*1) as Hk.
    { clear -Hs. induction Hs as [|e ts Hs IH Hall]; cbn; [constructor|]. constructor; [|done].
      intros (x & Hx & Hin)%list_elem_of_fmap. rewrite Forall_forall in Hall. specialize (Hall x Hin).
      rewrite Hx, (cmp_refl compare_target_key) in Hall. done. }
    rewrite <- list_fmap_compose.
    assert ((vm_name ∘ virtual_model) <$> ts = (fun k => sidecar_alias k.1 k.2) <$> ts.*1) as ->
      by (rewrite <- list_fmap_compose; done).
    apply NoDup_fmap_2; [|done]. intros [p s] [p' s'] E. cbn in E.
    by apply sidecar_alias_inj in E as [-> ->].
  - intros vm. rewrite list_elem_of_fmap. split.
    + intros ([[p s] t] & -> & Hin). apply (bt_elem_get compare_target_key) in Hin; [|done].
      specialize (Hat (p, s)). rewrite Hin in Hat. cbn in Hat. exists p, s. rewrite <- Hat.
      split_and!; [|done|done]. intros ->. by destruct (Hne (p, s)).
    + intros (p & s & Hr & Hn & Ht). rewrite <- Hat in Hr, Ht.
      destruct (bt_get compare_target_key (p, s) ts) as [t|] eqn:E; [|done].
      apply (bt_get_elem compare_target_key compare_target_key_eq) in E.
      exists ((p, s), t). split; [|done]. destruct vm as [n [[l]]]. cbn in *. by subst.
Qed.

(** A route that calls the endpoint of an enabled provider of this id for its
    model, and marks the response with the provider's id. *)
Definition calls_provider (r : Registry) (provider_id model : string) (mr : ModelRoute) : Prop :=
  mr_response_headers mr = {| hm_set := [(SERVED_PROVIDER_HEADER, provider_id)] |} /\
  exists p m, p ∈ enabled_providers r /\ id p = provider_id /\ m ∈ models p /\ slug m = model /\
    mr_params mr = {| mp_base_url := base_url p; mp_model := provider_model_id m;
                      mp_api_key := "$" +:+ secret_env p |}.

(** No enabled provider's id has a slash. *)
Definition slash_free (r : Registry) : Prop := Forall (fun p => no_slash (id p) = true) (enabled_providers r).

(** The sidecar's route of an attempt: a route of that name calls the provider;
    every one does when no id has a slash. *)
Definition attributed_route (r : Registry) (cfg : AgentGatewayConfig) (provider_id model : string) : Prop :=
  (exists mr, mr ∈ llm_models (llm cfg) /\ mr_name mr = route_name provider_id model /\
     calls_provider r provider_id model mr) /\
  (slash_free r -> forall mr, mr ∈ llm_models (llm cfg) -> mr_name mr = route_name provider_id model ->
     calls_provider r provider_id model mr).

Lemma decision_attributed r o sidecar cfg g policy state0 store state prof endpoint request d request' state' :
  build_config r o = Ok sidecar ->
  from_registry_with_rng r cfg g = Ok (policy, state0) ->
  route_for_endpoint policy store state prof endpoint request =
    Done {| ro_result := Ok d; ro_request := request'; ro_state := state' |} ->
  exists ids, fallback_models d = (fun p => route_name p (decision_model d)) <$> ids /\
    forall p, p ∈ selected_provider d :: ids -> attributed_route r sidecar p (decision_model d).
Proof.
  intros (_ & Hm & _)%build_config_Ok Hr H.
  destruct (decision_serves _ _ _ _ _ _ _ _ _ _ _ _ _ Hr H) as (stream & top & ids & Hids & Hserves).
  exists ids. split; [done|]. intros pid Hpid.
  destruct (Hserves pid Hpid) as (p & m & Hp & He & _ & Hin & Hs & Hid & _).
  assert (p ∈ enabled_providers r) as Hen by by apply elem_of_enabled.
  unfold attributed_route, slash_free. rewrite Hm. unfold registry_model_routes. split.
  - exists (ModelRoute_new p m). split; [|split; [cbn; by rewrite Hid, Hs|]].
    + apply list_elem_of_bind. exists p. split; [by apply list_elem_of_fmap_2|done].
    + split; [cbn; by rewrite Hid|]. by exists p, m.
  - rewrite Forall_forall. intros Hslash mr (q & (m' & -> & Hm')%list_elem_of_fmap & Hq)%list_elem_of_bind Hn. cbn in Hn.
    destruct (qualified_inj (id q) (slug m') pid (decision_model d)) as [Eid Es]; [by apply Hslash| |done|].
    { rewrite <- Hid. by apply Hslash. }
    split; [cbn; by rewrite Eid|]. by exists q, m'.
Qed.

(** Router and sidecar agree: whatever a request is decided to be, the
    configuration compiled from the same registry has a route for the selected
    provider and for every fallback, one that calls that very provider and marks
    the response as served by it; when no provider id contains a slash every
    route of that name does, so costs and measurements go to the provider
    that ran the request. *)
Theorem decision_has_sidecar_route r o sidecar cfg g policy state0 store state prof endpoint request d request' state' :
  build_config r o = Ok sidecar ->
  from_registry_with_rng r cfg g = Ok (policy, state0) ->
  route_for_endpoint policy store state prof endpoint request =
    Done {| ro_result := Ok d; ro_request := request'; ro_state := state' |} ->
  exists ids, fallback_models d = (fun p => route_name p (decision_model d)) <$> ids /\
    forall p, p ∈ selected_provider d :: ids -> attributed_route r sidecar p (decision_model d).
Proof. apply decision_attributed. Qed.

(** Without that condition two providers' routes can share a name. *)
Example ambiguous_route_name : route_name "acme/eu" "chat" = route_name "acme" "eu/chat".
Proof. reflexivity. Qed.
End Props.

(** ** Witnesses *)

Definition compiled : AgentGatewayConfig :=
  match build_config two_providers options_default with
  | Ok c => c
  | Err _ => {| ag_config := {| admin_addr := None; stats_addr := None;
                                readiness_addr := o_readiness_addr options_default; enable_ipv6 := false |};
                llm := {| llm_config_port := 0; llm_models := []; virtual_models := [] |}; policies := [] |}
  end.

Lemma compiled_Ok : build_config two_providers options_default = Ok compiled.
Proof. vm_reflexivity. Qed.

Lemma failover_models_witness :
  NoDup (vm_name <$> virtual_models (llm compiled)) /\
  (forall vm, vm ∈ virtual_models (llm compiled) <->
     exists profile sl, registry_targets two_providers (profile, sl) <> [] /\
       vm_name vm = sidecar_alias profile sl /\
       targets (failover (vm_routing vm)) =
         sort_by (compare_on vt_priority Z.compare) (registry_targets two_providers (profile, sl))).
Proof. exact (failover_models two_providers options_default compiled compiled_Ok). Defined.

Lemma decision_has_sidecar_route_witness :
  exists ids, fallback_models floor_decision = (fun p => route_name p "acme/chat") <$> ids /\
    forall p, p ∈ "bravo" :: ids -> attributed_route two_providers compiled p "acme/chat".
Proof.
  apply (decision_has_sidecar_route two_providers options_default compiled routing_config seed policy2
           (table_of two_providers).2 ∅ state0 Production Chat floor_request floor_decision
           (chat_request "bravo/acme/chat") floor_state compiled_Ok).
  - exact policy2_Ok.
  - exact floor_routed.
Defined.
