(* ===== verification/GatewayAuth.v ===== *)
(** [src/src/gateway_auth.rs] and [compatibility.rs]: the bearer credential that
    selects the routing profile, and the fixed metadata responses.  The
    comparison is the [subtle] crate's. *)

From Stdlib Require Import ZArith Strings.Byte.
From S2P Require Import Prelude RoutingProfile Json.

#[local] Open Scope Z_scope.

(** [ct_eq] on byte slices; documented: true exactly when they are equal. *)
Class ConstantTimeEq : Type := { ct_eq : list byte -> list byte -> bool }.
Class ConstantTimeEqLaws (C : ConstantTimeEq) : Prop := { law_ct_eq a b : ct_eq a b = bool_decide (a = b) }.

Module RefSubtle.
#[global] Instance ct : ConstantTimeEq := {| ct_eq a b := bool_decide (a = b) |}.
#[global] Instance laws : ConstantTimeEqLaws ct.
Proof. by split. Qed.
End RefSubtle.

Record GatewayAuth : Type := { production_key : list byte; beta_key : option (list byte) }.

Definition GatewayAuth_new (expected_key : list byte) : GatewayAuth :=
  {| production_key := expected_key; beta_key := None |}.

Definition with_beta_key (key : list byte) (auth : GatewayAuth) : GatewayAuth :=
  {| production_key := production_key auth; beta_key := Some key |}.

Definition AUTHORIZATION : string := "authorization".

Definition unauthorized : Z * Value :=
  (401, json_object [("error", json_object [("message", JString "unauthorized")])]).

Section Auth.
Context {C : ConstantTimeEq}.

Definition profile_for (auth : GatewayAuth) (provided : list byte) : option RoutingProfile :=
  let production_match := ct_eq (production_key auth) provided in
  let beta_match := is_some_and (fun expected => ct_eq expected provided) (beta_key auth) in
  match production_match, beta_match with
  | true, false => Some Production
  | false, true => Some Beta
  | _, _ => None
  end.

Definition presented_profile (auth : GatewayAuth) (headers : HeaderMap) : option RoutingProfile :=
  header_get AUTHORIZATION headers ≫= fun value =>
  header_to_str value ≫= fun value =>
  strip_prefix "Bearer " value ≫= fun provided => profile_for auth (list_byte_of_string provided).

(** [next] runs the protected route with the profile in the request's
    extensions; [deny] renders a response. *)
Definition authorize {Resp : Type} (auth : GatewayAuth) (headers : HeaderMap)
    (next : RoutingProfile -> Resp) (deny : Z * Value -> Resp) : Resp :=
  match presented_profile auth headers with
  | Some profile => next profile
  | None => deny unauthorized
  end.
End Auth.

(** ** Fixed responses *)

Definition get_auth_key : Value :=
  json_object [("data", json_object [("label", JString "seren-router"); ("limit", Null)])].

Definition get_credits : Value :=
  json_object [("data", json_object [("total_credits", Number "0"); ("total_usage", Number "0")])].

(** ** Which credential opens which profile *)

Section Facts.
Context {C : ConstantTimeEq} {L : ConstantTimeEqLaws C}.

Lemma profile_for_spec auth k :
  (profile_for auth k = Some Production <-> k = production_key auth /\ beta_key auth <> Some k) /\
  (profile_for auth k = Some Beta <-> beta_key auth = Some k /\ k <> production_key auth).
Proof.
  unfold profile_for. destruct (beta_key auth) as [b|]; cbn; rewrite ?law_ct_eq;
    repeat case_bool_decide; subst; split; naive_solver.
Qed.

(** The headers present a key of the profile that is not the other's too. *)
Definition opens (auth : GatewayAuth) (headers : HeaderMap) (p : RoutingProfile) : Prop :=
  exists key, header_get AUTHORIZATION headers = Some ("Bearer " +:+ key) /\
    header_to_str ("Bearer " +:+ key) = Some ("Bearer " +:+ key) /\
    match p with
    | Production => list_byte_of_string key = production_key auth /\
                    beta_key auth <> Some (list_byte_of_string key)
    | Beta => beta_key auth = Some (list_byte_of_string key) /\
              list_byte_of_string key <> production_key auth
    end.

Lemma presented_opens auth headers p : presented_profile auth headers = Some p <-> opens auth headers p.
Proof.
  unfold presented_profile, opens. rewrite bind_Some. split.
  - intros (v & Hh & (v' & Hv & (key & Hk & Hp)%bind_Some)%bind_Some).
    assert (v' = v) as -> by (unfold header_to_str in Hv; by destruct (forallb _ _); simplify_eq).
    apply strip_prefix_Some in Hk as ->. exists key. split_and!; [done..|].
    destruct (profile_for_spec auth (list_byte_of_string key)) as [Hprod Hbeta].
    destruct p; [by apply Hprod|by apply Hbeta].
  - intros (key & Hh & Hv & Hp). eexists. split; [exact Hh|]. rewrite Hv. cbn [mbind option_bind].
    rewrite (proj2 (strip_prefix_Some "Bearer " ("Bearer " +:+ key) key) eq_refl).
    cbn [mbind option_bind].
    destruct (profile_for_spec auth (list_byte_of_string key)) as [Hprod Hbeta].
    destruct p; [by apply Hprod|by apply Hbeta].
Qed.

(** C24: The credential selects the profile: a request runs its protected
    handler under a profile exactly when its first Authorization header is
    visible ASCII, "Bearer " followed by that profile's key, and not the other
    profile's key as well; the beta key never opens production, the production
    key never opens beta, keys configured equal open nothing, and every other
    request gets the 401. *)
Theorem credential_selects_profile {Resp : Type} auth headers (next : RoutingProfile -> Resp) deny :
  (forall p, opens auth headers p -> authorize auth headers next deny = next p) /\
  ((forall p, ~ opens auth headers p) -> authorize auth headers next deny = deny unauthorized) /\
  (forall p p', opens auth headers p -> opens auth headers p' -> p = p').
Proof.
  unfold authorize. split_and!.
  - by intros p ->%presented_opens.
  - intros H. destruct (presented_profile auth headers) as [p|] eqn:E; [|done].
    by apply presented_opens, H in E.
  - intros p p' Hp%presented_opens Hp'%presented_opens. congruence.
Qed.
End Facts.

(** ** Witness *)

Definition two_keys : GatewayAuth := with_beta_key [x62] (GatewayAuth_new [x61]).

Lemma credential_selects_profile_witness :
  (forall p, opens two_keys [(AUTHORIZATION, "Bearer b")] p ->
     authorize two_keys [(AUTHORIZATION, "Bearer b")] Some (fun _ => None) = Some p) /\
  ((forall p, ~ opens two_keys [(AUTHORIZATION, "Bearer b")] p) ->
     authorize two_keys [(AUTHORIZATION, "Bearer b")] Some (fun _ => None) = None) /\
  (forall p p', opens two_keys [(AUTHORIZATION, "Bearer b")] p ->
     opens two_keys [(AUTHORIZATION, "Bearer b")] p' -> p = p').
Proof. exact (credential_selects_profile two_keys [(AUTHORIZATION, "Bearer b")] Some (fun _ => None)). Defined.

Example beta_key_opens_beta :
  authorize two_keys [(AUTHORIZATION, "Bearer b")] Some (fun _ => None) = Some Beta.
Proof. vm_reflexivity. Qed.
