(* ===== verification/Axum.v ===== *)
(** The interface of axum's [Router]: routes are added, merged and wrapped in
    layers, then a request's method and path select a handler with the layers
    around it.  The laws state axum's documentation; [RefAxum] is an executable
    instance.  Layers and handlers are the client's types. *)

From Stdlib Require Import ZArith.
From S2P Require Import Prelude.

(** ** Methods and path patterns *)

Inductive Method : Type := GET | POST | HEAD | OtherMethod (name : string).

#[global] Instance Method_eq_dec : EqDecision Method.
Proof. solve_decision. Defined.

(** A [get] handler also serves HEAD. *)
Definition answers (route request : Method) : bool :=
  bool_decide (route = request) || bool_decide (route = GET /\ request = HEAD).

(** A [{capture}] segment. *)
Definition is_capture (segment : string) : bool :=
  is_some (strip_prefix "{" segment) && is_some (strip_suffix "}" segment).

(** A pattern up to the names of its captures: two routes with the same shape
    overlap. *)
Definition path_shape (pattern : string) : list (option string) :=
  (fun segment => if is_capture segment then None else Some segment) <$> split_slash pattern.

Fixpoint shape_matches (shape : list (option string)) (segments : list string) : bool :=
  match shape, segments with
  | [], [] => true
  | None :: shape, segment :: segments => negb (str_is_empty segment) && shape_matches shape segments
  | Some literal :: shape, segment :: segments => String.eqb literal segment && shape_matches shape segments
  | _, _ => false
  end.

Definition path_matches (pattern path : string) : bool := shape_matches (path_shape pattern) (split_slash path).

(** ** Routers *)

Record Route (L E : Type) : Type := {
  rt_method : Method;
  rt_pattern : string;
  rt_handler : E;
  rt_layers : list L  (* innermost first *)
}.
Arguments rt_method {L E}.
Arguments rt_pattern {L E}.
Arguments rt_handler {L E}.
Arguments rt_layers {L E}.

(** What a request is dispatched to: a handler, or the router's own 404 or 405. *)
Inductive Target (E : Type) : Type :=
| Handles (e : E)
| MethodNotAllowed
| NotFound.
Arguments Handles {E}.
Arguments MethodNotAllowed {E}.
Arguments NotFound {E}.

Class Axum (L E : Type) : Type := {
  Router : Type;
  router_new : Router;
  route : string -> Method -> E -> Router -> outcome Router;
  merge : Router -> Router -> outcome Router;
  layer : L -> Router -> Router;
  resolve : Router -> Method -> string -> Target E * list L
}.
Arguments Router L E {_}.

Section Laws.
Context {L E : Type}.

Definition bare (pattern : string) (m : Method) (e : E) : Route L E :=
  {| rt_method := m; rt_pattern := pattern; rt_handler := e; rt_layers := [] |}.
Definition wrapped (l : L) (r : Route L E) : Route L E :=
  {| rt_method := rt_method r; rt_pattern := rt_pattern r; rt_handler := rt_handler r;
     rt_layers := rt_layers r ++ [l] |}.

Definition shapes (rs : list (Route L E)) : list (list (option string)) := (fun r => path_shape (rt_pattern r)) <$> rs.

(** Documented, with [routes] the routes a router holds and [outer] the layers
    of its 404: adding an overlapping route or merging overlapping routers
    panics; a merged router keeps one of the 404s; a layer wraps what was added
    before it, the 404 included; a layer runs after routing, on the request's
    own path. *)
Class AxumLaws (A : Axum L E) (routes : Router L E -> list (Route L E)) (outer : Router L E -> list L) : Prop := {
  law_new : routes router_new = [];
  law_route pattern m e r :
    path_shape pattern ∉ shapes (routes r) ->
    exists r', route pattern m e r = Done r' /\ routes r' = routes r ++ [bare pattern m e];
  law_merge r1 r2 :
    (forall s, s ∈ shapes (routes r1) -> s ∉ shapes (routes r2)) ->
    exists r, merge r1 r2 = Done r /\ routes r = routes r1 ++ routes r2;
  law_new_outer : outer router_new = [];
  law_merge_outer r1 r2 r : merge r1 r2 = Done r -> outer r = outer r1 \/ outer r = outer r2;
  law_layer l r : routes (layer l r) = wrapped l <$> routes r;
  law_layer_outer l r : outer (layer l r) = outer r ++ [l];
  law_route_outer pattern m e r r' : route pattern m e r = Done r' -> outer r' = outer r;
  law_resolve_handler r x m path :
    x ∈ routes r -> path_matches (rt_pattern x) path = true -> answers (rt_method x) m = true ->
    (forall y, y ∈ routes r -> path_matches (rt_pattern y) path = true -> y = x) ->
    resolve r m path = (Handles (rt_handler x), rt_layers x);
  law_resolve_method r x m path :
    x ∈ routes r -> path_matches (rt_pattern x) path = true -> answers (rt_method x) m = false ->
    (forall y, y ∈ routes r -> path_matches (rt_pattern y) path = true -> y = x) ->
    resolve r m path = (MethodNotAllowed, rt_layers x);
  law_resolve_missing r m path :
    (forall y, y ∈ routes r -> path_matches (rt_pattern y) path = false) ->
    resolve r m path = (NotFound, outer r)
}.
End Laws.

(** ** The reference router *)

Module RefAxum.
Section Ref.
Context {L E : Type}.

Record table : Type := { held : list (Route L E); fallback : list L }.

Definition add (new : list (Route L E)) (t : table) : outcome table :=
  if existsb (fun s => bool_decide (s ∈ shapes (held t))) (shapes new) then Panic "Overlapping method route"
  else Done {| held := held t ++ new; fallback := fallback t |}.

Definition find_route (t : table) (path : string) : option (Route L E) :=
  find_b (fun r => path_matches (rt_pattern r) path) (held t).

#[global] Instance axum : Axum L E := {|
  Router := table;
  router_new := {| held := []; fallback := [] |};
  route pattern m e t := add [bare pattern m e] t;
  merge t1 t2 := add (held t2) t1;
  layer l t := {| held := wrapped l <$> held t; fallback := fallback t ++ [l] |};
  resolve t m path :=
    match find_route t path with
    | None => (NotFound, fallback t)
    | Some x => (if answers (rt_method x) m then Handles (rt_handler x) else MethodNotAllowed, rt_layers x)
    end
|}.

Lemma add_disjoint new t :
  (forall s, s ∈ shapes new -> s ∉ shapes (held t)) ->
  add new t = Done {| held := held t ++ new; fallback := fallback t |}.
Proof.
  intros H. unfold add. destruct (existsb _ _) eqn:Ex; [|done]. exfalso.
  apply existsb_exists in Ex as (s & Hs & Hin%bool_decide_eq_true). apply list_elem_of_In in Hs. by eapply H.
Qed.

Lemma find_route_unique t x path :
  x ∈ held t -> path_matches (rt_pattern x) path = true ->
  (forall y, y ∈ held t -> path_matches (rt_pattern y) path = true -> y = x) -> find_route t path = Some x.
Proof.
  intros Hin Hm Hu. destruct (find_route t path) as [y|] eqn:E'.
  - apply find_b_Some in E' as [Hy Hp]. f_equal. by apply Hu.
  - unfold find_route in E'. rewrite find_b_None in E'. by rewrite (E' x Hin) in Hm.
Qed.

#[global] Instance laws : AxumLaws axum held fallback.
Proof.
  split; cbn.
  - done.
  - intros pattern m e t H. rewrite add_disjoint by (by intros s ->%list_elem_of_singleton). by eexists.
  - intros t1 t2 H. rewrite add_disjoint by (intros s H2 H1; by eapply H). by eexists.
  - done.
  - intros t1 t2 t. unfold add. destruct (existsb _ _); intros [= <-]. by left.
  - done.
  - done.
  - intros pattern m e t t'. unfold add. by destruct (existsb _ _); intros [= <-].
  - intros t x m path Hin Hm Ha Hu. rewrite (find_route_unique t x path Hin Hm Hu). by rewrite Ha.
  - intros t x m path Hin Hm Ha Hu. rewrite (find_route_unique t x path Hin Hm Hu). by rewrite Ha.
  - intros t m path Hn. unfold find_route. by rewrite (proj2 (find_b_None _ _) Hn).
Qed.
End Ref.
End RefAxum.
