(* ===== verification/Server.v ===== *)
(** [src/src/server.rs] and [routes.rs]: the routes, their size and time limits,
    the middleware stack around them, and the health probes.

    The router is the interface [Axum]; [Tower] is the interface of the layers
    (tower, tower-http, axum's own, axum-helmet, tower_governor,
    axum-prometheus), [TowerLaws] the documented behaviour of those the theorems
    rely on.  The cargo features are an argument.  Log lines are left out. *)

From Stdlib Require Import ZArith Strings.Byte.
From S2P Require Import Prelude RoutingProfile Json Database Config GatewayAuth Axum.

#[local] Open Scope Z_scope.

(** ** Cargo features *)

Record Features : Type := {
  metrics : bool;
  security_headers : bool;
  compression : bool;
  payload_limit : bool;
  sensitive_headers : bool;
  cors : bool;
  rate_limiting : bool;
  concurrency_limit : bool
}.

Definition no_features : Features :=
  {| metrics := false; security_headers := false; compression := false; payload_limit := false;
     sensitive_headers := false; cors := false; rate_limiting := false; concurrency_limit := false |}.
Definition production : Features :=
  {| metrics := true; security_headers := true; compression := false; payload_limit := true;
     sensitive_headers := true; cors := false; rate_limiting := false; concurrency_limit := false |}.
Definition full : Features :=
  {| metrics := true; security_headers := true; compression := true; payload_limit := true;
     sensitive_headers := true; cors := true; rate_limiting := true; concurrency_limit := true |}.

(** ** Constants *)

Definition STANDARD_REQUEST_TIMEOUT : Z := from_secs 30.
Definition INFERENCE_REQUEST_TIMEOUT : Z := from_secs (10 * 60).
Definition READINESS_DEPENDENCY_TIMEOUT : Z := from_secs 2.
Definition METRICS_ROUTE : string := "/metrics".
Definition STANDARD_PAYLOAD_SIZE_BYTES : Z := 1048576.
Definition INFERENCE_PAYLOAD_SIZE_BYTES : Z := 20 * 1048576.
Definition MAX_REQUESTS_PER_SEC : Z := 100.
Definition MAX_CONCURRENT_REQUESTS : Z := 1024.
Definition X_REQUEST_ID : string := "x-request-id".

(** ** Tracing and the listener's address *)

Inductive LogFormat : Type := JsonLogs | PlainLogs.

(** [rust_log] is the filter of [RUST_LOG], when it is set and parses. *)
Definition setup_tracing (env : Environment) (rust_log : option string) (default_filter : string)
    : string * LogFormat :=
  (default default_filter rust_log,
   if is_ok (env "KUBERNETES_SERVICE_HOST") || is_ok (env "KUBERNETES_PORT") then JsonLogs else PlainLogs).

Definition bind_address (env : Environment) : string :=
  match env "BIND_ADDRESS" with Ok bind => bind | Err _ => "0.0.0.0:8000" end.

(** ** Requests, responses and services *)

Section Server.
Context {U : UrlCrate} {N : Notify}.

(** What the readiness handler's [Extension] carries; the health it shares is
    the host's. *)
Record ServerState : Type := { sidecar_readiness_url : Url }.

(** [q_query] is what follows the question mark; the body is what the client
    sends in full, [q_body_limit] how much of it can be read, and
    [q_default_limit] whether extractors apply axum's default limit to it. *)
Record Request : Type := {
  q_method : Method;
  q_path : string;
  q_query : option string;
  q_headers : HeaderMap;
  q_body : list byte;
  q_body_limit : option Z;
  q_default_limit : bool;
  q_profile : option RoutingProfile;  (* extensions *)
  q_state : option ServerState
}.

Definition with_headers (hs : HeaderMap) (q : Request) : Request :=
  {| q_method := q_method q; q_path := q_path q; q_query := q_query q; q_headers := hs; q_body := q_body q;
     q_body_limit := q_body_limit q; q_default_limit := q_default_limit q;
     q_profile := q_profile q; q_state := q_state q |}.
Definition with_profile (p : RoutingProfile) (q : Request) : Request :=
  {| q_method := q_method q; q_path := q_path q; q_query := q_query q; q_headers := q_headers q; q_body := q_body q;
     q_body_limit := q_body_limit q; q_default_limit := q_default_limit q;
     q_profile := Some p; q_state := q_state q |}.
Definition with_state (s : ServerState) (q : Request) : Request :=
  {| q_method := q_method q; q_path := q_path q; q_query := q_query q; q_headers := q_headers q; q_body := q_body q;
     q_body_limit := q_body_limit q; q_default_limit := q_default_limit q;
     q_profile := q_profile q; q_state := Some s |}.
Definition with_limits (limit : option Z) (default_limit : bool) (q : Request) : Request :=
  {| q_method := q_method q; q_path := q_path q; q_query := q_query q; q_headers := q_headers q; q_body := q_body q;
     q_body_limit := limit; q_default_limit := default_limit;
     q_profile := q_profile q; q_state := q_state q |}.

Inductive Body : Type :=
| NoBody
| TextBody (text : string)
| BytesBody (bytes : list byte)
| ValueBody (value : Value)
| StreamBody (items : list (option (list byte)))  (* passed through; [None] its error *)
| PolledBody (task : nat).  (* what polling a task of the service yields *)

Record HttpResponse : Type := { p_status : Z; p_headers : HeaderMap; p_body : Body }.

(** [(status, Json(value)).into_response()], [StatusCode] and [&str] alone. *)
Definition json_reply (status : Z) (value : Value) : HttpResponse :=
  {| p_status := status; p_headers := [("content-type", "application/json")]; p_body := ValueBody value |}.
Definition status_reply (status : Z) : HttpResponse := {| p_status := status; p_headers := []; p_body := NoBody |}.
Definition text_reply (text : string) : HttpResponse :=
  {| p_status := 200; p_headers := [("content-type", "text/plain; charset=utf-8")]; p_body := TextBody text |}.

(** What unwinds out of a panicking handler. *)
Inductive PanicPayload : Type :=
| PanicString (s : string)
| PanicStr (s : string)
| PanicOther.

Inductive Served : Type :=
| Returns (r : HttpResponse)
| Unwinds (p : PanicPayload).

(** What the process reads of its surroundings: the shared health, the status
    the sidecar's readiness URL answers with through the readiness client, fresh
    UUIDs, the time; [idles] is what the world does by itself meanwhile. *)
Class Host (W : Type) : Type := {
  database : W -> DatabaseHealth;
  probe_sidecar : Url -> W -> option Z * W;
  new_v7 : W -> string * W;
  now : W -> Z;
  idles : W -> W -> Prop
}.

Context {W : Type} {H : Host W}.

Definition Svc : Type := Request -> W -> Served * W.

(** ** Layers *)

Inductive Layer : Type :=
| TimeoutLayer (status timeout : Z)
| DefaultBodyLimitDisable
| RequestBodyLimitLayer (limit : Z)
| ExtensionLayer (state : ServerState)
| FromFn (middleware : Svc -> Svc)
| ConcurrencyLimitLayer (max : Z)
| RequestDecompressionLayer
| CompressionLayer
| NormalizePathTrimTrailingSlash
| SetSensitiveHeadersLayer (names : list string)
| CorsPermissive
| HelmetLayer (hs : HeaderMap)
| TraceLayer (span_request_id : Request -> string)
| PrometheusLayer (prefix ignore : string)
| GovernorLayer (period burst : Z)
| PropagateRequestIdLayer (name : string)
| SetRequestIdLayer (name : string) (make_request_id : Request -> W -> option string * W)
| CatchPanicLayer (handler : PanicPayload -> HttpResponse).

(** [governor_finish]: whether the rate limiter's builder accepts a period and a
    burst size; [helmet_layer]: whether the headers convert; [client_builds]:
    the readiness client; [header_from_str]: [HeaderValue::from_str]. *)
Class Tower : Type := {
  run_layer : Layer -> Svc -> Svc;
  governor_finish : Z -> Z -> bool;
  helmet_layer : HeaderMap -> bool;
  client_builds : bool;
  header_from_str : string -> option string
}.

(** ** Request ids *)

Context {T : Tower}.

Definition make_request_id (request : Request) (w : W) : option string * W :=
  match header_get X_REQUEST_ID (q_headers request) with
  | Some existing => (Some existing, w)
  | None => let '(uuid, w) := new_v7 w in (header_from_str uuid, w)
  end.

(** The id a request's log span carries. *)
Definition span_request_id (request : Request) : string :=
  default "unknown" (header_get X_REQUEST_ID (q_headers request) ≫= header_to_str).

(** ** Health probes *)

Definition livez : Svc := fun _ w => (Returns (status_reply 200), w).

Definition ready_value (database_status : string) : Value :=
  json_object [("status", JString "ok");
               ("dependencies", json_object [("database", JString database_status); ("sidecar", JString "ok")])].

Definition unavailable (database_status : string) : HttpResponse :=
  json_reply 503 (json_object
    [("status", JString "unavailable"); ("reason", JString "sidecar");
     ("dependencies", json_object [("database", JString database_status); ("sidecar", JString "unavailable")])]).

Definition status_is_success (status : Z) : bool := (200 <=? status) && (status <? 300).

(** The database's status is read before the sidecar is asked. *)
Definition readyz (state : ServerState) : Svc := fun _ w =>
  let database_status := status_as_str (status (database w)) in
  let '(answer, w) := probe_sidecar (sidecar_readiness_url state) w in
  match answer with
  | Some status =>
      if status_is_success status then (Returns (json_reply 200 (ready_value database_status)), w)
      else (Returns (unavailable database_status), w)
  | None => (Returns (unavailable database_status), w)
  end.

(** ** Panics *)

Definition panic_message (p : PanicPayload) : string :=
  match p with PanicString s => s | PanicStr s => s | PanicOther => "unknown panic" end.

(** The message is logged, never sent. *)
Definition handle_panic (p : PanicPayload) : HttpResponse :=
  json_reply 500 (json_object [("error", JString "internal server error")]).

(** ** Authentication: [gateway_auth::protect] *)

Definition reply_svc (v : Z * Value) : W -> Served * W := fun w => (Returns (json_reply v.1 v.2), w).

Definition authorize_middleware {C : ConstantTimeEq} (auth : GatewayAuth) (next : Svc) : Svc := fun q =>
  authorize auth (q_headers q) (fun profile => next (with_profile profile q)) reply_svc.

(** ** Routes *)

Inductive Endpoint : Type :=
| Hello | ChatCompletions | LegacyCompletions | GetGeneration
| GetModels | GetModelEndpointsByAuthor | GetModelEndpoints
| GetAuthKey | GetCredits
| Livez | Readyz | Metrics.

Context {A : Axum Layer Endpoint} (f : Features).

Definition Routes : Type := Router Layer Endpoint.
Definition empty : Routes := router_new.

Definition standard_payload_size : option Z := if payload_limit f then Some STANDARD_PAYLOAD_SIZE_BYTES else None.
Definition inference_payload_size : option Z := if payload_limit f then Some INFERENCE_PAYLOAD_SIZE_BYTES else None.

Definition route_policies (router : Routes) (timeout : Z) (payload_size : option Z) : outcome Routes :=
  let router := layer (TimeoutLayer 408 timeout) router in
  if payload_limit f then
    expect "payload size is configured with payload-limit" payload_size ≫= fun limit =>
    Done (layer (RequestBodyLimitLayer limit) (layer DefaultBodyLimitDisable router))
  else Done router.

Definition standard_route_policies (router : Routes) : outcome Routes :=
  route_policies router STANDARD_REQUEST_TIMEOUT standard_payload_size.
Definition inference_route_policies (router : Routes) : outcome Routes :=
  route_policies router INFERENCE_REQUEST_TIMEOUT inference_payload_size.

Definition public_router : outcome Routes :=
  route "/" GET Hello empty ≫= standard_route_policies.

Definition catalog_router : outcome Routes :=
  route "/api/v1/models" GET GetModels empty ≫= fun r =>
  route "/api/v1/models/{author}/{slug}/endpoints" GET GetModelEndpointsByAuthor r ≫= fun r =>
  route "/api/v1/models/{model}/endpoints" GET GetModelEndpoints r.

Definition protect {C : ConstantTimeEq} (router : Routes) (auth : GatewayAuth) : Routes :=
  layer (FromFn (authorize_middleware auth)) router.

Definition protected_router {C : ConstantTimeEq} (auth : GatewayAuth) : outcome Routes :=
  route "/api/v1/chat/completions" POST ChatCompletions empty ≫= fun inference =>
  route "/api/v1/completions" POST LegacyCompletions inference ≫= fun inference =>
  route "/api/v1/generation" GET GetGeneration empty ≫= fun generation =>
  catalog_router ≫= fun models =>
  route "/api/v1/auth/key" GET GetAuthKey empty ≫= fun compatibility =>
  route "/api/v1/credits" GET GetCredits compatibility ≫= fun compatibility =>
  inference_route_policies inference ≫= fun router =>
  standard_route_policies generation ≫= fun generation =>
  merge router generation ≫= fun router =>
  standard_route_policies models ≫= fun models =>
  merge router models ≫= fun router =>
  standard_route_policies compatibility ≫= fun compatibility =>
  merge router compatibility ≫= fun router =>
  Done (protect router auth).

(** [main.rs]: the application [serve] is given. *)
Definition app_router {C : ConstantTimeEq} (auth : GatewayAuth) : outcome Routes :=
  public_router ≫= fun public =>
  protected_router auth ≫= fun protected => merge public protected.

Definition hello : HttpResponse := text_reply "Hello from Seren!".

(** ** The server *)

Inductive ServeError : Type := ClientBuilder | HelmetHeader.

Definition health_router (readiness_url : Url) : outcome (result ServeError Routes) :=
  if client_builds then
    route "/livez" GET Livez empty ≫= fun r =>
    route "/readyz" GET Readyz r ≫= fun r =>
    standard_route_policies r ≫= fun r =>
    Done (Ok (layer (ExtensionLayer {| sidecar_readiness_url := readiness_url |}) r))
  else Done (Err ClientBuilder).

Definition helmet_headers : HeaderMap := [("x-content-type-options", "nosniff"); ("x-frame-options", "DENY")].

Definition when (b : bool) (l : Layer) (r : Routes) : Routes := if b then layer l r else r.

(** [serve] up to the listener: the probes and the middleware stack, innermost
    layer first. *)
Definition serve (app : Routes) (readiness_url : Url) : outcome (result ServeError Routes) :=
  health_router readiness_url ≫= fun health =>
  let? health := health in
  merge app health ≫= fun app =>
  let app := when (concurrency_limit f) (ConcurrencyLimitLayer MAX_CONCURRENT_REQUESTS) app in
  let app := when (compression f) CompressionLayer (when (compression f) RequestDecompressionLayer app) in
  let app := layer NormalizePathTrimTrailingSlash app in
  let app := when (sensitive_headers f) (SetSensitiveHeadersLayer [AUTHORIZATION]) app in
  let app := when (cors f) CorsPermissive app in
  if security_headers f && negb (helmet_layer helmet_headers) then Done (Err HelmetHeader) else
  let app := when (security_headers f) (HelmetLayer helmet_headers) app in
  let app := layer (TraceLayer span_request_id) app in
  (if metrics f then
     route METRICS_ROUTE GET Metrics app ≫= fun app => Done (layer (PrometheusLayer "seren-router" METRICS_ROUTE) app)
   else Done app) ≫= fun app =>
  let period := 1000000000 / MAX_REQUESTS_PER_SEC in
  if rate_limiting f && negb (governor_finish period MAX_REQUESTS_PER_SEC)
  then Panic "failed to build rate limiter config" else
  let app := when (rate_limiting f) (GovernorLayer period MAX_REQUESTS_PER_SEC) app in
  let app := layer (SetRequestIdLayer X_REQUEST_ID make_request_id) (layer (PropagateRequestIdLayer X_REQUEST_ID) app) in
  Done (Ok (layer (CatchPanicLayer handle_panic) app)).

(** [run_service]'s last steps: the application and [serve]. *)
Definition start_server {C : ConstantTimeEq} (auth : GatewayAuth) (readiness_url : Url)
    : outcome (result ServeError Routes) :=
  app_router auth ≫= fun app => serve app readiness_url.

(** The probes' handlers: an extension that is missing is refused by its
    extractor. *)
Definition run_endpoint (app : Endpoint -> Svc) (e : Endpoint) : Svc :=
  match e with
  | Hello => fun _ w => (Returns hello, w)
  | GetAuthKey => fun _ w => (Returns (json_reply 200 get_auth_key), w)
  | GetCredits => fun _ w => (Returns (json_reply 200 get_credits), w)
  | Livez => livez
  | Readyz => fun q w =>
      match q_state q with
      | Some state => readyz state q w
      | None => (Returns (status_reply 500), w)
      end
  | _ => app e
  end.

(** A request through a router: routing on its own path, then the layers around
    the target, innermost first. *)
Definition run_target (app : Endpoint -> Svc) (t : Target Endpoint) : Svc :=
  match t with
  | Handles e => run_endpoint app e
  | MethodNotAllowed => fun _ w => (Returns (status_reply 405), w)
  | NotFound => fun _ w => (Returns (status_reply 404), w)
  end.

Definition stacked (ls : list Layer) (s : Svc) : Svc := foldl (fun s l => run_layer l s) s ls.

Definition serve_request (app : Endpoint -> Svc) (r : Routes) : Svc := fun q w =>
  let '(target, layers) := resolve r (q_method q) (q_path q) in
  stacked layers (run_target app target) q w.
End Server.
Arguments Svc {U} W.
Arguments Layer {U} W.
Arguments Tower {U} W.

(** ** The layers' documented behaviour *)

Section Laws.
Context {U : UrlCrate} {N : Notify} {W : Type} {H : Host W} {T : Tower W}.

(** [usize] text; a malformed length is refused by the HTTP server itself. *)
Definition content_length (q : Request) : option Z := header_get "content-length" (q_headers q) ≫= parse_usize.

Definition with_id (id : string) (q : Request) : Request := with_headers ((X_REQUEST_ID, id) :: q_headers q) q.
Definition reply_with_id (id : string) (r : HttpResponse) : HttpResponse :=
  {| p_status := p_status r; p_headers := (X_REQUEST_ID, id) :: p_headers r; p_body := p_body r |}.

(** Layers that hand the request on with its credential, whatever else they do. *)
Definition passes_credential (l : Layer W) : Prop :=
  match l with
  | FromFn _ => False
  | SetRequestIdLayer name _ => name = X_REQUEST_ID
  | _ => True
  end.

Definition same_credential (q q' : Request) : Prop :=
  header_get AUTHORIZATION (q_headers q') = header_get AUTHORIZATION (q_headers q).

(** The same request for the credential check and behind it. *)
Definition same_sender (q q' : Request) : Prop := same_credential q q' /\ q_profile q' = q_profile q.

(** Layers that reach the world through the service they wrap only, if what
    they are given to make ids with moves it within [P]. *)
Definition frames (P : W -> W -> Prop) (l : Layer W) : Prop :=
  passes_credential l /\
  match l with SetRequestIdLayer _ make => forall q w, P w (make q w).2 | _ => True end.

Class TowerLaws : Prop := {
  (** A panic below is caught and answered by the handler. *)
  law_catch_panic h s q w :
    run_layer (CatchPanicLayer h) s q w =
    let '(x, w) := s q w in (Returns (match x with Returns r => r | Unwinds p => h p end), w);
  (** A request without the header gets the id that is made for it, if any. *)
  law_set_request_id make s q w :
    run_layer (SetRequestIdLayer X_REQUEST_ID make) s q w =
    match header_get X_REQUEST_ID (q_headers q) with
    | Some _ => s q w
    | None => let '(id, w) := make q w in
              match id with Some id => s (with_id id q) w | None => s q w end
    end;
  (** A response without the header gets the request's. *)
  law_propagate_request_id s q w :
    run_layer (PropagateRequestIdLayer X_REQUEST_ID) s q w =
    let '(x, w) := s q w in
    (match x, header_get X_REQUEST_ID (q_headers q) with
     | Returns r, Some id =>
         Returns (if is_some (header_get X_REQUEST_ID (p_headers r)) then r else reply_with_id id r)
     | _, _ => x
     end, w);
  law_from_fn m s q w : run_layer (FromFn m) s q w = m s q w;
  law_extension state s q w : run_layer (ExtensionLayer state) s q w = s (with_state state q) w;
  law_default_body_limit s q w :
    run_layer DefaultBodyLimitDisable s q w = s (with_limits (q_body_limit q) false q) w;
  (** A declared length over the limit is refused unread; otherwise the service
      can read as much as is declared, or as the limit allows. *)
  law_body_limit limit s q w :
    match content_length q with
    | Some n =>
        if n <=? limit
        then run_layer (RequestBodyLimitLayer limit) s q w = s (with_limits (Some n) (q_default_limit q) q) w
        else exists r, run_layer (RequestBodyLimitLayer limit) s q w = (Returns r, w) /\ p_status r = 413
    | None => run_layer (RequestBodyLimitLayer limit) s q w = s (with_limits (Some limit) (q_default_limit q) q) w
    end;
  (** A service that ends within the timeout is not disturbed; one that would
      take longer is dropped at the timeout, wherever it awaits. *)
  law_timeout status d s q w :
    now (s q w).2 - now w < d -> run_layer (TimeoutLayer status d) s q w = s q w;
  law_timeout_fires status d s q w :
    d < now (s q w).2 - now w ->
    exists w', run_layer (TimeoutLayer status d) s q w = (Returns (status_reply status), w') /\ now w' = now w + d;
  (** When both are due it is the one or the other. *)
  law_timeout_either status d s q w :
    run_layer (TimeoutLayer status d) s q w = s q w \/
    exists w', run_layer (TimeoutLayer status d) s q w = (Returns (status_reply status), w');
  law_passes_credential l s s' q w :
    passes_credential l -> (forall q' w', same_credential q q' -> s q' w' = s' q' w') ->
    run_layer l s q w = run_layer l s' q w;
  (** A layer moves the world as the service it wraps does for the same sender,
      any number of times, and as it moves by itself.  A service's effects come
      at once here, so that one dropped at its timeout has had them all or none. *)
  law_frame l s (P : W -> W -> Prop) q w :
    PreOrder P -> (forall w w', idles w w' -> P w w') -> frames P l ->
    (forall q' w', same_sender q q' -> P w' (s q' w').2) -> P w (run_layer l s q w).2;
  (** Documented: the builder refuses only a zero period or burst. *)
  law_governor period burst : 0 < period -> 0 < burst -> governor_finish period burst = true;
  (** A UUID's text is a valid header value. *)
  law_uuid_header w : header_from_str (new_v7 w).1 = Some (new_v7 w).1;
  law_uuid_idles w : idles w (new_v7 w).2
}.
End Laws.
