(* ===== verification/ServerProps.v ===== *)
(** The properties of the HTTP server ([Server]): the routes and the exact stack
    around each, what guards a protected handler, what every request is answered
    with, and readiness. *)

From Stdlib Require Import ZArith Strings.Byte.
From S2P Require Import Prelude RoutingProfile Json Database Config GatewayAuth Axum Server.

#[local] Open Scope Z_scope.

Section Props.
Context {U : UrlCrate} {N : Notify} {W : Type} {H : Host W} {T : Tower W} {C : ConstantTimeEq}.
Context {A : Axum (Layer W) Endpoint} (routes : Routes -> list (Route (Layer W) Endpoint))
        (outer : Routes -> list (Layer W)) {AL : AxumLaws A routes outer}.
Context (f : Features) (auth : GatewayAuth) (readiness_url : Url).

(** ** The stacks, as the middleware table documents them *)

Inductive RouteClass : Type := Standard | Inference.

Definition time_limit (c : RouteClass) : Z :=
  match c with Standard => STANDARD_REQUEST_TIMEOUT | Inference => INFERENCE_REQUEST_TIMEOUT end.
Definition size_limit (c : RouteClass) : Z :=
  match c with Standard => STANDARD_PAYLOAD_SIZE_BYTES | Inference => INFERENCE_PAYLOAD_SIZE_BYTES end.

Definition opt (b : bool) (l : Layer W) : list (Layer W) := if b then [l] else [].

Definition limits (c : RouteClass) : list (Layer W) :=
  TimeoutLayer 408 (time_limit c) ::
  (if payload_limit f then [DefaultBodyLimitDisable; RequestBodyLimitLayer (size_limit c)] else []).

Definition below_metrics : list (Layer W) :=
  opt (concurrency_limit f) (ConcurrencyLimitLayer MAX_CONCURRENT_REQUESTS) ++
  opt (compression f) RequestDecompressionLayer ++ opt (compression f) CompressionLayer ++
  [NormalizePathTrimTrailingSlash] ++
  opt (sensitive_headers f) (SetSensitiveHeadersLayer [AUTHORIZATION]) ++
  opt (cors f) CorsPermissive ++
  opt (security_headers f) (HelmetLayer helmet_headers) ++
  [TraceLayer span_request_id].

Definition request_id_layers : list (Layer W) :=
  [PropagateRequestIdLayer X_REQUEST_ID; SetRequestIdLayer X_REQUEST_ID make_request_id; CatchPanicLayer handle_panic].

Definition above_metrics : list (Layer W) :=
  opt (metrics f) (PrometheusLayer "seren-router" METRICS_ROUTE) ++
  opt (rate_limiting f) (GovernorLayer 10000000 MAX_REQUESTS_PER_SEC) ++ request_id_layers.

Definition entry (m : Method) (pattern : string) (e : Endpoint) (ls : list (Layer W)) :=
  {| rt_method := m; rt_pattern := pattern; rt_handler := e; rt_layers := ls |}.

Definition guard : list (Layer W) := [FromFn (authorize_middleware auth)].

Definition protected_table : list (Route (Layer W) Endpoint) :=
  [entry POST "/api/v1/chat/completions" ChatCompletions (limits Inference ++ guard);
   entry POST "/api/v1/completions" LegacyCompletions (limits Inference ++ guard);
   entry GET "/api/v1/generation" GetGeneration (limits Standard ++ guard);
   entry GET "/api/v1/models" GetModels (limits Standard ++ guard);
   entry GET "/api/v1/models/{author}/{slug}/endpoints" GetModelEndpointsByAuthor (limits Standard ++ guard);
   entry GET "/api/v1/models/{model}/endpoints" GetModelEndpoints (limits Standard ++ guard);
   entry GET "/api/v1/auth/key" GetAuthKey (limits Standard ++ guard);
   entry GET "/api/v1/credits" GetCredits (limits Standard ++ guard)].

Definition app_table := entry GET "/" Hello (limits Standard) :: protected_table.

Definition probe_layers : list (Layer W) :=
  limits Standard ++ [ExtensionLayer {| sidecar_readiness_url := readiness_url |}].

Definition health_table :=
  [entry GET "/livez" Livez probe_layers; entry GET "/readyz" Readyz probe_layers].

Definition deepen (ls : list (Layer W)) (r : Route (Layer W) Endpoint) :=
  entry (rt_method r) (rt_pattern r) (rt_handler r) (rt_layers r ++ ls).

Definition server_table :=
  (deepen (below_metrics ++ above_metrics) <$> (app_table ++ health_table)) ++
  (if metrics f then [entry GET METRICS_ROUTE Metrics above_metrics] else []).

(** ** Building the routers *)

Definition builds (x : outcome Routes) (t : list (Route (Layer W) Endpoint)) : Prop :=
  exists r, x = Done r /\ routes r = t.

Lemma disjoint_shapes (t1 t2 : list (Route (Layer W) Endpoint)) :
  forallb (fun s => negb (bool_decide (s ∈ shapes t2))) (shapes t1) = true ->
  forall s, s ∈ shapes t1 -> s ∉ shapes t2.
Proof.
  intros Hs s Hin Hin2. rewrite forallb_forall in Hs. apply list_elem_of_In, Hs in Hin.
  by rewrite bool_decide_eq_true_2 in Hin.
Qed.

(** The next route or merge of a builder, on routers whose tables are known. *)
Ltac build_route :=
  match goal with
  | Hr : routes ?r = _ |- context [route ?p ?m ?e ?r] => build_on p m e r Hr
  | |- context [route ?p ?m ?e empty] =>
      let H0 := fresh "H0" in pose proof (law_new (A := A)) as H0; build_on p m e (empty (A := A)) H0
  end
with build_on p m e r Hr :=
  let r' := fresh "r" in let E := fresh "E" in let Hr' := fresh "Hr" in
  destruct (law_route (A := A) p m e r) as (r' & E & Hr');
  [unfold empty; rewrite Hr; apply (bool_decide_eq_false_1 (_ ∈ _)); vm_reflexivity|];
  rewrite E; unfold empty in Hr'; rewrite Hr in Hr'; clear E Hr; cbn [mbind outcome_bind app] in Hr' |- *.

Ltac build_merge :=
  match goal with
  | H1 : routes ?r1 = _, H2 : routes ?r2 = _ |- context [merge ?r1 ?r2] =>
      let r' := fresh "r" in let E := fresh "E" in let Hr' := fresh "Hr" in
      destruct (law_merge (A := A) r1 r2) as (r' & E & Hr');
      [rewrite H1, H2; apply disjoint_shapes; vm_reflexivity|];
      rewrite E; rewrite H1, H2 in Hr'; clear E H1 H2; cbn [mbind outcome_bind app] in Hr' |- *
  end.

Lemma route_policies_builds c r t :
  routes r = t ->
  builds (route_policies f r (time_limit c) (match c with Standard => standard_payload_size f
                                                     | Inference => inference_payload_size f end))
    (deepen (limits c) <$> t).
Proof.
  intros <-. unfold route_policies, limits, standard_payload_size, inference_payload_size.
  destruct (payload_limit f) eqn:E; destruct c; cbn; eexists; (split; [done|]); rewrite !law_layer, <- ?list_fmap_compose;
    apply list_fmap_ext; intros i x _; unfold deepen, wrapped, entry; cbn; by rewrite <- ?app_assoc.
Qed.

Lemma standard_builds r t : routes r = t -> builds (standard_route_policies f r) (deepen (limits Standard) <$> t).
Proof. apply (route_policies_builds Standard). Qed.
Lemma inference_builds r t : routes r = t -> builds (inference_route_policies f r) (deepen (limits Inference) <$> t).
Proof. apply (route_policies_builds Inference). Qed.

Ltac build_policies :=
  match goal with
  | Hr : routes ?r = _ |- context [standard_route_policies f ?r] => policies_on (standard_builds r _ Hr) Hr
  | Hr : routes ?r = _ |- context [inference_route_policies f ?r] => policies_on (inference_builds r _ Hr) Hr
  end
with policies_on B Hr :=
  let r' := fresh "r" in let E := fresh "E" in let Hr' := fresh "Hr" in
  destruct B as (r' & E & Hr'); rewrite E; clear E Hr; cbn [mbind outcome_bind] in Hr' |- *.

Ltac known_table := match goal with Hr : routes ?r = _ |- context [routes ?r] => rewrite Hr end.

(** A router whose table is known from its builder's lemma. *)
Ltac build_with B :=
  let r' := fresh "r" in let E := fresh "E" in let Hr' := fresh "Hr" in
  destruct B as (r' & E & Hr'); rewrite E; clear E; cbn [mbind outcome_bind] in *.

Lemma public_builds : builds (public_router f) [entry GET "/" Hello (limits Standard)].
Proof. unfold public_router. build_route. build_policies. by eexists. Qed.

Lemma catalog_builds :
  builds catalog_router
    [bare "/api/v1/models" GET GetModels;
     bare "/api/v1/models/{author}/{slug}/endpoints" GET GetModelEndpointsByAuthor;
     bare "/api/v1/models/{model}/endpoints" GET GetModelEndpoints].
Proof. unfold catalog_router. do 3 build_route. by eexists. Qed.

Lemma protected_builds : builds (protected_router f auth) protected_table.
Proof.
  unfold protected_router. do 3 build_route. build_with catalog_builds. do 2 build_route.
  do 4 build_policies. do 3 build_merge.
  eexists. split; [done|]. unfold protect. rewrite law_layer. by known_table.
Qed.

Lemma app_builds : builds (app_router f auth) app_table.
Proof.
  unfold app_router. build_with public_builds. build_with protected_builds. build_merge. by eexists.
Qed.

Lemma health_builds :
  client_builds = true -> exists r, health_router f readiness_url = Done (Ok r) /\ routes r = health_table.
Proof.
  intros Hc. unfold health_router. rewrite Hc. do 2 build_route. build_policies.
  eexists. split; [done|]. rewrite law_layer. by known_table.
Qed.

(** ** The whole stack *)

Lemma routes_when b l (r : Routes) : routes (when b l r) = deepen (opt b l) <$> routes r.
Proof.
  destruct b; [apply law_layer|]. cbn. rewrite <- (list_fmap_id (routes r)) at 1.
  apply list_fmap_ext. intros i [] _. unfold deepen, entry. cbn. by rewrite app_nil_r.
Qed.

Lemma deepen_deepen ls ks (t : list (Route (Layer W) Endpoint)) :
  deepen ks <$> (deepen ls <$> t) = deepen (ls ++ ks) <$> t.
Proof.
  rewrite <- list_fmap_compose. apply list_fmap_ext. intros i [] _. unfold deepen, entry. cbn.
  by rewrite app_assoc.
Qed.

Lemma shapes_deepen ls (t : list (Route (Layer W) Endpoint)) : shapes (deepen ls <$> t) = shapes t.
Proof. unfold shapes. by rewrite <- list_fmap_compose. Qed.

Lemma routes_layer l (r : Routes) : routes (layer l r) = deepen [l] <$> routes r.
Proof. apply law_layer. Qed.
Context {TL : TowerLaws (H := H) (T := T)}.

(** [serve]'s layers that come before, and after, the metrics route. *)
Definition below (app : Routes) : Routes :=
  layer (TraceLayer span_request_id)
    (when (security_headers f) (HelmetLayer helmet_headers)
    (when (cors f) CorsPermissive
    (when (sensitive_headers f) (SetSensitiveHeadersLayer [AUTHORIZATION])
    (layer NormalizePathTrimTrailingSlash
    (when (compression f) CompressionLayer
    (when (compression f) RequestDecompressionLayer
    (when (concurrency_limit f) (ConcurrencyLimitLayer MAX_CONCURRENT_REQUESTS) app))))))).

Definition above (app : Routes) : Routes :=
  layer (CatchPanicLayer handle_panic)
    (layer (SetRequestIdLayer X_REQUEST_ID make_request_id)
    (layer (PropagateRequestIdLayer X_REQUEST_ID)
    (when (rate_limiting f) (GovernorLayer 10000000 MAX_REQUESTS_PER_SEC) app))).

Lemma routes_below r : routes (below r) = deepen below_metrics <$> routes r.
Proof.
  unfold below. rewrite routes_layer, !routes_when, routes_layer, !routes_when. by rewrite !deepen_deepen.
Qed.

Lemma routes_above r :
  routes (above r) =
  deepen (opt (rate_limiting f) (GovernorLayer 10000000 MAX_REQUESTS_PER_SEC) ++ request_id_layers) <$> routes r.
Proof. unfold above. by rewrite !routes_layer, routes_when, !deepen_deepen. Qed.

Lemma outer_above r : exists ls, outer (above r) = ls ++ request_id_layers.
Proof.
  unfold above. rewrite !law_layer_outer, <- !app_assoc. by eexists.
Qed.

Definition starts : Prop :=
  client_builds = true /\ (security_headers f = true -> helmet_layer helmet_headers = true).

Lemma serve_steps app :
  starts ->
  serve f app readiness_url =
  health_router f readiness_url ≫= fun health =>
  let? health := health in
  merge app health ≫= fun app =>
  (if metrics f then
     route METRICS_ROUTE GET Metrics (below app) ≫= fun app =>
     Done (layer (PrometheusLayer "seren-router" METRICS_ROUTE) app)
   else Done (below app)) ≫= fun app => Done (Ok (above app)).
Proof.
  intros [Hc Hh]. unfold serve. destruct (health_router f readiness_url) as [[health|]|]; cbn; try done.
  destruct (merge app health) as [app'|]; cbn; [|done].
  assert (security_headers f && negb (helmet_layer helmet_headers) = false) as ->.
  { destruct (security_headers f); [by rewrite Hh|done]. }
  fold (below app'). destruct (if metrics f then _ else _) as [r|]; cbn; [|done].
  assert (rate_limiting f && negb (governor_finish 10000000 MAX_REQUESTS_PER_SEC) = false) as E.
  { rewrite law_governor by done. by destruct (rate_limiting f). }
  change (1000000000 / MAX_REQUESTS_PER_SEC) with 10000000. by rewrite E.
Qed.

Lemma serve_builds r0 :
  starts -> routes r0 = app_table ->
  exists r, serve f r0 readiness_url = Done (Ok r) /\ routes r = server_table /\
            exists ls, outer r = ls ++ request_id_layers.
Proof.
  intros Hs Hr. rewrite serve_steps by done. destruct (health_builds (proj1 Hs)) as (health & -> & Hh).
  cbn [mbind outcome_bind]. destruct (law_merge (A := A) r0 health) as (r & -> & Hm).
  { rewrite Hr, Hh. apply disjoint_shapes. vm_reflexivity. }
  cbn [mbind outcome_bind]. unfold server_table, above_metrics. rewrite Hr, Hh in Hm. clear Hr Hh.
  destruct (metrics f); cbn [opt app].
  - destruct (law_route (A := A) METRICS_ROUTE GET Metrics (below r)) as (r2 & -> & H2).
    { rewrite routes_below, shapes_deepen, Hm. apply (bool_decide_eq_false_1 (_ ∈ _)). vm_reflexivity. }
    cbn [mbind outcome_bind]. eexists. split; [done|]. split; [|apply outer_above].
    rewrite routes_above, routes_layer, H2, routes_below, Hm, !fmap_app, !deepen_deepen. cbn [app].
    by rewrite <- app_assoc.
  - cbn [mbind outcome_bind]. eexists. split; [done|]. split; [|apply outer_above].
    by rewrite routes_above, routes_below, Hm, deepen_deepen, app_nil_r.
Qed.
(** ** Which route a path selects *)

Fixpoint overlap (s1 s2 : list (option string)) : bool :=
  match s1, s2 with
  | [], [] => true
  | a :: s1, b :: s2 =>
      match a, b with
      | Some x, Some y => String.eqb x y
      | Some x, None | None, Some x => negb (str_is_empty x)
      | None, None => true
      end && overlap s1 s2
  | _, _ => false
  end.

Fixpoint overlap_free (ss : list (list (option string))) : bool :=
  match ss with [] => true | s :: ss => forallb (fun s' => negb (overlap s s')) ss && overlap_free ss end.

Lemma shape_matches_overlap s1 s2 segments :
  shape_matches s1 segments = true -> shape_matches s2 segments = true -> overlap s1 s2 = true.
Proof.
  revert s2 segments. induction s1 as [|a s1 IH]; intros [|b s2] [|g segments]; cbn; try done; try by destruct a.
  - by destruct b.
  - destruct a as [x|], b as [y|]; intros [H1 H1']%andb_true_iff [H2 H2']%andb_true_iff;
      rewrite (IH _ _ H1' H2'), andb_true_r; try apply String.eqb_eq in H1; try apply String.eqb_eq in H2; subst;
      by rewrite ?String.eqb_refl.
Qed.

Lemma unique_match (t : list (Route (Layer W) Endpoint)) path x y :
  overlap_free (shapes t) = true -> x ∈ t -> y ∈ t ->
  path_matches (rt_pattern x) path = true -> path_matches (rt_pattern y) path = true -> x = y.
Proof.
  unfold path_matches. intros Ht Hx Hy Mx My. pose proof (shape_matches_overlap _ _ _ Mx My) as Hxy.
  pose proof (shape_matches_overlap _ _ _ My Mx) as Hyx.
  induction t as [|z t IH]; [by apply not_elem_of_nil in Hx|]. cbn in Ht.
  apply andb_true_iff in Ht as [Hz Ht]. rewrite forallb_forall in Hz.
  assert (forall v, v ∈ t -> overlap (path_shape (rt_pattern z)) (path_shape (rt_pattern v)) = false) as Hf.
  { intros v Hv. apply negb_true_iff, Hz, list_elem_of_In, list_elem_of_fmap. by exists v. }
  apply elem_of_cons in Hx as [->|Hx], Hy as [->|Hy]; [done| | |by apply IH].
  - by rewrite (Hf y Hy) in Hxy.
  - by rewrite (Hf x Hx) in Hyx.
Qed.

Lemma resolve_cases r t m path :
  routes r = t -> overlap_free (shapes t) = true ->
  (exists x, x ∈ t /\ path_matches (rt_pattern x) path = true /\
     resolve r m path = (if answers (rt_method x) m then Handles (rt_handler x) else MethodNotAllowed, rt_layers x)) \/
  ((forall x, x ∈ t -> path_matches (rt_pattern x) path = false) /\ resolve r m path = (NotFound, outer r)).
Proof.
  intros <- Hf. destruct (find_b (fun x => path_matches (rt_pattern x) path) (routes r)) as [x|] eqn:E.
  - apply find_b_Some in E as [Hm Hx]. left. exists x. split_and!; [done..|].
    assert (forall y, y ∈ routes r -> path_matches (rt_pattern y) path = true -> y = x) as Hu.
    { intros y Hy Hp. by eapply unique_match. }
    destruct (answers (rt_method x) m) eqn:Ea;
      [by apply (law_resolve_handler (A := A))|by apply (law_resolve_method (A := A))].
  - rewrite find_b_None in E. right. split; [done|]. by apply (law_resolve_missing (A := A)).
Qed.

Lemma resolve_found r t x m path :
  routes r = t -> overlap_free (shapes t) = true -> x ∈ t -> path_matches (rt_pattern x) path = true ->
  answers (rt_method x) m = true -> resolve r m path = (Handles (rt_handler x), rt_layers x).
Proof.
  intros <- Hf Hx Hm Ha. apply (law_resolve_handler (A := A)); try done. intros y Hy Hp. by eapply unique_match.
Qed.

Lemma shapes_app (t1 t2 : list (Route (Layer W) Endpoint)) : shapes (t1 ++ t2) = shapes t1 ++ shapes t2.
Proof. apply fmap_app. Qed.

Lemma app_overlap_free : overlap_free (shapes app_table) = true.
Proof. vm_reflexivity. Qed.

Lemma server_overlap_free : overlap_free (shapes server_table) = true.
Proof.
  unfold server_table. rewrite shapes_app, shapes_deepen. destruct (metrics f); vm_reflexivity.
Qed.

(** ** Stacks *)

Lemma stacked_app ls ks (s : Svc W) : stacked (ls ++ ks) s = stacked ks (stacked ls s).
Proof. apply foldl_app. Qed.

Lemma same_credential_trans q1 q2 q3 : same_credential q1 q2 -> same_credential q2 q3 -> same_credential q1 q3.
Proof. unfold same_credential. congruence. Qed.

Lemma stacked_agree ls (s s' : Svc W) q w :
  Forall passes_credential ls -> (forall q' w', same_credential q q' -> s q' w' = s' q' w') ->
  stacked ls s q w = stacked ls s' q w.
Proof.
  revert q w. induction ls as [|l ls IH] using rev_ind; intros q w; [by intros _ Hs; apply Hs|].
  intros [Hls Hl]%Forall_app Hs. rewrite Forall_singleton in Hl. rewrite !stacked_app. cbn.
  apply law_passes_credential; [done|]. intros q' w' Hq. apply IH; [done|]. intros q2 w2 Hq2.
  apply Hs. by eapply same_credential_trans.
Qed.

Lemma presented_same q q' : same_credential q q' -> presented_profile auth (q_headers q') = presented_profile auth (q_headers q).
Proof. unfold same_credential, presented_profile. by intros ->. Qed.
(** ** What the server guarantees *)

Definition correlated (q : Request) (w : W) : Request * W :=
  match header_get X_REQUEST_ID (q_headers q) with
  | Some _ => (q, w)
  | None => let '(uuid, w) := new_v7 w in (with_id uuid q, w)
  end.

(** The answer around a service that may panic: the request has an id, its
    client's or a new one; the response carries it unless it has its own; a
    panic becomes the fixed 500, which says nothing of it and has no id. *)
Definition answered (inner : Svc W) : Svc W := fun q w =>
  let '(q, w) := correlated q w in
  let '(x, w) := inner q w in
  (Returns
     match x with
     | Unwinds _ => json_reply 500 (json_object [("error", JString "internal server error")])
     | Returns r =>
         match header_get X_REQUEST_ID (p_headers r), header_get X_REQUEST_ID (q_headers q) with
         | None, Some id => reply_with_id id r
         | _, _ => r
         end
     end, w).

Lemma answered_stack inner q w : stacked request_id_layers inner q w = answered inner q w.
Proof.
  unfold stacked, request_id_layers, answered, correlated. cbn [foldl].
  rewrite law_catch_panic, law_set_request_id. unfold make_request_id.
  destruct (header_get X_REQUEST_ID (q_headers q)) as [id|] eqn:Eid.
  - rewrite law_propagate_request_id. destruct (inner q w) as [[resp|p] w']; [|done]. rewrite Eid.
    by destruct (header_get X_REQUEST_ID (p_headers resp)).
  - pose proof (law_uuid_header (H := H) (T := T) w) as Hu. destruct (new_v7 w) as [uuid w1]. cbn in Hu. rewrite Hu.
    rewrite law_propagate_request_id. destruct (inner (with_id uuid q) w1) as [[resp|p] w']; [|done].
    change (header_get X_REQUEST_ID (q_headers (with_id uuid q))) with (Some uuid).
    by destruct (header_get X_REQUEST_ID (p_headers resp)).
Qed.

Lemma server_builds :
  starts -> exists r, start_server f auth readiness_url = Done (Ok r) /\ routes r = server_table /\
                      exists ls, outer r = ls ++ request_id_layers.
Proof.
  intros Hs. unfold start_server. destruct app_builds as (app & -> & Happ). cbn [mbind outcome_bind].
  by apply serve_builds.
Qed.

(** C30: The server's routes are the documented ones: with any cargo features,
    when the readiness client and the security headers build, assembling the
    routers never panics (no two routes overlap, every enabled limit has a
    size), and each route has exactly its class's time and size limits, the
    credential check if it is not public, and the documented middleware in the
    documented order; the metrics route exists only with its feature, and has
    no class limits. *)
Theorem server_routes :
  starts -> exists r, start_server f auth readiness_url = Done (Ok r) /\ routes r = server_table.
Proof. intros Hs. destruct (server_builds Hs) as (r & Hr & Ht & _). eauto. Qed.

Lemma started_server r :
  starts -> start_server f auth readiness_url = Done (Ok r) ->
  routes r = server_table /\ exists ls, outer r = ls ++ request_id_layers.
Proof.
  intros Hs. destruct (server_builds Hs) as (r' & -> & Ht & Ho). by intros [= <-].
Qed.

Lemma above_metrics_split : exists ls, above_metrics = ls ++ request_id_layers.
Proof. unfold above_metrics. rewrite app_assoc. by eexists. Qed.

Lemma above_request_id x : x ∈ server_table -> exists ls, rt_layers x = ls ++ request_id_layers.
Proof.
  destruct above_metrics_split as [ls Hls]. unfold server_table.
  intros [(y & -> & _)%list_elem_of_fmap|Hx]%elem_of_app.
  - exists (rt_layers y ++ below_metrics ++ ls). cbn [rt_layers deepen entry]. by rewrite Hls, <- !app_assoc.
  - destruct (metrics f); [|by apply not_elem_of_nil in Hx]. apply list_elem_of_singleton in Hx as ->. by exists ls.
Qed.

Lemma outermost r m path :
  starts -> start_server f auth readiness_url = Done (Ok r) -> exists ls, (resolve r m path).2 = ls ++ request_id_layers.
Proof.
  intros Hs Hr. destruct (started_server r Hs Hr) as [Ht Ho].
  destruct (resolve_cases r server_table m path Ht server_overlap_free)
    as [(x & Hx & _ & ->)|[_ ->]]; [by apply above_request_id|done].
Qed.

Lemma serve_answered r app q w ls :
  (resolve r (q_method q) (q_path q)).2 = ls ++ request_id_layers ->
  serve_request app r q w = answered (stacked ls (run_target app (resolve r (q_method q) (q_path q)).1)) q w.
Proof.
  intros Hls. unfold serve_request. destruct (resolve r _ _) as [t layers]. cbn in *. subst layers.
  by rewrite stacked_app, answered_stack.
Qed.

Lemma serve_returns r app q w :
  starts -> start_server f auth readiness_url = Done (Ok r) -> exists resp w', serve_request app r q w = (Returns resp, w').
Proof.
  intros Hs Hr. destruct (outermost r (q_method q) (q_path q) Hs Hr) as [ls Hls]. rewrite (serve_answered r app q w ls Hls).
  unfold answered. destruct (correlated q w) as [q' w1]. destruct (stacked _ _ _ _) as [x w2]. eauto.
Qed.

(** C19: Every request is answered, whatever the handlers do: through the
    started server, a request's target (a handler, the 405 or the 404) runs
    under some layers and then exactly as [answered] says; in particular no
    panic of a handler or a layer leaves the server or leaks its message, and
    every other response can be correlated with its request. *)
Theorem server_answers r app q w :
  starts -> start_server f auth readiness_url = Done (Ok r) ->
  exists ls, (resolve r (q_method q) (q_path q)).2 = ls ++ request_id_layers /\
    serve_request app r q w = answered (stacked ls (run_target app (resolve r (q_method q) (q_path q)).1)) q w.
Proof.
  intros Hs Hr. destruct (outermost r (q_method q) (q_path q) Hs Hr) as [ls Hls].
  exists ls. split; [done|]. by apply serve_answered.
Qed.

(** The server's layers other than the credential check. *)
Definition ordinary (l : Layer W) : Prop :=
  passes_credential l /\ match l with SetRequestIdLayer _ make => make = make_request_id | _ => True end.

Lemma ordinary_passes ls : Forall ordinary ls -> Forall passes_credential ls.
Proof. intros Hls. eapply Forall_impl; [exact Hls|by intros l []]. Qed.

Lemma above_ordinary : Forall ordinary (below_metrics ++ above_metrics).
Proof.
  unfold below_metrics, above_metrics, opt, request_id_layers.
  repeat (rewrite Forall_app; split); repeat case_match; repeat constructor.
Qed.

Lemma limits_ordinary c : Forall ordinary (limits c).
Proof. unfold limits. destruct (payload_limit f); repeat constructor. Qed.

Lemma guarded_refuses s q w :
  presented_profile auth (q_headers q) = None ->
  run_layer (FromFn (authorize_middleware auth)) s q w = (Returns (json_reply 401 unauthorized.2), w).
Proof. intros Hp. rewrite law_from_fn. unfold authorize_middleware, authorize. by rewrite Hp. Qed.
Definition class_of (e : Endpoint) : RouteClass :=
  match e with ChatCompletions | LegacyCompletions => Inference | _ => Standard end.

Lemma protected_layers x : x ∈ protected_table -> rt_layers x = limits (class_of (rt_handler x)) ++ guard.
Proof.
  unfold protected_table. intros Hx. by repeat (apply elem_of_cons in Hx as [->|Hx]; [reflexivity|]);
    apply not_elem_of_nil in Hx.
Qed.

(** Whether a request declares a body over its route class's limit. *)
Definition declares_too_much (c : RouteClass) (q : Request) : bool :=
  payload_limit f && is_some_and (fun n => negb (n <=? size_limit c)) (content_length q).

(** The request a protected handler sees. *)
Definition admitted (c : RouteClass) (p : RoutingProfile) (q : Request) : Request :=
  if payload_limit f
  then with_limits (Some (default (size_limit c) (content_length q))) false (with_profile p q)
  else with_profile p q.

(** A protected route's stack on the application's router. *)
Lemma protected_stack r app x q w :
  app_router f auth = Done r -> x ∈ protected_table ->
  path_matches (rt_pattern x) (q_path q) = true -> answers (rt_method x) (q_method q) = true ->
  serve_request app r q w =
    run_layer (FromFn (authorize_middleware auth))
      (stacked (limits (class_of (rt_handler x))) (run_endpoint app (rt_handler x))) q w.
Proof.
  intros Hr Hx Hm Ha. destruct app_builds as (r' & E & Ht). rewrite Hr in E. injection E as <-.
  unfold serve_request. rewrite (resolve_found r app_table x _ _ Ht app_overlap_free) by (done || by right).
  by rewrite protected_layers, stacked_app.
Qed.

Lemma authorized_runs s q w p :
  presented_profile auth (q_headers q) = Some p ->
  run_layer (FromFn (authorize_middleware auth)) s q w = s (with_profile p q) w.
Proof. intros Hp. rewrite law_from_fn. unfold authorize_middleware, authorize. by rewrite Hp. Qed.

(** The limits of a route class: a declared length over it is refused. *)
Lemma limits_apply c p s q w :
  if declares_too_much c q
  then exists resp, stacked (limits c) s (with_profile p q) w = (Returns resp, w) /\ p_status resp = 413
  else stacked (limits c) s (with_profile p q) w =
       run_layer (TimeoutLayer 408 (time_limit c)) s (admitted c p q) w.
Proof.
  unfold declares_too_much, admitted, limits.
  destruct (payload_limit f); cbn [stacked foldl List.app andb]; [|done].
  pose proof (law_body_limit (H := H) (T := T) (size_limit c)
    (run_layer DefaultBodyLimitDisable (run_layer (TimeoutLayer 408 (time_limit c)) s)) (with_profile p q) w) as Hl.
  change (content_length (with_profile p q)) with (content_length q) in Hl.
  destruct (content_length q) as [n|]; cbn [is_some_and default]; [destruct (n <=? size_limit c)|];
    cbn [negb]; [|done|]; by rewrite Hl, law_default_body_limit.
Qed.

(** C18: A protected handler runs only for its credential, within its limits:
    on the application's router, a request for a protected route without a
    profile's key gets the 401 whatever its size and whatever the handlers do;
    with one, the handler runs with that profile under the class's timeout and
    nothing else in between, with the payload-limit feature only on as many
    bytes as the request declares or the class allows (20 MiB for inference, 1
    MiB for the rest); a declared length over that gets a 413 and the handler
    does not run. *)
Theorem protected_contract r app x q w :
  app_router f auth = Done r -> x ∈ protected_table ->
  path_matches (rt_pattern x) (q_path q) = true -> answers (rt_method x) (q_method q) = true ->
  let e := rt_handler x in
  match presented_profile auth (q_headers q) with
  | None => serve_request app r q w = (Returns (json_reply 401 unauthorized.2), w)
  | Some p =>
      if declares_too_much (class_of e) q
      then exists resp, serve_request app r q w = (Returns resp, w) /\ p_status resp = 413
      else serve_request app r q w =
           run_layer (TimeoutLayer 408 (time_limit (class_of e))) (run_endpoint app e)
             (admitted (class_of e) p q) w
  end.
Proof.
  intros Hr Hx Hm Ha e. rewrite (protected_stack r app x q w Hr Hx Hm Ha). fold e.
  destruct (presented_profile auth (q_headers q)) as [p|] eqn:Hp; [|by apply guarded_refuses].
  rewrite (authorized_runs _ q w p Hp). apply limits_apply.
Qed.

Definition is_public (e : Endpoint) : bool :=
  match e with Hello | Livez | Readyz | Metrics => true | _ => false end.

Lemma protected_private x : x ∈ protected_table -> is_public (rt_handler x) = false.
Proof.
  unfold protected_table. intros Hx. by repeat (apply elem_of_cons in Hx as [->|Hx]; [done|]); apply not_elem_of_nil in Hx.
Qed.

Lemma server_table_cases x :
  x ∈ server_table ->
  is_public (rt_handler x) = false /\ (exists ls, Forall ordinary ls /\
     rt_layers x = limits (class_of (rt_handler x)) ++ guard ++ ls) \/
  is_public (rt_handler x) = true /\ Forall ordinary (rt_layers x).
Proof.
  pose proof above_ordinary as Hpass. unfold server_table.
  intros [(y & -> & Hy)%list_elem_of_fmap|Hx]%elem_of_app.
  - cbn [deepen entry rt_layers rt_handler]. apply elem_of_app in Hy as [[->|Hy]%elem_of_cons|Hy].
    + right. split; [done|]. cbn [entry rt_layers]. rewrite Forall_app. split; [apply (limits_ordinary Standard)|done].
    + left. split; [by apply protected_private|]. exists (below_metrics ++ above_metrics). split; [done|].
      by rewrite (protected_layers y Hy), <- app_assoc.
    + right. assert (Forall ordinary probe_layers) as Hl.
      { unfold probe_layers. rewrite Forall_app. split; [apply limits_ordinary|by repeat constructor]. }
      apply elem_of_cons in Hy as [->|Hy%list_elem_of_singleton]; [|subst y]; (split; [done|]);
        cbn [entry rt_layers]; by rewrite Forall_app.
  - destruct (metrics f); [|by apply not_elem_of_nil in Hx]. apply list_elem_of_singleton in Hx as ->.
    right. split; [done|]. by apply Forall_app in Hpass as [_ ?].
Qed.

(** C17: Without a credential nothing protected happens: through the whole
    started server, with any features, a request that presents no profile's key
    is answered the same, and changes the world the same, whatever the
    protected handlers are: none of them is ever run for it. *)
Theorem unauthenticated_runs_nothing r app app' q w :
  starts -> start_server f auth readiness_url = Done (Ok r) ->
  app Metrics = app' Metrics -> presented_profile auth (q_headers q) = None ->
  serve_request app r q w = serve_request app' r q w.
Proof.
  intros Hs Hr Hm Hp. destruct (started_server r Hs Hr) as [Ht _]. unfold serve_request.
  destruct (resolve_cases r server_table (q_method q) (q_path q) Ht server_overlap_free)
    as [(x & Hx & _ & ->)|[_ ->]]; [|done].
  destruct (answers (rt_method x) (q_method q)); [|done]. cbn [run_target].
  apply server_table_cases in Hx as [(_ & ls & Hls & ->)|[Hpub _]].
  - rewrite app_assoc, !(stacked_app (_ ++ guard)). apply stacked_agree; [by apply ordinary_passes|]. intros q' w' Hq.
    rewrite !stacked_app. unfold guard. cbn [stacked foldl].
    by rewrite !guarded_refuses by by rewrite (presented_same q q').
  - destruct (rt_handler x); try done. cbn [run_endpoint]. by rewrite Hm.
Qed.
(** ** What a request can move *)

(** The layers around the 404: the routers' own, which merging keeps. *)
Definition on_404 (l : Layer W) : Prop := ordinary l \/ l = FromFn (authorize_middleware auth).
Definition kept_404 (x : outcome Routes) : Prop := forall r, x = Done r -> Forall on_404 (outer r).

Lemma bind_404 x k :
  kept_404 x -> (forall r, Forall on_404 (outer r) -> kept_404 (k r)) -> kept_404 (x ≫= k).
Proof. intros Hx Hk r (r' & Hr' & Hr)%bind_Done. by eapply Hk; [apply Hx|]. Qed.

Lemma done_404 r : Forall on_404 (outer r) -> kept_404 (Done r).
Proof. by intros Hr r' [= <-]. Qed.

Lemma empty_404 : Forall on_404 (outer empty).
Proof. unfold empty. rewrite (law_new_outer (A := A)). constructor. Qed.

Lemma route_404 pattern m e r : Forall on_404 (outer r) -> kept_404 (route pattern m e r).
Proof. intros Ho r' Hr. by rewrite (law_route_outer (A := A) _ _ _ _ _ Hr). Qed.

Lemma merge_404 r1 r2 : Forall on_404 (outer r1) -> Forall on_404 (outer r2) -> kept_404 (merge r1 r2).
Proof. intros H1 H2 r Hr. by destruct (law_merge_outer (A := A) _ _ _ Hr) as [-> | ->]. Qed.

Lemma layer_404 l r : on_404 l -> Forall on_404 (outer r) -> Forall on_404 (outer (layer l r)).
Proof. intros Hl Hr. rewrite law_layer_outer, Forall_app, Forall_singleton. by split. Qed.

Lemma ordinary_404 l r : ordinary l -> Forall on_404 (outer r) -> Forall on_404 (outer (layer l r)).
Proof. intros Hl. apply layer_404. by left. Qed.

Lemma when_404 b l r : ordinary l -> Forall on_404 (outer r) -> Forall on_404 (outer (when b l r)).
Proof. intros Hl. destruct b; [by apply ordinary_404|done]. Qed.

Lemma policies_404 r d size : Forall on_404 (outer r) -> kept_404 (route_policies f r d size).
Proof.
  intros Hr. unfold route_policies. assert (Forall on_404 (outer (layer (TimeoutLayer 408 d) r))) as H1 by by apply ordinary_404.
  destruct (payload_limit f); [|by apply done_404]. intros r' (limit & _ & Hr')%bind_Done. injection Hr' as <-.
  apply ordinary_404; [done|]. by apply ordinary_404.
Qed.

Ltac keep_404 :=
  repeat lazymatch goal with
  | |- kept_404 (_ ≫= _) => apply bind_404; [|intros ? ?]
  | |- kept_404 (Done _) => apply done_404
  | |- kept_404 (route _ _ _ _) => apply route_404
  | |- kept_404 (merge _ _) => apply merge_404
  | |- kept_404 (standard_route_policies _ _) => apply policies_404
  | |- kept_404 (inference_route_policies _ _) => apply policies_404
  | |- Forall on_404 (outer empty) => apply empty_404
  | |- Forall on_404 (outer (when _ _ _)) => apply when_404
  | |- Forall on_404 (outer (layer (FromFn _) _)) => apply layer_404; [by right|]
  | |- Forall on_404 (outer (layer _ _)) => apply ordinary_404
  end; try done.

Lemma app_404 : kept_404 (app_router f auth).
Proof.
  unfold app_router, public_router, protected_router, catalog_router, protect. keep_404.
Qed.

Lemma server_404 r : starts -> start_server f auth readiness_url = Done (Ok r) -> Forall on_404 (outer r).
Proof.
  intros Hs (r0 & H0%app_404 & Hr)%bind_Done. rewrite serve_steps in Hr by done.
  apply bind_Done in Hr as (health & Hh & Hr). destruct health as [health|]; [|done]. cbn in Hr.
  assert (Forall on_404 (outer health)) as H1.
  { unfold health_router in Hh. destruct client_builds; [|done].
    assert (kept_404 (
      route "/livez" GET Livez empty ≫= fun r => route "/readyz" GET Readyz r ≫= fun r => standard_route_policies f r)) as Hk by keep_404.
    apply bind_Done in Hh as (r1 & E1 & (r2 & E2 & (r3 & E3 & [= <-])%bind_Done)%bind_Done).
    apply ordinary_404; [done|]. apply (Hk r3). rewrite E1. cbn. rewrite E2. exact E3. }
  apply bind_Done in Hr as (r1 & H2%(merge_404 _ _ H0 H1) & Hr). apply bind_Done in Hr as (r2 & H3 & [= <-]).
  assert (kept_404 (if metrics f then
     route METRICS_ROUTE GET Metrics (below r1) ≫= fun app =>
     Done (layer (PrometheusLayer "seren-router" METRICS_ROUTE) app) else Done (below r1))) as Hk.
  { assert (Forall on_404 (outer (below r1))) by (unfold below; keep_404). destruct (metrics f); keep_404. }
  apply Hk in H3. unfold above. keep_404.
Qed.

Section Frame.
Context (P : W -> W -> Prop) {PO : PreOrder P} (idle : forall w w', idles w w' -> P w w').

Lemma ordinary_frames l : ordinary l -> frames P l.
Proof.
  intros [Hl Hmake]. split; [done|]. destruct l; try done. subst. intros q w. unfold make_request_id.
  destruct (header_get _ _); [done|]. pose proof (law_uuid_idles (H := H) (T := T) w). destruct (new_v7 w). by apply idle.
Qed.

Lemma stacked_frame ls (s : Svc W) q w :
  Forall ordinary ls -> (forall q' w', same_sender q q' -> P w' (s q' w').2) -> P w (stacked ls s q w).2.
Proof.
  revert q w. induction ls as [|l ls IH] using rev_ind; intros q w; [by intros _ Hs; apply Hs|].
  intros [Hls Hl]%Forall_app Hs. rewrite Forall_singleton in Hl. rewrite stacked_app. cbn.
  apply law_frame; [done|done|by apply ordinary_frames|]. intros q' w' [Hq Hp]. apply IH; [done|].
  intros q2 w2 [Hq2 Hp2]. apply Hs. split; [by eapply same_credential_trans|by rewrite Hp2].
Qed.

(** The credential check moves the world as what it guards, for the
    credential's profile. *)
Lemma guard_frame (s : Svc W) q w :
  (forall p, presented_profile auth (q_headers q) = Some p -> P w (s (with_profile p q) w).2) ->
  P w (run_layer (FromFn (authorize_middleware auth)) s q w).2.
Proof.
  intros Hs. destruct (presented_profile auth (q_headers q)) as [p|] eqn:Hp.
  - rewrite (authorized_runs s q w p Hp). by apply Hs.
  - by rewrite guarded_refuses.
Qed.

(** Under the 404's layers, a service that does nothing does nothing. *)
Lemma still_404 ls (s : Svc W) q w :
  Forall on_404 ls -> (forall q' w', P w' (s q' w').2) -> P w (stacked ls s q w).2.
Proof.
  revert q w. induction ls as [|l ls IH] using rev_ind; intros q w; [by intros _ Hs; apply Hs|].
  intros [Hls Hl]%Forall_app Hs. rewrite Forall_singleton in Hl. rewrite stacked_app. cbn.
  destruct Hl as [Hl| ->]; [apply law_frame; [done|done|by apply ordinary_frames|]|apply guard_frame];
    intros; by apply IH.
Qed.

(** A request moves the world through the server as the handlers do: a public
    one for the request's own sender, a protected one for its credential's
    profile. *)
Lemma server_frame r app q w :
  starts -> start_server f auth readiness_url = Done (Ok r) ->
  (forall e q' w', is_public e = true -> P w' (run_endpoint app e q' w').2) ->
  (forall e p q' w', is_public e = false -> presented_profile auth (q_headers q) = Some p -> q_profile q' = Some p ->
     P w' (run_endpoint app e q' w').2) ->
  P w (serve_request app r q w).2.
Proof.
  intros Hs Hr Hpub Hprot. destruct (started_server r Hs Hr) as [Ht _]. unfold serve_request.
  destruct (resolve_cases r server_table (q_method q) (q_path q) Ht server_overlap_free) as [(x & Hx & _ & ->)|[_ ->]];
    [|by apply still_404; [apply server_404|]].
  apply server_table_cases in Hx as [(Hx & ls & Hls & ->)|[Hx Hls]].
  - rewrite app_assoc, stacked_app, stacked_app. apply stacked_frame; [done|]. intros q' w' [Hq _].
    unfold guard. cbn [stacked foldl]. apply guard_frame. intros p Hp. rewrite (presented_same _ _ Hq) in Hp.
    apply stacked_frame; [apply limits_ordinary|]. intros q2 w2 [_ Hp2].
    destruct (answers _ _); [by eapply Hprot|done].
  - apply stacked_frame; [done|]. intros q' w' _. destruct (answers _ _); [by apply Hpub|done].
Qed.
End Frame.

(** ** Trailing slashes *)

Lemma split_slash_nonempty s : split_slash s <> [].
Proof. destruct s as [|c s]; cbn; [done|]. destruct (split_slash s); [done|]. by destruct (Ascii.eqb c "/"). Qed.

Lemma split_slash_snoc s : split_slash (s +:+ "/") = split_slash s ++ [""].
Proof.
  induction s as [|c s IH]; [done|]. change (String c s +:+ "/") with (String c (s +:+ "/")).
  cbn [split_slash]. rewrite IH. pose proof (split_slash_nonempty s).
  destruct (split_slash s) as [|g gs]; [done|]. cbn. by destruct (Ascii.eqb c "/").
Qed.

Lemma split_slash_empty s : split_slash s = [""] -> s = "".
Proof.
  destruct s as [|c s]; [done|]. cbn. pose proof (split_slash_nonempty s).
  destruct (split_slash s) as [|g gs]; [done|]. by destruct (Ascii.eqb c "/").
Qed.

Lemma shape_matches_last s l : shape_matches s (l ++ [""]) = true -> last s = Some (Some "").
Proof.
  revert l. induction s as [|a s IH]; intros [|g l]; cbn [shape_matches app]; try done.
  - destruct a as [x|]; intros [Hx Hs]%andb_true_iff; [|done]. apply String.eqb_eq in Hx as ->.
    by destruct s as [|[]].
  - intros Hs. assert (shape_matches s (l ++ [""]) = true) as Hs'.
    { by destruct a; apply andb_true_iff in Hs as [_ ?]. }
    apply IH in Hs'. by destruct s.
Qed.

Definition unslashed (s : list (option string)) : bool :=
  negb (bool_decide (last s = Some (Some ""))) || bool_decide (s = [Some ""; Some ""]).

Lemma server_unslashed : forallb unslashed (shapes server_table) = true.
Proof. unfold server_table. rewrite shapes_app, shapes_deepen. destruct (metrics f); vm_reflexivity. Qed.

(** C40: Path normalization has no effect: although every route but the
    metrics one runs under the layer that trims trailing slashes, routing comes
    before it, so a path with a trailing slash (other than the root's) is always
    the 404, also when the path without it is a route's. *)
Theorem trailing_slash_not_found r path m :
  starts -> start_server f auth readiness_url = Done (Ok r) -> path <> "" ->
  resolve r m (path +:+ "/") = (NotFound, outer r) /\
  (forall x, x ∈ server_table -> rt_handler x <> Metrics -> NormalizePathTrimTrailingSlash ∈ rt_layers x).
Proof.
  intros Hs Hr Hpath. destruct (started_server r Hs Hr) as [Ht _]. split.
  - destruct (resolve_cases r server_table m (path +:+ "/") Ht server_overlap_free) as [(x & Hx & Hm & _)|[_ ->]]; [|done].
    exfalso. pose proof server_unslashed as Hu. rewrite forallb_forall in Hu.
    assert (unslashed (path_shape (rt_pattern x)) = true) as Hx'.
    { apply Hu, list_elem_of_In, list_elem_of_fmap. by exists x. }
    unfold path_matches in Hm. rewrite split_slash_snoc in Hm. pose proof (shape_matches_last _ _ Hm) as Hl.
    unfold unslashed in Hx'. rewrite (bool_decide_eq_true_2 _ Hl) in Hx'. cbn in Hx'.
    apply bool_decide_eq_true in Hx'. rewrite Hx' in Hm. apply Hpath, split_slash_empty.
    destruct (split_slash path) as [|g [|g2 gs]] eqn:E; cbn in Hm.
    + by apply split_slash_nonempty in E.
    + apply andb_true_iff in Hm as [Hg _]. by destruct g.
    + destruct gs; by rewrite !andb_false_r in Hm.
  - unfold server_table. intros x [(y & -> & _)%list_elem_of_fmap|Hx]%elem_of_app Hne.
    + cbn [deepen entry rt_layers]. unfold below_metrics. set_solver.
    + destruct (metrics f); [|by apply not_elem_of_nil in Hx]. by apply list_elem_of_singleton in Hx as ->.
Qed.

(** ** Readiness *)

(** The readiness probe answers 200 exactly when the sidecar does, and says what
    the database's status is without depending on it. *)
Lemma readyz_spec state q w :
  let '(answer, w') := probe_sidecar (sidecar_readiness_url state) w in
  let ready := is_some_and status_is_success answer in
  exists resp v, readyz state q w = (Returns resp, w') /\
    p_status resp = (if ready then 200 else 503) /\ p_body resp = ValueBody v /\
    pointer ["status"] v = Some (JString (if ready then "ok" else "unavailable")) /\
    pointer ["dependencies"; "sidecar"] v = Some (JString (if ready then "ok" else "unavailable")) /\
    pointer ["dependencies"; "database"] v = Some (JString (status_as_str (status (database w)))).
Proof.
  unfold readyz. destruct (probe_sidecar _ w) as [answer w']. destruct answer as [code|]; cbn [is_some_and].
  - destruct (status_is_success code); do 2 eexists; by repeat split.
  - do 2 eexists. by repeat split.
Qed.
End Props.

(** ** A reference host and stack, and the witnesses *)

Module RefTower.
Section Ref.
Context {U : UrlCrate} {N : Notify}.

(** Letting time pass. *)
Class Waits (W : Type) (H : Host (U := U) (N := N) W) : Type := {
  wait : Z -> W -> W;
  now_wait d w : now (wait d w) = now w + d;
  idles_wait d w : idles w (wait d w);
  idles_new_v7 w : idles w (new_v7 w).2
}.

Context {W : Type} {H : Host (U := U) (N := N) W} {Wt : Waits W H}.

Definition ref_layer (l : Layer W) (s : Svc W) : Svc W :=
  match l with
  | CatchPanicLayer h => fun q w =>
      let '(x, w) := s q w in (Returns (match x with Returns r => r | Unwinds p => h p end), w)
  | SetRequestIdLayer name make => fun q w =>
      match header_get name (q_headers q) with
      | Some _ => s q w
      | None => let '(id, w) := make q w in
                match id with
                | Some id => s (with_headers ((name, id) :: q_headers q) q) w
                | None => s q w
                end
      end
  | PropagateRequestIdLayer name => fun q w =>
      let '(x, w) := s q w in
      (match x, header_get name (q_headers q) with
       | Returns r, Some id =>
           Returns (if is_some (header_get name (p_headers r)) then r
                    else {| p_status := p_status r; p_headers := (name, id) :: p_headers r; p_body := p_body r |})
       | _, _ => x
       end, w)
  | FromFn m => m s
  | ExtensionLayer state => fun q w => s (with_state state q) w
  | DefaultBodyLimitDisable => fun q w => s (with_limits (q_body_limit q) false q) w
  | RequestBodyLimitLayer limit => fun q w =>
      match content_length q with
      | Some n => if n <=? limit then s (with_limits (Some n) (q_default_limit q) q) w
                  else (Returns (status_reply 413), w)
      | None => s (with_limits (Some limit) (q_default_limit q) q) w
      end
  | TimeoutLayer status d => fun q w =>
      if now (s q w).2 - now w <=? d then s q w else (Returns (status_reply status), wait d w)
  | _ => s
  end.

#[global] Instance tower : Tower W :=
  {| run_layer := ref_layer; governor_finish period burst := (0 <? period) && (0 <? burst);
     helmet_layer _ := true; client_builds := true; header_from_str s := Some s |}.

Lemma ref_passes_credential l (s s' : Svc W) q w :
  passes_credential l -> (forall q' w', same_credential q q' -> s q' w' = s' q' w') ->
  ref_layer l s q w = ref_layer l s' q w.
Proof.
  intros Hl Hs. destruct l; cbn [ref_layer] in *; try done; try (by apply Hs).
  - by rewrite (Hs q w).
  - destruct (content_length q) as [n|]; [destruct (n <=? limit)|]; try done; by apply Hs.
  - by rewrite (Hs q w).
  - cbn in Hl. subst name. destruct (header_get _ _); [by apply Hs|]. destruct (make_request_id q w) as [[id|] w1];
      by apply Hs.
  - by rewrite (Hs q w).
Qed.

Lemma ref_frame l (s : Svc W) (P : W -> W -> Prop) q w :
  PreOrder P -> (forall w w', idles w w' -> P w w') -> frames P l ->
  (forall q' w', same_sender q q' -> P w' (s q' w').2) -> P w (ref_layer l s q w).2.
Proof.
  intros HP Hidle [Hl Hmake] Hs. assert (forall w', P w' (s q w').2) as Hq by (intros w'; by apply Hs).
  destruct l; cbn [ref_layer] in *; try done; try (by apply Hs).
  - destruct (_ <=? _); [done|]. apply Hidle, idles_wait.
  - destruct (content_length q) as [n|]; [destruct (n <=? limit)|]; try by apply Hs. done.
  - specialize (Hq w). by destruct (s q w) as [[]].
  - cbn in Hl. subst name. destruct (header_get _ _); [done|]. specialize (Hmake q w).
    destruct (make_request_id q w) as [[id|] w1]; (etrans; [exact Hmake|]); by apply Hs.
  - specialize (Hq w). by destruct (s q w) as [[]].
Qed.

#[global] Instance laws : TowerLaws (H := H) (T := tower).
Proof.
  split; cbn.
  - done.
  - done.
  - done.
  - done.
  - done.
  - done.
  - intros limit s q w. destruct (content_length q) as [n|]; [|done]. destruct (n <=? limit); [done|]. by eexists.
  - intros status d s q w Hd. by rewrite (proj2 (Z.leb_le _ _)) by lia.
  - intros status d s q w Hd. rewrite (proj2 (Z.leb_gt _ _)) by done. eexists. split; [done|]. apply now_wait.
  - intros status d s q w. destruct (_ <=? _); [by left|right]. by eexists.
  - apply ref_passes_credential.
  - intros. by apply ref_frame.
  - intros period burst Hp Hb. by rewrite (proj2 (Z.ltb_lt _ _)), (proj2 (Z.ltb_lt _ _)).
  - done.
  - apply idles_new_v7.
Qed.

(** A starting database, a sidecar that answers 200, and a clock that numbers
    the UUIDs. *)
#[global] Instance host : Host (U := U) (N := N) Z :=
  {| database _ := starting; probe_sidecar _ w := (Some 200, w);
     new_v7 w := ("00000000-0000-7000-8000-" +:+ pretty w, w + 1); now w := w; idles _ _ := True |}.
#[global, refine] Instance waits : Waits Z host := {| wait d w := w + d |}.
Proof. all: done. Defined.
End Ref.
End RefTower.

Section Witnesses.
#[local] Existing Instances RefUrl.url RefNotify.permit RefTower.host RefTower.waits RefTower.tower RefAxum.axum RefSubtle.ct.

Definition sample_key : GatewayAuth := GatewayAuth_new (list_byte_of_string "key").
Definition sample_url : Url := DEFAULT_SIDECAR_READINESS_URL.

Definition sample_server : Routes (W := Z) :=
  match start_server production sample_key sample_url with
  | Done (Ok r) => r
  | _ => empty
  end.
Definition sample_app : Routes (W := Z) :=
  match app_router production sample_key with Done r => r | Panic _ => empty end.

Lemma sample_starts : starts (T := RefTower.tower) production.
Proof. by split. Qed.

Lemma sample_server_Ok : start_server production sample_key sample_url = Done (Ok sample_server).
Proof.
  unfold sample_server. destruct (app_builds (W := Z) (A := RefAxum.axum) RefAxum.held RefAxum.fallback production sample_key)
    as (app & Happ & Ht). unfold start_server. rewrite Happ. cbn [mbind outcome_bind].
  by destruct (serve_builds (W := Z) (A := RefAxum.axum) RefAxum.held RefAxum.fallback production sample_key sample_url app
    sample_starts Ht) as (r & -> & _).
Qed.
Lemma sample_app_Done : app_router production sample_key = Done sample_app.
Proof. reflexivity. Qed.

Definition get (path : string) (hs : HeaderMap) : Request :=
  {| q_method := GET; q_path := path; q_query := None; q_headers := hs; q_body := []; q_body_limit := None;
     q_default_limit := true; q_profile := None; q_state := None |}.

(** Every handler panics. *)
Definition panicking : Endpoint -> Svc Z := fun _ _ w => (Unwinds (PanicStr "secret"), w).
Definition polite : Endpoint -> Svc Z := fun _ _ w => (Returns (status_reply 200), w).

Lemma server_routes_witness :
  exists r, start_server production sample_key sample_url = Done (Ok r) /\
            RefAxum.held r = server_table (W := Z) production sample_key sample_url.
Proof.
  apply (server_routes (H := RefTower.host) (A := RefAxum.axum) RefAxum.held RefAxum.fallback production sample_key sample_url).
  exact sample_starts.
Defined.

Lemma server_answers_witness :
  exists ls, (resolve sample_server GET "/api/v1/models").2 = ls ++ request_id_layers /\
    serve_request panicking sample_server (get "/api/v1/models" [(AUTHORIZATION, "Bearer key")]) 0 =
    answered (stacked ls (run_target panicking (resolve sample_server GET "/api/v1/models").1))
      (get "/api/v1/models" [(AUTHORIZATION, "Bearer key")]) 0.
Proof.
  apply (server_answers (H := RefTower.host) (A := RefAxum.axum) RefAxum.held RefAxum.fallback production sample_key sample_url sample_server
           panicking (get "/api/v1/models" [(AUTHORIZATION, "Bearer key")])).
  - exact sample_starts.
  - exact sample_server_Ok.
Defined.

Example panic_says_nothing :
  (serve_request panicking sample_server (get "/api/v1/models" [(AUTHORIZATION, "Bearer key")]) 0).1 =
  Returns (json_reply 500 (json_object [("error", JString "internal server error")])).
Proof. reflexivity. Qed.

(** A body one byte over 20 MiB. *)
Definition oversized : Request :=
  {| q_method := POST; q_path := "/api/v1/chat/completions";
     q_query := None; q_headers := [(AUTHORIZATION, "Bearer key"); ("content-length", "20971521")];
     q_body := []; q_body_limit := None; q_default_limit := true; q_profile := None; q_state := None |}.

Lemma protected_contract_witness :
  exists resp, serve_request panicking sample_app oversized 0 = (Returns resp, 0) /\ p_status resp = 413.
Proof.
  assert (entry POST "/api/v1/chat/completions" ChatCompletions (limits production Inference ++ guard sample_key)
            ∈ protected_table (W := Z) production sample_key) as Hx by (unfold protected_table; set_solver).
  exact (protected_contract (H := RefTower.host) (A := RefAxum.axum) RefAxum.held RefAxum.fallback production
    sample_key sample_app panicking _ oversized 0 sample_app_Done Hx eq_refl eq_refl).
Defined.

Lemma unauthenticated_runs_nothing_witness :
  serve_request panicking sample_server (get "/api/v1/generation" []) 0 =
  serve_request (fun e => if is_public e then panicking e else polite e) sample_server (get "/api/v1/generation" []) 0.
Proof.
  apply (unauthenticated_runs_nothing (H := RefTower.host) (A := RefAxum.axum) RefAxum.held RefAxum.fallback production sample_key sample_url).
  - exact sample_starts.
  - exact sample_server_Ok.
  - reflexivity.
  - reflexivity.
Defined.

Lemma trailing_slash_not_found_witness :
  resolve sample_server GET ("/api/v1/models" +:+ "/") = (NotFound, RefAxum.fallback sample_server) /\
  (forall x, x ∈ server_table (W := Z) production sample_key sample_url ->
     rt_handler x <> Metrics -> NormalizePathTrimTrailingSlash ∈ rt_layers x).
Proof.
  apply (trailing_slash_not_found (H := RefTower.host) (A := RefAxum.axum) RefAxum.held RefAxum.fallback production sample_key sample_url).
  - exact sample_starts.
  - exact sample_server_Ok.
  - discriminate.
Defined.
End Witnesses.
