(* ===== verification/Gateway.v ===== *)
(** The handlers behind the routes: [proxy.rs]'s completions, [ledger.rs]'s
    generation lookup and [catalog.rs]'s listings as services of the server
    ([Server]), over the state the running service shares ([Service]).

    A handler runs at once here: its steps are one interleaving of [Service]
    ([ServiceForward]).  What it leaves running (the body it streams, its ledger
    insert) are tasks of the world, and steps of the world can come between
    requests. *)

From Stdlib Require Import ZArith Strings.Byte.
From S2P Require Import Prelude Float64 RustDecimal RoutingProfile Registry Json Preference Measurements.
From S2P Require Import Share Select Config Routing Pricing UsageCost Sse Database Ledger Generation Catalog.
From S2P Require Import Proxy Service ServiceForward GatewayAuth Axum Server.

#[local] Open Scope Z_scope.

(** ** Extractors *)

Section Extract.
Context {U : UrlCrate}.

(** [bytes]: the [Bytes] extractor, or the response it refuses with;
    [path_param]: a captured segment, percent-decoded, unless that is not UTF-8;
    [query_field]: a field of the URL-encoded query. *)
Class Extract : Type := {
  bytes : Request -> result HttpResponse (list byte);
  path_param : string -> option string;
  query_field : string -> option string -> option string
}.

(** axum's limit on what an extractor buffers: 2 MiB. *)
Definition DEFAULT_BODY_LIMIT : Z := 2 * 1048576.

Definition body_length (q : Request) : Z := Z.of_nat (length (q_body q)).

(** Nothing the layers or the default set stops the body from being read. *)
Definition readable (q : Request) : bool :=
  match q_body_limit q with Some limit => body_length q <=? limit | None => true end &&
  (negb (q_default_limit q) || (body_length q <=? DEFAULT_BODY_LIMIT)).

Definition no_percent (s : string) : bool := forallb (fun c => negb (Ascii.eqb c "%")) (list_ascii_of_string s).

(** Documented: a body within its limits is buffered, a longer one refused with
    413; decoding changes percent escapes only, [%2F] to a slash. *)
Class ExtractLaws (E : Extract) : Prop := {
  law_bytes q : readable q = true -> bytes q = Ok (q_body q);
  law_bytes_limit q : readable q = false -> exists r, bytes q = Err r /\ p_status r = 413;
  law_path_plain s : no_percent s = true -> path_param s = Some s;
  law_path_slash s t :
    no_percent s = true -> no_percent t = true -> path_param (s +:+ "%2F" +:+ t) = Some (s +:+ "/" +:+ t)
}.
End Extract.

(** The segments a pattern captures of a path. *)
Fixpoint captures (shape : list (option string)) (segments : list string) : list string :=
  match shape, segments with
  | None :: shape, segment :: segments => segment :: captures shape segments
  | Some _ :: shape, _ :: segments => captures shape segments
  | _, _ => []
  end.

Definition path_params (pattern path : string) : list string := captures (path_shape pattern) (split_slash path).

Section Gateway.
Context {D : RustDecimal} {R : RandCrate} {J : SerdeJson} {U : UrlCrate} {T : Jiff} {N : Notify} {E : Extract}.

(** ** The process and its surroundings *)

(** What the environment gives the [k]-th handler or probe. *)
Record Surroundings : Type := {
  su_sidecar : nat -> Sidecar;
  su_clock : nat -> Clock;
  su_delivery : nat -> Delivery;
  su_took : Endpoint -> nat -> Z;
  su_probe : nat -> Url -> option Z;
  su_uuid : nat -> string
}.

Record Site : Type := { st_world : World; st_turn : nat; st_now : Z }.

Definition with_world (w : World) (s : Site) : Site :=
  {| st_world := w; st_turn := st_turn s; st_now := st_now s |}.

Context (su : Surroundings).

(** The next turn, after [nanos]. *)
Definition turned (nanos : Z) (s : Site) : Site :=
  {| st_world := st_world s; st_turn := S (st_turn s); st_now := st_now s + nanos |}.

#[export] Instance site_host : Host Site := {|
  database s := health (w_database (st_world s));
  probe_sidecar url s := (su_probe su (st_turn s) url, turned 0 s);
  new_v7 s := (su_uuid su (st_turn s), turned 0 s);
  now := st_now;
  idles s s' := st_world s' = st_world s
|}.

(** ** Responses *)

Definition header (name : string) (value : option string) : HeaderMap :=
  match value with Some value => [(name, value)] | None => [] end.

(** [proxy.rs]'s response; [task] is the one that streams its body. *)
Definition http_response (task : nat) (r : Proxy.Response) : HttpResponse :=
  {| p_status := r_status r;
     p_headers := header CONTENT_TYPE (r_content_type r) ++ header GENERATION_ID_HEADER (r_generation_id r);
     p_body := match r_body r with
               | inl (FullBody bytes) => BytesBody bytes
               | inl (JsonBody value) => ValueBody value
               | inl (UpstreamBody arrivals) => StreamBody (ar_item <$> arrivals)
               | inr _ => PolledBody task
               end |}.

(** ** Handlers *)

Definition returns (r : HttpResponse) (s : Site) : Served * Site := (Returns r, s).

(** A handler's response and world, or its panic. *)
Definition handled (x : outcome (HttpResponse * World)) (s : Site) : Served * Site :=
  match x with
  | Done (r, w) => (Returns r, with_world w s)
  | Panic msg => (Unwinds (PanicString msg), s)
  end.

(** A handler that takes its time. *)
Definition timed (e : Endpoint) (svc : Svc Site) : Svc Site := fun q s =>
  let '(x, s') := svc q s in (x, turned (su_took su e (st_turn s)) s').

(** [Extension(profile)]: refused when the middleware has not run. *)
Definition with_extension (next : RoutingProfile -> Svc Site) : Svc Site := fun q s =>
  match q_profile q with
  | Some profile => next profile q s
  | None => returns (status_reply 500) s
  end.

(** [Path]'s parameters. *)
Definition with_path (pattern : string) (next : list string -> Svc Site) : Svc Site := fun q s =>
  match mapM path_param (path_params pattern (q_path q)) with
  | Some params => next params q s
  | None => returns (status_reply 400) s
  end.

Context (proxy : ProxyState) (ledger : Ledger) (catalog : Catalog).

(** [chat_completions] and [legacy_completions]. *)
Definition serve_completions (endpoint : CompletionEndpoint) : Svc Site := with_extension (fun profile q s =>
  match bytes q with
  | Err r => returns r s
  | Ok body =>
      let w := st_world s in
      handled (forward (su_sidecar su (st_turn s)) proxy (w_store w) (w_routing w) profile endpoint
                 (su_clock su (st_turn s)) body ≫= fun out =>
               Done (http_response (length (w_tasks w)) (fo_response out), settled out w)) s
  end).

Definition serve_generation : Svc Site := with_extension (fun profile q s =>
  let w := st_world s in
  handled (Ledger.get_generation ledger (su_delivery su (st_turn s)) profile (query_field "id" (q_query q)) (ledger_of w)
             ≫= fun '(r, l) => Done (json_reply r.1 r.2, looked_up l w)) s).

Definition serve_models : Svc Site := with_extension (fun profile q s =>
  handled (Catalog.get_models catalog profile ≫= fun r => Done (json_reply 200 (models_value r), st_world s)) s).

Definition MODEL_ENDPOINTS : string := "/api/v1/models/{model}/endpoints".
Definition AUTHOR_ENDPOINTS : string := "/api/v1/models/{author}/{slug}/endpoints".

Definition endpoints_handled (r : outcome EndpointResponse) (s : Site) : Served * Site :=
  handled (r ≫= fun r => Done (json_reply (endpoint_reply r).1 (endpoint_reply r).2, st_world s)) s.

(** A [Path] of the wrong arity cannot be: the pattern is the route's. *)
Definition serve_model_endpoints : Svc Site := with_extension (fun profile => with_path MODEL_ENDPOINTS (fun params q s =>
  match params with
  | [model] => endpoints_handled (Catalog.get_model_endpoints catalog profile model) s
  | _ => returns (status_reply 500) s
  end)).

Definition serve_model_endpoints_by_author : Svc Site := with_extension (fun profile => with_path AUTHOR_ENDPOINTS (fun params q s =>
  match params with
  | [author; slug] => endpoints_handled (Catalog.get_model_endpoints_by_author catalog profile author slug) s
  | _ => returns (status_reply 500) s
  end)).

(** [render_metrics] is the Prometheus handle's. *)
Context (render_metrics : Svc Site).

Definition handlers (e : Endpoint) : Svc Site := timed e
  match e with
  | ChatCompletions => serve_completions Chat
  | LegacyCompletions => serve_completions Legacy
  | GetGeneration => serve_generation
  | GetModels => serve_models
  | GetModelEndpoints => serve_model_endpoints
  | GetModelEndpointsByAuthor => serve_model_endpoints_by_author
  | _ => render_metrics
  end.

(** ** Histories *)

(** A request served, or steps of the world's tasks in between. *)
Inductive Turn : Type :=
| Serves (q : Request)
| Runs (ls : list Label).

Context {To : Tower Site} {A : Axum (Layer Site) Endpoint}.

Fixpoint serve_history (r : Routes) (ts : list Turn) (s : Site) : outcome (list Served * Site) :=
  match ts with
  | [] => Done ([], s)
  | Serves q :: ts =>
      let '(x, s) := serve_request handlers r q s in
      serve_history r ts s ≫= fun '(xs, s) => Done (x :: xs, s)
  | Runs ls :: ts =>
      run proxy ledger ls (st_world s) ≫= fun '(w, _) => serve_history r ts (with_world w s)
  end.
End Gateway.

(** ** Reference extractors *)

Module RefExtract.
Section Ref.
Context {U : UrlCrate}.

(** Percent-decoding of the slash alone. *)
Fixpoint decode (s : string) : string :=
  match s with
  | String "%" (String "2" (String "F" rest)) => String "/" (decode rest)
  | String c rest => String c (decode rest)
  | EmptyString => EmptyString
  end.

(** The first field of the query. *)
Definition first_field (name : string) (query : option string) : option string :=
  query ≫= strip_prefix (name +:+ "=").

#[global] Instance extract : Extract :=
  {| bytes q := if readable q then Ok (q_body q) else Err (status_reply 413);
     path_param s := Some (decode s);
     query_field := first_field |}.

Lemma decode_plain s t : no_percent s = true -> decode (s +:+ t) = s +:+ decode t.
Proof.
  induction s as [|c s IH]; [done|]. unfold no_percent. cbn [list_ascii_of_string forallb].
  intros [Hc Hs]%andb_true_iff. change (String c s +:+ t) with (String c (s +:+ t)).
  change (String c s +:+ decode t) with (String c (s +:+ decode t)). rewrite <- IH by done.
  apply negb_true_iff, Ascii.eqb_neq in Hc. cbn [decode].
  by destruct c as [[] [] [] [] [] [] [] []].
Qed.

Lemma app_empty (s : string) : s +:+ "" = s.
Proof. induction s as [|c s IH]; [done|]. change (String c s +:+ "") with (String c (s +:+ "")). by rewrite IH. Qed.

#[global] Instance laws : ExtractLaws extract.
Proof.
  split; cbn [bytes path_param extract].
  - by intros q ->.
  - intros q ->. by eexists.
  - intros s Hs. rewrite <- (app_empty s) at 1. rewrite decode_plain by done. cbn [decode]. by rewrite app_empty.
  - intros s t Hs Ht. f_equal. rewrite decode_plain by done. f_equal.
    change ("%2F" +:+ t) with (String "%" (String "2" (String "F" t))). cbn [decode].
    change ("/" +:+ t) with (String "/" t). f_equal. rewrite <- (app_empty t) at 1. rewrite decode_plain by done.
    cbn [decode]. by rewrite app_empty.
Qed.
End Ref.
End RefExtract.
