(* ===== verification/GatewayProps.v ===== *)
(** The properties of the whole gateway: the handlers ([Gateway]) behind the
    server's routes, credential check and limits ([Server]), over the running
    service ([Service]). *)

From Stdlib Require Import QArith ZArith Strings.Byte.
From S2P Require Import Prelude Float64 RustDecimal RoutingProfile Registry Json Preference Measurements.
From S2P Require Import Share Select Config Routing RoutingSpec Pricing UsageCost Sse SseProps Database Ledger Generation Catalog.
From S2P Require Import SidecarConfig SidecarProps StreamProps Proxy ProxyProps Service ServiceProps ServiceForward ServiceIsolation.
From S2P Require Import CatalogProps Fixtures GatewayAuth Axum Server ServerProps Gateway.

#[local] Open Scope Z_scope.

Section Props.
Context {D : RustDecimal} {R : RandCrate} {J : SerdeJson} {U : UrlCrate} {T : Jiff} {N : Notify}.
Context {E : Extract} {EL : ExtractLaws E} (su : Surroundings).
#[local] Instance host : Host Site := site_host su.
Context {To : Tower Site} {TL : TowerLaws (H := host) (T := To)} {C : ConstantTimeEq}.
Context {A : Axum (Layer Site) Endpoint} (routes : Routes -> list (Route (Layer Site) Endpoint))
        (outer : Routes -> list (Layer Site)) {AL : AxumLaws A routes outer}.
Context (f : Features) (auth : GatewayAuth).
Context (proxy : ProxyState) (ledger : Ledger) (catalog : Catalog) (render_metrics : Svc Site).

Notation app := (handlers su proxy ledger catalog render_metrics).

(** ** Requests for protected routes *)

(** The request is one of a protected route's. *)
Definition requests (x : Route (Layer Site) Endpoint) (q : Request) : Prop :=
  x ∈ protected_table f auth /\ path_matches (rt_pattern x) (q_path q) = true /\
  answers (rt_method x) (q_method q) = true.

(** Its handler ends before its class's timeout. *)
Definition in_time (e : Endpoint) (s : Site) : Prop := su_took su e (st_turn s) < time_limit (class_of e).

Lemma requests_protected x q : requests x q -> is_public (rt_handler x) = false.
Proof. intros (Hx & _). by apply (protected_private f auth). Qed.

(** A service that only answers: the clock and the turn are its wrapper's. *)
Definition steady (svc : Svc Site) : Prop :=
  forall q s, st_now (svc q s).2 = st_now s /\ st_turn (svc q s).2 = st_turn s.

Lemma handled_steady x s : st_now (handled x s).2 = st_now s /\ st_turn (handled x s).2 = st_turn s.
Proof. by destruct x as [[r w]|msg]. Qed.

Lemma extension_steady next : (forall p, steady (next p)) -> steady (with_extension next).
Proof. intros H q s. unfold with_extension. destruct (q_profile q); [apply H|done]. Qed.

Lemma path_steady pattern next : (forall ps, steady (next ps)) -> steady (with_path pattern next).
Proof. intros H q s. unfold with_path. destruct (mapM _ _); [apply H|done]. Qed.

Lemma completions_steady endpoint : steady (serve_completions su proxy endpoint).
Proof. apply extension_steady. intros p q s. destruct (bytes q); [apply handled_steady|done]. Qed.
Lemma generation_steady : steady (serve_generation su ledger).
Proof. apply extension_steady. intros p q s. apply handled_steady. Qed.
Lemma models_steady : steady (serve_models catalog).
Proof. apply extension_steady. intros p q s. apply handled_steady. Qed.
Lemma model_endpoints_steady : steady (serve_model_endpoints catalog).
Proof.
  apply extension_steady. intros p. apply path_steady. intros [|m [|m2 ms]] q s; try done. apply handled_steady.
Qed.
Lemma author_endpoints_steady : steady (serve_model_endpoints_by_author catalog).
Proof.
  apply extension_steady. intros p. apply path_steady. intros [|m [|m2 [|m3 ms]]] q s; try done. apply handled_steady.
Qed.

Lemma timed_now e svc q s : steady svc -> st_now (timed su e svc q s).2 = st_now s + su_took su e (st_turn s).
Proof. intros H. destruct (H q s) as [Hn _]. unfold timed. destruct (svc q s) as [x s']. cbn in *. by rewrite Hn. Qed.

(** What a protected route's handler spends. *)
Lemma handler_now e q s :
  is_public e = false ->
  st_now (run_endpoint app e q s).2 =
  st_now s + match e with GetAuthKey | GetCredits => 0 | _ => su_took su e (st_turn s) end.
Proof.
  intros He. destruct e; try done; cbn [run_endpoint snd]; try lia; apply timed_now.
  - apply completions_steady.
  - apply completions_steady.
  - apply generation_steady.
  - apply models_steady.
  - apply author_endpoints_steady.
  - apply model_endpoints_steady.
Qed.

Lemma time_limit_pos c : 0 < time_limit c.
Proof. by destruct c. Qed.

(** A credentialed request within its limits, through the whole stack. *)
Lemma serve_admitted r x q s p :
  app_router f auth = Done r -> requests x q -> presented_profile auth (q_headers q) = Some p ->
  declares_too_much f (class_of (rt_handler x)) q = false ->
  serve_request app r q s =
    run_layer (TimeoutLayer 408 (time_limit (class_of (rt_handler x)))) (run_endpoint app (rt_handler x))
      (admitted f (class_of (rt_handler x)) p q) s.
Proof.
  intros Hr (Hx & Hm & Ha) Hp Hd.
  rewrite (protected_stack routes outer f auth r _ x q s Hr Hx Hm Ha), (authorized_runs auth _ q s p Hp).
  pose proof (limits_apply f (class_of (rt_handler x)) p (run_endpoint app (rt_handler x)) q s) as Hl.
  by rewrite Hd in Hl.
Qed.

Lemma serve_protected r x q s p :
  app_router f auth = Done r -> requests x q -> presented_profile auth (q_headers q) = Some p ->
  declares_too_much f (class_of (rt_handler x)) q = false -> in_time (rt_handler x) s ->
  serve_request app r q s = run_endpoint app (rt_handler x) (admitted f (class_of (rt_handler x)) p q) s.
Proof.
  intros Hr Hx Hp Hd Ht. rewrite (serve_admitted r x q s p Hr Hx Hp Hd). apply law_timeout.
  change (@now U N Site host) with (st_now (D := D) (R := R) (T := T) (N := N)).
  rewrite handler_now by by eapply requests_protected. unfold in_time in Ht.
  pose proof (time_limit_pos (class_of (rt_handler x))). destruct (rt_handler x); lia.
Qed.

(** Any other request for a protected route is refused where it stands. *)
Lemma serve_refused r x q s :
  app_router f auth = Done r -> requests x q ->
  presented_profile auth (q_headers q) = None \/ declares_too_much f (class_of (rt_handler x)) q = true ->
  exists resp, serve_request app r q s = (Returns resp, s) /\
    p_status resp = if presented_profile auth (q_headers q) then 413 else 401.
Proof.
  intros Hr (Hx & Hm & Ha) Hd.
  rewrite (protected_stack routes outer f auth r _ x q s Hr Hx Hm Ha).
  destruct (presented_profile auth (q_headers q)) as [p|] eqn:Hp.
  - destruct Hd as [|Hd]; [done|]. rewrite (authorized_runs auth _ q s p Hp).
    pose proof (limits_apply f (class_of (rt_handler x)) p (run_endpoint app (rt_handler x)) q s) as Hl.
    by rewrite Hd in Hl.
  - eexists. split; [by apply guarded_refuses|done].
Qed.

(** ** Completions *)

Definition completion_endpoint (e : CompletionEndpoint) : Endpoint :=
  match e with Chat => ChatCompletions | Legacy => LegacyCompletions end.
Definition completion_path (e : CompletionEndpoint) : string :=
  match e with Chat => "/api/v1/chat/completions" | Legacy => "/api/v1/completions" end.

(** The largest completion request that is read. *)
Definition completion_limit : Z := if payload_limit f then INFERENCE_PAYLOAD_SIZE_BYTES else DEFAULT_BODY_LIMIT.

(** A request as it comes off the connection: no layer has limited it yet, and
    a declared length is its body's. *)
Record fresh (q : Request) : Prop := {
  fr_limit : q_body_limit q = None;
  fr_default : q_default_limit q = true;
  fr_length : forall n, content_length q = Some n -> n = body_length q
}.

Lemma completion_requests e q :
  q_method q = POST -> q_path q = completion_path e ->
  requests (entry POST (completion_path e) (completion_endpoint e) (limits f Inference ++ guard auth)) q.
Proof using Type.
  intros Hm Hp. unfold requests. rewrite Hp, Hm. split_and!; [|by destruct e|done].
  unfold protected_table. destruct e; cbn [completion_path completion_endpoint]; repeat (apply list_elem_of_here || apply list_elem_of_further).
Qed.

Lemma too_much_unreadable q :
  fresh q -> declares_too_much f Inference q = true -> completion_limit < body_length q.
Proof.
  intros [_ _ Hl]. unfold declares_too_much, completion_limit. destruct (payload_limit f); [|done].
  cbn [andb]. destruct (content_length q) as [n|]; [|done]. cbn. rewrite (Hl n eq_refl). intros H. unfold size_limit in H. lia.
Qed.

Lemma admitted_readable p q :
  fresh q -> declares_too_much f Inference q = false ->
  readable (admitted f Inference p q) = (body_length q <=? completion_limit).
Proof.
  intros [Hb Hd Hl]. unfold declares_too_much, completion_limit, admitted, readable.
  destruct (payload_limit f); cbn [andb with_limits with_profile q_body_limit q_default_limit negb orb].
  - change (body_length (with_limits _ _ _)) with (body_length q). rewrite andb_true_r.
    destruct (content_length q) as [n|]; cbn [default is_some_and]; [|done].
    rewrite (Hl n eq_refl). unfold size_limit. intros H. rewrite Z.leb_refl. lia.
  - rewrite Hb, Hd. done.
Qed.

Lemma completion_runs e p q s :
  run_endpoint app (completion_endpoint e) (admitted f Inference p q) s =
  timed su (completion_endpoint e) (serve_completions su proxy e) (admitted f Inference p q) s.
Proof. by destruct e. Qed.

Lemma admitted_profile c p q : q_profile (admitted f c p q) = Some p.
Proof. unfold admitted. by destruct (payload_limit f). Qed.
Lemma admitted_path c p q : q_path (admitted f c p q) = q_path q.
Proof. unfold admitted. by destruct (payload_limit f). Qed.
Lemma admitted_body c p q : q_body (admitted f c p q) = q_body q.
Proof. unfold admitted. by destruct (payload_limit f). Qed.

(** C9: A completion, end to end: on the application's router, a completion
    request without a profile's key gets the 401 and changes nothing; with one
    and a body over the limit (20 MiB with the payload-limit feature, axum's 2
    MiB without it) it gets a 413, if its handler ends within ten minutes, and
    nothing in the service changes; otherwise,
    if its handler ends within ten minutes, it is answered exactly what
    [forward] answers under its credential's profile and leaves exactly
    [forward]'s state, measurements and tasks, and if the handler would take
    longer it is answered 408 after ten minutes. *)
Theorem completion_contract r e q s :
  app_router f auth = Done r -> fresh q -> q_method q = POST -> q_path q = completion_path e ->
  match presented_profile auth (q_headers q) with
  | None => exists resp, serve_request app r q s = (Returns resp, s) /\ p_status resp = 401
  | Some p =>
      let took := su_took su (completion_endpoint e) (st_turn s) in
      if body_length q <=? completion_limit then
        (took < INFERENCE_REQUEST_TIMEOUT -> forall out,
         forward (su_sidecar su (st_turn s)) proxy (w_store (st_world s)) (w_routing (st_world s)) p e
           (su_clock su (st_turn s)) (q_body q) = Done out ->
         serve_request app r q s =
           (Returns (http_response (length (w_tasks (st_world s))) (fo_response out)),
            turned took (with_world (settled out (st_world s)) s))) /\
        (INFERENCE_REQUEST_TIMEOUT < took ->
         exists s', serve_request app r q s = (Returns (status_reply 408), s') /\
                    st_now s' = st_now s + INFERENCE_REQUEST_TIMEOUT)
      else took < INFERENCE_REQUEST_TIMEOUT ->
        exists resp s', serve_request app r q s = (Returns resp, s') /\ p_status resp = 413 /\
                        st_world s' = st_world s
  end.
Proof.
  intros Hr Hfresh Hm Hp. pose proof (completion_requests e q Hm Hp) as Hx.
  set (x := entry _ _ _ _) in Hx.
  assert (class_of (rt_handler x) = Inference) as Hc by by destruct e.
  destruct (presented_profile auth (q_headers q)) as [p|] eqn:Hpp; cbv zeta.
  2:{ destruct (serve_refused r x q s Hr Hx (or_introl Hpp)) as (resp & Hs & Hst). exists resp. by rewrite Hpp in Hst. }
  pose proof (too_much_unreadable q Hfresh) as Htoo. pose proof (admitted_readable p q Hfresh) as Hread.
  pose proof (serve_protected r x q s p Hr Hx Hpp) as Hserve. pose proof (serve_admitted r x q s p Hr Hx Hpp) as Hadm.
  unfold in_time in Hserve. rewrite Hc in Hserve, Hadm.
  change (rt_handler x) with (completion_endpoint e) in Hserve, Hadm. rewrite completion_runs in Hserve.
  unfold timed, serve_completions, with_extension in Hserve. rewrite admitted_profile in Hserve.
  destruct (body_length q <=? completion_limit) eqn:Hl.
  - destruct (declares_too_much f Inference q); [specialize (Htoo eq_refl); lia|].
    specialize (Hread eq_refl). split.
    + intros Ht out Hout. rewrite (Hserve eq_refl Ht), (law_bytes _ Hread), admitted_body, Hout. done.
    + intros Ht. rewrite (Hadm eq_refl). apply (law_timeout_fires (H := host)).
      change (@now U N Site host) with (st_now (D := D) (R := R) (T := T) (N := N)).
      rewrite handler_now by by destruct e. cbn [time_limit]. destruct e; cbn in Ht |- *; lia.
  - intros Ht. destruct (declares_too_much f Inference q) eqn:Hd.
    + destruct (serve_refused r x q s Hr Hx) as (resp & Hs & Hst); [right; by rewrite Hc|]. rewrite Hpp in Hst. by exists resp, s.
    + specialize (Hread eq_refl). destruct (law_bytes_limit _ Hread) as (resp & Hb & Hst).
      rewrite (Hserve eq_refl Ht), Hb. by do 2 eexists.
Qed.

(** ** What a handler does to the service *)

(** A handler's response and world: an answer that changes nothing, a
    completion, a lookup, or a catalog snapshot's answer. *)
Inductive effect (q : Request) (s : Site) : outcome (HttpResponse * World) -> Prop :=
| ef_answer resp : effect q s (Done (resp, st_world s))
| ef_completion p endpoint body :
    q_profile q = Some p ->
    effect q s (forward (su_sidecar su (st_turn s)) proxy (w_store (st_world s)) (w_routing (st_world s)) p endpoint
                  (su_clock su (st_turn s)) body ≫= fun out =>
                Done (http_response (length (w_tasks (st_world s))) (fo_response out), settled out (st_world s)))
| ef_lookup p query :
    effect q s (Ledger.get_generation ledger (su_delivery su (st_turn s)) p query (ledger_of (st_world s)) ≫= fun '(r, l) =>
                Done (json_reply r.1 r.2, looked_up l (st_world s)))
| ef_catalog p (answer : CatalogSnapshot -> HttpResponse) :
    effect q s (snapshot catalog p ≫= fun snap => Done (answer snap, st_world s)).

(** The service has the effect [x], whatever the time it takes. *)
Definition has_effect (svc : Svc Site) (q : Request) (s : Site) (x : outcome (HttpResponse * World)) : Prop :=
  (svc q s).1 = (handled x s).1 /\ st_world (svc q s).2 = st_world (handled x s).2.

Lemma timed_effect e svc q s x : has_effect svc q s x -> has_effect (timed su e svc) q s x.
Proof. unfold has_effect, timed. by destruct (svc q s). Qed.

Definition effects (svc : Svc Site) : Prop := forall q s, exists x, effect q s x /\ has_effect svc q s x.

Lemma extension_effects next :
  (forall p q s, q_profile q = Some p -> exists x, effect q s x /\ has_effect (next p) q s x) -> effects (with_extension next).
Proof.
  intros H q s. unfold has_effect, with_extension. destruct (q_profile q) as [p|] eqn:Hp; [by apply H|].
  by exists (Done (status_reply 500, st_world s)); split; [constructor|].
Qed.

Lemma path_effects pattern next q s :
  (forall ps, exists x, effect q s x /\ has_effect (next ps) q s x) ->
  exists x, effect q s x /\ has_effect (with_path pattern next) q s x.
Proof.
  intros H. unfold has_effect, with_path. destruct (mapM _ _) as [ps|]; [apply H|].
  by exists (Done (status_reply 400, st_world s)); split; [constructor|].
Qed.

Lemma answer_effect resp q s : exists x, effect q s x /\ has_effect (fun _ => returns resp) q s x.
Proof. by exists (Done (resp, st_world s)); split; [constructor|]. Qed.

Lemma endpoint_effect p slug q s :
  exists x, effect q s x /\ has_effect (fun _ => endpoints_handled (endpoint_response catalog p slug)) q s x.
Proof.
  exists (snapshot catalog p ≫= fun snap => Done (json_reply (endpoint_reply (snapshot_endpoint_response snap slug)).1
            (endpoint_reply (snapshot_endpoint_response snap slug)).2, st_world s)).
  split; [constructor|]. unfold has_effect, endpoints_handled, endpoint_response. by destruct (snapshot catalog p).
Qed.

Lemma timed_effects e svc q s : effects svc -> exists x, effect q s x /\ has_effect (timed su e svc) q s x.
Proof. intros H. destruct (H q s) as (x & Hx & Hs). exists x. split; [done|]. by apply timed_effect. Qed.

Lemma completions_effects endpoint : effects (serve_completions su proxy endpoint).
Proof.
  apply extension_effects. intros p q s Hp. unfold has_effect.
  destruct (bytes q) as [body|resp]; [|apply answer_effect].
  eexists. split; [by apply (ef_completion _ _ p endpoint body)|done].
Qed.

Lemma generation_effects : effects (serve_generation su ledger).
Proof. apply extension_effects. intros p q s _. eexists. split; [apply ef_lookup|by split]. Qed.

Lemma models_effects : effects (serve_models catalog).
Proof.
  apply extension_effects. intros p q s _. eexists.
  split; [apply (ef_catalog _ _ p (fun snap => json_reply 200 (models_value (response snap))))|].
  unfold has_effect, Catalog.get_models. by destruct (snapshot catalog p).
Qed.

Lemma model_endpoints_effects : effects (serve_model_endpoints catalog).
Proof.
  apply extension_effects. intros p q s _. apply path_effects. intros [|m [|m2 ms]]; try apply answer_effect.
  apply endpoint_effect.
Qed.

Lemma author_endpoints_effects : effects (serve_model_endpoints_by_author catalog).
Proof.
  apply extension_effects. intros p q s _. apply path_effects. intros [|m [|m2 [|m3 ms]]]; try apply answer_effect.
  apply endpoint_effect.
Qed.

Lemma handler_effects e q s :
  is_public e = false -> exists x, effect q s x /\ has_effect (run_endpoint app e) q s x.
Proof.
  intros He. destruct e; try done; cbn [run_endpoint];
    lazymatch goal with
    | |- context [app _] => apply timed_effects
    | _ => apply answer_effect
    end.
  - apply completions_effects.
  - apply completions_effects.
  - apply generation_effects.
  - apply models_effects.
  - apply author_endpoints_effects.
  - apply model_endpoints_effects.
Qed.

(** ** Profiles *)

Lemma handler_isolates e q s p p' :
  is_public e = false -> q_profile q = Some p' -> p' <> p ->
  same_slice p (st_world s) (st_world (run_endpoint app e q s).2).
Proof.
  intros He Hq Hp. destruct (handler_effects e q s He) as (y & Hy & _ & ->).
  destruct Hy as [resp|p2 endpoint body Hp2|p2 query|p2 answer]; [done| | |].
  - rewrite Hq in Hp2. injection Hp2 as <-.
    destruct (forward _ _ _ _ _ _ _ _) as [out|] eqn:Hout; [|done]. cbn.
    by apply (forward_other proxy _ _ p) in Hout as [Hw Hm]; [split|].
  - destruct (get_generation _ _ _ _ _) as [[r' l]|] eqn:Hg; [|done]. cbn.
    split; [done|done|]. cbn. by rewrite (get_generation_table _ _ _ _ _ _ _ Hg).
  - by destruct (snapshot catalog p2).
Qed.

Definition same_site_slice (p : RoutingProfile) (s s' : Site) : Prop := same_slice p (st_world s) (st_world s').

#[local] Instance same_site_slice_preorder p : PreOrder (same_site_slice p).
Proof. unfold same_site_slice. split; [done|]. intros x y z Hxy Hyz. by etrans. Qed.

(** What the public endpoints leave as it was. *)
Lemma public_still e q s :
  (forall q s, st_world (render_metrics q s).2 = st_world s) ->
  is_public e = true -> st_world (run_endpoint app e q s).2 = st_world s.
Proof.
  intros Hm He. destruct e; try done; cbn [run_endpoint].
  - destruct (q_state q) as [state|]; [|done]. unfold readyz. cbn.
    destruct (su_probe su (st_turn s) _) as [code|]; [|done]. by destruct (status_is_success code).
  - unfold handlers, timed. specialize (Hm q s). by destruct (render_metrics q s).
Qed.

(** C16: Profiles stay apart, end to end: through the whole started server, with
    any cargo features, a request that does not present a profile's key leaves
    that profile's rolling windows, measurements and ledger rows as they were,
    whatever it asks for, whatever else it presents, and whether it is refused,
    answered, cut off or panics. *)
Theorem gateway_isolates readiness_url r q s p :
  starts f -> start_server f auth readiness_url = Done (Ok r) ->
  (forall q s, st_world (render_metrics q s).2 = st_world s) ->
  presented_profile auth (q_headers q) <> Some p ->
  same_slice p (st_world s) (st_world (serve_request app r q s).2).
Proof.
  intros Hs Hr Hm Hp.
  apply (server_frame routes outer f auth readiness_url (same_site_slice p)) with (r := r); try done.
  - unfold same_site_slice. by intros x y ->.
  - intros e q' s' He. unfold same_site_slice. by rewrite (public_still e q' s' Hm He).
  - intros e p' q' s' He Hp' Hq'. eapply handler_isolates; [done|done|]. congruence.
Qed.

(** ** The two forms of an endpoint's path *)

(** A path segment without a slash or an escape. *)
Definition segment (s : string) : Prop :=
  s <> "" /\ no_percent s = true /\ no_slash s = true.

Lemma split_slash_segment a s :
  no_slash a = true ->
  split_slash (a +:+ "/" +:+ s) = a :: split_slash s.
Proof.
  induction a as [|c a IH]; intros Ha.
  { change ("" +:+ "/" +:+ s) with (String "/" s). cbn [split_slash]. pose proof (split_slash_nonempty s). by destruct (split_slash s). }
  unfold no_slash in Ha. cbn [list_ascii_of_string forallb] in Ha.
  apply andb_true_iff in Ha as [Hc Ha]. change (String c a +:+ "/" +:+ s) with (String c (a +:+ "/" +:+ s)).
  apply negb_true_iff in Hc. cbn [split_slash]. by rewrite (IH Ha), Hc.
Qed.

Lemma segment_split s : segment s -> split_slash (s +:+ "/endpoints") = [s; "endpoints"].
Proof. intros (_ & _ & Hs). change "/endpoints" with ("/" +:+ "endpoints"). by rewrite split_slash_segment. Qed.

Definition at_path (path : string) (q : Request) : Request :=
  {| q_method := q_method q; q_path := path; q_query := q_query q; q_headers := q_headers q; q_body := q_body q;
     q_body_limit := q_body_limit q; q_default_limit := q_default_limit q;
     q_profile := q_profile q; q_state := q_state q |}.

Definition plain_path (author slug : string) : string := "/api/v1/models/" +:+ author +:+ "/" +:+ slug +:+ "/endpoints".
Definition encoded_path (author slug : string) : string := "/api/v1/models/" +:+ author +:+ "%2F" +:+ slug +:+ "/endpoints".

Lemma models_split s : split_slash ("/api/v1/models/" +:+ s) = "" :: "api" :: "v1" :: "models" :: split_slash s.
Proof.
  change ("/api/v1/models/" +:+ s) with ("" +:+ "/" +:+ ("api" +:+ "/" +:+ ("v1" +:+ "/" +:+ ("models" +:+ "/" +:+ s)))).
  by rewrite !split_slash_segment.
Qed.

Lemma plain_split author slug :
  segment author -> segment slug ->
  split_slash (plain_path author slug) = [""; "api"; "v1"; "models"; author; slug; "endpoints"].
Proof.
  intros (_ & _ & Ha) Hs. unfold plain_path. rewrite models_split, split_slash_segment by done. by rewrite segment_split.
Qed.

Lemma ascii_app a b : list_ascii_of_string (a +:+ b) = list_ascii_of_string a ++ list_ascii_of_string b.
Proof. induction a as [|c a IH]; [done|]. change (String c a +:+ b) with (String c (a +:+ b)).
  cbn [list_ascii_of_string app]. by rewrite IH. Qed.

Lemma encoded_split author slug :
  segment author -> segment slug ->
  split_slash (encoded_path author slug) = [""; "api"; "v1"; "models"; author +:+ "%2F" +:+ slug; "endpoints"].
Proof.
  intros (_ & _ & Ha) (_ & _ & Hs). unfold encoded_path. rewrite models_split.
  assert (author +:+ "%2F" +:+ slug +:+ "/endpoints" = (author +:+ "%2F" +:+ slug) +:+ "/" +:+ "endpoints") as ->
    by by rewrite !str_app_assoc.
  rewrite split_slash_segment; [done|]. unfold no_slash in *. rewrite !ascii_app, !forallb_app, Ha, Hs. done.
Qed.

Definition catalog_entry (m : string) (e : Endpoint) : Route (Layer Site) Endpoint :=
  entry GET m e (limits f Standard ++ guard auth).

Lemma catalog_requests pattern e q :
  (pattern, e) ∈ [(MODEL_ENDPOINTS, GetModelEndpoints); (AUTHOR_ENDPOINTS, GetModelEndpointsByAuthor)] ->
  path_matches pattern (q_path q) = true -> q_method q = GET -> requests (catalog_entry pattern e) q.
Proof.
  intros Hin Hp Hm. unfold requests. cbn [catalog_entry entry rt_pattern rt_method]. rewrite Hm. split_and!; [|done|done].
  unfold protected_table, catalog_entry. set_solver.
Qed.

Lemma segment_nonempty s : segment s -> str_is_empty s = false.
Proof. intros (Hs & _). unfold str_is_empty. by apply String.eqb_neq. Qed.

Lemma plain_params author slug :
  segment author -> segment slug ->
  path_matches AUTHOR_ENDPOINTS (plain_path author slug) = true /\
  mapM path_param (path_params AUTHOR_ENDPOINTS (plain_path author slug)) = Some [author; slug].
Proof.
  intros Ha Hs. unfold path_matches, path_params. rewrite plain_split by done.
  change (path_shape AUTHOR_ENDPOINTS) with [Some ""; Some "api"; Some "v1"; Some "models"; None; None; Some "endpoints"].
  cbn [shape_matches captures]. rewrite !segment_nonempty by done. split; [done|]. cbn [mapM].
  destruct Ha as (_ & Ha & _), Hs as (_ & Hs & _). by rewrite (law_path_plain author Ha), (law_path_plain slug Hs).
Qed.

Lemma encoded_params author slug :
  segment author -> segment slug ->
  path_matches MODEL_ENDPOINTS (encoded_path author slug) = true /\
  mapM path_param (path_params MODEL_ENDPOINTS (encoded_path author slug)) = Some [author +:+ "/" +:+ slug].
Proof.
  intros Ha Hs. unfold path_matches, path_params. rewrite encoded_split by done.
  change (path_shape MODEL_ENDPOINTS) with [Some ""; Some "api"; Some "v1"; Some "models"; None; Some "endpoints"].
  cbn [shape_matches captures].
  assert (str_is_empty (author +:+ "%2F" +:+ slug) = false) as -> by by destruct author.
  split; [done|]. cbn [mapM].
  destruct Ha as (_ & Ha & _), Hs as (_ & Hs & _). by rewrite (law_path_slash author slug Ha Hs).
Qed.

(** The routes of the table that a path selects. *)
Definition selects_only (path : string) (e : Endpoint) : Prop :=
  forall x, x ∈ protected_table (W := Site) f auth -> path_matches (rt_pattern x) path = true -> rt_handler x = e.

Ltac each_route Hx :=
  repeat (apply elem_of_cons in Hx as [->|Hx]; [|]); [..|apply not_elem_of_nil in Hx as []].

Lemma plain_selects author slug :
  segment author -> segment slug -> selects_only (plain_path author slug) GetModelEndpointsByAuthor.
Proof.
  intros Ha Hs x Hx. unfold path_matches. rewrite plain_split by done. unfold protected_table in Hx.
  each_route Hx; cbn [entry rt_pattern rt_handler]; try done; cbn [path_shape]; intros H; exfalso; revert H; clear.
  all: match goal with |- context [path_shape ?p] => let v := eval vm_compute in (path_shape p) in change (path_shape p) with v end.
  all: cbn; rewrite ?andb_false_r; done.
Qed.

Lemma encoded_selects author slug :
  segment author -> segment slug -> selects_only (encoded_path author slug) GetModelEndpoints.
Proof.
  intros Ha Hs x Hx. unfold path_matches. rewrite encoded_split by done. unfold protected_table in Hx.
  each_route Hx; cbn [entry rt_pattern rt_handler]; try done; cbn [path_shape]; intros H; exfalso; revert H; clear.
  all: match goal with |- context [path_shape ?p] => let v := eval vm_compute in (path_shape p) in change (path_shape p) with v end.
  all: cbn; rewrite ?andb_false_r; done.
Qed.

Lemma snapshot_built reg p :
  Catalog_from_registry reg = Done catalog ->
  exists snap, snapshot catalog p = Done snap /\ CatalogSnapshot_from_registry reg p = Done snap.
Proof.
  unfold Catalog_from_registry, snapshot. cbn [ALL outcome_map].
  intros (x & (xs & Hx & [= <-])%bind_Done & (ys & (y & (zs & Hz & [= <-])%bind_Done & [= <-])%bind_Done & [= <-])%bind_Done)%bind_Done.
  destruct p; cbn; eauto.
Qed.

(** The answer to an endpoint listing: the snapshot's endpoints of the slug, or
    the 404. *)
Definition listing (snap : CatalogSnapshot) (slug : string) : HttpResponse :=
  match bt_get String.compare slug (endpoints_by_slug snap) with
  | Some endpoints => json_reply 200 (model_endpoints_value endpoints)
  | None => json_reply 404 (json_object [("error", json_object [("code", json_u64 404); ("message", JString "Not Found")])])
  end.

Lemma endpoints_listed nanos p snap slug s :
  snapshot catalog p = Done snap ->
  exists s', (let '(y, s1) := endpoints_handled (endpoint_response catalog p slug) s in (y, turned nanos s1)) =
             (Returns (listing snap slug), s') /\ st_world s' = st_world s.
Proof.
  intros Hs. unfold endpoint_response, listing, snapshot_endpoint_response. rewrite Hs. cbn.
  destruct (bt_get String.compare slug (endpoints_by_slug snap)); by eexists.
Qed.

(** C33: An endpoint listing has two addresses.  For an author and a slug free of
    slashes and escapes, the path with both segments matches the by-author
    route alone of the table, and the path with one segment and an escaped
    slash the by-model route alone; when the catalog is the registry's, a GET of
    either with a credential, that declares no oversized body and is handled in
    time, gets the same answer and changes nothing of the service: what the
    registry's snapshot of the credential's profile has for [author/slug], its
    endpoints with a 200, or else the 404. *)
Theorem endpoint_paths_agree reg r q s p author slug :
  Catalog_from_registry reg = Done catalog -> app_router f auth = Done r ->
  segment author -> segment slug ->
  q_method q = GET -> presented_profile auth (q_headers q) = Some p ->
  declares_too_much f Standard q = false ->
  (forall e, class_of e = Standard -> in_time e s) ->
  selects_only (plain_path author slug) GetModelEndpointsByAuthor /\
  selects_only (encoded_path author slug) GetModelEndpoints /\
  exists snap, CatalogSnapshot_from_registry reg p = Done snap /\
    forall path, path = plain_path author slug \/ path = encoded_path author slug ->
      exists s', serve_request app r (at_path path q) s =
                 (Returns (listing snap (author +:+ "/" +:+ slug)), s') /\ st_world s' = st_world s.
Proof.
  intros Hcat Hr Ha Hs Hm Hp Hd Ht. split; [by apply plain_selects|]. split; [by apply encoded_selects|].
  destruct (snapshot_built reg p Hcat) as (snap & Hsnap & Hbuilt). exists snap. split; [done|].
  intros path [->| ->].
  - destruct (plain_params author slug Ha Hs) as [Hmatch Hparams].
    pose proof (catalog_requests AUTHOR_ENDPOINTS GetModelEndpointsByAuthor (at_path (plain_path author slug) q)
      ltac:(set_solver) Hmatch Hm) as Hx.
    rewrite (serve_protected r _ _ s p Hr Hx Hp Hd (Ht GetModelEndpointsByAuthor eq_refl)).
    cbn [run_endpoint catalog_entry entry rt_handler]. unfold handlers, timed, serve_model_endpoints_by_author, with_extension.
    rewrite admitted_profile. unfold with_path. rewrite admitted_path. cbn [at_path q_path]. rewrite Hparams.
    by apply endpoints_listed.
  - destruct (encoded_params author slug Ha Hs) as [Hmatch Hparams].
    pose proof (catalog_requests MODEL_ENDPOINTS GetModelEndpoints (at_path (encoded_path author slug) q)
      ltac:(set_solver) Hmatch Hm) as Hx.
    rewrite (serve_protected r _ _ s p Hr Hx Hp Hd (Ht GetModelEndpoints eq_refl)).
    cbn [run_endpoint catalog_entry entry rt_handler]. unfold handlers, timed, serve_model_endpoints, with_extension.
    rewrite admitted_profile. unfold with_path. rewrite admitted_path. cbn [at_path q_path]. rewrite Hparams.
    by apply endpoints_listed.
Qed.

(** ** Every history is answered *)

Context (val : decimal -> Q) {L : DecimalLaws val}.
Context (Hpolicy : policy_wf val (routing proxy)) (Hprint : printable).
Context (Hcostable : table_costable (price_table proxy)).

(** Replies are HTTP's, and clocks are in range. *)
Record surroundings_ok : Prop := {
  su_clocks : forall k, instant_ok (ck_response_completed_at (su_clock su k));
  su_replies : forall k e n b r, su_sidecar su k e n b = Some r -> reply_ok r
}.

Definition site_ok (s : Site) : Prop := world_ok proxy (st_world s).

Definition turn_ok (t : Turn) : Prop :=
  match t with Serves _ => True | Runs ls => Forall label_ok ls end.

(** The requests of a history. *)
Definition requests_of : list Turn -> list Request :=
  omap (fun t => match t with Serves q => Some q | Runs _ => None end).

Lemma settled_ok out w :
  world_ok proxy w -> state_wf (routing proxy) (fo_state out) ->
  (forall r, fo_recorded out = Some r -> observed (re_store r)) ->
  (forall st, r_body (fo_response out) = inr st -> streaming_ok st) -> world_ok proxy (settled out w).
Proof.
  intros Hw Hst Hrec Hs. unfold settled. apply spawn_ok.
  - apply with_store_ok; [by apply with_routing_ok|]. unfold stored.
    destruct (fo_recorded out) as [r|]; [by apply Hrec|apply Hw].
  - unfold left_running. rewrite Forall_app. split; [|by apply Forall_fmap, Forall_true].
    destruct (r_body (fo_response out)) as [b|st]; [constructor|]. apply Forall_singleton. by apply Hs.
Qed.

Lemma looked_up_ok d prof query w r l :
  world_ok proxy w -> Ledger.get_generation ledger d prof query (ledger_of w) = Done (r, l) ->
  world_ok proxy (looked_up l w).
Proof.
  intros Hw Hg. destruct (lookup_is_schedule proxy ledger d prof query w r l Hg) as (ls & Hls & Hrun).
  assert (Forall label_ok ls) as Hok.
  { destruct Hls as [k Hk].
    assert (Forall label_ok [Lookup d prof query; Notified]) as H by by repeat constructor.
    rewrite Hk in H. by apply Forall_app in H as [? _]. }
  destruct (run_ok val proxy ledger Hpolicy Hprint Hcostable ls w Hw Hok) as (w' & e & Erun & Hw').
  rewrite Hrun in Erun. by injection Erun as <- _.
Qed.

Context (reg : Registry) (Hcatalog : Catalog_from_registry reg = Done catalog).

Lemma effect_answers q s x :
  surroundings_ok -> site_ok s -> effect q s x ->
  exists resp w, x = Done (resp, w) /\ world_ok proxy w.
Proof.
  intros [Hclock Hreply] Hs [resp|p endpoint body _|p query|p answer].
  - by do 2 eexists.
  - pose proof Hs as [Hr Hst _ _].
    destruct (forward_answers val (su_sidecar su (st_turn s)) proxy (w_store (st_world s)) (w_routing (st_world s)) p endpoint
      (su_clock su (st_turn s)) body Hpolicy Hr Hst Hprint Hcostable (Hclock _) (Hreply _)) as (out & -> & Hout & Hrec & Hbody).
    cbn. do 2 eexists. split; [done|]. by apply settled_ok.
  - destruct (get_generation_total Hprint ledger (su_delivery su (st_turn s)) p query (ledger_of (st_world s))) as (r & l & Hg).
    rewrite Hg. cbn. do 2 eexists. split; [done|]. by eapply looked_up_ok.
  - destruct (snapshot_built reg p Hcatalog) as (snap & -> & _). cbn. by do 2 eexists.
Qed.

Lemma handler_answers e q s :
  surroundings_ok -> site_ok s -> is_public e = false ->
  exists resp s', run_endpoint app e q s = (Returns resp, s') /\ site_ok s'.
Proof.
  intros Hsu Hs He. destruct (handler_effects e q s He) as (y & Hy & H1 & H2).
  destruct (effect_answers _ s y Hsu Hs Hy) as (resp & w & -> & Hw). cbn in H1, H2.
  exists resp, (run_endpoint app e q s).2. split; [by rewrite <- H1, <- surjective_pairing|]. unfold site_ok. by rewrite H2.
Qed.

Definition stays_ok (s s' : Site) : Prop := site_ok s -> site_ok s'.

#[local] Instance stays_ok_preorder : PreOrder stays_ok.
Proof. unfold stays_ok. split; [by intros s|]. intros x y z Hxy Hyz Hx. by apply Hyz, Hxy. Qed.

Context (Hmetrics : forall q s, st_world (render_metrics q s).2 = st_world s).

Lemma serve_ok readiness_url r q s :
  surroundings_ok -> starts f -> start_server f auth readiness_url = Done (Ok r) -> site_ok s ->
  exists resp s', serve_request app r q s = (Returns resp, s') /\ site_ok s'.
Proof.
  intros Hsu Hf Hr Hs. destruct (serve_returns routes outer f auth readiness_url r app q s Hf Hr) as (resp & s' & E1).
  exists resp, s'. split; [done|]. change s' with (Returns resp, s').2. rewrite <- E1. revert Hs.
  apply (server_frame routes outer f auth readiness_url stays_ok) with (r := r); try done.
  - unfold stays_ok, site_ok. by intros x y ->.
  - intros e q' w' He. unfold stays_ok, site_ok. by rewrite (public_still e q' w' Hmetrics He).
  - intros e p q' w' He _ _ Hw'. destruct (handler_answers e q' w' Hsu Hw' He) as (resp' & w2 & -> & Hw2). exact Hw2.
Qed.

(** The gateway keeps answering: over any history of requests through the whole
    server and of interleaved steps of the service between them (streams
    polled, ledger inserts, other requests' steps, the supervisor), every
    request gets a response, no step panics, and the service is left well
    formed, so that no protected handler panics next. *)
Lemma gateway_answers readiness_url r ts s :
  surroundings_ok -> starts f -> start_server f auth readiness_url = Done (Ok r) -> Forall turn_ok ts -> site_ok s ->
  exists answers s', serve_history su proxy ledger catalog render_metrics r ts s = Done (answers, s') /\ site_ok s' /\
    length answers = length (requests_of ts) /\
    Forall (fun x => exists resp, x = Returns resp) answers /\
    forall e q, is_public e = false -> exists resp s2, run_endpoint app e q s' = (Returns resp, s2).
Proof.
  intros Hsu Hf Hr Hts. revert s. induction Hts as [|t ts Ht _ IH]; intros s Hs; cbn [serve_history].
  - exists [], s. split_and!; try done. intros e q He. destruct (handler_answers e q s Hsu Hs He) as (resp & s2 & E2 & _). eauto.
  - destruct t as [q|ls].
    + destruct (serve_ok readiness_url r q s Hsu Hf Hr Hs) as (resp & s1 & Hq & Hs1).
      unfold host in Hq. rewrite Hq. destruct (IH s1 Hs1) as (answers & s2 & -> & Hs2 & Hl & Hall & Hnext).
      cbn. do 2 eexists. split; [done|].
      split_and!; [done|cbn; by rewrite Hl| |done]. constructor; [by eexists|done].
    + destruct (run_ok val proxy ledger Hpolicy Hprint Hcostable ls (st_world s) Hs Ht) as (w & events & -> & Hw).
      cbn [mbind outcome_bind]. by apply IH.
Qed.
End Props.

(** ** The reference site, and the witnesses *)

Module RefSite.
Section Ref.
Context {D : RustDecimal} {R : RandCrate} {J : SerdeJson} {U : UrlCrate} {T : Jiff} {N : Notify} (su : Surroundings).

#[global, refine] Instance waits : RefTower.Waits Site (site_host su) :=
  {| RefTower.wait nanos s := {| st_world := st_world s; st_turn := st_turn s; st_now := st_now s + nanos |} |}.
Proof. all: done. Defined.
End Ref.
End RefSite.

Section Witnesses.
#[local] Existing Instances RefUrl.url RefNotify.permit RefJiff.epoch RefSubtle.ct RefExtract.extract RefExtract.laws.

(** The sidecar of the race, a database that answers, and handlers of a second. *)
Definition sample_surroundings : Surroundings :=
  {| su_sidecar _ := answering_sidecar; su_clock _ := sample_clock; su_delivery _ := Answered;
     su_took _ _ := from_secs 1; su_probe _ _ := Some 200; su_uuid _ := "" |}.

#[local] Instance sample_host : Host Site := site_host sample_surroundings.
#[local] Instance sample_waits : RefTower.Waits Site sample_host := RefSite.waits sample_surroundings.
#[local] Instance sample_tower : Tower Site := RefTower.tower.
#[local] Existing Instances RefAxum.axum.

Definition two_keys : GatewayAuth :=
  with_beta_key (list_byte_of_string "beta") (GatewayAuth_new (list_byte_of_string "key")).

Definition sample_routes : Routes (W := Site) :=
  match app_router production two_keys with Done r => r | Panic _ => empty end.

Lemma sample_routes_Done : app_router production two_keys = Done sample_routes.
Proof. reflexivity. Qed.

Definition gateway_server : Routes (W := Site) :=
  match start_server production two_keys DEFAULT_SIDECAR_READINESS_URL with Done (Ok r) => r | _ => empty end.

Lemma gateway_server_Ok : start_server production two_keys DEFAULT_SIDECAR_READINESS_URL = Done (Ok gateway_server).
Proof. vm_reflexivity. Qed.

Definition sample_site : Site := {| st_world := open_world; st_turn := 0; st_now := 0 |}.

Definition request (m : Method) (path : string) (query : option string) (hs : HeaderMap) (body : list byte) : Request :=
  {| q_method := m; q_path := path; q_query := query; q_headers := hs; q_body := body; q_body_limit := None;
     q_default_limit := true; q_profile := None; q_state := None |}.

Definition bearer (key : string) : HeaderMap := [(AUTHORIZATION, "Bearer " +:+ key)].

Definition keyed_chat (hs : HeaderMap) : Request := request POST "/api/v1/chat/completions" None hs chat_body.

Lemma chat_fresh hs : content_length (keyed_chat hs) = None -> fresh (keyed_chat hs).
Proof. intros H. split; [done|done|]. intros n Hn. congruence. Qed.

Definition no_metrics : Svc Site := fun _ => returns (status_reply 404).

Notation sample_app := (handlers sample_surroundings hidden_proxy.1 ledger_with_health [] no_metrics).

Lemma completion_contract_witness :
  serve_request sample_app sample_routes (keyed_chat (bearer "key")) sample_site =
  (Returns (http_response 0 (fo_response chat_out)),
   turned (from_secs 1) (with_world (settled chat_out open_world) sample_site)).
Proof.
  exact (proj1 (completion_contract (A := RefAxum.axum) sample_surroundings RefAxum.held RefAxum.fallback production two_keys hidden_proxy.1
    ledger_with_health [] no_metrics sample_routes Chat (keyed_chat (bearer "key")) sample_site sample_routes_Done
    (chat_fresh (bearer "key") eq_refl) eq_refl eq_refl) eq_refl chat_out handled_chat_Done).
Defined.

Lemma gateway_isolates_witness :
  same_slice Beta open_world
    (st_world (serve_request sample_app gateway_server (keyed_chat (bearer "key")) sample_site).2).
Proof.
  apply (gateway_isolates (A := RefAxum.axum) sample_surroundings RefAxum.held RefAxum.fallback production two_keys hidden_proxy.1
    ledger_with_health [] no_metrics DEFAULT_SIDECAR_READINESS_URL gateway_server (keyed_chat (bearer "key")) sample_site Beta).
  - split; reflexivity.
  - exact gateway_server_Ok.
  - reflexivity.
  - discriminate.
Defined.

(** The application with the catalog of the two providers. *)
Definition sample_catalog : Catalog :=
  match Catalog_from_registry two_providers with Done c => c | Panic _ => [] end.

Lemma sample_catalog_Done : Catalog_from_registry two_providers = Done sample_catalog.
Proof. vm_reflexivity. Qed.

Notation listing_app := (handlers sample_surroundings hidden_proxy.1 ledger_with_health sample_catalog no_metrics).

Lemma endpoint_paths_agree_witness :
  exists snap, CatalogSnapshot_from_registry two_providers Production = Done snap /\
    forall path, path = plain_path "acme" "chat" \/ path = encoded_path "acme" "chat" ->
      exists s', serve_request listing_app sample_routes
                   (at_path path (request GET "" None (bearer "key") [])) sample_site =
                 (Returns (listing snap "acme/chat"), s') /\ st_world s' = st_world sample_site.
Proof.
  refine (proj2 (proj2 (endpoint_paths_agree (A := RefAxum.axum) sample_surroundings RefAxum.held RefAxum.fallback production
    two_keys hidden_proxy.1 ledger_with_health sample_catalog no_metrics two_providers sample_routes
    (request GET "" None (bearer "key") []) sample_site Production "acme" "chat" sample_catalog_Done sample_routes_Done
    _ _ eq_refl eq_refl eq_refl _))).
  - split_and!; done.
  - split_and!; done.
  - intros e _. by destruct e.
Defined.

(** It is listed. *)
Example chat_listed :
  is_some (bt_get String.compare "acme/chat" (endpoints_by_slug sample_snapshot)) = true.
Proof. vm_reflexivity. Qed.
End Witnesses.
