(* ===== verification/Deployment.v ===== *)
(** [src/src/deployment.rs]: the sidecar configuration written through a
    temporary file and renamed into place.  Files are keyed by the components of
    their path; each file-system call may fail, a failed write leaves a prefix,
    and the process may be killed between any two calls. *)

From Stdlib Require Import ZArith Strings.Byte.
From S2P Require Import Prelude RustDecimal RoutingProfile Registry Json SidecarConfig Fixtures.

(** ** Paths *)

(** [Path]: absolute or not, and the normal components; [Path::components]
    skips empty and "." components. *)
Record FsPath : Type := { absolute : bool; components : list string }.

#[global] Instance FsPath_eq_dec : EqDecision FsPath.
Proof. solve_decision. Defined.
#[global] Program Instance FsPath_countable : Countable FsPath :=
  inj_countable' (fun p => (absolute p, components p)) (fun x => {| absolute := x.1; components := x.2 |}) _.
Next Obligation. by intros []. Qed.

Definition path_new (s : string) : FsPath :=
  {| absolute := match s with String "/" _ => true | _ => false end;
     components := filter_b (fun c => negb (str_is_empty c || String.eqb c ".")) (split_slash s) |}.

(** [Path::file_name]: the last component, unless it is "..". *)
Definition file_name (p : FsPath) : option string :=
  match last (components p) with
  | Some name => if String.eqb name ".." then None else Some name
  | None => None
  end.

(** [parent().filter(not empty).unwrap_or(".")]: the directory of the file; "."
    has no component of its own. *)
Definition parent (p : FsPath) : FsPath :=
  {| absolute := absolute p; components := removelast (components p) |}.

Definition join (p : FsPath) (name : string) : FsPath :=
  {| absolute := absolute p; components := components p ++ [name] |}.

(** ** The file system *)

Definition Files : Type := gmap FsPath (list byte).

(** Which calls succeed: the bytes a failed write leaves, whether [sync_all],
    [rename] and [remove_file] work, and whether the file can be created. *)
Record FsOutcome : Type := {
  fs_can_create : bool;
  fs_written : option nat;
  fs_synced : bool;
  fs_renamed : bool;
  fs_removed : bool
}.

Inductive WriteError : Type :=
  WInvalidOutputPath | WReadRegistry | WParseRegistry | WCompile | WCreate | WWrite | WPersist.

Section Write.
Context {D : RustDecimal} (yaml : AgentGatewayConfig -> option (list byte)).

(** [TemporaryOutput::drop]: [open] says whether the file is still held. *)
Definition drop_temporary (o : FsOutcome) (open_ : bool) (path : FsPath) (fs : gmap FsPath (list byte))
    : gmap FsPath (list byte) :=
  if (open_ || is_some (fs !! path)) && fs_removed o then delete path fs else fs.

Definition temporary_name (uuid : string) : string := ".seren-router-sidecar-" +:+ uuid +:+ ".tmp".

(** The states of the file system that [write_sidecar_config] goes through, in
    order, and its result.  [rename] is atomic. *)
Definition write_states (o : FsOutcome) (uuid : string) (registry : Registry) (output_path : FsPath)
    (fs : gmap FsPath (list byte)) : list (gmap FsPath (list byte)) * result WriteError unit :=
  match file_name output_path with
  | None => ([fs], Err WInvalidOutputPath)
  | Some _ =>
  match compile yaml registry options_default with
  | Err _ => ([fs], Err WCompile)
  | Ok rendered =>
      let temporary_path := join (parent output_path) (temporary_name uuid) in
      if negb (fs_can_create o) || is_some (fs !! temporary_path) then ([fs], Err WCreate)
      else
        let created := <[temporary_path := []]> fs in
        match fs_written o with
        | Some n =>
            let partial := <[temporary_path := take n rendered]> fs in
            ([fs; created; partial; drop_temporary o true temporary_path partial], Err WWrite)
        | None =>
            let written := <[temporary_path := rendered]> fs in
            if negb (fs_synced o) then
              ([fs; created; written; drop_temporary o true temporary_path written], Err WWrite)
            else if fs_renamed o then
              let renamed := <[output_path := rendered]> (delete temporary_path written) in
              ([fs; created; written; renamed; drop_temporary o false temporary_path renamed], Ok tt)
            else
              ([fs; created; written; drop_temporary o false temporary_path written], Err WPersist)
        end
  end end.

Definition write_sidecar_config (o : FsOutcome) (uuid : string) (registry : Registry)
    (output_path : FsPath) (fs : gmap FsPath (list byte))
    : gmap FsPath (list byte) * result WriteError unit :=
  let '(states, r) := write_states o uuid registry output_path fs in (default fs (last states), r).

(** The registry file read and decoded ([parse] is the YAML decoder), then
    written; the file is neither extended with upstream coverage nor validated
    before the compiler. *)
Definition render_sidecar_config (parse : list byte -> option Registry) (o : FsOutcome) (uuid : string)
    (registry_path output_path : FsPath) (fs : gmap FsPath (list byte))
    : gmap FsPath (list byte) * result WriteError unit :=
  match file_name output_path with
  | None => (fs, Err WInvalidOutputPath)
  | Some _ =>
  match fs !! registry_path with
  | None => (fs, Err WReadRegistry)
  | Some registry_bytes =>
  match parse registry_bytes with
  | None => (fs, Err WParseRegistry)
  | Some registry => write_sidecar_config o uuid registry output_path fs
  end end end.
End Write.

(** ** Atomic replacement *)

Section Facts.
Context {D : RustDecimal} (yaml : AgentGatewayConfig -> option (list byte)).

Definition temporary_of (uuid : string) (output_path : FsPath) : FsPath :=
  join (parent output_path) (temporary_name uuid).

Lemma temporary_ne uuid output_path name :
  file_name output_path = Some name -> name <> temporary_name uuid -> temporary_of uuid output_path <> output_path.
Proof.
  unfold file_name, temporary_of, join, parent. destruct output_path as [a cs]. cbn. intros Hn Hne [= E].
  destruct (last cs) as [n|] eqn:El; [|done].
  assert (n = name) as -> by (destruct (String.eqb n ".."); by simplify_eq).
  rewrite <- E, last_snoc in El. congruence.
Qed.

(** The output is the old file or the whole new one, and nothing else has
    changed but the temporary file. *)
Definition replaced_or_old (rendered : option (list byte)) (temporary output_path : FsPath)
    (fs s : gmap FsPath (list byte)) : Prop :=
  (s !! output_path = fs !! output_path \/ (is_Some rendered /\ s !! output_path = rendered)) /\
  forall q, q <> temporary -> q <> output_path -> s !! q = fs !! q.

Lemma old_same rendered temporary output_path fs : replaced_or_old rendered temporary output_path fs fs.
Proof. split; [by left|done]. Qed.

Lemma old_temporary rendered temporary output_path fs s b :
  temporary <> output_path ->
  replaced_or_old rendered temporary output_path fs s ->
  replaced_or_old rendered temporary output_path fs (<[temporary := b]> s).
Proof.
  intros Hne [Ho Hq]. split; [by rewrite lookup_insert_ne|]. intros q H1 H2.
  rewrite lookup_insert_ne by done. by apply Hq.
Qed.

Lemma old_deleted rendered temporary output_path fs s :
  temporary <> output_path ->
  replaced_or_old rendered temporary output_path fs s ->
  replaced_or_old rendered temporary output_path fs (delete temporary s).
Proof.
  intros Hne [Ho Hq]. split; [by rewrite lookup_delete_ne|]. intros q H1 H2.
  rewrite lookup_delete_ne by done. by apply Hq.
Qed.

Lemma old_dropped rendered o open_ temporary output_path fs s :
  temporary <> output_path ->
  replaced_or_old rendered temporary output_path fs s ->
  replaced_or_old rendered temporary output_path fs (drop_temporary o open_ temporary s).
Proof. intros Hne H. unfold drop_temporary. destruct (_ && _); [by apply old_deleted|done]. Qed.

Lemma new_renamed rendered temporary output_path fs s :
  replaced_or_old (Some rendered) temporary output_path fs s ->
  replaced_or_old (Some rendered) temporary output_path fs (<[output_path := rendered]> s).
Proof.
  intros [_ Hq]. split; [right; split; [eauto|by rewrite lookup_insert_eq]|]. intros q H1 H2.
  rewrite lookup_insert_ne by done. by apply Hq.
Qed.

Lemma dropped_lookup o open_ path fs :
  fs_removed o = true -> open_ = true \/ fs !! path = None -> drop_temporary o open_ path fs !! path = None.
Proof.
  intros Hr H. unfold drop_temporary. rewrite Hr, andb_true_r.
  destruct (open_ || is_some (fs !! path)) eqn:E; [by rewrite lookup_delete_eq|].
  apply orb_false_iff in E as [-> E]. destruct (fs !! path); [done|]. done.
Qed.

Ltac each_state :=
  repeat (apply List.Forall_cons; [auto using old_same, old_dropped|]); apply List.Forall_nil.

(** A successful write has installed the compiled configuration. *)
Lemma write_installs o uuid registry output_path fs fs' :
  file_name output_path <> Some (temporary_name uuid) ->
  write_sidecar_config yaml o uuid registry output_path fs = (fs', Ok tt) ->
  exists rendered, compile yaml registry options_default = Ok rendered /\ fs' !! output_path = Some rendered.
Proof.
  unfold write_sidecar_config, write_states. intros Hname. destruct (file_name output_path) as [name|] eqn:En; [|done].
  assert (temporary_of uuid output_path <> output_path) as Hne by (eapply temporary_ne; [done|congruence]).
  fold (temporary_of uuid output_path). destruct (compile yaml registry options_default) as [rendered|e]; [|done].
  destruct (negb (fs_can_create o) || _); [done|]. destruct (fs_written o); [done|].
  destruct (negb (fs_synced o)); [done|]. destruct (fs_renamed o); [|done]. intros [= <-].
  exists rendered. split; [done|]. unfold drop_temporary. destruct (_ && _);
    rewrite ?lookup_delete_ne, lookup_insert_eq by done; done.
Qed.

(** C38: The configuration file is replaced atomically: whichever file-system
    calls fail and wherever the process is killed, the output path holds either
    what it held before or the whole compiled configuration, and no other file
    but the temporary one has changed.  At the end, a success has installed the
    configuration, an error has left the old file, and the temporary file is
    gone whenever it can be removed. *)
Theorem write_is_atomic o uuid registry output_path fs states r :
  file_name output_path <> Some (temporary_name uuid) ->
  write_states yaml o uuid registry output_path fs = (states, r) ->
  let rendered := ok (compile yaml registry options_default) in
  let final := (write_sidecar_config yaml o uuid registry output_path fs).1 in
  Forall (replaced_or_old rendered (temporary_of uuid output_path) output_path fs) states /\
  match r with
  | Ok _ => is_Some rendered /\ final !! output_path = rendered
  | Err _ => final !! output_path = fs !! output_path
  end /\
  (fs_removed o = true -> fs !! temporary_of uuid output_path = None ->
   final !! temporary_of uuid output_path = None).
Proof.
  intros Hname H rendered final. subst final. unfold write_sidecar_config. rewrite H.
  unfold write_states in H. fold (temporary_of uuid output_path) in H. subst rendered.
  destruct (file_name output_path) as [name|] eqn:En.
  2:{ injection H as <- <-. split_and!; [by each_state|done|done]. }
  assert (temporary_of uuid output_path <> output_path) as Hne by (eapply temporary_ne; [done|congruence]).
  destruct (compile yaml registry options_default) as [rendered|e].
  2:{ injection H as <- <-. split_and!; [by each_state|done|done]. }
  destruct (negb (fs_can_create o) || _) eqn:Ec.
  { injection H as <- <-. split_and!; [by each_state|done|done]. }
  cbn [ok]. set (tmp := temporary_of uuid output_path) in *.
  assert (forall b, replaced_or_old (Some rendered) tmp output_path fs (<[tmp := b]> fs)) as Hins
    by (intros; apply old_temporary; [done|apply old_same]).
  assert (forall open_ b, drop_temporary o open_ tmp (<[tmp:=b]> fs) !! output_path = fs !! output_path) as Hout.
  { intros open_ b. unfold drop_temporary. destruct (_ && _);
      rewrite ?lookup_delete_ne, lookup_insert_ne by done; done. }
  assert (forall s : gmap FsPath (list byte), fs_removed o = true -> drop_temporary o false tmp s !! tmp = None) as Hgone.
  { intros s Hr. unfold drop_temporary. rewrite Hr, andb_true_r. cbn.
    destruct (s !! tmp) eqn:E; cbn; [by rewrite lookup_delete_eq|done]. }
  destruct (fs_written o) as [n|].
  { injection H as <- <-. split_and!;
      [by each_state|apply Hout|].
    intros Hr _. apply dropped_lookup; auto. }
  destruct (negb (fs_synced o)).
  { injection H as <- <-. split_and!;
      [by each_state|apply Hout|].
    intros Hr _. apply dropped_lookup; auto. }
  destruct (fs_renamed o); injection H as <- <-.
  - assert (replaced_or_old (Some rendered) tmp output_path fs
              (<[output_path := rendered]> (delete tmp (<[tmp := rendered]> fs)))) as Hren
      by (by apply new_renamed, old_deleted).
    split_and!; [by each_state|eauto| |by intros ? _; apply Hgone].
    cbn. unfold drop_temporary. destruct (_ && _);
      rewrite ?lookup_delete_ne, lookup_insert_eq by done; done.
  - split_and!; [by each_state|apply Hout|by intros ? _; apply Hgone].
Qed.
End Facts.

(** ** Witness *)

Definition sample_yaml (c : AgentGatewayConfig) : option (list byte) :=
  Some (concat ((fun v => list_byte_of_string (vm_name v)) <$> virtual_models (llm c))).
Definition config_path : FsPath := path_new "/config/agentgateway.yaml".
Definition old_files : gmap FsPath (list byte) := {[ config_path := [x6f; x6c; x64] ]}.
Definition rename_fails : FsOutcome :=
  {| fs_can_create := true; fs_written := None; fs_synced := true; fs_renamed := false; fs_removed := true |}.
Definition failed_write := write_states sample_yaml rename_fails "u1" two_providers config_path old_files.

Lemma write_is_atomic_witness :
  let rendered := ok (compile sample_yaml two_providers options_default) in
  let final := (write_sidecar_config sample_yaml rename_fails "u1" two_providers config_path old_files).1 in
  Forall (replaced_or_old rendered (temporary_of "u1" config_path) config_path old_files) failed_write.1 /\
  match failed_write.2 with
  | Ok _ => is_Some rendered /\ final !! config_path = rendered
  | Err _ => final !! config_path = old_files !! config_path
  end /\
  (fs_removed rename_fails = true -> old_files !! temporary_of "u1" config_path = None ->
   final !! temporary_of "u1" config_path = None).
Proof.
  apply (write_is_atomic sample_yaml rename_fails "u1" two_providers config_path old_files).
  - vm_compute. discriminate.
  - unfold failed_write. by destruct (write_states _ _ _ _ _ _).
Defined.
