(* ===== verification/Main.v ===== *)
(** [src/src/main.rs]: the commands, the registry's loading with its upstream
    coverage, and the service's startup up to the listener.  Reading and parsing
    the registry file is a parameter; the environment and the HTTP client are
    those of [Config] and [UpstreamCatalog]. *)

From Stdlib Require Import ZArith Strings.Byte.
From S2P Require Import Prelude Float64 RustDecimal RoutingProfile Registry Json Measurements Share Select.
From S2P Require Import Config Routing Pricing Catalog UpstreamCatalog Database Ledger Proxy Service.
From S2P Require Import GatewayAuth SidecarConfig Axum Server Deployment.

#[local] Open Scope Z_scope.

Inductive Command : Type :=
| Serve
| RenderSidecarConfig (output_path : string).

Inductive CommandError : Type := UnsupportedCommand | OneOutputPath.

Definition parse_command (args : list string) : result CommandError Command :=
  match args with
  | [] => Ok Serve
  | command :: args =>
      if negb (String.eqb command "render-sidecar-config") then Err UnsupportedCommand
      else match args with
           | [] => Err OneOutputPath
           | output_path :: rest =>
               if str_is_empty output_path then Err OneOutputPath
               else match rest with [] => Ok (RenderSidecarConfig output_path) | _ => Err OneOutputPath end
           end
  end.

Section Main.
Context {D : RustDecimal} {R : RandCrate} {J : SerdeJson} {U : UrlCrate} {UJ : UrlJoin} {F : FloatText}.
Context {N : Notify}.

Inductive StartupError : Type :=
| BadCommand (e : CommandError)
| BadConfiguration (e : ConfigError)
| UnreadableRegistry
| InvalidRegistryFile (e : RegistryValidationError)
| InvalidPricing
| MissingDatabaseUrl
| EmptyDatabaseUrl
| InvalidDatabaseUrl
| InvalidProxy
| RenderFailed (e : WriteError)
| ServerFailed (e : ServeError).

Context (http_get : string -> option HttpReply) (read_registry : string -> option Registry).

(** The enabled providers with a catalog URL, listed before any is hydrated. *)
Definition coverage_sources (r : Registry) : list (string * string) :=
  omap (fun p => (fun url => (id p, url)) <$> catalog_url p) (enabled_providers r).

Definition hydrate_source (r : Registry) (source : string * string) : Registry :=
  match fetch_catalog http_get source.2 with
  | Ok catalog => (hydrate_provider r source.1 (mappings catalog)).1
  | Err _ => r
  end.

Definition hydrate_upstream_coverage (r : Registry) : Registry :=
  foldl hydrate_source r (coverage_sources r).

Definition load_registry (path : string) : result StartupError Registry :=
  ok_or UnreadableRegistry (read_registry path) ≫= fun registry =>
  let registry := hydrate_upstream_coverage registry in
  map_err InvalidRegistryFile (validate registry) ≫= fun _ => Ok registry.

(** What the service starts with. *)
Record Service : Type := {
  sv_auth : GatewayAuth;
  sv_registry : Registry;
  sv_catalog : Catalog;
  sv_proxy : ProxyState;
  sv_routing : RoutingState;
  sv_ledger : Ledger;
  sv_health : DatabaseHealth;
  sv_readiness_url : Url
}.

Definition auth_of (c : RouterConfig) : GatewayAuth :=
  let auth := GatewayAuth_new (list_byte_of_string (gateway_key c)) in
  match beta_gateway_key c with
  | Some beta_key => with_beta_key (list_byte_of_string beta_key) auth
  | None => auth
  end.

Definition DATABASE_URL_ENV : string := "DATABASE_URL".

(** [run_service] up to the spawned supervisor and the listener;
    [valid_database_url] is the SQL crate's parser. *)
Definition run_service (env : Environment) (valid_database_url : string -> bool) (rng : StdRng)
    : outcome (result StartupError Service) :=
  RouterConfig_from_env env ≫= fun config =>
  let? config := map_err BadConfiguration config in
  let? registry := load_registry (registry_path config) in
  Catalog_from_registry registry ≫= fun catalog =>
  let? table := map_err (fun _ => InvalidPricing) (PriceTable_from_registry registry) in
  let? database_url := map_err (fun _ => MissingDatabaseUrl) (env DATABASE_URL_ENV) in
  if str_is_empty (trim database_url) then Done (Err EmptyDatabaseUrl)
  else if negb (valid_database_url (trim database_url)) then Done (Err InvalidDatabaseUrl)
  else
    ProxyState_new (sidecar_url config) table registry (Config.routing config) rng ≫= fun proxy =>
    let? proxy := map_err (fun _ => InvalidProxy) proxy in
    Done (Ok {| sv_auth := auth_of config; sv_registry := registry; sv_catalog := catalog;
                sv_proxy := proxy.1; sv_routing := proxy.2;
                sv_ledger := with_public_provider_aliases registry ledger_with_health;
                sv_health := starting;
                sv_readiness_url := Config.sidecar_readiness_url config |}).

(** The routers the listener serves. *)
Definition run_server {W : Type} {Ho : Host W} {To : Tower W} {C : ConstantTimeEq} {A : Axum (Layer W) Endpoint}
    (f : Features) (s : Service) : outcome (result StartupError Routes) :=
  start_server f (sv_auth s) (sv_readiness_url s) ≫= fun r =>
  Done (map_err ServerFailed r).

(** What the listener and the spawned supervisor start from, with the ledger's
    table as the database holds it. *)
Definition start_world {T : Jiff} (s : Service) (t : gmap string Row) : World :=
  {| w_routing := sv_routing s; w_store := store_default; w_table := t;
     w_database := supervise_start INITIAL_RECOVERY_BACKOFF (sv_health s); w_tasks := [] |}.

(** [dispatch] of the rendering command. *)
Definition render_command (yaml : AgentGatewayConfig -> option (list byte)) (o : FsOutcome) (uuid : string)
    (env : Environment) (output_path : string) (fs : gmap FsPath (list byte))
    : gmap FsPath (list byte) * result StartupError unit :=
  match map_err BadConfiguration (registry_path_from_env env) ≫= load_registry with
  | Err e => (fs, Err e)
  | Ok registry =>
      let '(fs, r) := write_sidecar_config yaml o uuid registry (path_new output_path) fs in
      (fs, map_err RenderFailed r)
  end.

(** [main] and [dispatch]: the file system afterwards, and the service to
    listen with when one was asked for. *)
Definition dispatch (yaml : AgentGatewayConfig -> option (list byte)) (o : FsOutcome) (uuid : string)
    (env : Environment) (valid_database_url : string -> bool) (rng : StdRng) (args : list string)
    (fs : gmap FsPath (list byte)) : outcome (gmap FsPath (list byte) * result StartupError (option Service)) :=
  match parse_command args with
  | Err e => Done (fs, Err (BadCommand e))
  | Ok Serve => run_service env valid_database_url rng ≫= fun r => Done (fs, r ≫= fun s => Ok (Some s))
  | Ok (RenderSidecarConfig output_path) =>
      let '(fs, r) := render_command yaml o uuid env output_path fs in
      Done (fs, r ≫= fun _ => Ok None)
  end.
End Main.
