(* ===== verification/MainProps.v ===== *)
(** The properties of startup ([main.rs]): the reviewed registry stays
    authoritative whatever the upstream catalogs answer. *)

From Stdlib Require Import QArith ZArith.
From S2P Require Import Prelude Float64 RustDecimal RoutingProfile Registry Json RefJson Measurements Share Select.
From S2P Require Import Config ConfigProps Routing RoutingSpec Pricing Catalog UpstreamCatalog UpstreamProps Sse SseProps.
From S2P Require Import Database Ledger Proxy ProxyProps GatewayAuth Service ServiceProps SidecarConfig SidecarProps.
From S2P Require Import StreamProps ServiceForward ServiceIsolation Axum Server ServerProps Gateway GatewayProps.
From S2P Require Import Deployment Main Fixtures.

#[local] Open Scope Z_scope.

Section Props.
Context {D : RustDecimal} (http_get : string -> option HttpReply) (read_registry : string -> option Registry).

Lemma hydrate_source_spec r source :
  NoDup (id <$> providers r) ->
  NoDup (id <$> providers (hydrate_source http_get r source)) /\
  forall pid s x, registry_price r pid s = Some x -> registry_price (hydrate_source http_get r source) pid s = Some x.
Proof.
  intros Hnd. unfold hydrate_source. destruct (fetch_catalog http_get source.2) as [catalog|]; [|done].
  split.
  - by rewrite hydrate_providers, hydrate_ids.
  - intros pid s x Hx. by apply (hydration_keeps_reviewed r source.1 (mappings catalog) pid s Hnd).
Qed.

Lemma hydrate_sources_spec sources r :
  NoDup (id <$> providers r) ->
  NoDup (id <$> providers (foldl (hydrate_source http_get) r sources)) /\
  forall pid s x, registry_price r pid s = Some x ->
    registry_price (foldl (hydrate_source http_get) r sources) pid s = Some x.
Proof.
  revert r. induction sources as [|source sources IH]; intros r Hnd; [done|]. cbn [foldl].
  destruct (hydrate_source_spec r source Hnd) as [Hnd' Hp]. destruct (IH _ Hnd') as [Hnd2 Hp2].
  split; [done|]. intros pid s x Hx. by apply Hp2, Hp.
Qed.

(** C37: Whatever the upstream catalogs answer, or whether they answer at all,
    loading keeps the reviewed registry authoritative: a loaded registry is
    valid, every price the reviewed file gives an enabled provider is still the
    price the loaded one gives, and with every catalog unreachable, unsuccessful
    or undecodable the loaded registry is the reviewed file. *)
Theorem reviewed_registry_wins path reviewed loaded :
  read_registry path = Some reviewed -> NoDup (id <$> providers reviewed) ->
  load_registry http_get read_registry path = Ok loaded ->
  registry_ok loaded /\
  (forall provider_id s x, registry_price reviewed provider_id s = Some x ->
     registry_price loaded provider_id s = Some x) /\
  ((forall url, is_ok (fetch_catalog http_get url) = false) -> loaded = reviewed).
Proof.
  unfold load_registry. intros -> Hnd. cbn [ok_or mbind result_bind].
  intros ([] & Hv & [= <-])%bind_Ok. split; [|split].
  - apply validate_Ok_iff. by destruct (validate _) as [[]|].
  - intros pid s x Hx. by apply hydrate_sources_spec.
  - intros Hf. unfold hydrate_upstream_coverage.
    induction (coverage_sources reviewed) as [|source sources IH]; [done|]. cbn [foldl].
    unfold hydrate_source at 2. specialize (Hf source.2). by destruct (fetch_catalog http_get source.2).
Qed.
End Props.

(** ** The started service *)

Section Startup.
Context {D : RustDecimal} {R : RandCrate} {J : SerdeJson} {U : UrlCrate} {UJ : UrlJoin} {F : FloatText}.
Context {N : Notify} {T : Jiff}.
Context (http_get : string -> option HttpReply) (read_registry : string -> option Registry).

(** What a started service is made of. *)
Record started (env : Environment) (rng : StdRng) (s : Service) : Prop := {
  st_config : exists c, RouterConfig_from_env env = Done (Ok c) /\
    load_registry http_get read_registry (registry_path c) = Ok (sv_registry s) /\
    sv_auth s = auth_of c /\
    from_registry_with_rng (sv_registry s) (Config.routing c) rng = Ok (routing (sv_proxy s), sv_routing s);
  st_prices : PriceTable_from_registry (sv_registry s) = Ok (price_table (sv_proxy s));
  st_catalog : Catalog_from_registry (sv_registry s) = Done (sv_catalog s);
  st_health : sv_health s = starting
}.

Lemma run_service_started env valid_url rng s :
  run_service http_get read_registry env valid_url rng = Done (Ok s) -> started env rng s.
Proof.
  unfold run_service. intros (config & Ec & H)%bind_Done. destruct config as [c|]; [|done]. cbn [map_err] in H.
  destruct (load_registry http_get read_registry (registry_path c)) as [r|] eqn:Er; [|done].
  apply bind_Done in H as (catalog & Hcat & H).
  destruct (PriceTable_from_registry r) as [table|] eqn:Et; cbn [map_err] in H; [|done].
  destruct (env DATABASE_URL_ENV) as [url|]; cbn [map_err] in H; [|done].
  destruct (str_is_empty (trim url)); [done|]. destruct (negb (valid_url (trim url))); [done|].
  apply bind_Done in H as (proxy & Hp & H). destruct proxy as [[p st]|]; cbn [map_err] in H; [|done].
  injection H as <-. cbn.
  unfold ProxyState_new in Hp. destruct (ok_or InvalidSidecarUrl _) as [base|]; [|done].
  destruct (_ || _); [done|]. destruct (from_registry_with_rng r (Config.routing c) rng) as [[po ro]|] eqn:Efr;
    cbn [map_err] in Hp; [|done].
  apply bind_Done in Hp as (chat & _ & Hp). apply bind_Done in Hp as (legacy & _ & [= <- <-]).
  by split; [exists c|..].
Qed.

Context (val : decimal -> Q) {L : DecimalLaws val}.

Lemma started_world_ok env rng s t :
  started env rng s ->
  (forall c, RouterConfig_from_env env = Done (Ok c) ->
     quota_exact_upto val (max_share (Config.policy (Config.routing c))) (share_window (Config.routing c))) ->
  policy_wf val (routing (sv_proxy s)) /\ world_ok (sv_proxy s) (start_world s t).
Proof.
  intros [(c & Hc & _ & _ & Hr) _ _ Hh] Hq.
  destruct (RouterConfig_routing env c Hc) as [_ Hw].
  destruct (from_registry_lookup _ _ _ _ _ (Production, "") Hr) as (_ & Ecfg & Est).
  split.
  - unfold policy_wf. rewrite Ecfg. split_and!; [lia|lia|by apply Hq|].
    intros key ds d. by apply (from_registry_accepted _ _ _ _ _ _ _ _ Hr).
  - split; cbn.
    + intros key tr. rewrite Est. cbn. by rewrite lookup_empty.
    + apply observed_default.
    + unfold supervise_reachable, reachable. by rewrite Hh.
    + constructor.
Qed.

(** Without requests: whatever the interleaving of the world's steps, none
    panics and the world stays well formed. *)
Lemma started_service_never_panics env valid_url rng s t ls :
  run_service http_get read_registry env valid_url rng = Done (Ok s) ->
  (forall c, RouterConfig_from_env env = Done (Ok c) ->
     quota_exact_upto val (max_share (Config.policy (Config.routing c))) (share_window (Config.routing c))) ->
  printable -> table_costable (price_table (sv_proxy s)) -> Forall label_ok ls ->
  exists w' events, run (sv_proxy s) (sv_ledger s) ls (start_world s t) = Done (w', events) /\
                    world_ok (sv_proxy s) w'.
Proof.
  intros Hs Hq Hp Ht Hls. apply run_service_started in Hs.
  destruct (started_world_ok env rng s t Hs Hq) as [Hpol Hw]. by apply (run_ok val).
Qed.

(** The site of a started service. *)
Definition start_site (s : Service) (t : gmap string Row) : Site :=
  {| st_world := start_world s t; st_turn := 0; st_now := 0 |}.

Section Serving.
Context {E : Extract} (su : Surroundings).
#[local] Instance started_host : Host Site := site_host su.
Context {To : Tower Site} {TL : TowerLaws (H := started_host) (T := To)} {C : ConstantTimeEq}.
Context {A : Axum (Layer Site) Endpoint} (routes : Routes -> list (Route (Layer Site) Endpoint))
        (outer : Routes -> list (Layer Site)) {AL : AxumLaws A routes outer}.

(** C2: A service that starts keeps answering: after a successful startup, on
    whatever ledger and with any cargo features, its server is built, and over
    any history of requests through the whole server, whatever they are, with
    any interleaving of streams, ledger statements, other requests' steps and
    the supervisor between them, every request gets a response, no step panics,
    the world stays well formed, and so no handler of a protected route would
    panic on any next request; as long as the readiness client and the security
    headers build, JSON and decimals print, the registry's prices yield costs,
    the configured share multiplies exactly within its window, and replies and
    clock readings are in range. *)
Theorem started_gateway_answers env valid_url rng s t f render_metrics :
  run_service http_get read_registry env valid_url rng = Done (Ok s) ->
  (forall c, RouterConfig_from_env env = Done (Ok c) ->
     quota_exact_upto val (max_share (Config.policy (Config.routing c))) (share_window (Config.routing c))) ->
  printable -> table_costable (price_table (sv_proxy s)) -> surroundings_ok su -> starts (W := Site) f ->
  (forall q s, st_world (render_metrics q s).2 = st_world s) ->
  exists r, run_server f s = Done (Ok r) /\
    forall ts, Forall turn_ok ts ->
    exists answers s',
      serve_history su (sv_proxy s) (sv_ledger s) (sv_catalog s) render_metrics r ts (start_site s t) = Done (answers, s') /\
      site_ok (sv_proxy s) s' /\ length answers = length (requests_of ts) /\
      Forall (fun x => exists resp, x = Returns resp) answers /\
      forall e q, is_public e = false ->
        exists resp s2, run_endpoint (handlers su (sv_proxy s) (sv_ledger s) (sv_catalog s) render_metrics) e q s' =
                        (Returns resp, s2).
Proof.
  intros Hs Hq Hp Ht Hsu Hf Hm. apply run_service_started in Hs.
  destruct (started_world_ok env rng s t Hs Hq) as [Hpol Hw].
  destruct (server_builds routes outer f (sv_auth s) (sv_readiness_url s) Hf) as (r & Hr & _). exists r.
  unfold run_server. rewrite Hr. split; [done|]. intros ts Hts.
  by apply (gateway_answers su routes outer f (sv_auth s) _ _ _ render_metrics val Hpol Hp Ht _ (st_catalog _ _ _ Hs) Hm
              (sv_readiness_url s)).
Qed.
End Serving.

Lemma started_registry env rng s :
  started env rng s ->
  exists path, registry_path_from_env env = Ok path /\ load_registry http_get read_registry path = Ok (sv_registry s).
Proof.
  intros [(c & Hc & Hr & _) _ _ _]. exists (registry_path c). split; [|done]. by apply RouterConfig_path.
Qed.

(** C15: The sidecar runs what the service routes: when the rendering command
    succeeds in the environment a service starts in (the same variables,
    registry file and upstream catalogs; the output's name is not that of the
    temporary file), the file it installed is the configuration compiled from
    the very registry the service routes by, and every attempt the service ever
    decides on has a route of its name there that calls the attempted provider
    for the decided model and marks the response as that provider's; when no
    enabled provider's id has a slash, every route of that name does. *)
Theorem rendered_serves_decisions env valid_url rng s yaml o uuid output_path fs fs' :
  run_service http_get read_registry env valid_url rng = Done (Ok s) ->
  render_command http_get read_registry yaml o uuid env output_path fs = (fs', Ok tt) ->
  file_name (path_new output_path) <> Some (temporary_name uuid) ->
  exists sidecar bytes,
    build_config (sv_registry s) options_default = Ok sidecar /\ yaml sidecar = Some bytes /\
    fs' !! path_new output_path = Some bytes /\
    forall store state prof endpoint request d request' state',
      route_for_endpoint (routing (sv_proxy s)) store state prof endpoint request =
        Done {| ro_result := Ok d; ro_request := request'; ro_state := state' |} ->
      exists ids, fallback_models d = (fun p => route_name p (decision_model d)) <$> ids /\
        forall p, p ∈ selected_provider d :: ids ->
          (exists mr, mr ∈ llm_models (llm sidecar) /\ mr_name mr = route_name p (decision_model d) /\
             calls_provider (sv_registry s) p (decision_model d) mr) /\
          (slash_free (sv_registry s) -> forall mr, mr ∈ llm_models (llm sidecar) ->
             mr_name mr = route_name p (decision_model d) -> calls_provider (sv_registry s) p (decision_model d) mr).
Proof.
  intros Hs%run_service_started Hr Hname. destruct (started_registry env rng s Hs) as (path & Hp & Hl).
  unfold render_command in Hr. rewrite Hp in Hr. cbn [map_err mbind result_bind] in Hr. rewrite Hl in Hr.
  destruct (write_sidecar_config yaml o uuid (sv_registry s) (path_new output_path) fs) as [fs2 [[]|e]] eqn:Hw;
    cbn in Hr; [|done]. injection Hr as <-.
  apply write_installs in Hw as (bytes & Hc & Hf); [|done]. unfold compile in Hc.
  destruct (build_config (sv_registry s) options_default) as [sidecar|] eqn:Eb; cbn in Hc; [|done].
  apply ok_or_Ok in Hc. exists sidecar, bytes. split_and!; [done..|]. intros store state prof endpoint request d request' state' Hd.
  destruct (st_config _ _ _ Hs) as (c & _ & _ & _ & Htable). by eapply decision_attributed.
Qed.
End Startup.

(** ** Witness *)

Definition no_network (url : string) : option HttpReply := None.
Definition reviewed_file (path : string) : option Registry := Some two_providers.

Lemma reviewed_registry_wins_witness :
  registry_ok two_providers /\
  (forall provider_id s x, registry_price two_providers provider_id s = Some x ->
     registry_price two_providers provider_id s = Some x) /\
  ((forall url, is_ok (fetch_catalog no_network url) = false) -> two_providers = two_providers).
Proof.
  apply (reviewed_registry_wins no_network reviewed_file "registry.yaml").
  - reflexivity.
  - repeat constructor; intros H; repeat (apply elem_of_cons in H as [H|H]; [discriminate H|]); inversion H.
  - vm_reflexivity.
Defined.

(** A variable per setting, in the reference parsers' syntax. *)
Definition sample_env : Environment := fun name =>
  if String.eqb name GATEWAY_KEY_ENV then Ok "key"
  else if String.eqb name PRICE_CEILING_ENV then Ok "10"
  else if String.eqb name HYSTERESIS_ENV then Ok "0"
  else if String.eqb name MAX_SHARE_ENV then Ok "0.6"
  else if String.eqb name SHARE_WINDOW_ENV then Ok "10"
  else if String.eqb name DATABASE_URL_ENV then Ok "postgres://localhost/router"
  else Err NotPresent.

Definition hidden_file (path : string) : option Registry := Some hidden_registry.

Definition run_sample :=
  run_service (D := RefDecimal.decimal) (R := RefRand.rand) no_network hidden_file sample_env
    (fun _ => true) seed.

Definition sample_service : Main.Service :=
  match run_sample with
  | Done (Ok s) => s
  | _ => {| sv_auth := GatewayAuth_new []; sv_registry := hidden_registry; sv_catalog := [];
            sv_proxy := hidden_proxy.1; sv_routing := hidden_proxy.2; sv_ledger := ledger_with_health;
            sv_health := starting; sv_readiness_url := DEFAULT_SIDECAR_READINESS_URL |}
  end.

Lemma run_sample_Done : run_sample = Done (Ok sample_service).
Proof. vm_reflexivity. Qed.

Definition sample_config : RouterConfig :=
  {| sidecar_url := DEFAULT_SIDECAR_URL; Config.sidecar_readiness_url := DEFAULT_SIDECAR_READINESS_URL;
     gateway_key := "key"; beta_gateway_key := None; registry_path := DEFAULT_REGISTRY_PATH;
     Config.routing := routing_config |}.

Lemma sample_config_Ok : RouterConfig_from_env sample_env = Done (Ok sample_config).
Proof. vm_reflexivity. Qed.

Lemma sample_routing c : RouterConfig_from_env sample_env = Done (Ok c) -> Config.routing c = routing_config.
Proof. rewrite sample_config_Ok. by intros [= <-]. Qed.

Lemma sample_prices : price_table (sv_proxy sample_service) = hidden_table.
Proof. vm_reflexivity. Qed.

#[local] Existing Instances sample_host sample_waits sample_tower RefAxum.axum.

(** A completion, steps of others, a request without a key, a listing, a probe,
    an unknown path. *)
Definition sample_history : list Turn :=
  [Serves (keyed_chat (bearer "key")); Runs (take 4 race); Serves (keyed_chat []);
   Serves (request GET "/api/v1/models" None (bearer "key") []); Serves (request GET "/livez" None [] []);
   Serves (request GET "/nowhere" None [] [])].

(** Statuses of the answers, [None] for a panic. *)
Definition status_of (x : Served) : option Z := match x with Returns r => Some (p_status r) | Unwinds _ => None end.

Definition sample_answers : outcome (list (option Z)) :=
  match run_server (W := Site) production sample_service with
  | Done (Ok r) =>
      mbind (M := outcome) (fun x => Done (map status_of x.1))
        (serve_history sample_surroundings (sv_proxy sample_service) (sv_ledger sample_service)
           (sv_catalog sample_service) no_metrics r sample_history (start_site sample_service ∅))
  | _ => Panic "the server does not start"
  end.

Example sample_history_answers : sample_answers = Done [Some 200; Some 401; Some 200; Some 200; Some 404].
Proof. vm_reflexivity. Qed.

Lemma race_prefix_ok : Forall label_ok (take 4 race).
Proof. exact (Forall_take _ 4 _ race_ok). Qed.

Lemma sample_history_ok : Forall turn_ok sample_history.
Proof. unfold sample_history. rewrite !Forall_cons. split_and!; try exact I; [exact race_prefix_ok|constructor]. Qed.

Lemma sample_surroundings_ok : surroundings_ok sample_surroundings.
Proof.
  split.
  - intros k. vm_compute. by split; discriminate.
  - intros k e n b r. intros [= <-]. apply completion_reply_ok.
Qed.

Lemma started_gateway_answers_witness :
  exists r, run_server (W := Site) production sample_service = Done (Ok r) /\
    exists answers s',
      serve_history sample_surroundings (sv_proxy sample_service) (sv_ledger sample_service) (sv_catalog sample_service)
        no_metrics r sample_history (start_site sample_service ∅) = Done (answers, s') /\
      site_ok (sv_proxy sample_service) s' /\ length answers = 5%nat.
Proof.
  destruct (started_gateway_answers (A := RefAxum.axum) no_network hidden_file RefDecimal.val sample_surroundings
    RefAxum.held RefAxum.fallback sample_env (fun _ => true) seed sample_service ∅ production no_metrics) as (r & Hr & Hall).
  - exact run_sample_Done.
  - intros c Hc. rewrite (sample_routing c Hc). exact routing_config_exact.
  - exact ref_printable.
  - rewrite sample_prices. exact hidden_costable.
  - exact sample_surroundings_ok.
  - split; reflexivity.
  - reflexivity.
  - exists r. split; [exact Hr|]. destruct (Hall sample_history sample_history_ok) as (answers & s' & H1 & H2 & H3 & _).
    exists answers, s'. split_and!; [exact H1|exact H2|exact H3].
Defined.

Definition all_works : FsOutcome :=
  {| fs_can_create := true; fs_written := None; fs_synced := true; fs_renamed := true; fs_removed := true |}.

Definition sample_output : string := "/config/agentgateway.yaml".

Definition sample_render :=
  render_command no_network hidden_file sample_yaml all_works "u1" sample_env sample_output old_files.

Lemma sample_render_Ok : sample_render = (sample_render.1, Ok tt).
Proof. vm_reflexivity. Qed.

Lemma sample_output_name : file_name (path_new sample_output) <> Some (temporary_name "u1").
Proof. vm_compute. discriminate. Qed.

Lemma rendered_serves_decisions_witness :
  exists sidecar bytes,
    build_config (sv_registry sample_service) options_default = Ok sidecar /\ sample_yaml sidecar = Some bytes /\
    sample_render.1 !! path_new sample_output = Some bytes /\
    forall store state prof endpoint request d request' state',
      route_for_endpoint (routing (sv_proxy sample_service)) store state prof endpoint request =
        Done {| ro_result := Ok d; ro_request := request'; ro_state := state' |} ->
      exists ids, fallback_models d = (fun p => route_name p (decision_model d)) <$> ids /\
        forall p, p ∈ selected_provider d :: ids ->
          attributed_route (sv_registry sample_service) sidecar p (decision_model d).
Proof.
  apply (rendered_serves_decisions no_network hidden_file sample_env (fun _ => true) seed sample_service sample_yaml
           all_works "u1" sample_output old_files sample_render.1).
  - exact run_sample_Done.
  - exact sample_render_Ok.
  - exact sample_output_name.
Defined.
