(* ===== verification/TestKit.v ===== *)
(** What the translations of the crate's own unit tests share ([RegistryTests],
    [PolicyTests], [DrawTests], [RoutingTests], [CatalogTests], [SseTests],
    [ProxyTests], [ServiceTests], [HttpTests], [ProductionTests]).

    A test is a proposition named as the test function: the conjunction of its
    assertions, over the same inputs, on the executable instances of the
    crates' interfaces.  [assert_eq!] is an equation, a loop over cases is
    [every], and [unwrap] is [let!] with the constructor it expects.  Each is
    proved by evaluation. *)

From Stdlib Require Import ZArith Strings.Byte.
From S2P Require Import Prelude Float64 RustDecimal RoutingProfile Registry Json RefJson.

#[local] Open Scope Z_scope.

(** ** Literals *)

(** A string literal's text, with an apostrophe for the double quote; a
    backslash at the end of a line drops the break and what indents the next. *)
Fixpoint lit_from (indenting : bool) (s : string) : string :=
  match s with
  | EmptyString => EmptyString
  | String " " s => if indenting then lit_from true s else String " " (lit_from false s)
  | String "\" (String "n" s) => String (ascii_of_nat 10) (lit_from false s)
  | String "\" (String "r" s) => String (ascii_of_nat 13) (lit_from false s)
  | String "\" (String "t" s) => String (ascii_of_nat 9) (lit_from false s)
  | String "\" (String "010" s) => lit_from true s
  | String "'" s => String RefJson.quote (lit_from false s)
  | String c s => String c (lit_from false s)
  end.
Definition lit : string -> string := lit_from false.

Definition lit_bytes (s : string) : list byte := bytes_of (lit s).

(** [json!], and [serde_json::from_slice] of a literal. *)
Definition json (s : string) : Value := default Null (RefJson.parse (lit_bytes s)).

(** A [Decimal] parsed of a literal. *)
Definition decimal_of (s : string) : RefDecimal.t := default (RefDecimal.Dec 0 0) (RefDecimal.from_str s).

(** The [f64] nearest to [n / d]. *)
Definition f64_lit (n d : Z) : f64 := f64_div (f64_of_Z n) (f64_of_Z d).

(** [str::contains]. *)
Fixpoint contains (needle haystack : string) : bool :=
  is_some (strip_prefix needle haystack) ||
  match haystack with EmptyString => false | String _ rest => contains needle rest end.

(** [value[k]], null where there is no such field. *)
Definition index (k : string) (v : Value) : Value := default Null (value_get k v).

(** [value[i]], null where there is no such element. *)
Definition element (i : nat) (v : Value) : Value := default Null (as_array v ≫= fun l => l !! i).

(** The letters with codes from [first] on, moved to [target]. *)
Definition shift_letters (first target : nat) (s : string) : string :=
  string_of_list_ascii
    ((fun c => let n := nat_of_ascii c in
               if Nat.leb first n && Nat.ltb n (first + 26) then ascii_of_nat (n - first + target) else c)
       <$> list_ascii_of_string s).

(** [to_uppercase] and [to_ascii_lowercase] of an ASCII string. *)
Definition to_uppercase : string -> string := shift_letters 97 65.
Definition to_ascii_lowercase : string -> string := shift_letters 65 97.

(** ** Assertions *)

(** Decimals are equal whatever their scales. *)
Definition same_decimal (a b : RefDecimal.t) : Prop := RefDecimal.cmp a b = Eq.

(** An assertion for every element. *)
Definition every {A} (P : A -> Prop) (l : list A) : Prop := foldr (fun x rest => P x /\ rest) True l.

(** A loop whose body leaves the state it starts in for the next round. *)
Fixpoint every_from {A S} (body : A -> S -> (S -> Prop) -> Prop) (l : list A) (s : S) (k : S -> Prop) : Prop :=
  match l with [] => k s | x :: l => body x s (fun s => every_from body l s k) end.

Notation "'let!' p ':=' e 'in' k" := (match e with p => k | _ => False end)
  (at level 200, p pattern, e at level 100, k at level 200, right associativity).

(** [matches!]. *)
Notation "'matches!' ( e , p )" := (match e with p => True | _ => False end)
  (at level 0, e at level 100, p pattern at level 200).

(** ** Registries

    What the tests change of a decoded registry. *)

Section Edits.
Context {D : RustDecimal}.

Definition edit_provider (i : nat) (f : Provider -> Provider) (r : Registry) : Registry :=
  {| providers := alter f i (providers r) |}.

Definition with_models (ms : list ModelMapping) (p : Provider) : Provider :=
  {| id := id p; display_name := display_name p; public_display_name := public_display_name p;
     public_tag := public_tag p; base_url := base_url p; secret_env := secret_env p; enabled := enabled p;
     priority := priority p; catalog_url := catalog_url p; profiles := profiles p; models := ms |}.

Definition edit_model (i j : nat) (f : ModelMapping -> ModelMapping) : Registry -> Registry :=
  edit_provider i (fun p => with_models (alter f j (models p)) p).

Definition with_id (name : string) (p : Provider) : Provider :=
  {| id := name; display_name := display_name p; public_display_name := public_display_name p;
     public_tag := public_tag p; base_url := base_url p; secret_env := secret_env p; enabled := enabled p;
     priority := priority p; catalog_url := catalog_url p; profiles := profiles p; models := models p |}.

Definition with_enabled (flag : bool) (p : Provider) : Provider :=
  {| id := id p; display_name := display_name p; public_display_name := public_display_name p;
     public_tag := public_tag p; base_url := base_url p; secret_env := secret_env p; enabled := flag;
     priority := priority p; catalog_url := catalog_url p; profiles := profiles p; models := models p |}.

Definition with_profiles (ps : gset RoutingProfile) (p : Provider) : Provider :=
  {| id := id p; display_name := display_name p; public_display_name := public_display_name p;
     public_tag := public_tag p; base_url := base_url p; secret_env := secret_env p; enabled := enabled p;
     priority := priority p; catalog_url := catalog_url p; profiles := ps; models := models p |}.

Definition with_aliases (name tag : option string) (p : Provider) : Provider :=
  {| id := id p; display_name := display_name p; public_display_name := name;
     public_tag := tag; base_url := base_url p; secret_env := secret_env p; enabled := enabled p;
     priority := priority p; catalog_url := catalog_url p; profiles := profiles p; models := models p |}.

Definition with_catalog_url (url : option string) (p : Provider) : Provider :=
  {| id := id p; display_name := display_name p; public_display_name := public_display_name p;
     public_tag := public_tag p; base_url := base_url p; secret_env := secret_env p; enabled := enabled p;
     priority := priority p; catalog_url := url; profiles := profiles p; models := models p |}.

Definition with_name (name : string) (m : ModelMapping) : ModelMapping :=
  {| slug := slug m; model_name := name; context_length := context_length m;
     provider_model_id := provider_model_id m; input_price_per_mtok := input_price_per_mtok m;
     cached_input_price_per_mtok := cached_input_price_per_mtok m;
     output_price_per_mtok := output_price_per_mtok m; request_constraints := request_constraints m |}.

Definition with_context_length (n : Z) (m : ModelMapping) : ModelMapping :=
  {| slug := slug m; model_name := model_name m; context_length := n;
     provider_model_id := provider_model_id m; input_price_per_mtok := input_price_per_mtok m;
     cached_input_price_per_mtok := cached_input_price_per_mtok m;
     output_price_per_mtok := output_price_per_mtok m; request_constraints := request_constraints m |}.

Definition with_prices (input : decimal) (cached : option decimal) (output : decimal) (m : ModelMapping)
    : ModelMapping :=
  {| slug := slug m; model_name := model_name m; context_length := context_length m;
     provider_model_id := provider_model_id m; input_price_per_mtok := input;
     cached_input_price_per_mtok := cached; output_price_per_mtok := output;
     request_constraints := request_constraints m |}.

Definition with_constraints (constraints : RequestConstraints) (m : ModelMapping) : ModelMapping :=
  {| slug := slug m; model_name := model_name m; context_length := context_length m;
     provider_model_id := provider_model_id m; input_price_per_mtok := input_price_per_mtok m;
     cached_input_price_per_mtok := cached_input_price_per_mtok m;
     output_price_per_mtok := output_price_per_mtok m; request_constraints := constraints |}.
End Edits.

(** ** Evaluation *)

Ltac run_test := vm_compute; repeat split; reflexivity.

Lemma every_Forall {A} (P : A -> Prop) l : every P l <-> Forall P l.
Proof. induction l as [|x l IH]; cbn; [by rewrite Forall_nil|]. by rewrite Forall_cons, IH. Qed.
