(* ===== verification/Documents.v ===== *)
(** The YAML documents the repository keeps, as the registries they decode to:
    the registry the service is shipped with, and the two that the tests of the
    catalog and of the sidecar configuration read. *)

From Stdlib Require Import ZArith.
From S2P Require Import Prelude RustDecimal RoutingProfile Registry TestKit.

#[local] Open Scope Z_scope.
#[local] Existing Instance RefDecimal.decimal.

Definition mapping (slug name : string) (context_length : Z) (provider_model_id input : string)
    (cached : option string) (output : string) (constraints : RequestConstraints) : ModelMapping :=
  {| Registry.slug := slug; model_name := name; Registry.context_length := context_length;
     Registry.provider_model_id := provider_model_id; input_price_per_mtok := decimal_of input;
     cached_input_price_per_mtok := option_map decimal_of cached; output_price_per_mtok := decimal_of output;
     request_constraints := constraints |}.

Definition chat_endpoint : RequestConstraints :=
  {| endpoints := {[ Chat ]}; supports_streaming := true; top_p := None |}.

(** [registry/providers.yaml]. *)
Definition checked_registry : Registry :=
  {| providers := [
     {| id := "openrouter"; display_name := "OpenRouter"; public_display_name := None; public_tag := None;
        base_url := "https://openrouter.ai/api/v1"; secret_env := "SEREN_ROUTER_KEY_OPENROUTER";
        enabled := true; priority := 255;
        catalog_url := Some "https://openrouter.ai/api/v1/models"; profiles := {[ Production; Beta ]};
        models :=
          [mapping "openai/gpt-5.6-luna" "OpenAI GPT-5.6 Luna" 1050000
             "openai/gpt-5.6-luna" "1.00" None "6.00" default_request_constraints;
           mapping "anthropic/claude-sonnet-5" "Anthropic Claude Sonnet 5" 1000000
             "anthropic/claude-sonnet-5" "2.00" None "10.00" default_request_constraints;
           mapping "google/gemini-3.6-flash" "Google Gemini 3.6 Flash" 1048576
             "google/gemini-3.6-flash" "1.50" None "7.50" default_request_constraints;
           mapping "meta-llama/llama-3.3-70b-instruct" "Meta Llama 3.3 70B Instruct" 131072
             "meta-llama/llama-3.3-70b-instruct" "0.13" None "0.40" default_request_constraints;
           mapping "deepseek/deepseek-v4-flash" "DeepSeek V4 Flash" 1048576
             "deepseek/deepseek-v4-flash" "0.0938" None "0.1876" default_request_constraints;
           mapping "z-ai/glm-5.2" "Z.ai GLM 5.2" 1048576
             "z-ai/glm-5.2" "0.6993" (Some "0.12987") "2.1978" default_request_constraints;
           mapping "moonshotai/kimi-k3" "MoonshotAI Kimi K3" 1048576
             "moonshotai/kimi-k3" "3.00" (Some "0.30") "15.00" default_request_constraints] |};
     {| id := "modal"; display_name := "Modal"; public_display_name := Some "Seren Inference"; public_tag := Some "seren";
        base_url := "https://inference.us-west.modal.direct/v1"; secret_env := "SEREN_ROUTER_KEY_MODAL";
        enabled := true; priority := 0;
        catalog_url := None; profiles := {[ Production; Beta ]};
        models :=
          [mapping "moonshotai/kimi-k3" "MoonshotAI Kimi K3" 1048576
             "serendb--ep-seren-kimi-k3-beta-server.us-west.modal.direct" "3.00" (Some "0.30") "15.00"
            {| endpoints := {[ Chat ]}; supports_streaming := false;
               top_p := Some {| tp_min := decimal_of "0.95"; tp_max := decimal_of "1" |} |}] |};
     {| id := "deepinfra"; display_name := "DeepInfra"; public_display_name := None; public_tag := None;
        base_url := "https://api.deepinfra.com/v1/openai"; secret_env := "SEREN_ROUTER_KEY_DEEPINFRA";
        enabled := true; priority := 1;
        catalog_url := None; profiles := {[ Production; Beta ]};
        models :=
          [mapping "meta-llama/llama-3.3-70b-instruct" "Meta Llama 3.3 70B Instruct" 131072
             "meta-llama/Llama-3.3-70B-Instruct-Turbo" "0.10" None "0.32"
            chat_endpoint] |};
     {| id := "deepinfra-glm"; display_name := "DeepInfra"; public_display_name := None; public_tag := None;
        base_url := "https://api.deepinfra.com/v1/openai"; secret_env := "SEREN_ROUTER_KEY_DEEPINFRA_GLM";
        enabled := true; priority := 0;
        catalog_url := None; profiles := {[ Production; Beta ]};
        models :=
          [mapping "z-ai/glm-5.2" "Z.ai GLM 5.2" 1048576 "zai-org/GLM-5.2" "0.75" (Some "0.14") "2.40"
            chat_endpoint] |};
     {| id := "blackbox"; display_name := "Blackbox"; public_display_name := None; public_tag := None;
        base_url := "https://api.blackbox.ai/v1"; secret_env := "SEREN_ROUTER_KEY_BLACKBOX";
        enabled := true; priority := 1;
        catalog_url := None; profiles := {[ Production; Beta ]};
        models :=
          [mapping "z-ai/glm-5.2" "Z.ai GLM 5.2" 1000000 "z-ai/glm-5.2" "1.40" (Some "0.14") "4.40"
            chat_endpoint] |}] |}.

(** [tests/fixtures/catalog_registry.yaml]. *)
Definition catalog_document : Registry :=
  {| providers := [
     {| id := "balanced"; display_name := "Balanced Provider"; public_display_name := None; public_tag := None;
        base_url := "https://balanced.example/v1"; secret_env := "SEREN_ROUTER_KEY_BALANCED";
        enabled := true; priority := 10;
        catalog_url := None; profiles := default_profiles;
        models :=
          [mapping "anthropic/claude-opus-5-fast" "Claude Opus 5 (Fast)" 1000000
             "anthropic/claude-opus-5-fast" "10" None "50" default_request_constraints] |};
     {| id := "cheap-input"; display_name := "Cheap Input Provider"; public_display_name := None; public_tag := None;
        base_url := "https://cheap-input.example/v1"; secret_env := "SEREN_ROUTER_KEY_CHEAP_INPUT";
        enabled := true; priority := 20;
        catalog_url := None; profiles := default_profiles;
        models :=
          [mapping "anthropic/claude-opus-5-fast" "Claude Opus 5 Fast Alternate" 750000
             "claude-opus-5-fast" "5" None "70" default_request_constraints;
           mapping "openai/gpt-5-mini" "GPT-5 Mini" 400000
             "gpt-5-mini" "0.25" None "2" default_request_constraints] |};
     {| id := "disabled"; display_name := "Disabled Provider"; public_display_name := None; public_tag := None;
        base_url := "https://disabled.example/v1"; secret_env := "SEREN_ROUTER_KEY_DISABLED";
        enabled := false; priority := 0;
        catalog_url := None; profiles := default_profiles;
        models :=
          [mapping "anthropic/claude-opus-5-fast" "Disabled Claude" 2000000
             "disabled-claude" "0" None "0" default_request_constraints] |}] |}.

(** [tests/fixtures/sidecar_config_registry.yaml]. *)
Definition sidecar_document : Registry :=
  {| providers := [
     {| id := "slow"; display_name := "Slow Provider"; public_display_name := None; public_tag := None;
        base_url := "http://127.0.0.1:4101/v1"; secret_env := "SEREN_ROUTER_KEY_SLOW";
        enabled := true; priority := 20;
        catalog_url := None; profiles := default_profiles;
        models :=
          [mapping "acme/shared" "Acme Shared" 131072 "slow-shared" "1.25" None "2.50" default_request_constraints;
           mapping "acme/exclusive" "Acme Exclusive" 65536
             "slow-exclusive" "0.75" None "1.50" default_request_constraints] |};
     {| id := "fast"; display_name := "Fast Provider"; public_display_name := None; public_tag := None;
        base_url := "http://127.0.0.1:4102/v1"; secret_env := "SEREN_ROUTER_KEY_FAST"; enabled := true; priority := 5;
        catalog_url := None; profiles := default_profiles;
        models :=
          [mapping "acme/shared" "Acme Shared" 131072
             "fast-shared" "1.50" None "3.00" default_request_constraints] |};
     {| id := "disabled"; display_name := "Disabled Provider"; public_display_name := None; public_tag := None;
        base_url := "http://127.0.0.1:4103/v1"; secret_env := "SEREN_ROUTER_KEY_DISABLED";
        enabled := false; priority := 0;
        catalog_url := None; profiles := default_profiles;
        models :=
          [mapping "acme/shared" "Acme Shared" 131072
             "disabled-shared" "0.01" None "0.01" default_request_constraints] |}] |}.
