(* ===== verification/RegistryTests.v ===== *)
(** The unit tests of [registry.rs] and [pricing.rs].  The tests of the YAML
    encoding itself (two_provider_yaml_round_trips,
    optional_catalog_aliases_and_cached_input_price_round_trip,
    optional_request_constraints_round_trip, unknown_fields_are_rejected) are
    [serde_yaml]'s and are left out; the documents the other tests decode are
    written as the registries they decode to. *)

From Stdlib Require Import ZArith.
From S2P Require Import Prelude RustDecimal RoutingProfile Registry Pricing TestKit.

#[local] Open Scope Z_scope.

(** ** registry.rs *)

Module RegistryTests.
#[local] Existing Instance RefDecimal.decimal.

Definition SLUG : string := "meta-llama/llama-3.3-70b-instruct".

Definition TWO_PROVIDER_YAML : Registry :=
  {| providers :=
       [{| id := "openrouter"; display_name := "OpenRouter"; public_display_name := None; public_tag := None;
           base_url := "https://openrouter.ai/api/v1"; secret_env := "SEREN_ROUTER_KEY_OPENROUTER"; enabled := true;
           priority := 255; catalog_url := None; profiles := default_profiles;
           models :=
             [{| slug := SLUG; model_name := "Llama 3.3 70B Instruct"; context_length := 131072;
                 provider_model_id := SLUG; input_price_per_mtok := decimal_of "0.40";
                 cached_input_price_per_mtok := None; output_price_per_mtok := decimal_of "0.40";
                 request_constraints := default_request_constraints |}] |};
        {| id := "fireworks"; display_name := "Fireworks AI"; public_display_name := None; public_tag := None;
           base_url := "https://api.fireworks.ai/inference/v1"; secret_env := "SEREN_ROUTER_KEY_FIREWORKS";
           enabled := false; priority := 0; catalog_url := None; profiles := default_profiles;
           models :=
             [{| slug := SLUG; model_name := "Llama 3.3 70B Instruct"; context_length := 131072;
                 provider_model_id := "accounts/fireworks/models/llama-v3p3-70b-instruct";
                 input_price_per_mtok := decimal_of "0.90"; cached_input_price_per_mtok := None;
                 output_price_per_mtok := decimal_of "0.90"; request_constraints := default_request_constraints |}] |}] |}.

Definition duplicate_provider_ids_are_rejected : Prop :=
  let registry := edit_provider 1 (with_id "openrouter") TWO_PROVIDER_YAML in
  let! Err (DuplicateProviderId p) := validate registry in p = "openrouter".

Definition blank_model_names_are_rejected : Prop :=
  let registry := edit_model 0 0 (with_name (lit " \t")) TWO_PROVIDER_YAML in
  let! Err (EmptyModelName p s) := validate registry in p = "openrouter" /\ s = SLUG.

Definition zero_model_context_lengths_are_rejected : Prop :=
  let registry := edit_model 0 0 (with_context_length 0) TWO_PROVIDER_YAML in
  let! Err (ZeroModelContextLength p s) := validate registry in p = "openrouter" /\ s = SLUG.

Definition empty_model_completion_endpoints_are_rejected : Prop :=
  let none := {| endpoints := ∅; supports_streaming := true; top_p := None |} in
  let registry := edit_model 0 0 (with_constraints none) TWO_PROVIDER_YAML in
  let! Err (EmptyModelCompletionEndpoints p s) := validate registry in p = "openrouter" /\ s = SLUG.

Definition invalid_model_top_p_bounds_are_rejected : Prop :=
  every (fun '(low, high) =>
    let bounds := {| tp_min := decimal_of low; tp_max := decimal_of high |} in
    let constraints :=
      {| endpoints := default_completion_endpoints; supports_streaming := true; top_p := Some bounds |} in
    let registry := edit_model 0 0 (with_constraints constraints) TWO_PROVIDER_YAML in
    let! Err (InvalidModelTopPBounds p s low' high') := validate registry in
    p = "openrouter" /\ s = SLUG /\ same_decimal low' (decimal_of low) /\ same_decimal high' (decimal_of high))
  [("-0.01", "1"); ("0.6", "0.5"); ("0", "1.01")].

Definition empty_provider_profiles_are_rejected : Prop :=
  let registry := edit_provider 0 (with_profiles ∅) TWO_PROVIDER_YAML in
  let! Err (EmptyProviderProfiles p) := validate registry in p = "openrouter".

Definition blank_public_catalog_aliases_are_rejected : Prop :=
  let registry := edit_provider 0 (with_aliases (Some (lit " \t")) (Some "seren")) TWO_PROVIDER_YAML in
  (let! Err (EmptyProviderPublicDisplayName p) := validate registry in p = "openrouter") /\
  let registry := edit_provider 0 (with_aliases None (Some (lit "\n"))) registry in
  (let! Err (IncompleteProviderPublicAliases p) := validate registry in p = "openrouter") /\
  let registry := edit_provider 0 (with_aliases (Some "Seren Inference") (Some (lit "\n"))) registry in
  (let! Err (EmptyProviderPublicTag p) := validate registry in p = "openrouter").

Definition public_catalog_aliases_must_be_configured_together : Prop :=
  every (fun '(name, tag) =>
    let registry := edit_provider 0 (with_aliases name tag) TWO_PROVIDER_YAML in
    (let! Err (IncompleteProviderPublicAliases p) := validate registry in p = "openrouter") /\
    (let! p :: _ := providers registry in catalog_display_name p = "OpenRouter" /\ catalog_tag p = "openrouter"))
  [(Some "Seren Inference", None); (None, Some "seren")].

Example duplicate_ids_rejected : duplicate_provider_ids_are_rejected.
Proof. run_test. Qed.
Example blank_names_rejected : blank_model_names_are_rejected.
Proof. run_test. Qed.
Example zero_context_rejected : zero_model_context_lengths_are_rejected.
Proof. run_test. Qed.
Example empty_endpoints_rejected : empty_model_completion_endpoints_are_rejected.
Proof. run_test. Qed.
Example top_p_bounds_rejected : invalid_model_top_p_bounds_are_rejected.
Proof. run_test. Qed.
Example empty_profiles_rejected : empty_provider_profiles_are_rejected.
Proof. run_test. Qed.
Example blank_aliases_rejected : blank_public_catalog_aliases_are_rejected.
Proof. run_test. Qed.
Example aliases_together : public_catalog_aliases_must_be_configured_together.
Proof. run_test. Qed.

(** The document itself is accepted. *)
Example two_providers_valid : validate TWO_PROVIDER_YAML = Ok tt.
Proof. reflexivity. Qed.
End RegistryTests.

(** ** pricing.rs *)

Module PricingTests.
#[local] Existing Instance RefDecimal.decimal.

Definition canonical_model (input output : string) : ModelMapping :=
  {| slug := "canonical/model"; model_name := "Canonical Model"; context_length := 131072;
     provider_model_id := "provider/model"; input_price_per_mtok := decimal_of input;
     cached_input_price_per_mtok := None; output_price_per_mtok := decimal_of output;
     request_constraints := default_request_constraints |}.

Definition PRICE_REGISTRY : Registry :=
  {| providers :=
       [{| id := "enabled-provider"; display_name := "Enabled Provider"; public_display_name := None;
           public_tag := None; base_url := "https://enabled.example/v1"; secret_env := "ENABLED_KEY"; enabled := true;
           priority := 0; catalog_url := None; profiles := default_profiles;
           models := [canonical_model "0.1234500" "0.80"] |};
        {| id := "disabled-provider"; display_name := "Disabled Provider"; public_display_name := None;
           public_tag := None; base_url := "https://disabled.example/v1"; secret_env := "DISABLED_KEY";
           enabled := false; priority := 1; catalog_url := None; profiles := default_profiles;
           models := [canonical_model "9.99" "9.99"] |}] |}.

Definition table_indexes_enabled_provider_and_model_without_inventing_prices : Prop :=
  let! Ok table := PriceTable_from_registry PRICE_REGISTRY in
  (let! Some prices := PriceTable_get table "enabled-provider" "canonical/model" in
   same_decimal (mp_input_price_per_mtok (provider_cost prices)) (decimal_of "0.1234500") /\
   same_decimal (mp_output_price_per_mtok (provider_cost prices)) (decimal_of "0.80") /\
   is_some (provider_cached_input_price_per_mtok prices) = false) /\
  is_some (PriceTable_get table "disabled-provider" "canonical/model") = false /\
  is_some (PriceTable_get table "enabled-provider" "unknown/model") = false.

Definition duplicate_enabled_provider_model_price_is_rejected : Prop :=
  let registry :=
    edit_provider 0 (fun p => with_models (models p ++ firstn 1 (models p)) p) PRICE_REGISTRY in
  let! Err (DuplicateMapping p s) := PriceTable_from_registry registry in
  p = "enabled-provider" /\ s = "canonical/model".

Definition negative_provider_prices_are_rejected : Prop :=
  every (fun '(side, input_price, cached_input_price, output_price) =>
    let registry :=
      edit_model 0 0 (with_prices (decimal_of input_price) (option_map decimal_of cached_input_price)
                        (decimal_of output_price)) PRICE_REGISTRY in
    let! Err (NegativePrice p s price_side) := PriceTable_from_registry registry in
    p = "enabled-provider" /\ s = "canonical/model" /\ price_side = side)
  [(Input, "-0.01", None, "0"); (CachedInput, "0", Some "-0.01", "0"); (Output, "0", None, "-0.01")].

(** The name of a case, its prices, its usage and the cost printed. *)
Definition cost_cases : list (string * string * string * Usage * string) :=
  [("zero tokens", "1.25", "2.50", {| prompt_tokens := 0; completion_tokens := 0 |}, "0.0000000000");
   ("exact million boundary", "1.25", "2.50", {| prompt_tokens := 1000000; completion_tokens := 1000000 |},
    "3.7500000000");
   ("significant trailing-zero precision", "123.4500", "0", {| prompt_tokens := 1; completion_tokens := 0 |},
    "0.0001234500");
   ("halfway value rounds away from zero at ledger scale", "0.00005", "0",
    {| prompt_tokens := 1; completion_tokens := 0 |}, "0.0000000001");
   ("mixed token hand calculation", "0.40", "0.80", {| prompt_tokens := 1234; completion_tokens := 567 |},
    "0.0009472000")].

Definition cost_is_exact_decimal_usd : Prop :=
  every (fun '(_, input_price, output_price, usage, expected) =>
    let prices :=
      {| mp_input_price_per_mtok := decimal_of input_price; mp_output_price_per_mtok := decimal_of output_price |} in
    let! Done cost := cost_usd prices usage in dec_to_string cost = expected) cost_cases.

Definition cached_prompt_provider_cost_is_exact_and_requires_valid_usage : Prop :=
  let prices :=
    {| provider_cost :=
         {| mp_input_price_per_mtok := decimal_of "3.00"; mp_output_price_per_mtok := decimal_of "15.00" |};
       provider_cached_input_price_per_mtok := Some (decimal_of "0.30") |} in
  let usage := {| prompt_tokens := 100; completion_tokens := 10 |} in
  (let! Done (Some cost) := provider_cost_usd prices usage (Some 40) in dec_to_string cost = "0.0003420000") /\
  matches!(provider_cost_usd prices usage None, Done None) /\
  matches!(provider_cost_usd prices usage (Some 101), Done None).

Definition provider_reported_cost_is_normalized_without_floating_point : Prop :=
  (let! Some cost := normalize_cost_usd (decimal_of "0.00034092") in dec_to_string cost = "0.0003409200") /\
  is_some (normalize_cost_usd (decimal_of "-0.01")) = false.

Example table_indexes_hold : table_indexes_enabled_provider_and_model_without_inventing_prices.
Proof. run_test. Qed.
Example duplicate_price_rejected : duplicate_enabled_provider_model_price_is_rejected.
Proof. run_test. Qed.
Example negative_prices_rejected : negative_provider_prices_are_rejected.
Proof. run_test. Qed.
Example cost_is_exact : cost_is_exact_decimal_usd.
Proof. run_test. Qed.
Example cached_prompt_cost_exact : cached_prompt_provider_cost_is_exact_and_requires_valid_usage.
Proof. run_test. Qed.
Example reported_cost_normalized : provider_reported_cost_is_normalized_without_floating_point.
Proof. run_test. Qed.
End PricingTests.
