(* ===== verification/PolicyTests.v ===== *)
(** The unit tests of [policy/select.rs], [policy/measurements.rs] and
    [policy/preference.rs], on the reference decimals and generator.  The two of
    [select.rs]'s tests that count draws under fixed weights are in [DrawTests];
    default_rolling_share_never_exceeds_the_full_window_quota is left out, ten
    thousand windows in a row being too long to evaluate: the quota it
    checks is an invariant of [PolicyProps]. *)

From Stdlib Require Import ZArith SpecFloat.
From S2P Require Import Prelude Float64 RustDecimal RoutingProfile Json RefJson Preference Measurements Share Select TestKit.

#[local] Open Scope Z_scope.

(** ** select.rs *)

Module SelectTests.
#[local] Existing Instances RefDecimal.decimal RefRand.rand.

(** [zip] of the measurements, and [unwrap]. *)
Definition candidate (provider_id : string) (price priority : Z) (throughput latency : option f64)
    (healthy : bool) : Candidate :=
  let measurements :=
    match throughput, latency with
    | Some t, Some l => Some {| throughput_tokens_per_second := t; time_to_first_token_seconds := l |}
    | _, _ => None
    end in
  match Candidate_new provider_id (dec_of_Z price) dec_zero priority measurements healthy with
  | Ok c => c
  | Err _ => {| c_provider_id := "unwrap"; combined_price_per_mtok := dec_zero; c_priority := 0;
                Select.measurements := None; is_healthy := false |}
  end.

Definition config (price_ceiling : Z) (hysteresis : f64) (max_share : string) : PolicyConfig :=
  match PolicyConfig_new (dec_of_Z price_ceiling) hysteresis (decimal_of max_share) with
  | Ok c => c
  | Err _ => {| combined_price_ceiling_per_mtok := dec_zero; hysteresis_fraction := f64_zero; Select.max_share := dec_zero |}
  end.

Definition tracker (capacity : Z) : ShareTracker :=
  match ShareTracker_new capacity with Done (Ok t) => t | _ => {| capacity := 0; history := []; counts := ∅ |} end.

(** The provider selected, under [unwrap]. *)
Definition selects (candidates : list Candidate) (p : Preference) (config : PolicyConfig) (share : ShareTracker)
    (rng : StdRng) (provider : string) : Prop :=
  let! Done (Some c, _) := select_route candidates p config share rng in c_provider_id c = provider.

(** The providers of [n] draws in a row. *)
Fixpoint draws (n : nat) (candidates : list Candidate) (p : Preference) (config : PolicyConfig) (share : ShareTracker)
    (rng : StdRng) : outcome (list (option string)) :=
  match n with
  | O => Done []
  | S n =>
      select_route candidates p config share rng ≫= fun '(c, rng) =>
      draws n candidates p config share rng ≫= fun rest => Done (option_map c_provider_id c :: rest)
  end.

Definition tenth : f64 := f64_lit 1 10.
Definition f (n : Z) : option f64 := Some (f64_of_Z n).

Definition default_price_ceiling_excludes_a_faster_expensive_candidate : Prop :=
  let candidates :=
    [candidate "within-ceiling" 10 0 (f 20) (f 1) true;
     candidate "over-ceiling" 11 0 (f 2000) (Some tenth) true] in
  let! Done drawn := draws 1000 candidates Default (config 10 tenth "1") (tracker 100) (seed_from_u64 11) in
  forallb (fun provider => bool_decide (provider = Some "within-ceiling")) drawn = true.

Definition strict_sorts_return_the_best_healthy_candidate_with_stable_ties : Prop :=
  let candidates :=
    [candidate "unhealthy" 0 0 (f 10000) (f 0) false;
     candidate "price" 1 2 (f 10) (f 3) true;
     candidate "throughput" 2 1 (f 200) (f 2) true;
     candidate "latency" 3 0 (f 50) (Some tenth) true;
     candidate "unmeasured" 1 1 None None true] in
  let config := config 100 tenth "0.6" in
  let share := tracker 100 in
  let rng := seed_from_u64 23 in
  every (fun '(preference, expected_provider) => selects candidates preference config share rng expected_provider)
    [(Price, "unmeasured"); (Throughput, "throughput"); (Latency, "latency")] /\
  let tied :=
    [candidate "beta" 1 1 (f 100) (f 1) true;
     candidate "alpha" 1 1 (f 100) (f 1) true;
     candidate "later-priority" 1 2 (f 100) (f 1) true] in
  every (fun preference => selects tied preference config share rng "alpha") [Price; Throughput; Latency].

Definition free_balanced_candidates_are_finite_and_paid_candidates_never_win : Prop :=
  let candidates :=
    [candidate "free-a" 0 0 None None true; candidate "free-b" 0 1 None None true; candidate "paid" 1 0 None None true] in
  let! Done selected := draws 1000 candidates Balanced (config 100 tenth "0.6") (tracker 100) (seed_from_u64 29) in
  bool_decide (Some "free-a" ∈ selected) = true /\ bool_decide (Some "free-b" ∈ selected) = true /\
  bool_decide (Some "paid" ∈ selected) = false /\ bool_decide (None ∈ selected) = false.

Definition cold_start_uses_priority_and_empty_or_unhealthy_inputs_return_none : Prop :=
  let candidates := [candidate "later" 1 2 None None true; candidate "first" 1 1 None None true] in
  let unhealthy := [candidate "down" 1 0 (f 100) (f 1) false] in
  let config := config 100 tenth "0.6" in
  let share := tracker 100 in
  let rng := seed_from_u64 31 in
  selects candidates Default config share rng "first" /\
  matches!(select_route [] Default config share rng, Done (None, _)) /\
  matches!(select_route unhealthy Default config share rng, Done (None, _)).

Definition DECIMAL_MAX : RefDecimal.t := RefDecimal.Dec (2 ^ 96 - 1) 0.

Definition share_history_evicts_old_selections_and_invalid_inputs_are_rejected : Prop :=
  (let! Done s := record (tracker 3) "a" in
   let! Done s := record s "b" in
   let! Done s := record s "a" in
   let! Done s := record s "b" in
   (let! Done a := share s "a" in same_decimal a (decimal_of "0.3333333333333333333333333333")) /\
   (let! Done b := share s "b" in same_decimal b (decimal_of "0.6666666666666666666666666667")) /\
   incumbent_provider_id s = Some "b") /\
  matches!(ShareTracker_new 0, Done (Err ZeroCapacity)) /\
  matches!(PolicyConfig_new (dec_of_Z (-1)) tenth dec_one, Err NegativePriceCeiling) /\
  matches!(PolicyConfig_new dec_one S754_nan dec_one, Err InvalidHysteresis) /\
  matches!(PolicyConfig_new dec_one tenth dec_zero, Err InvalidMaxShare) /\
  matches!(Candidate_new "bad" (dec_of_Z (-1)) dec_zero 0 None true, Err NegativeInputPrice) /\
  matches!(Candidate_new "huge" DECIMAL_MAX dec_one 0 None true, Err PriceOverflow).

Example default_price_ceiling_holds : default_price_ceiling_excludes_a_faster_expensive_candidate.
Proof. run_test. Qed.
Example strict_sorts_hold : strict_sorts_return_the_best_healthy_candidate_with_stable_ties.
Proof. run_test. Qed.
Example free_balanced_hold : free_balanced_candidates_are_finite_and_paid_candidates_never_win.
Proof. run_test. Qed.
Example cold_start_holds : cold_start_uses_priority_and_empty_or_unhealthy_inputs_return_none.
Proof. run_test. Qed.
Example share_history_holds : share_history_evicts_old_selections_and_invalid_inputs_are_rejected.
Proof. run_test. Qed.
End SelectTests.

(** ** measurements.rs *)

Module MeasurementsTests.

Definition observation (tokens duration first : Z) : Observation :=
  {| completion_tokens := tokens; stream_duration := duration; time_to_first_token := first |}.
Definition secs (n : Z) : Z := n * 1000000000.
Definition millis (n : Z) : Z := n * 1000000.

Definition measured (tokens_per_second : Z) (seconds : f64) : ModelMeasurements :=
  {| throughput_tokens_per_second := f64_of_Z tokens_per_second; time_to_first_token_seconds := seconds |}.

Definition ewma_converges_to_exact_values_for_fixed_observations : Prop :=
  let! Ok (m, s) := observe store_default "provider-a" "vendor/model" (observation 100 (secs 1) (secs 1)) in
  m = measured 100 (f64_of_Z 1) /\
  let! Ok (m, s) := observe s "provider-a" "vendor/model" (observation 150 (secs 2) (millis 2250)) in
  m = measured 95 (f64_lit 5 4) /\
  let! Ok (m, s) := observe s "provider-a" "vendor/model" (observation 210 (secs 3) (millis 2500)) in
  m = measured 90 (f64_lit 3 2) /\
  get s "provider-a" "vendor/model" = Some (measured 90 (f64_lit 3 2)).

Definition unseen_pairs_are_isolated_and_invalid_observations_are_not_stored : Prop :=
  let! Ok (_, s) := observe store_default "provider-a" "vendor/model-a" (observation 50 (secs 1) (millis 500)) in
  get s "provider-a" "vendor/model-b" = None /\
  get s "provider-b" "vendor/model-a" = None /\
  observe s "provider-b" "vendor/model-b" (observation 50 0 (millis 500)) = Err ZeroStreamDuration /\
  get s "provider-b" "vendor/model-b" = None.

Definition beta_observations_do_not_change_production_measurements : Prop :=
  let! Ok (_, s) := observe_for store_default Beta "provider-a" "vendor/model" (observation 50 (secs 1) (millis 500)) in
  get s "provider-a" "vendor/model" = None /\
  is_some (get_for s Beta "provider-a" "vendor/model") = true.

Example ewma_holds : ewma_converges_to_exact_values_for_fixed_observations.
Proof. run_test. Qed.
Example unseen_pairs_hold : unseen_pairs_are_isolated_and_invalid_observations_are_not_stored.
Proof. run_test. Qed.
Example beta_observations_hold : beta_observations_do_not_change_production_measurements.
Proof. run_test. Qed.
End MeasurementsTests.

(** ** preference.rs *)

Module PreferenceTests.

(** A request, and what it should parse to. *)
Record Case : Type := {
  case_name : string;
  case_request : Value;
  case_expected : result PreferenceError RequestPreference
}.

Definition opus (p : Preference) : result PreferenceError RequestPreference :=
  Ok {| canonical_model := "anthropic/claude-opus-5"; preference := p |}.

Definition cases : list Case :=
  [{| case_name := "nitro suffix"; case_request := json "{'model': 'anthropic/claude-opus-5:nitro'}";
      case_expected := opus Throughput |};
   {| case_name := "floor suffix"; case_request := json "{'model': 'anthropic/claude-opus-5:floor'}";
      case_expected := opus Price |};
   {| case_name := "explicit price";
      case_request := json "{'model': 'anthropic/claude-opus-5', 'provider': {'sort': 'price'}}";
      case_expected := opus Price |};
   {| case_name := "explicit throughput";
      case_request := json "{'model': 'anthropic/claude-opus-5', 'provider': {'sort': 'throughput'}}";
      case_expected := opus Throughput |};
   {| case_name := "explicit latency";
      case_request := json "{'model': 'anthropic/claude-opus-5', 'provider': {'sort': 'latency'}}";
      case_expected := opus Latency |};
   {| case_name := "explicit body preference overrides suffix";
      case_request := json "{'model': 'anthropic/claude-opus-5:nitro', 'provider': {'sort': 'latency'}}";
      case_expected := opus Latency |};
   {| case_name := "no preference"; case_request := json "{'model': 'anthropic/claude-opus-5'}";
      case_expected := opus Default |};
   {| case_name := "unknown sort";
      case_request := json "{'model': 'anthropic/claude-opus-5', 'provider': {'sort': 'quality'}}";
      case_expected := Err InvalidSort |};
   {| case_name := "non-string sort";
      case_request := json "{'model': 'anthropic/claude-opus-5', 'provider': {'sort': 7}}";
      case_expected := Err InvalidSort |};
   {| case_name := "advanced object sort";
      case_request := json "{'model': 'anthropic/claude-opus-5',
                             'provider': {'sort': {'by': 'throughput', 'partition': 'model'}}}";
      case_expected := Err InvalidSort |}].

(** The result, and the model the request is left with. *)
Definition routing_preferences_follow_suffix_and_body_precedence : Prop :=
  every (fun case =>
    let! Done parsed := parse_request (case_request case) in
    match parsed, case_expected case with
    | Ok (preference, request), Ok expected =>
        preference = expected /\ index "model" request = JString (canonical_model expected)
    | Err e, Err expected => e = expected
    | _, _ => False
    end) cases.

Definition normalization_preserves_reasoning_and_unrelated_request_fields : Prop :=
  let original := json "{
      'model': 'anthropic/claude-opus-5:nitro',
      'messages': [{'role': 'user', 'content': 'hello'}],
      'reasoning': {'effort': 'high'},
      'tools': [{'type': 'function', 'function': {'name': 'lookup'}}],
      'provider': {'sort': 'price', 'ignore': ['provider-a']},
      'custom': {'arbitrary_precision': 123456789012345678901234567890}
    }" in
  let! Done (Ok (parsed, request)) := parse_request original in
  preference parsed = Price /\
  index "model" request = JString "anthropic/claude-opus-5" /\
  every (fun field => index field request = index field original /\ is_some (value_get field original) = true)
    ["messages"; "reasoning"; "tools"; "provider"; "custom"].

Definition invalid_sort_has_clear_bad_request_response : Prop :=
  preference_error_response InvalidSort =
  (400, json "{'error': {'message': 'provider.sort must be one of: price, throughput, latency'}}").

Example routing_preferences_hold : routing_preferences_follow_suffix_and_body_precedence.
Proof. run_test. Qed.
Example normalization_holds : normalization_preserves_reasoning_and_unrelated_request_fields.
Proof. run_test. Qed.
Example invalid_sort_holds : invalid_sort_has_clear_bad_request_response.
Proof. run_test. Qed.
End PreferenceTests.
