(* ===== verification/DrawTests.v ===== *)
(** The unit tests of [policy/select.rs] that count draws, on a generator whose
    draws are spread evenly over the weights it is given: the tests then say
    that the weights are the intended ones. *)

From Stdlib Require Import ZArith SpecFloat.
From S2P Require Import Prelude Float64 RustDecimal RoutingProfile Preference Measurements Share Select.
From S2P Require Import TestKit PolicyTests.

Import SelectTests.

#[local] Open Scope Z_scope.

(** ** Evenly spread draws *)

Module EvenRand.

(** A weight in units of [2 ^ low]. *)
Definition units (low : Z) (w : f64) : Z :=
  match w with S754_finite false m e => Z.pos m * 2 ^ (Z.max 0 (e - low)) | _ => 0 end.

Definition lowest (ws : list f64) : Z :=
  foldr (fun w low => match w with S754_finite _ _ e => Z.min e low | _ => low end) 0 ws.

Fixpoint total (us : list Z) : Z := match us with [] => 0 | u :: us => u + total us end.

(** The index whose weight covers the position [x]. *)
Fixpoint covering (us : list Z) (x : Z) : nat :=
  match us with
  | [] => 0
  | u :: us => if x <? u then 0 else S (covering us (x - u))
  end.

(** The [k]-th multiple of the golden ratio modulo one, in [1 / 2 ^ 16], and
    that fraction of a sum. *)
Definition position (k : Z) : Z := Z.land (k * 40503) 65535.
Definition fraction (k sum : Z) : Z := Z.shiftr (position k * sum) 16.

#[global] Instance even_rand : RandCrate := {|
  StdRng := Z;
  seed_from_u64 n := n;
  WeightedIndex := list Z;
  weighted_index_new ws :=
    let us := units (lowest ws) <$> ws in if 0 <? total us then Some us else None;
  weighted_index_sample us rng := (covering us (fraction rng (total us)), rng + 1)
|}.

Lemma units_nonneg low w : 0 <= units low w.
Proof. destruct w as [| | |[] m e]; cbn -[Z.pow]; lia. Qed.

Lemma units_positive low w : 0 < units low w <-> exists m e, w = S754_finite false m e.
Proof.
  split.
  - destruct w as [| | |[] m e]; cbn -[Z.pow]; try lia. eauto.
  - intros (m & e & ->). cbn -[Z.pow]. apply Z.mul_pos_pos; [lia|]. apply Z.pow_pos_nonneg; lia.
Qed.

Lemma positive_lt w : f64_lt f64_zero w = true <-> (exists m e, w = S754_finite false m e) \/ w = S754_infinity false.
Proof. destruct w as [| [] | |[] m e]; cbn; naive_solver. Qed.

Lemma total_nonneg low ws : 0 <= total (units low <$> ws).
Proof. induction ws as [|w ws IH]; cbn -[units]; [done|]. pose proof (units_nonneg low w). lia. Qed.

Lemma total_positive low ws w : w ∈ ws -> 0 < units low w -> 0 < total (units low <$> ws).
Proof.
  intros Hin Hw. induction Hin as [w ws|w v ws _ IH]; cbn -[units].
  - pose proof (total_nonneg low ws). lia.
  - pose proof (units_nonneg low v). specialize (IH Hw). lia.
Qed.

Lemma covering_positive us x :
  0 <= x < total us -> exists u, us !! covering us x = Some u /\ 0 < u.
Proof.
  revert x. induction us as [|u us IH]; intros x; cbn -[Z.add]; [lia|]. intros Hx.
  destruct (Z.ltb_spec x u); [exists u; split; [done|lia]|]. apply IH. lia.
Qed.

Lemma fraction_bounds k sum : 0 < sum -> 0 <= fraction k sum < sum.
Proof.
  intros Hs. unfold fraction, position. change 65535 with (Z.ones 16).
  rewrite Z.land_ones, Z.shiftr_div_pow2 by lia. pose proof (Z.mod_pos_bound (k * 40503) (2 ^ 16)).
  split; [apply Z.div_pos; nia|apply Z.div_lt_upper_bound; nia].
Qed.

#[global] Instance even_laws : RandLaws.
Proof.
  split.
  - intros ws Hle (w & Hin & Hw)%Exists_exists. rewrite Forall_forall in Hle.
    apply positive_lt in Hw as [Hw| ->].
    + assert (0 < total (units (lowest ws) <$> ws)) as Ht.
      { by apply (total_positive _ _ w), units_positive. }
      cbn. rewrite (proj2 (Z.ltb_lt _ _) Ht). by eexists.
    + by destruct (Hle _ Hin) as [_ H1].
  - intros ws d rng. cbn. destruct (Z.ltb_spec 0 (total (units (lowest ws) <$> ws))) as [Ht|]; [|done].
    intros [= <-]. set (us := units (lowest ws) <$> ws) in *.
    destruct (covering_positive us (fraction rng (total us))) as (u & Hu & Hpos).
    { by apply fraction_bounds. }
    subst us. rewrite list_lookup_fmap in Hu. destruct (ws !! _) as [w|]; [|done]. injection Hu as <-.
    exists w. split; [done|]. apply positive_lt. left. by eapply units_positive.
Qed.
End EvenRand.

(** ** select.rs *)

Module DrawTests.
#[local] Existing Instances RefDecimal.decimal EvenRand.even_rand.

(** How many of [n] draws select a provider; [None] if one selects nothing. *)
Fixpoint times (n : nat) (candidates : list Candidate) (p : Preference) (config : PolicyConfig) (share : ShareTracker)
    (provider : string) (rng : StdRng) (selected : Z) : option Z :=
  match n with
  | O => Some selected
  | S n =>
      match select_route candidates p config share rng with
      | Done (Some c, rng) =>
          times n candidates p config share provider rng
            (if String.eqb (c_provider_id c) provider then selected + 1 else selected)
      | _ => None
      end
  end.

(** [unwrap], as a function: elaborating [let!] evaluates what it matches. *)
Definition unwrapped {A} (o : option A) (k : A -> Prop) : Prop := match o with Some a => k a | None => False end.

Definition TEN_THOUSAND : nat := Z.to_nat 10000.
Definition in_ten_thousand (n : Z) : f64 := f64_div (f64_of_Z n) (f64_of_Z 10000).
Definition within (tolerance x y : f64) : bool := f64_le (SFabs (f64_sub x y)) tolerance.

(** *** Constant weights *)

(** The candidate a generator state selects under given weights. *)
Definition drawn (ws : list f64) (cs : list Candidate) (rng : Z) : option Candidate :=
  let us := EvenRand.units (EvenRand.lowest ws) <$> ws in
  cs !! EvenRand.covering us (EvenRand.fraction rng (EvenRand.total us)).

(** The count, when every selection is drawn under the same weights. *)
Fixpoint tally (n : nat) (us : list Z) (sum : Z) (hits : list bool) (rng selected : Z) : option Z :=
  match n with
  | O => Some selected
  | S n =>
      match hits !! EvenRand.covering us (EvenRand.fraction rng sum) with
      | Some hit => tally n us sum hits (rng + 1) (if hit : bool then selected + 1 else selected)
      | None => None
      end
  end.

Definition is_provider (provider : string) (c : Candidate) : bool := String.eqb (c_provider_id c) provider.

Section Counts.
Context (ws : list f64) (cs : list Candidate) (p : Preference) (config : PolicyConfig) (share : ShareTracker).
Context (selects_drawn : forall rng, exists fallback,
  select_route cs p config share rng = Done (option_or (drawn ws cs rng) fallback, rng + 1)).
Context (us : list Z) (sum : Z) (provider : string).
Context (units_of : EvenRand.units (EvenRand.lowest ws) <$> ws = us) (sum_of : EvenRand.total us = sum).

Lemma times_tally n rng selected k :
  tally n us sum (is_provider provider <$> cs) rng selected = Some k ->
  times n cs p config share provider rng selected = Some k.
Proof.
  revert rng selected. induction n as [|n IH]; intros rng selected; [done|].
  cbn [times tally]. destruct (selects_drawn rng) as [fallback ->].
  unfold drawn. rewrite units_of, sum_of, list_lookup_fmap. destruct (cs !! _) as [c|]; [|done]. apply IH.
Qed.

Lemma counted n rng k (P : Z -> Prop) :
  tally n us sum (is_provider provider <$> cs) rng 0 = Some k -> P k ->
  unwrapped (times n cs p config share provider rng 0) P.
Proof. intros Ht Hk. by rewrite (times_tally _ _ _ _ Ht). Qed.
End Counts.

(** ** The tests *)

Definition by_price : list Candidate :=
  [candidate "cheap" 1 0 None None true; candidate "middle" 2 0 None None true;
   candidate "expensive" 4 0 None None true].

(** The share is of the [f64]s the test adds: [1.0 + 0.25 + 0.0625]. *)
Definition balanced_distribution_matches_inverse_square_price_weights : Prop :=
  let config := config 100 (f64_lit 1 10) "0.6" in
  let expected_cheapest_share :=
    f64_div f64_one (f64_add (f64_add f64_one (f64_lit 1 4)) (f64_lit 1 16)) in
  unwrapped (times TEN_THOUSAND by_price Balanced config (tracker 100) "cheap" (seed_from_u64 7) 0)
    (fun cheap => within (f64_lit 3 100) (in_ten_thousand cheap) expected_cheapest_share = true).

(** [n] recorded selections of one provider. *)
Fixpoint recordings (n : nat) (provider : string) (t : ShareTracker) : outcome ShareTracker :=
  match n with O => Done t | S n => record t provider ≫= recordings n provider end.

Definition barely_faster : list Candidate :=
  [candidate "incumbent" 1 0 (f 100) (f 1) true; candidate "challenger" 1 1 (f 101) (f 1) true].
Definition materially_faster : list Candidate :=
  [candidate "incumbent" 1 0 (f 100) (f 1) true; candidate "challenger" 1 1 (f 130) (f 1) true].

Definition recorded_share : ShareTracker :=
  match recordings 60 "incumbent" (tracker 100) ≫= recordings 40 "challenger" with
  | Done share => share
  | Panic _ => tracker 0
  end.

Definition challenger_share (candidates : list Candidate) (seed : Z) : option Z :=
  times TEN_THOUSAND candidates Default (config 10 (f64_lit 1 10) "1") recorded_share "challenger"
    (seed_from_u64 seed) 0.

Definition default_hysteresis_suppresses_noise_but_preserves_a_material_advantage : Prop :=
  unwrapped (challenger_share barely_faster 17)
    (fun noise => within (f64_lit 3 100) (in_ten_thousand noise) (f64_lit 1 2) = true) /\
  unwrapped (challenger_share materially_faster 19)
    (fun material => f64_gt (in_ten_thousand material) (f64_lit 53 100) = true).

(** ** They pass *)

(** The weights: inverse squares of the prices; equal within the hysteresis
    band; the throughputs' ratio beyond it. *)
Lemma balanced_weights config share rng :
  exists fallback, select_route by_price Balanced config share rng =
  Done (option_or (drawn [f64_one; f64_lit 1 4; f64_lit 1 16] by_price rng) fallback, rng + 1).
Proof.
  exists None. transitivity (Done (drawn [f64_one; f64_lit 1 4; f64_lit 1 16] by_price rng, rng + 1)); [reflexivity|].
  by destruct (drawn _ _ _).
Qed.

Lemma noise_weights rng :
  exists fallback, select_route barely_faster Default (config 10 (f64_lit 1 10) "1") recorded_share rng =
  Done (option_or (drawn [f64_one; f64_one] barely_faster rng) fallback, rng + 1).
Proof. exists (strict_priority barely_faster). reflexivity. Qed.

Lemma material_weights rng :
  exists fallback, select_route materially_faster Default (config 10 (f64_lit 1 10) "1") recorded_share rng =
  Done (option_or (drawn [f64_lit 100 130; f64_one] materially_faster rng) fallback, rng + 1).
Proof. exists (strict_priority materially_faster). reflexivity. Qed.

Ltac run_counts selects := eapply counted; [apply selects|vm_compute; reflexivity..|vm_reflexivity].

Example balanced_distribution_holds : balanced_distribution_matches_inverse_square_price_weights.
Proof. run_counts balanced_weights. Qed.

Example hysteresis_holds : default_hysteresis_suppresses_noise_but_preserves_a_material_advantage.
Proof. split; [run_counts noise_weights|run_counts material_weights]. Qed.
End DrawTests.
