(* ===== verification/RoutingTests.v ===== *)
(** The unit tests of [policy/routing.rs]. *)

From Stdlib Require Import ZArith.
From S2P Require Import Prelude Float64 RustDecimal RoutingProfile Registry Json RefJson Preference.
From S2P Require Import Measurements Share Select Config Routing TestKit.

#[local] Open Scope Z_scope.

Module RoutingTests.
#[local] Existing Instances RefDecimal.decimal RefRand.rand.

(** ** The fixtures *)

Definition provider_for (id : string) (priority : Z) (price : string) (profiles : list RoutingProfile) : Provider :=
  {| Registry.id := id; display_name := id; public_display_name := None; public_tag := None;
     base_url := "http://127.0.0.1:1234/v1"; secret_env := "KEY_" +:+ to_uppercase id; enabled := true;
     Registry.priority := priority; catalog_url := None; Registry.profiles := list_to_set profiles;
     models :=
       [{| slug := "vendor/model"; model_name := "Model"; context_length := 1; provider_model_id := "upstream";
           input_price_per_mtok := decimal_of price; cached_input_price_per_mtok := None;
           output_price_per_mtok := dec_zero; request_constraints := default_request_constraints |}] |}.

Definition provider (id : string) (priority : Z) (price : string) : Provider :=
  provider_for id priority price [Production].

Definition routing_for (registry : Registry) : option (RoutingPolicy * RoutingState) :=
  match RoutingConfig_new (decimal_of "10") (f64_lit 1 10) dec_one 100 with
  | Done (Ok config) => ok (from_registry_with_rng registry config (seed_from_u64 7))
  | _ => None
  end.

Definition routing_for_providers (providers : list Provider) : option (RoutingPolicy * RoutingState) :=
  routing_for {| Registry.providers := providers |}.

(** The policy of the tests on a store of their own. *)
Definition test_routing : option (RoutingPolicy * RoutingState) :=
  routing_for_providers
    [with_enabled false (provider "disabled" 0 "0.1"); provider "cheap" 1 "1.0"; provider "fast" 2 "2.0"].

Definition chat_only (streaming : bool) : RequestConstraints :=
  {| endpoints := {[ Chat ]}; supports_streaming := streaming;
     top_p := Some {| tp_min := decimal_of "0.95"; tp_max := dec_one |} |}.

Definition constrained (streaming : bool) : Provider :=
  let p := provider "constrained" 0 "0.1" in
  with_models (with_constraints (chat_only streaming) <$> models p) p.

(** What a decision names: the provider, the fallbacks and the flag. *)
Definition decides (o : RouteOutcome) (provider : string) (fallbacks : list string) : Prop :=
  let! Ok decision := ro_result o in
  selected_provider decision = provider /\ fallback_models decision = fallbacks /\ has_alternatives decision = true.

(** ** The tests *)

Definition request_routing_uses_live_measurements_and_consumes_sort : Prop :=
  let! Ok (_, measurements) :=
    observe store_default "fast" "vendor/model"
      {| completion_tokens := 100; stream_duration := 1000000000; time_to_first_token := 100000000 |} in
  let! Some (routing, state) := test_routing in
  let request := json "{'model': 'vendor/model:nitro', 'provider': {'sort': 'throughput'}, 'reasoning': {'effort': 'high'}}" in
  let! Done o := route routing measurements state Production request in
  ro_result o =
    Ok {| profile := Production; decision_model := "vendor/model"; selected_provider := "fast";
          fallback_models := ["cheap/vendor/model"]; has_alternatives := true |} /\
  index "model" (ro_request o) = JString "fast/vendor/model" /\
  value_get "provider" (ro_request o) = None /\
  index "reasoning" (ro_request o) = json "{'effort': 'high'}".

Definition caller_provider_overrides_are_rejected_before_routing : Prop :=
  let! Some (routing, state) := test_routing in
  every_from (fun field state next =>
      let request := json ("{'model': 'vendor/model', 'provider': {'" +:+ field +:+ "': ['fast']}}") in
      let! Done o := route routing store_default state Production request in
      ro_result o = Err UnsupportedProviderOverride /\
      index "model" (ro_request o) = JString "vendor/model" /\ next (ro_state o))
    ["only"; "ignore"; "order"] state (fun _ => True).

Definition unknown_models_fail_locally_with_json_not_found : Prop :=
  let! Some (routing, state) := test_routing in
  let! Done o := route routing store_default state Production (json "{'model': 'unknown/model'}") in
  let! Err e := ro_result o in
  route_error_response e = (404, json "{'error': {'code': 404, 'message': 'model not found'}}").

Definition provider_selection_and_share_state_are_profile_scoped : Prop :=
  let! Some (routing, state) :=
    routing_for_providers
      [provider_for "production-only" 0 "1.0" [Production]; provider_for "beta-only" 0 "1.0" [Beta]] in
  let production := json "{'model': 'vendor/model'}" in
  let! Done p := route routing store_default state Production production in
  let! Done b := route routing store_default (ro_state p) Beta production in
  (let! Ok decision := ro_result p in selected_provider decision = "production-only") /\
  (let! Ok decision := ro_result b in selected_provider decision = "beta-only") /\
  index "model" (ro_request p) = JString "production-only/vendor/model" /\
  index "model" (ro_request b) = JString "beta-only/vendor/model".

Definition endpoint_top_p_and_stream_constraints_filter_primary_and_fallback_routes : Prop :=
  let! Some (routing, state) :=
    routing_for_providers
      [constrained false;
       provider "compatible-a" 1 "1.0"; provider "compatible-b" 2 "2.0"] in
  every_from (fun top_p state next =>
      let request := json "{'model': 'vendor/model', 'provider': {'sort': 'price'}, 'stream': false}" in
      let! Done request :=
        match top_p with None => Done request | Some top_p => set_index "top_p" (json top_p) request end in
      let! Done o := route_for_endpoint routing store_default state Production Chat request in
      decides o "constrained" ["compatible-a/vendor/model"; "compatible-b/vendor/model"] /\ next (ro_state o))
    [None; Some "null"; Some "0.95"; Some "1"] state (fun state =>
  every_from (fun '(endpoint, top_p) state next =>
      let request :=
        json ("{'model': 'vendor/model', 'provider': {'sort': 'price'}, 'top_p': " +:+ top_p +:+ "}") in
      let! Done o := route_for_endpoint routing store_default state Production endpoint request in
      decides o "compatible-a" ["compatible-b/vendor/model"] /\ next (ro_state o))
    [(Chat, "0.949"); (Legacy, "0.95")] state (fun state =>
  let streaming := json "{'model': 'vendor/model', 'provider': {'sort': 'price'}, 'stream': true, 'top_p': 0.95}" in
  let! Done o := route_for_endpoint routing store_default state Production Chat streaming in
  decides o "compatible-a" ["compatible-b/vendor/model"])).

Definition nonnumeric_nonnull_top_p_fails_locally : Prop :=
  let! Some (routing, state) := test_routing in
  every_from (fun invalid state next =>
      let request := json ("{'model': 'vendor/model:nitro', 'top_p': " +:+ invalid +:+ "}") in
      let! Done o := route routing store_default state Production request in
      ro_result o = Err InvalidTopP /\
      index "model" (ro_request o) = JString "vendor/model:nitro" /\
      (let! Err e := ro_result o in
       route_error_response e =
       (400, json "{'error': {'code': 400, 'message': 'top_p must be a JSON number or null'}}")) /\
      next (ro_state o))
    ["'0.95'"; "true"; "{}"; "[]"] state (fun _ => True).

Definition nonboolean_nonnull_stream_fails_locally : Prop :=
  let! Some (routing, state) := test_routing in
  every_from (fun invalid state next =>
      let request := json ("{'model': 'vendor/model:nitro', 'stream': " +:+ invalid +:+ "}") in
      let! Done o := route routing store_default state Production request in
      ro_result o = Err InvalidStream /\
      index "model" (ro_request o) = JString "vendor/model:nitro" /\
      (let! Err e := ro_result o in
       route_error_response e =
       (400, json "{'error': {'code': 400, 'message': 'stream must be a JSON boolean or null'}}")) /\
      next (ro_state o))
    ["'true'"; "1"; "{}"; "[]"] state (fun _ => True).

Definition incompatible_only_route_reports_no_eligible_provider : Prop :=
  let! Some (routing, state) :=
    routing_for_providers [constrained true] in
  let! Done o := route routing store_default state Production (json "{'model': 'vendor/model', 'top_p': 0.94}") in
  ro_result o = Err NoEligibleRoute.

Definition fallback_obeys_the_same_default_price_policy : Prop :=
  let! Some (routing, state) :=
    routing_for_providers
      [provider "preferred" 0 "1.0"; provider "over-ceiling" 1 "20.0"; provider "eligible" 2 "2.0"] in
  let! Done o := route routing store_default state Production (json "{'model': 'vendor/model'}") in
  decides o "preferred" ["eligible/vendor/model"].

(** ** They pass *)

Example request_routing_holds : request_routing_uses_live_measurements_and_consumes_sort.
Proof. run_test. Qed.
Example caller_provider_overrides_hold : caller_provider_overrides_are_rejected_before_routing.
Proof. run_test. Qed.
Example unknown_models_hold : unknown_models_fail_locally_with_json_not_found.
Proof. run_test. Qed.
Example provider_selection_holds : provider_selection_and_share_state_are_profile_scoped.
Proof. run_test. Qed.
Example endpoint_top_p_holds : endpoint_top_p_and_stream_constraints_filter_primary_and_fallback_routes.
Proof. run_test. Qed.
Example nonnumeric_top_p_holds : nonnumeric_nonnull_top_p_fails_locally.
Proof. run_test. Qed.
Example nonboolean_stream_holds : nonboolean_nonnull_stream_fails_locally.
Proof. run_test. Qed.
Example incompatible_only_holds : incompatible_only_route_reports_no_eligible_provider.
Proof. run_test. Qed.
Example fallback_obeys_holds : fallback_obeys_the_same_default_price_policy.
Proof. run_test. Qed.
End RoutingTests.
