(* ===== verification/CatalogTests.v ===== *)
(** The unit tests of [catalog.rs], [upstream_catalog.rs] and
    [sidecar_config.rs], on the [Documents].  The sidecar's golden file is the
    YAML printer's text and is left out (fixture_matches_golden_yaml); where a
    test reads the configuration back of its YAML it is read directly. *)

From Stdlib Require Import ZArith.
From S2P Require Import Prelude RustDecimal RoutingProfile Registry Json RefJson Catalog UpstreamCatalog SidecarConfig.
From S2P Require Import TestKit Documents.

#[local] Open Scope Z_scope.

(** ** catalog.rs *)

Module CatalogTests.
#[local] Existing Instance RefDecimal.decimal.

Definition fixture_catalog : outcome Catalog := Catalog_from_registry catalog_document.

Definition FAST : string := "anthropic/claude-opus-5-fast".

(** [endpoints_by_slug[slug]]. *)
Definition endpoints_of (s : CatalogSnapshot) (slug : string) : option ModelEndpoints :=
  bt_get String.compare slug (endpoints_by_slug s).

Definition registry_aggregation_matches_live_shape_golden : Prop :=
  let! Done catalog := fixture_catalog in
  let! Done s := snapshot catalog Production in
  models_value (response s) =
  json "{
    'data': [
      {'id': 'anthropic/claude-opus-5-fast', 'name': 'Claude Opus 5 (Fast)', 'context_length': 1000000,
       'pricing': {'prompt': '0.00001', 'completion': '0.00005'}},
      {'id': 'openai/gpt-5-mini', 'name': 'GPT-5 Mini', 'context_length': 400000,
       'pricing': {'prompt': '0.00000025', 'completion': '0.000002'}}
    ],
    'links': {'next': null},
    'total_count': 2
  }".

Definition endpoint_catalog_includes_only_enabled_providers_in_priority_order : Prop :=
  let! Done catalog := fixture_catalog in
  let! Done s := snapshot catalog Production in
  let! Some endpoints := endpoints_of s FAST in
  let actual := model_endpoints_value endpoints in
  actual =
  json "{
    'data': {
      'id': 'anthropic/claude-opus-5-fast',
      'name': 'Claude Opus 5 (Fast)',
      'endpoints': [
        {'name': 'Balanced Provider: Claude Opus 5 (Fast)', 'model_id': 'anthropic/claude-opus-5-fast',
         'model_name': 'Claude Opus 5 (Fast)', 'context_length': 1000000,
         'pricing': {'prompt': '0.00001', 'completion': '0.00005'},
         'provider_name': 'Balanced Provider', 'tag': 'balanced'},
        {'name': 'Cheap Input Provider: Claude Opus 5 Fast Alternate', 'model_id': 'anthropic/claude-opus-5-fast',
         'model_name': 'Claude Opus 5 Fast Alternate', 'context_length': 750000,
         'pricing': {'prompt': '0.000005', 'completion': '0.00007'},
         'provider_name': 'Cheap Input Provider', 'tag': 'cheap-input'}
      ]
    }
  }" /\
  every (fun word => contains word (RefJson.print actual) = false) ["disabled"; "base_url"; "secret_env"].

Definition beta_only_providers_are_absent_from_the_production_catalog : Prop :=
  let registry := edit_provider 1 (with_profiles {[ Beta ]}) catalog_document in
  let! Done catalog := Catalog_from_registry registry in
  let! Done p := snapshot catalog Production in
  let! Done b := snapshot catalog Beta in
  let production := RefJson.print (models_value (response p)) in
  let beta := RefJson.print (models_value (response b)) in
  contains "openai/gpt-5-mini" production = false /\
  contains "openai/gpt-5-mini" beta = true /\
  contains "Cheap Input Provider" production = false.

Definition endpoint_catalog_uses_public_aliases_without_changing_internal_provider_id : Prop :=
  let registry := edit_provider 0 (with_aliases (Some "Seren Inference") (Some "seren")) catalog_document in
  matches!(validate registry, Ok _) /\
  let! Done catalog := Catalog_from_registry registry in
  let! Done s := snapshot catalog Production in
  let! Some endpoints := endpoints_of s FAST in
  let! endpoint :: _ := me_endpoints endpoints in
  ce_name endpoint = "Seren Inference: Claude Opus 5 (Fast)" /\
  ce_provider_name endpoint = "Seren Inference" /\
  ce_tag endpoint = "seren" /\
  (let! p :: _ := providers registry in id p = "balanced").

(** The neutral alias is published, the provider's name is not. *)
Definition is_neutral (endpoints : ModelEndpoints) : Prop :=
  length (me_endpoints endpoints) = 2%nat /\
  (let! Some neutral := find_b (fun e => String.eqb (ce_provider_name e) "Seren Inference") (me_endpoints endpoints) in
   ce_name neutral = "Seren Inference: MoonshotAI Kimi K3" /\ ce_tag neutral = "seren") /\
  contains "modal" (to_ascii_lowercase (RefJson.print (model_endpoints_value endpoints))) = false.

Definition checked_modal_route_is_neutral_in_production_and_beta : Prop :=
  matches!(validate checked_registry, Ok _) /\
  (let! Some modal := find_b (fun p => String.eqb (id p) "modal") (providers checked_registry) in
   id modal = "modal" /\ enabled modal = true /\ bool_decide (profiles modal = {[ Production; Beta ]}) = true) /\
  let! Done catalog := Catalog_from_registry checked_registry in
  let! Done p := snapshot catalog Production in
  let! Done b := snapshot catalog Beta in
  (let! Some production := endpoints_of p "moonshotai/kimi-k3" in
   is_neutral production /\
   existsb (fun e => String.eqb (ce_provider_name e) "OpenRouter") (me_endpoints production) = true) /\
  (let! Some beta := endpoints_of b "moonshotai/kimi-k3" in is_neutral beta).

Example aggregation_holds : registry_aggregation_matches_live_shape_golden.
Proof. run_test. Qed.
Example endpoint_catalog_ordered : endpoint_catalog_includes_only_enabled_providers_in_priority_order.
Proof. run_test. Qed.
Example beta_only_absent : beta_only_providers_are_absent_from_the_production_catalog.
Proof. run_test. Qed.
Example endpoint_catalog_aliased : endpoint_catalog_uses_public_aliases_without_changing_internal_provider_id.
Proof. run_test. Qed.
Example modal_is_neutral : checked_modal_route_is_neutral_in_production_and_beta.
Proof. run_test. Qed.
End CatalogTests.

(** ** upstream_catalog.rs *)

Module UpstreamTests.
#[local] Existing Instance RefDecimal.decimal.

Definition upstream (id prompt completion : string) : UpstreamModel :=
  {| um_id := id; um_name := Some ("Display " +:+ id); um_context_length := Some 1000;
     um_pricing := Some {| up_prompt := Some prompt; up_completion := Some completion; up_input_cache_read := None |} |}.

Definition provider (id : string) (models : list ModelMapping) : Provider :=
  {| Registry.id := id; display_name := id; public_display_name := None; public_tag := None;
     base_url := "https://upstream.example/v1"; secret_env := "SEREN_ROUTER_KEY_UPSTREAM"; enabled := true;
     priority := 255; catalog_url := None; profiles := {[ Production ]}; Registry.models := models |}.

Definition explicit_mapping (slug : string) : ModelMapping :=
  {| Registry.slug := slug; model_name := "Reviewed Name"; context_length := 42; provider_model_id := slug;
     input_price_per_mtok := dec_of_Z 7; cached_input_price_per_mtok := None; output_price_per_mtok := dec_of_Z 9;
     request_constraints := default_request_constraints |}.

Definition kept_registry : Registry := {| providers := [provider "openrouter" [explicit_mapping "vendor/kept"]] |}.

Definition per_token_prices_convert_to_exact_per_million_token_decimals : Prop :=
  let! Some mapping := mapping_from_model (upstream "vendor/model" "0.00001" "0.00005") in
  same_decimal (input_price_per_mtok mapping) (dec_of_Z 10) /\
  same_decimal (output_price_per_mtok mapping) (dec_of_Z 50) /\
  slug mapping = "vendor/model" /\ provider_model_id mapping = "vendor/model".

Definition free_models_are_kept_and_variable_priced_meta_routers_are_dropped : Prop :=
  is_some (mapping_from_model (upstream "vendor/free" "0" "0")) = true /\
  is_some (mapping_from_model (upstream "openrouter/auto" "-1" "-1")) = false.

Definition models_without_a_usable_price_or_context_length_are_dropped : Prop :=
  let model := upstream "vendor/model" "0.1" "0.1" in
  let missing_pricing :=
    {| um_id := um_id model; um_name := um_name model; um_context_length := um_context_length model;
       um_pricing := None |} in
  let zero_context :=
    {| um_id := um_id model; um_name := um_name model; um_context_length := Some 0; um_pricing := um_pricing model |} in
  let unparseable := upstream "vendor/model" "not-a-number" "0.1" in
  every (fun m => is_some (mapping_from_model m) = false) [missing_pricing; zero_context; unparseable].

Definition explicit_registry_mappings_survive_hydration : Prop :=
  let '(registry, outcome) :=
    hydrate_provider kept_registry "openrouter"
      (mappings (mappings_from_catalog
         [upstream "vendor/kept" "0.001" "0.002"; upstream "vendor/added" "0.001" "0.002"])) in
  added outcome = 1 /\ explicit_retained outcome = 1 /\
  let! p :: _ := providers registry in
  length (models p) = 2%nat /\
  (let! Some kept := find_b (fun m => String.eqb (slug m) "vendor/kept") (models p) in
   model_name kept = "Reviewed Name" /\ same_decimal (input_price_per_mtok kept) (dec_of_Z 7) /\
   context_length kept = 42) /\
  existsb (fun m => String.eqb (slug m) "vendor/added") (models p) = true.

Definition hydration_leaves_the_registry_valid : Prop :=
  let registry :=
    (hydrate_provider kept_registry "openrouter"
       (mappings (mappings_from_catalog [upstream "vendor/added" "0.001" "0.002"]))).1 in
  matches!(validate registry, Ok _).

Example per_token_prices_hold : per_token_prices_convert_to_exact_per_million_token_decimals.
Proof. run_test. Qed.
Example free_models_hold : free_models_are_kept_and_variable_priced_meta_routers_are_dropped.
Proof. run_test. Qed.
Example unusable_models_hold : models_without_a_usable_price_or_context_length_are_dropped.
Proof. run_test. Qed.
Example explicit_mappings_hold : explicit_registry_mappings_survive_hydration.
Proof. run_test. Qed.
Example hydration_valid_holds : hydration_leaves_the_registry_valid.
Proof. run_test. Qed.
End UpstreamTests.

(** ** sidecar_config.rs *)

Module SidecarTests.
#[local] Existing Instance RefDecimal.decimal.

Definition fixture_registry : Registry := sidecar_document.
Definition fixture_config : result RegistryValidationError AgentGatewayConfig :=
  build_config fixture_registry options_default.

(** [virtual_models.iter().find(name).unwrap()]'s targets. *)
Definition targets_named (config : AgentGatewayConfig) (name : string) : option (list VirtualTarget) :=
  option_map (fun m => targets (failover (vm_routing m)))
    (find_b (fun m => String.eqb (vm_name m) name) (virtual_models (llm config))).

Definition loopback (port : Z) : SocketAddr := {| ip := V4 127 0 0 1; SidecarConfig.port := port |}.

Definition management_addresses_can_be_isolated_for_functional_runs : Prop :=
  let options :=
    {| llm_port := 41001; o_admin_addr := Some (loopback 41002); o_stats_addr := Some (loopback 41003);
       o_readiness_addr := loopback 41004; o_enable_ipv6 := false |} in
  let! Ok config := build_config fixture_registry options in
  llm_config_port (llm config) = 41001 /\
  admin_addr (ag_config config) = Some (loopback 41002) /\
  stats_addr (ag_config config) = Some (loopback 41003) /\
  readiness_addr (ag_config config) = loopback 41004 /\
  enable_ipv6 (ag_config config) = false.

Definition ipv6_resolution_is_disabled_by_default : Prop :=
  let! Ok config := fixture_config in enable_ipv6 (ag_config config) = false.

Definition failover_targets_follow_provider_priority : Prop :=
  let! Ok config := fixture_config in
  let! Some shared := targets_named config "seren-profile-production/acme/shared" in
  vt_priority <$> shared = [5; 20].

Definition profile_aliases_never_include_providers_from_another_profile : Prop :=
  let registry :=
    edit_provider 1 (with_profiles {[ Beta ]}) (edit_provider 0 (with_profiles {[ Production ]}) fixture_registry) in
  let! Ok config := build_config registry options_default in
  let! Some production := targets_named config "seren-profile-production/acme/shared" in
  let! Some beta := targets_named config "seren-profile-beta/acme/shared" in
  vt_model <$> production = ["slow/acme/shared"] /\ vt_model <$> beta = ["fast/acme/shared"].

Definition every_route_has_mandatory_eviction : Prop :=
  let! Ok config := fixture_config in
  forallb (fun route =>
    (consecutive_failures (eviction (mr_health route)) =? 1) &&
    String.eqb (duration (eviction (mr_health route))) "60s") (llm_models (llm config)) = true.

Definition every_route_uses_detect_passthrough_with_a_model_override : Prop :=
  let! Ok config := fixture_config in
  forallb (fun route =>
    String.eqb (mr_passthrough route) "detect" &&
    String.eqb (mo_model (mr_overrides route)) (mp_model (mr_params route))) (llm_models (llm config)) = true.

Definition retry_policy_targets_the_generated_llm_route : Prop :=
  let! Ok config := fixture_config in
  let! policy :: _ := policies config in
  tp_name policy = {| rn_name := "llm-retry"; rn_namespace := "internal" |} /\
  pt_route (tp_target policy) = {| rn_name := "llm:request"; rn_namespace := "internal" |} /\
  attempts (retry (tp_policy policy)) = 2 /\ codes (retry (tp_policy policy)) = [429] /\
  condition (retry (tp_policy policy)) = "response.code >= 500 && response.code < 600".

Definition api_keys_remain_environment_references : Prop :=
  let! Ok config := fixture_config in
  (fun route => mp_api_key (mr_params route)) <$> llm_models (llm config) =
  ["$SEREN_ROUTER_KEY_SLOW"; "$SEREN_ROUTER_KEY_SLOW"; "$SEREN_ROUTER_KEY_FAST"].

Example management_addresses_hold : management_addresses_can_be_isolated_for_functional_runs.
Proof. run_test. Qed.
Example ipv6_disabled_holds : ipv6_resolution_is_disabled_by_default.
Proof. run_test. Qed.
Example failover_targets_hold : failover_targets_follow_provider_priority.
Proof. run_test. Qed.
Example profile_aliases_hold : profile_aliases_never_include_providers_from_another_profile.
Proof. run_test. Qed.
Example eviction_holds : every_route_has_mandatory_eviction.
Proof. run_test. Qed.
Example passthrough_holds : every_route_uses_detect_passthrough_with_a_model_override.
Proof. run_test. Qed.
Example retry_policy_holds : retry_policy_targets_the_generated_llm_route.
Proof. run_test. Qed.
Example api_keys_hold : api_keys_remain_environment_references.
Proof. run_test. Qed.
End SidecarTests.
