(* ===== verification/SseTests.v ===== *)
(** The unit tests of [sse.rs].  The tests transform each session at every
    split in two and in one-byte chunks; here the session is transformed once,
    by evaluation, and [every_boundary] carries the result to all of its
    divisions, for a session that says [[DONE]] at most once. *)

From Stdlib Require Import ZArith Strings.Byte.
From S2P Require Import Prelude RustDecimal Json RefJson Pricing UsageCost Sse SseSpec TestKit.

(** ** Sessions divided into chunks *)

(** How often a needle begins. *)
Fixpoint occurrences (needle l : list byte) : nat :=
  (if is_some (bytes_strip_prefix needle l) then 1 else 0) +
  match l with [] => 0 | _ :: l => occurrences needle l end.

Definition says_done (l : list byte) : Prop := exists x y, l = x ++ DONE ++ y.

Lemma occurrences_suffix needle x l : occurrences needle l <= occurrences needle (x ++ l).
Proof. induction x as [|b x IH]; [done|]. cbn [app occurrences]. lia. Qed.

Lemma occurrences_here c needle l :
  S (occurrences (c :: needle) l) <= occurrences (c :: needle) ((c :: needle) ++ l).
Proof.
  cbn [app occurrences].
  rewrite (proj2 (is_prefix_spec (c :: needle) (c :: needle ++ l))) by (by exists l).
  pose proof (occurrences_suffix (c :: needle) needle l). lia.
Qed.

Lemma says_done_twice l r : says_done l -> says_done r -> 2 <= occurrences DONE (l ++ r).
Proof.
  intros (x & y & ->) (x' & y' & ->). rewrite <- !app_assoc.
  pose proof (occurrences_suffix DONE x (DONE ++ y ++ x' ++ DONE ++ y')).
  pose proof (occurrences_here x5b (ascii_bytes "DONE]") (y ++ x' ++ DONE ++ y')).
  pose proof (occurrences_suffix DONE y (x' ++ DONE ++ y')). pose proof (occurrences_suffix DONE x' (DONE ++ y')).
  pose proof (occurrences_here x5b (ascii_bytes "DONE]") y'). change DONE with (x5b :: ascii_bytes "DONE]") in *. lia.
Qed.

Section Chunks.
Context {D : RustDecimal} {J : SerdeJson}.

(** Only a [DONE] event completes a usage. *)
Lemma event_completes t e t' o u :
  framed e -> transform_event t e = Done (t', o, Some u) -> says_done e.
Proof.
  unfold transform_event, transform_public_event, transform_internal_event, close_with_generic_error.
  intros Hf H.
  assert (forall body sep pre data, split_separator e = Done (body, sep) -> single_data_line body = Some (pre, data) ->
            bytes_eqb data DONE = true -> says_done e) as Hdone.
  { intros body sep pre data [-> _]%(split_framed _ _ _ Hf) [-> _]%single_data_line_Some ->%bool_decide_eq_true.
    exists pre, sep. by rewrite app_assoc. }
  destruct (split_separator e) as [[body sep]|]; [|by destruct (response_model t)].
  destruct (response_model t); cbn [mbind outcome_bind] in H;
    destruct (single_data_line body) as [[pre data]|] eqn:Hl;
    try (destruct (bytes_eqb data DONE) eqn:Hd; [by eapply Hdone|]);
    repeat match type of H with
    | Done (_, _, _) = _ => by injection H
    | Panic _ = _ => done
    | (?x ≫= _) = _ => destruct x; cbn [mbind outcome_bind] in H
    | (match ?x with _ => _ end) = _ => destruct x; cbn [mbind outcome_bind] in H
    end.
Qed.

(** What a drain takes from the buffer, and what is left of it. *)
Definition consumes (l : list byte) (t : UsageCostTransformer) (c : option CostedUsage) : Prop :=
  exists a b, l = a ++ b /\ (is_Some c -> says_done a) /\ (closed t = false -> pending t = b).

Lemma says_done_app x l : says_done l -> says_done (x ++ l).
Proof. intros (a & b & ->). exists (x ++ a), b. by rewrite app_assoc. Qed.

Lemma says_done_more l y : says_done l -> says_done (l ++ y).
Proof. intros (a & b & ->). exists a, (b ++ y). by rewrite <- !app_assoc. Qed.

Lemma drain_consumes f t t' o c : drain f t [] None = Done (t', o, c) -> consumes (pending t) t' c.
Proof.
  revert t t' o c. induction f as [|f IH]; intros t t' o c; [done|]. rewrite drain_S.
  destruct (next_event_end (pending t)) as [e|] eqn:E.
  2:{ intros [= <- <- <-]. exists [], (pending t). split_and!; [done|by intros []|done]. }
  destruct (transform_event _ _) as [[[t1 x] ec]|] eqn:Et; cbn [mbind outcome_bind]; [|done].
  assert (is_Some ec -> says_done (take e (pending t))) as Hec.
  { intros [u ->]. eapply event_completes, Et. by apply next_event_end_framed. }
  apply transform_event_frame in Et as [Hp _]. cbn [pending set_pending] in Hp.
  destruct (closed t1) eqn:Hc.
  - intros [= <- <- <-]. exists (take e (pending t)), (drop e (pending t)).
    split_and!; [by rewrite take_drop|by destruct ec|]. cbn. congruence.
  - rewrite drain_acc. destruct (drain f t1 [] None) as [[[t2 o2] c2]|] eqn:Ed; cbn; [|done].
    intros [= <- <- <-]. apply IH in Ed as (a & b & Hab & Ha & Hb). rewrite Hp in Hab.
    exists (take e (pending t) ++ a), b. split_and!; [|intros [u Hu]|done].
    + by rewrite <- app_assoc, <- Hab, take_drop.
    + destruct c2 as [u2|]; [apply says_done_app, Ha; eauto|]. apply says_done_more, Hec. destruct ec; [eauto|done].
Qed.

Lemma transform_consumes t q t' o c :
  transform t q = Done (t', o, c) -> closed t = false -> consumes (pending t ++ q) t' c.
Proof. unfold transform. intros H Hc. rewrite Hc in H. by apply drain_consumes in H. Qed.

(** Two chunks complete at most one usage. *)
Lemma completes_once t p q t1 o1 c1 t2 o2 c2 :
  occurrences DONE (pending t ++ p ++ q) <= 1 ->
  transform t p = Done (t1, o1, c1) -> transform t1 q = Done (t2, o2, c2) -> c1 = None \/ c2 = None.
Proof.
  intros Hn H1 H2. destruct c1 as [u1|]; [|by left]. destruct c2 as [u2|]; [|by right]. exfalso.
  destruct (closed t) eqn:Hc; [rewrite transform_closed in H1 by done; done|].
  destruct (closed t1) eqn:Hc1; [rewrite transform_closed in H2 by done; done|].
  apply transform_consumes in H1 as (a & b & Hab & Ha & Hb); [|done].
  apply transform_consumes in H2 as (a' & b' & Hab' & Ha' & _); [|done].
  rewrite (Hb Hc1) in Hab'.
  assert (2 <= occurrences DONE (a ++ a' ++ b')).
  { apply says_done_twice; [|apply says_done_more]; eauto. }
  rewrite app_assoc, Hab, <- app_assoc, Hab' in Hn. lia.
Qed.

(** *** The tests' assertion *)

Definition same_usage (u v : option CostedUsage) : Prop :=
  match u, v with
  | None, None => True
  | Some u, Some v =>
      response_id u = response_id v /\ cu_usage u = cu_usage v /\ dec_cmp (cu_cost_usd u) (cu_cost_usd v) = Eq
  | _, _ => False
  end.

Definition at_split (t : UsageCostTransformer) (input expected : list byte) (usage : option CostedUsage) (split : nat)
    : Prop :=
  let! Done (t, first, first_usage) := transform t (take split input) in
  let! Done (t, second, second_usage) := transform t (drop split input) in
  let! Done (remainder, final_usage) := finish t in
  first ++ second ++ remainder = expected /\
  same_usage (option_or first_usage (option_or second_usage final_usage)) usage.

(** The loop over the bytes. *)
Fixpoint by_bytes (t : UsageCostTransformer) (input output : list byte) (completed : option CostedUsage) : Step :=
  match input with
  | [] => Done (t, output, completed)
  | byte :: input =>
      transform t [byte] ≫= fun '(t, transformed, usage) =>
      by_bytes t input (output ++ transformed) (option_or usage completed)
  end.

Definition in_bytes (t : UsageCostTransformer) (input expected : list byte) (usage : option CostedUsage) : Prop :=
  let! Done (t, output, completed) := by_bytes t input [] None in
  let! Done (remainder, final_usage) := finish t in
  output ++ remainder = expected /\ same_usage (option_or completed final_usage) usage.

(** The session in one chunk. *)
Definition in_one (t : UsageCostTransformer) (input expected : list byte) (usage : option CostedUsage) : Prop :=
  let! Done (t, output, completed) := transform t input in
  let! Done (remainder, final_usage) := finish t in
  output ++ remainder = expected /\ same_usage (option_or completed final_usage) usage.

Lemma by_bytes_one t byte input o c :
  by_bytes t (byte :: input) o c = (transform t (byte :: input) ≫= after o c).
Proof.
  revert t byte o c. induction input as [|b input IH]; intros t byte o c.
  - cbn [by_bytes]. by destruct (transform t [byte]) as [[[t' x] u]|].
  - change (byte :: b :: input) with ([byte] ++ b :: input) at 2. rewrite transform_app.
    change (by_bytes t (byte :: b :: input) o c) with
      (transform t [byte] ≫= fun '(t, x, u) => by_bytes t (b :: input) (o ++ x) (option_or u c)).
    destruct (transform t [byte]) as [[[t' x] u]|]; cbn [mbind outcome_bind fst snd]; [|done].
    rewrite IH. destruct (transform t' (b :: input)) as [[[t2 x2] u2]|]; cbn; [|done].
    unfold after. cbn. rewrite <- app_assoc. by destruct u2, u.
Qed.

Lemma every_boundary t input expected usage :
  pending t = [] -> input <> [] -> occurrences DONE input <= 1 -> in_one t input expected usage ->
  (forall split, split <= length input -> at_split t input expected usage split) /\
  in_bytes t input expected usage.
Proof.
  intros Hp Hne Hn H. unfold in_one in H. split.
  - intros split _. unfold at_split. rewrite <- (take_drop split input), transform_app in H.
    destruct (transform t (take split input)) as [[[t1 o1] c1]|] eqn:E1; cbn [mbind outcome_bind fst snd] in H; [|done].
    destruct (transform t1 (drop split input)) as [[[t2 o2] c2]|] eqn:E2; cbn in H; [|done].
    destruct (finish t2) as [[rem f]|]; [|done]. rewrite <- app_assoc in H. destruct H as [Ho Hu]. split; [done|].
    destruct (completes_once t (take split input) (drop split input) t1 o1 c1 t2 o2 c2) as [-> | ->]; try done.
    + by rewrite Hp, take_drop.
    + by destruct c2.
  - unfold in_bytes. destruct input as [|b input]; [done|]. rewrite by_bytes_one.
    destruct (transform t (b :: input)) as [[[t' o] c]|]; cbn; [|done].
    destruct (finish t') as [[rem f]|]; [|done]. by destruct c.
Qed.
End Chunks.

Module SseTests.
#[local] Existing Instances RefDecimal.decimal RefJson.json.

(** ** The fixtures *)

Definition flat_prices (input output : string) (cached : option string) : ProviderPrices :=
  {| provider_cost :=
       {| mp_input_price_per_mtok := decimal_of input; mp_output_price_per_mtok := decimal_of output |};
     provider_cached_input_price_per_mtok := option_map decimal_of cached |}.

Definition test_prices : ProviderPrices := flat_prices "0.10" "0.20" None.
Definition cached_test_prices : ProviderPrices := flat_prices "3.00" "15.00" (Some "0.30").

Definition costed (id : string) (prompt completion : Z) (cost : string) : option CostedUsage :=
  Some {| response_id := Some id; cu_usage := {| prompt_tokens := prompt; completion_tokens := completion |};
          cu_cost_usd := decimal_of cost |}.

Definition test_usage : option CostedUsage := costed "chatcmpl-olxkqmuioetwzpcvhdrkm" 16 3 "0.0000022000".

Definition transformer (prices : ProviderPrices) (response_model : option string)
    (policy : ProviderReportedCostPolicy) : UsageCostTransformer :=
  let transformer := with_provider_cost_policy policy (transformer_new prices) in
  match response_model with
  | Some response_model => with_response_model response_model transformer
  | None => transformer
  end.

(** [UsageCostTransformer::model_only]. *)
Definition model_only (response_model : string) : UsageCostTransformer :=
  {| pending := []; prices := None; Sse.response_model := Some response_model; costed_usage := None;
     provider_cost_policy := UsageCostOnly; closed := false |}.

Definition assert_every_boundary_with_policy (input expected : list byte) (usage : option CostedUsage)
    (prices : ProviderPrices) (response_model : option string) (policy : ProviderReportedCostPolicy) : Prop :=
  (forall split, split <= length input ->
     at_split (transformer prices response_model policy) input expected usage split) /\
  in_bytes (transformer prices response_model policy) input expected usage.

Definition assert_every_boundary_with_options (input expected : list byte) (usage : option CostedUsage)
    (prices : ProviderPrices) (response_model : option string) : Prop :=
  assert_every_boundary_with_policy input expected usage prices response_model UsageCostOnly.

Definition assert_every_boundary_with_prices (input expected : list byte) (usage : option CostedUsage)
    (prices : ProviderPrices) : Prop :=
  assert_every_boundary_with_options input expected usage prices None.

Definition assert_every_boundary (input expected : list byte) (usage : option CostedUsage) : Prop :=
  assert_every_boundary_with_prices input expected usage test_prices.

Definition public_error (model : string) : list byte :=
  lit_bytes ("data: {'error':{'code':'upstream_error','message':'upstream request failed','metadata':{'model':'"
             +:+ model +:+ "'}}}\n\ndata: [DONE]\n\n").

(** [expected.contains] and [matches().count()]. *)
Definition text_contains (needle : string) (text : list byte) : bool := contains (lit needle) (text_of text).
Definition matches_count (needle : string) (text : list byte) : nat := occurrences (lit_bytes needle) text.

(** ** The tests *)

Definition session_head : string :=
  "data: {'id':'chatcmpl-olxkqmuioetwzpcvhdrkm','object':'chat.completion.chunk','created':1784984910,\
      'model':'seren-functional','system_fingerprint':'seren-functional','choices':[{'index':0,\
      'delta':{'role':'assistant','content':'pong'},'logprobs':null,'finish_reason':null}]}\n\n\
      data: {'id':'chatcmpl-olxkqmuioetwzpcvhdrkm','object':'chat.completion.chunk','created':1784984910,\
      'model':'seren-functional','system_fingerprint':'seren-functional','choices':[{'index':0,\
      'delta':{'content':'.'},'logprobs':null,'finish_reason':null}]}\n\n\
      data: {'id':'chatcmpl-olxkqmuioetwzpcvhdrkm','object':'chat.completion.chunk','created':1784984910,\
      'model':'seren-functional','system_fingerprint':'seren-functional','choices':[{'index':0,'delta':{},\
      'logprobs':null,'finish_reason':'stop'}]}\n\n".

(** [tests/fixtures/streaming_chat_response.sse] and
    [tests/golden/streaming_chat_cost.sse]. *)
Definition streaming_chat_response : list byte :=
  lit_bytes (session_head +:+
    "data: {'id':'chatcmpl-olxkqmuioetwzpcvhdrkm','object':'chat.completion.chunk','created':1784984910,\
      'model':'seren-functional','system_fingerprint':'seren-functional','choices':[],\
      'usage':{'prompt_tokens':16,'completion_tokens':3,'total_tokens':19,\
      'completion_tokens_details':{'reasoning_tokens':0}}}\n\ndata: [DONE]\n").
Definition streaming_chat_cost : list byte :=
  lit_bytes (session_head +:+
    "data: {'choices':[],'created':1784984910,'id':'chatcmpl-olxkqmuioetwzpcvhdrkm','model':'seren-functional',\
      'object':'chat.completion.chunk','system_fingerprint':'seren-functional','usage':{'completion_tokens':3,\
      'completion_tokens_details':{'reasoning_tokens':0},'cost':0.0000022000,'prompt_tokens':16,\
      'total_tokens':19}}\n\ndata: [DONE]\n").

(** [replace('\n', '\r\n')]. *)
Definition crlf (l : list byte) : list byte := l ≫= fun b => if Byte.eqb b LF then [CR; LF] else [b].

Definition real_session_is_transformed_across_every_boundary : Prop :=
  assert_every_boundary streaming_chat_response streaming_chat_cost test_usage /\
  assert_every_boundary (crlf streaming_chat_response) (crlf streaming_chat_cost) test_usage /\
  let malformed := lit_bytes "data: {'choices':[],'usage':{'prompt_tokens':'invalid'}}\n\ndata: [DONE]\n\n" in
  assert_every_boundary malformed malformed None.

Definition usage_attached_to_the_final_choice_is_transformed_across_every_boundary : Prop :=
  let input := lit_bytes
    "data: {'id':'chatcmpl-final','choices':[{'delta':{},'finish_reason':'stop','index':0}],\
      'usage':{'prompt_tokens':16,'completion_tokens':3}}\n\ndata: [DONE]\n\n" in
  let expected := lit_bytes
    "data: {'choices':[{'delta':{},'finish_reason':'stop','index':0}],'id':'chatcmpl-final',\
      'usage':{'completion_tokens':3,'cost':0.0000022000,'prompt_tokens':16}}\n\ndata: [DONE]\n\n" in
  assert_every_boundary input expected (costed "chatcmpl-final" 16 3 "0.0000022000").

Definition cached_prompt_usage_requires_exact_terminal_details : Prop :=
  let input := lit_bytes
    "data: {'id':'chatcmpl-cached','choices':[],'usage':{'prompt_tokens':100,'completion_tokens':10,\
      'prompt_tokens_details':{'cached_tokens':40}}}\n\ndata: [DONE]\n\n" in
  let expected := lit_bytes
    "data: {'choices':[],'id':'chatcmpl-cached','usage':{'completion_tokens':10,'cost':0.0003420000,\
      'prompt_tokens':100,'prompt_tokens_details':{'cached_tokens':40}}}\n\ndata: [DONE]\n\n" in
  let missing_details := lit_bytes
    "data: {'id':'chatcmpl-cached','choices':[],'usage':{'prompt_tokens':100,'completion_tokens':10}}\n\n\
      data: [DONE]\n\n" in
  assert_every_boundary_with_prices input expected (costed "chatcmpl-cached" 100 10 "0.0003420000")
    cached_test_prices /\
  assert_every_boundary_with_options missing_details (public_error "canonical/model") None cached_test_prices
    (Some "canonical/model").

Definition terminal_provider_reported_cost_takes_precedence_over_registry_estimates : Prop :=
  let input := lit_bytes
    "data: {'id':'chatcmpl-provider-cost','choices':[],'usage':{'prompt_tokens':41,'completion_tokens':128,\
      'cost':0.00034092}}\n\ndata: [DONE]\n\n" in
  let expected := lit_bytes
    "data: {'choices':[],'id':'chatcmpl-provider-cost','usage':{'completion_tokens':128,'cost':0.0003409200,\
      'prompt_tokens':41}}\n\ndata: [DONE]\n\n" in
  assert_every_boundary_with_prices input expected (costed "chatcmpl-provider-cost" 41 128 "0.0003409200")
    cached_test_prices.

Definition deepinfra_preliminary : string :=
  "data: {'id':'chatcmpl-deepinfra','object':'chat.completion.chunk','model':'zai-org/GLM-5.2',\
      'choices':[{'index':0,'delta':{'content':'ready'},'finish_reason':'length'}],'usage':{'prompt_tokens':17,\
      'completion_tokens':4,'prompt_tokens_details':null,'estimated_cost':null}}\n\n".
Definition deepinfra_deferred : string :=
  "data: {'choices':[{'delta':{'content':'ready'},'finish_reason':'length','index':0}],\
      'id':'chatcmpl-deepinfra','model':'z-ai/glm-5.2','object':'chat.completion.chunk','usage':null}\n\n".

Definition deepinfra_terminal_estimated_cost_is_normalized_across_every_boundary : Prop :=
  let input := lit_bytes (deepinfra_preliminary +:+
    "data: {'id':'chatcmpl-deepinfra','object':'chat.completion.chunk','model':'zai-org/GLM-5.2','choices':[],\
      'usage':{'prompt_tokens':17,'completion_tokens':4,'prompt_tokens_details':null,\
      'estimated_cost':0.00002235}}\n\ndata: [DONE]\n\n") in
  let expected := lit_bytes (deepinfra_deferred +:+
    "data: {'choices':[],'id':'chatcmpl-deepinfra','model':'z-ai/glm-5.2','object':'chat.completion.chunk',\
      'usage':{'completion_tokens':4,'cost':0.0000223500,'prompt_tokens':17,'prompt_tokens_details':null}}\n\n\
      data: [DONE]\n\n") in
  assert_every_boundary_with_policy input expected (costed "chatcmpl-deepinfra" 17 4 "0.0000223500")
    cached_test_prices (Some "z-ai/glm-5.2") DeepInfraEstimatedCost /\
  matches_count "'usage':{" expected = 1 /\ matches_count "data: [DONE]" expected = 1.

Definition deepinfra_preliminary_usage_without_final_estimate_fails_closed : Prop :=
  let input := lit_bytes (deepinfra_preliminary +:+ "data: [DONE]\n\n") in
  assert_every_boundary_with_policy input (lit_bytes deepinfra_deferred ++ public_error "z-ai/glm-5.2") None
    cached_test_prices (Some "z-ai/glm-5.2") DeepInfraEstimatedCost.

Definition non_deepinfra_preliminary_usage_does_not_receive_deferred_trust : Prop :=
  let input := lit_bytes
    "data: {'id':'chatcmpl-other','object':'chat.completion.chunk','model':'private/model',\
      'choices':[{'index':0,'delta':{'content':'ready'},'finish_reason':'length'}],'usage':{'prompt_tokens':17,\
      'completion_tokens':4,'prompt_tokens_details':null,'estimated_cost':null}}\n\ndata: [DONE]\n\n" in
  assert_every_boundary_with_policy input (public_error "canonical/model") None
    cached_test_prices (Some "canonical/model") UsageCostOnly.

Definition deepinfra_terminal_usage_cost_precedes_conflicting_estimated_cost : Prop :=
  let input := lit_bytes
    "data: {'id':'chatcmpl-deepinfra','object':'chat.completion.chunk','model':'zai-org/GLM-5.2','choices':[],\
      'usage':{'prompt_tokens':21,'completion_tokens':16,'cost':0.00005415,'estimated_cost':-1}}\n\n\
      data: [DONE]\n\n" in
  let expected := lit_bytes
    "data: {'choices':[],'id':'chatcmpl-deepinfra','model':'z-ai/glm-5.2','object':'chat.completion.chunk',\
      'usage':{'completion_tokens':16,'cost':0.0000541500,'prompt_tokens':21}}\n\ndata: [DONE]\n\n" in
  assert_every_boundary_with_policy input expected (costed "chatcmpl-deepinfra" 21 16 "0.0000541500")
    cached_test_prices (Some "z-ai/glm-5.2") DeepInfraEstimatedCost.

Definition deepinfra_terminal_invalid_or_missing_cost_fails_closed : Prop :=
  every (fun '(_, usage) =>
      let input := lit_bytes
        ("data: {'id':'chatcmpl-deepinfra','object':'chat.completion.chunk','model':'zai-org/GLM-5.2',\
      'choices':[],'usage':"
         +:+ usage +:+ "}\n\ndata: [DONE]\n\n") in
      assert_every_boundary_with_policy input (public_error "z-ai/glm-5.2") None
        cached_test_prices (Some "z-ai/glm-5.2") DeepInfraEstimatedCost /\
      text_contains "estimated_cost" (public_error "z-ai/glm-5.2") = false)
    [("missing estimated cost", "{'prompt_tokens':21,'completion_tokens':16}");
     ("nonnumeric estimated cost", "{'prompt_tokens':21,'completion_tokens':16,'estimated_cost':'0.00005415'}");
     ("negative estimated cost", "{'prompt_tokens':21,'completion_tokens':16,'estimated_cost':-0.00005415}");
     ("invalid usage cost despite a valid estimate",
      "{'prompt_tokens':21,'completion_tokens':16,'cost':'invalid','estimated_cost':0.00005415}")].

Definition public_stream_keeps_standard_fields_and_strips_private_metadata : Prop :=
  let input := lit_bytes
    "data: {'choices':[{'delta':{'content':'hello','provider_specific_fields':{\
      'provider':'private-nested-vendor'}},'index':0}],'id':'chatcmpl-private',\
      'object':'chat.completion.chunk','provider':'private-vendor','account':'private-account'}\n\n\
      data: {'choices':[],'id':'chatcmpl-private','model':'private-endpoint','object':'chat.completion.chunk',\
      'metadata':{'provider':'private-vendor'},'usage':{'completion_tokens':3,'prompt_tokens':16}}\n\n\
      data: [DONE]\n\n" in
  let expected := lit_bytes
    "data: {'choices':[{'delta':{'content':'hello'},'index':0}],'id':'chatcmpl-private',\
      'model':'canonical/model','object':'chat.completion.chunk'}\n\n\
      data: {'choices':[],'id':'chatcmpl-private','model':'canonical/model','object':'chat.completion.chunk',\
      'usage':{'completion_tokens':3,'cost':0.0000022000,'prompt_tokens':16}}\n\ndata: [DONE]\n\n" in
  assert_every_boundary_with_options input expected (costed "chatcmpl-private" 16 3 "0.0000022000") test_prices
    (Some "canonical/model") /\
  every (fun private_identifier => text_contains private_identifier expected = false)
    ["private-vendor"; "private-account"; "private-endpoint"; "private-nested-vendor"].

Definition priced_internal_stream_strips_nested_provider_specific_fields : Prop :=
  let input := lit_bytes
    "data: {'choices':[{'delta':{'content':'hello','provider_specific_fields':{'provider':'private-provider'}},\
      'index':0}],'id':'chatcmpl-private','object':'chat.completion.chunk'}\n\n\
      data: {'choices':[{'delta':{},'index':0}],'id':'chatcmpl-private','object':'chat.completion.chunk',\
      'usage':{'completion_tokens':3,'prompt_tokens':16}}\n\ndata: [DONE]\n\n" in
  let expected := lit_bytes
    "data: {'choices':[{'delta':{'content':'hello'},'index':0}],'id':'chatcmpl-private',\
      'object':'chat.completion.chunk'}\n\ndata: {'choices':[{'delta':{},'index':0}],'id':'chatcmpl-private',\
      'object':'chat.completion.chunk','usage':{'completion_tokens':3,'cost':0.0000022000,\
      'prompt_tokens':16}}\n\ndata: [DONE]\n\n" in
  assert_every_boundary_with_prices input expected (costed "chatcmpl-private" 16 3 "0.0000022000") test_prices /\
  text_contains "private-provider" expected = false.

(** The output's identifiers are checked where it is known to be [expected]. *)
Definition public_stream_replaces_provider_error_events_without_pricing : Prop :=
  let input := lit_bytes
    "data: {'error':{'message':'Modal account acme failed','metadata':{'provider':'modal'},\
      'type':'provider_error'},'id':'req-modal-acme','model':'account.modal.direct'}\n\ndata: [DONE]\n\n" in
  let expected := public_error "canonical/model" in
  (forall split, split <= length input -> at_split (model_only "canonical/model") input expected None split) /\
  every (fun private_identifier => text_contains private_identifier expected = false)
    ["Modal"; "modal"; "acme"; "req-modal-acme"].

Definition public_priced_stream_fails_closed_when_done_has_no_usage : Prop :=
  let input := lit_bytes
    "data: {'choices':[{'delta':{'content':'hello'},'index':0}],'id':'chatcmpl-private',\
      'object':'chat.completion.chunk'}\n\ndata: [DONE]\n\n" in
  let expected := lit_bytes
    "data: {'choices':[{'delta':{'content':'hello'},'index':0}],'id':'chatcmpl-private',\
      'model':'canonical/model','object':'chat.completion.chunk'}\n\n" ++ public_error "canonical/model" in
  assert_every_boundary_with_options input expected None test_prices (Some "canonical/model").

Definition public_stream_fails_closed_for_malformed_multiline_and_unrecognized_events : Prop :=
  every (fun input =>
      assert_every_boundary_with_options (lit_bytes input) (public_error "canonical/model") None test_prices
        (Some "canonical/model"))
    ["data: not-json\n\ndata: {'provider':'private-after-error'}\n\n";
     "event: chunk\ndata: {'id':'chatcmpl-private','object':'chat.completion.chunk','choices':[],\
      'provider':'private-multiline'}\n\n";
     "data: {'id':'chatcmpl-private','object':'chat.completion.chunk','provider':'private-unrecognized'}\n\n\
      data: [DONE]\n\n";
     "data: {'id':'chatcmpl-private','object':'chat.completion.chunk','choices':[],'provider':'private-incomplete'}"].

(** ** They pass *)

(** What is evaluated of a session. *)
Definition session (t : UsageCostTransformer) (input expected : list byte) (usage : option CostedUsage) : Prop :=
  match input with [] => false | _ => true end = true /\ Nat.leb (occurrences DONE input) 1 = true /\
  in_one t input expected usage.

Lemma boundaries input expected usage prices response_model policy :
  session (transformer prices response_model policy) input expected usage ->
  assert_every_boundary_with_policy input expected usage prices response_model policy.
Proof.
  intros (Hne & Hn%Nat.leb_le & H). apply every_boundary; [by destruct response_model|by destruct input|done..].
Qed.

Lemma splits model input expected usage :
  session (model_only model) input expected usage ->
  forall split, split <= length input -> at_split (model_only model) input expected usage split.
Proof. intros (Hne & Hn%Nat.leb_le & H). apply every_boundary; [done|by destruct input|done..]. Qed.

Ltac run_sessions :=
  unfold every, assert_every_boundary, assert_every_boundary_with_prices, assert_every_boundary_with_options;
  cbn [foldr]; cbv beta iota zeta; repeat match goal with |- _ /\ _ => split end; (apply boundaries || apply splits || idtac); run_test.

Example real_session_holds : real_session_is_transformed_across_every_boundary.
Proof. unfold real_session_is_transformed_across_every_boundary. run_sessions. Qed.
Example final_choice_usage_holds : usage_attached_to_the_final_choice_is_transformed_across_every_boundary.
Proof. unfold usage_attached_to_the_final_choice_is_transformed_across_every_boundary. run_sessions. Qed.
Example cached_terminal_details_hold : cached_prompt_usage_requires_exact_terminal_details.
Proof. unfold cached_prompt_usage_requires_exact_terminal_details. run_sessions. Qed.
Example terminal_reported_cost_holds : terminal_provider_reported_cost_takes_precedence_over_registry_estimates.
Proof. unfold terminal_provider_reported_cost_takes_precedence_over_registry_estimates. run_sessions. Qed.
Example deepinfra_terminal_estimate_holds : deepinfra_terminal_estimated_cost_is_normalized_across_every_boundary.
Proof. unfold deepinfra_terminal_estimated_cost_is_normalized_across_every_boundary. run_sessions. Qed.
Example deepinfra_preliminary_holds : deepinfra_preliminary_usage_without_final_estimate_fails_closed.
Proof. unfold deepinfra_preliminary_usage_without_final_estimate_fails_closed. run_sessions. Qed.
Example other_preliminary_holds : non_deepinfra_preliminary_usage_does_not_receive_deferred_trust.
Proof. unfold non_deepinfra_preliminary_usage_does_not_receive_deferred_trust. run_sessions. Qed.
Example deepinfra_terminal_cost_holds : deepinfra_terminal_usage_cost_precedes_conflicting_estimated_cost.
Proof. unfold deepinfra_terminal_usage_cost_precedes_conflicting_estimated_cost. run_sessions. Qed.
Example deepinfra_terminal_invalid_holds : deepinfra_terminal_invalid_or_missing_cost_fails_closed.
Proof. unfold deepinfra_terminal_invalid_or_missing_cost_fails_closed. run_sessions. Qed.
Example public_stream_fields_hold : public_stream_keeps_standard_fields_and_strips_private_metadata.
Proof. unfold public_stream_keeps_standard_fields_and_strips_private_metadata. run_sessions. Qed.
Example internal_stream_fields_hold : priced_internal_stream_strips_nested_provider_specific_fields.
Proof. unfold priced_internal_stream_strips_nested_provider_specific_fields. run_sessions. Qed.
Example provider_error_events_hold : public_stream_replaces_provider_error_events_without_pricing.
Proof. unfold public_stream_replaces_provider_error_events_without_pricing. run_sessions. Qed.
Example done_without_usage_holds : public_priced_stream_fails_closed_when_done_has_no_usage.
Proof. unfold public_priced_stream_fails_closed_when_done_has_no_usage. run_sessions. Qed.
Example malformed_events_hold : public_stream_fails_closed_for_malformed_multiline_and_unrecognized_events.
Proof. unfold public_stream_fails_closed_for_malformed_multiline_and_unrecognized_events. run_sessions. Qed.
End SseTests.
