(* ===== verification/ProxyTests.v ===== *)
(** The unit tests of [proxy.rs]: the fallback sequence against a scripted
    sidecar, costs written into completions, sanitized responses. *)

From Stdlib Require Import ZArith Strings.Byte.
From S2P Require Import Prelude RustDecimal RoutingProfile Registry Json RefJson Pricing Routing UsageCost Sse Proxy.
From S2P Require Import Database Ledger Generation TestKit.

#[local] Open Scope Z_scope.

Module ProxyTests.
#[local] Existing Instances RefDecimal.decimal RefJson.json.

(** ** The fixtures *)

Definition test_price_table_for_provider_with_cached_price (provider_id : string) (cached : option decimal)
    : result PriceTableError PriceTable :=
  PriceTable_from_registry
    {| providers :=
         [{| id := provider_id; display_name := "Local"; public_display_name := None; public_tag := None;
             base_url := "http://127.0.0.1:1234/v1"; secret_env := "TEST_ONLY"; enabled := true; priority := 0;
             catalog_url := None; profiles := {[ Production ]};
             models :=
               [{| slug := "functional-model"; model_name := "Functional Model"; context_length := 131072;
                   provider_model_id := "local-model";
                   input_price_per_mtok := decimal_of (if is_some cached then "3.00" else "0.10");
                   cached_input_price_per_mtok := cached;
                   output_price_per_mtok := decimal_of (if is_some cached then "15.00" else "0.20");
                   request_constraints := default_request_constraints |}] |}] |}.

Definition test_price_table_with_cached_price : option decimal -> result PriceTableError PriceTable :=
  test_price_table_for_provider_with_cached_price "local".

Definition test_price_table : result PriceTableError PriceTable := test_price_table_with_cached_price None.

Definition cached_price (text : string) : option decimal := Some (decimal_of text).

(** [ServedProvider::from_headers] of the one header. *)
Definition served_provider (provider : string) : option ServedProvider :=
  served_provider_from_headers [(SERVED_PROVIDER_HEADER, provider)].

(** [inject_usage_cost] of a literal, served by the provider named. *)
Definition inject (body model provider : string) (prices : result PriceTableError PriceTable)
    : outcome (result CostOmission CostedResponse) :=
  match prices, served_provider provider with
  | Ok table, Some served => inject_usage_cost (lit_bytes body) model served table
  | _, _ => Panic "unwrap"
  end.

(** What the costed usage says, and its cost to ten places. *)
Definition usage_is (u : CostedUsage) (id : option string) (prompt completion : Z) (cost : string) : Prop :=
  response_id u = id /\ cu_usage u = {| prompt_tokens := prompt; completion_tokens := completion |} /\
  same_decimal (cu_cost_usd u) (decimal_of cost).

(** A field of [response["usage"]], and the body as JSON. *)
Definition body_value (c : CostedResponse) : Value := default Null (from_slice (cr_body c)).
Definition usage_field (k : string) (c : CostedResponse) : option Value :=
  value_get "usage" (body_value c) ≫= value_get k.

Definition fails_with (e : CostOmission) (o : outcome (result CostOmission CostedResponse)) : Prop :=
  let! Done (Err e') := o in e' = e.

(** ** Fallbacks *)

(** The statuses the test's server answers with in turn. *)
Definition sequenced_response (attempt : nat) (body : list byte) : option UpstreamReply :=
  Some {| ur_status := match attempt with 0%nat => 500 | 1%nat => 502 | _ => 200 end;
          ur_headers := []; ur_body := [];
          ur_end := {| ar_item := None; ar_observed_at := 0; ar_processing := 0; ar_recorded_at := 0 |};
          ur_attempt_started_at := 0; ur_headers_received_at := 0 |}.

Definition selected_request_retries_every_compatible_fallback_in_order : Prop :=
  let request := json "{'model': 'primary/canonical/model'}" in
  let! Some selected_body := to_vec request in
  let decision :=
    {| profile := Production; decision_model := "canonical/model"; selected_provider := "primary";
       fallback_models := ["secondary/canonical/model"; "openrouter/canonical/model"]; has_alternatives := true |} in
  let! Done (Some upstream, sent) := send_selected_then_fallback sequenced_response request selected_body decision in
  ur_status upstream = 200 /\
  (fun body => index "model" (default Null (from_slice body))) <$> sent =
  [JString "primary/canonical/model"; JString "secondary/canonical/model"; JString "openrouter/canonical/model"].

(** ** Costs *)

Definition nonstreaming_chat_response : string :=
  "{
  'choices': [
    {'finish_reason': 'stop', 'index': 0, 'logprobs': null,
     'message': {'content': 'pong.', 'reasoning_content': '', 'role': 'assistant', 'tool_calls': []}}
  ],
  'created': 1784984187,
  'id': 'chatcmpl-lk0p4fm7w70wido9snoqp',
  'model': 'seren-functional',
  'object': 'chat.completion',
  'stats': {},
  'system_fingerprint': 'seren-functional',
  'usage': {
    'completion_tokens': 3,
    'completion_tokens_details': {'reasoning_tokens': 0},
    'prompt_tokens': 16,
    'total_tokens': 19
  }
}".

(** The golden response is the fixture with its cost. *)
Definition nonstreaming_chat_cost : Value :=
  json "{
  'choices': [
    {'finish_reason': 'stop', 'index': 0, 'logprobs': null,
     'message': {'content': 'pong.', 'reasoning_content': '', 'role': 'assistant', 'tool_calls': []}}
  ],
  'created': 1784984187,
  'id': 'chatcmpl-lk0p4fm7w70wido9snoqp',
  'model': 'seren-functional',
  'object': 'chat.completion',
  'stats': {},
  'system_fingerprint': 'seren-functional',
  'usage': {
    'completion_tokens': 3,
    'completion_tokens_details': {'reasoning_tokens': 0},
    'cost': 0.0000022000,
    'prompt_tokens': 16,
    'total_tokens': 19
  }
}".

Definition nonstreaming_cached_chat_response : string :=
  "{
  'choices': [
    {'finish_reason': 'stop', 'index': 0, 'message': {'content': 'cached response', 'role': 'assistant'}}
  ],
  'id': 'chatcmpl-cached',
  'model': 'functional-model',
  'object': 'chat.completion',
  'usage': {
    'completion_tokens': 10,
    'prompt_tokens': 100,
    'prompt_tokens_details': {'cached_tokens': 40},
    'total_tokens': 110
  }
}".

Definition nonstreaming_cached_chat_cost : Value :=
  json "{
  'choices': [
    {'finish_reason': 'stop', 'index': 0, 'message': {'content': 'cached response', 'role': 'assistant'}}
  ],
  'id': 'chatcmpl-cached',
  'model': 'functional-model',
  'object': 'chat.completion',
  'usage': {
    'completion_tokens': 10,
    'cost': 0.0003420000,
    'prompt_tokens': 100,
    'prompt_tokens_details': {'cached_tokens': 40},
    'total_tokens': 110
  }
}".

Definition real_non_streaming_response_gains_exact_usage_cost : Prop :=
  let! Done (Ok transformed) := inject nonstreaming_chat_response "local/functional-model" "local" test_price_table in
  body_value transformed = nonstreaming_chat_cost /\
  usage_is (cr_usage transformed) (Some "chatcmpl-lk0p4fm7w70wido9snoqp") 16 3 "0.0000022000" /\
  value_get "provider" nonstreaming_chat_cost = None.

Definition cached_prompt_response_uses_exact_provider_cost : Prop :=
  let! Done (Ok transformed) :=
    inject nonstreaming_cached_chat_response "local/functional-model" "local"
      (test_price_table_with_cached_price (cached_price "0.30")) in
  body_value transformed = nonstreaming_cached_chat_cost /\
  usage_is (cr_usage transformed) (Some "chatcmpl-cached") 100 10 "0.0003420000".

Definition exact_provider_reported_cost_takes_precedence_over_registry_estimates : Prop :=
  let body := "{
      'id':'chatcmpl-provider-cost',
      'usage':{'prompt_tokens':41, 'completion_tokens':128, 'cost':0.00034092}
    }" in
  let! Done (Ok transformed) :=
    inject body "local/functional-model" "local" (test_price_table_with_cached_price (cached_price "0.30")) in
  usage_field "cost" transformed = Some (Number "0.0003409200") /\
  dec_to_string (cu_cost_usd (cr_usage transformed)) = "0.0003409200".

Definition invalid_provider_reported_cost_fails_closed : Prop :=
  every (fun body =>
      fails_with InvalidProviderCost (inject body "local/functional-model" "local" test_price_table))
    ["{'usage':{'prompt_tokens':1,'completion_tokens':1,'cost':'0.01'}}";
     "{'usage':{'prompt_tokens':1,'completion_tokens':1,'cost':-0.01}}"].

Definition deepinfra_prices : result PriceTableError PriceTable :=
  test_price_table_for_provider_with_cached_price "deepinfra-glm" (cached_price "0.14").

(** The policy of a provider's own header. *)
Definition policy_of (provider : string) (policy : ProviderReportedCostPolicy) : Prop :=
  let! Some served := served_provider provider in provider_reported_cost_policy served = policy.

Definition deepinfra_estimated_cost_is_exactly_scoped_normalized_and_sanitized : Prop :=
  let body := "{
      'id':'chatcmpl-deepinfra',
      'usage':{'prompt_tokens':21, 'completion_tokens':16, 'prompt_tokens_details':null,
               'estimated_cost':0.000054149999999999995}
    }" in
  (let! Done (Ok transformed) := inject body "deepinfra-glm/functional-model" "deepinfra-glm" deepinfra_prices in
   usage_field "cost" transformed = Some (Number "0.0000541500") /\
   usage_field "estimated_cost" transformed = None /\
   usage_is (cr_usage transformed) (Some "chatcmpl-deepinfra") 21 16 "0.0000541500") /\
  policy_of "deepinfra" DeepInfraEstimatedCost /\
  policy_of "deepinfra-glm" DeepInfraEstimatedCost /\
  every (fun provider => policy_of provider UsageCostOnly)
    ["deepinfra-glm-shadow"; "openrouter"; "blackbox"; "local"].

Definition deepinfra_usage_cost_precedes_conflicting_estimated_cost : Prop :=
  let body := "{
      'id':'chatcmpl-deepinfra',
      'usage':{'prompt_tokens':21, 'completion_tokens':16, 'cost':0.00005415, 'estimated_cost':-1}
    }" in
  let! Done (Ok transformed) := inject body "deepinfra-glm/functional-model" "deepinfra-glm" deepinfra_prices in
  usage_field "cost" transformed = Some (Number "0.0000541500") /\
  usage_field "estimated_cost" transformed = None /\
  dec_to_string (cu_cost_usd (cr_usage transformed)) = "0.0000541500".

Definition deepinfra_invalid_or_missing_estimated_cost_fails_closed : Prop :=
  let local_prices := test_price_table_with_cached_price (cached_price "0.14") in
  let valid_estimate := "{'usage':{'prompt_tokens':21,'completion_tokens':16,'estimated_cost':0.00005415}}" in
  fails_with UnresolvedProviderCost (inject valid_estimate "local/functional-model" "local" local_prices) /\
  every (fun '(_, body, expected) =>
      fails_with expected (inject body "deepinfra-glm/functional-model" "deepinfra-glm" deepinfra_prices))
    [("missing estimated cost", "{'usage':{'prompt_tokens':21,'completion_tokens':16}}", UnresolvedProviderCost);
     ("null estimated cost",
      "{'usage':{'prompt_tokens':21,'completion_tokens':16,'estimated_cost':null}}", UnresolvedProviderCost);
     ("nonnumeric estimated cost",
      "{'usage':{'prompt_tokens':21,'completion_tokens':16,'estimated_cost':'0.00005415'}}", InvalidProviderCost);
     ("negative estimated cost",
      "{'usage':{'prompt_tokens':21,'completion_tokens':16,'estimated_cost':-0.00005415}}", InvalidProviderCost);
     ("invalid usage cost despite valid estimated cost",
      "{'usage':{'prompt_tokens':21,'completion_tokens':16,'cost':'invalid','estimated_cost':0.00005415}}",
      InvalidProviderCost)].

Definition unresolved_cached_prompt_usage_fails_closed : Prop :=
  let price_table := test_price_table_with_cached_price (cached_price "0.30") in
  every (fun '(_, body) =>
      fails_with UnresolvedProviderCost (inject body "local/functional-model" "local" price_table))
    [("missing prompt token details", "{'usage':{'prompt_tokens':100,'completion_tokens':10}}");
     ("missing cached token count",
      "{'usage':{'prompt_tokens':100,'completion_tokens':10,'prompt_tokens_details':{}}}");
     ("cached token count is not numeric",
      "{'usage':{'prompt_tokens':100,'completion_tokens':10,'prompt_tokens_details':{'cached_tokens':'40'}}}");
     ("cached token count exceeds total prompt tokens",
      "{'usage':{'prompt_tokens':100,'completion_tokens':10,'prompt_tokens_details':{'cached_tokens':101}}}")].

Definition bookkeeping_misses_are_reported_without_a_replacement_body : Prop :=
  let body := "{'id':'chatcmpl-1','usage':{'prompt_tokens':7,'completion_tokens':3}}" in
  every (fun '(_, candidate, model, expected) => fails_with expected (inject candidate model "local" test_price_table))
    [("missing usage", "{'id':'chatcmpl-1'}", "functional-model", MissingUsage);
     ("unknown price", body, "unknown-model", UnknownPrice)].

(** ** Public responses *)

Definition generation_identifier_is_preserved_for_downstream_metadata_lookups : Prop :=
  let response := downstream_response 200 None (Some "gen-test") (inl (FullBody [])) None in
  r_generation_id response = Some "gen-test".

(** [choices[0].message] of a completion. *)
Definition message_of (v : Value) : Value := index "message" (element 0 (index "choices" v)).

Definition private_completion : string :=
  "{
    'id': 'chatcmpl-private',
    'object': 'chat.completion',
    'created': 7,
    'choices': [{
      'index': 0,
      'message': {
        'role': 'assistant',
        'content': 'preserved',
        'refusal': null,
        'reasoning': 'preserved reasoning',
        'annotations': [{'type': 'public-annotation'}],
        'audio': {'id': 'public-audio'},
        'tool_calls': [{
          'id': 'public-call',
          'type': 'function',
          'function': {'name': 'lookup', 'arguments': '{}'}
        }],
        'provider_specific_fields': {
          'provider_metadata': {
            'gateway': {'provider': 'private-nested-vendor', 'request_id': 'private-request'}
          }
        }
      }
    }],
    'usage': {'prompt_tokens': 2, 'completion_tokens': 1},
    'service_tier': 'default',
    'system_fingerprint': 'public-fingerprint',
    'provider': 'private-vendor',
    'account': {'id': 'private-account'},
    'metadata': {'endpoint': 'private-endpoint'}
  }".

Definition aliased_non_streaming_response_keeps_standard_fields_and_strips_private_metadata : Prop :=
  let! Some body := to_vec (json private_completion) in
  let! Ok bytes := sanitize_aliased_json_response body "canonical/model" in
  let! Some sanitized := from_slice bytes in
  let message := message_of sanitized in
  index "id" sanitized = JString "chatcmpl-private" /\
  index "object" sanitized = JString "chat.completion" /\
  index "model" sanitized = JString "canonical/model" /\
  index "content" message = JString "preserved" /\
  index "reasoning" message = JString "preserved reasoning" /\
  index "type" (element 0 (index "annotations" message)) = JString "public-annotation" /\
  index "id" (index "audio" message) = JString "public-audio" /\
  index "id" (element 0 (index "tool_calls" message)) = JString "public-call" /\
  value_get "provider_specific_fields" message = None /\
  index "service_tier" sanitized = JString "default" /\
  index "system_fingerprint" sanitized = JString "public-fingerprint" /\
  every (fun private_field => value_get private_field sanitized = None) ["provider"; "account"; "metadata"] /\
  every (fun private_value => contains private_value (RefJson.print sanitized) = false)
    ["private-vendor"; "private-account"; "private-endpoint"; "private-nested-vendor"; "private-request"].

Definition priced_non_streaming_response_strips_nested_provider_specific_fields : Prop :=
  let body := "{
    'id': 'chatcmpl-private',
    'object': 'chat.completion',
    'choices': [{
      'index': 0,
      'message': {
        'role': 'assistant',
        'content': 'preserved',
        'provider_specific_fields': {
          'provider_metadata': {
            'gateway': {'resolved_provider': 'private-provider', 'request_id': 'private-request'}
          }
        }
      }
    }],
    'usage': {'prompt_tokens': 2, 'completion_tokens': 1}
  }" in
  let! Done (Ok transformed) := inject body "local/functional-model" "local" test_price_table in
  let response := body_value transformed in
  index "content" (message_of response) = JString "preserved" /\
  value_get "provider_specific_fields" (message_of response) = None /\
  every (fun private_value => contains private_value (RefJson.print response) = false)
    ["private-provider"; "private-request"].

Definition aliased_non_streaming_response_rejects_errors_and_unrecognized_shapes : Prop :=
  every (fun '(body, expected) =>
      let! Err e := sanitize_aliased_json_response (lit_bytes body) "canonical/model" in e = expected)
    [("not-json", RejectedJson);
     ("{'error':{'message':'private provider failed'}}", EmbeddedError);
     ("{'id':'chatcmpl-private','object':'chat.completion','choices':null}", UnrecognizedShape);
     ("{'id':'chatcmpl-private','choices':[]}", UnrecognizedShape);
     ("{'id':'chatcmpl-private','object':'private-provider-response','choices':[]}", UnrecognizedShape)].

Definition selected_or_served_public_alias_requires_response_sanitization : Prop :=
  let aliases : gset string := {[ "aliased" ]} in
  let! Some aliased := served_provider "aliased" in
  let! Some plain := served_provider "plain" in
  response_uses_public_alias aliases None "aliased" = true /\
  response_uses_public_alias aliases (Some plain) "aliased" = true /\
  response_uses_public_alias aliases (Some aliased) "plain" = true /\
  response_uses_public_alias aliases (Some plain) "plain" = false.

Definition aliased_upstream_error_is_generic_and_keeps_safe_request_identity : Prop :=
  let! Done response :=
    aliased_upstream_error TOO_MANY_REQUESTS "canonical/model" (served_provider "private-provider") in
  r_status response = TOO_MANY_REQUESTS /\ r_generation_id response = None /\
  r_served_provider response = Some "private-provider" /\
  let! inl (FullBody bytes) := r_body response in
  let! Some body := from_slice bytes in
  body =
  json "{'error': {'code': 429, 'message': 'upstream request failed', 'metadata': {'model': 'canonical/model'}}}" /\
  contains "private-provider" (RefJson.print body) = false.

(** ** They pass *)

Example fallbacks_hold : selected_request_retries_every_compatible_fallback_in_order.
Proof. run_test. Qed.
Example non_streaming_cost_holds : real_non_streaming_response_gains_exact_usage_cost.
Proof. run_test. Qed.
Example cached_prompt_holds : cached_prompt_response_uses_exact_provider_cost.
Proof. run_test. Qed.
Example reported_cost_holds : exact_provider_reported_cost_takes_precedence_over_registry_estimates.
Proof. run_test. Qed.
Example invalid_reported_cost_holds : invalid_provider_reported_cost_fails_closed.
Proof. run_test. Qed.
Example deepinfra_estimate_holds : deepinfra_estimated_cost_is_exactly_scoped_normalized_and_sanitized.
Proof. run_test. Qed.
Example deepinfra_usage_cost_holds : deepinfra_usage_cost_precedes_conflicting_estimated_cost.
Proof. run_test. Qed.
Example deepinfra_invalid_holds : deepinfra_invalid_or_missing_estimated_cost_fails_closed.
Proof. run_test. Qed.
Example unresolved_cached_holds : unresolved_cached_prompt_usage_fails_closed.
Proof. run_test. Qed.
Example bookkeeping_misses_hold : bookkeeping_misses_are_reported_without_a_replacement_body.
Proof. run_test. Qed.
Example generation_identifier_holds : generation_identifier_is_preserved_for_downstream_metadata_lookups.
Proof. run_test. Qed.
Example aliased_response_holds : aliased_non_streaming_response_keeps_standard_fields_and_strips_private_metadata.
Proof. run_test. Qed.
Example priced_response_holds : priced_non_streaming_response_strips_nested_provider_specific_fields.
Proof. run_test. Qed.
Example aliased_rejections_hold : aliased_non_streaming_response_rejects_errors_and_unrecognized_shapes.
Proof. run_test. Qed.
Example alias_sanitization_holds : selected_or_served_public_alias_requires_response_sanitization.
Proof. run_test. Qed.
Example aliased_error_holds : aliased_upstream_error_is_generic_and_keeps_safe_request_identity.
Proof. run_test. Qed.
End ProxyTests.
