(* ===== verification/ProductionTests.v ===== *)
(** [tests/production_registry.rs]: what the registry the service is shipped
    with makes of requests, costs and the sidecar's failover targets.  The
    routing is the same whatever the generator's seed.  The test that restates
    the registry field by field is left out (checked_registry_activates_reviewed_routes);
    the compiled configuration is read without its YAML. *)

From Stdlib Require Import ZArith.
From S2P Require Import Prelude Float64 RustDecimal RoutingProfile Registry Json RefJson Preference.
From S2P Require Import Measurements Share Select Config Routing Pricing SidecarConfig TestKit Documents.

#[local] Open Scope Z_scope.

Module ProductionTests.
#[local] Existing Instances RefDecimal.decimal RefRand.rand.

(** [RoutingPolicy::from_registry]; its seed is the process's. *)
Definition reviewed_routing (seed : StdRng) : option (RoutingPolicy * RoutingState) :=
  match RoutingConfig_new (dec_of_Z 100) (f64_lit 1 10) dec_one 100 with
  | Done (Ok config) => ok (from_registry_with_rng checked_registry config seed)
  | _ => None
  end.

(** A request routed, and the provider, the model name and the fallbacks it gets. *)
Record Routed : Type := {
  r_profile : RoutingProfile;
  r_endpoint : CompletionEndpoint;
  r_request : string;
  r_provider : string;
  r_model : string;
  r_fallbacks : list string
}.

(** The requests of a test, one after the other on one policy. *)
Definition all_routed (seed : StdRng) (rs : list Routed) : Prop :=
  let! Some (routing, state) := reviewed_routing seed in
  every_from (fun r state next =>
      let! Done o := route_for_endpoint routing store_default state (r_profile r) (r_endpoint r) (json (r_request r)) in
      (let! Ok decision := ro_result o in
       selected_provider decision = r_provider r /\
       fallback_models decision = r_fallbacks r /\
       has_alternatives decision = match r_fallbacks r with [] => false | _ => true end) /\
      index "model" (ro_request o) = JString (r_model r) /\ next (ro_state o))
    rs state (fun _ => True).

Definition rejected (seed : StdRng) (profile : RoutingProfile) (request : string) (e : RouteRequestError) : Prop :=
  let! Some (routing, state) := reviewed_routing seed in
  let! Done o := route routing store_default state profile (json request) in ro_result o = Err e.

Definition kimi_request : string := "{'model': 'moonshotai/kimi-k3', 'provider': {'sort': 'price'}}".
Definition kimi (profile : RoutingProfile) (endpoint : CompletionEndpoint) (request : string) : Routed :=
  {| r_profile := profile; r_endpoint := endpoint; r_request := request; r_provider := "openrouter";
     r_model := "openrouter/moonshotai/kimi-k3"; r_fallbacks := [] |}.
Definition kimi_modal (profile : RoutingProfile) : Routed :=
  {| r_profile := profile; r_endpoint := Chat; r_request := kimi_request; r_provider := "modal";
     r_model := "modal/moonshotai/kimi-k3"; r_fallbacks := ["openrouter/moonshotai/kimi-k3"] |}.

Definition routing_policy_selects_modal_in_both_profiles_and_rejects_provider_selection : Prop :=
  forall seed,
  all_routed seed
    [kimi_modal Production; kimi_modal Beta;
     kimi Beta Chat "{'model': 'moonshotai/kimi-k3', 'provider': {'sort': 'price'}, 'top_p': 0.949}";
     kimi Beta Legacy "{'model': 'moonshotai/kimi-k3', 'provider': {'sort': 'price'}, 'top_p': 0.95}";
     kimi Beta Chat "{'model': 'moonshotai/kimi-k3', 'provider': {'sort': 'price'}, 'stream': true, 'top_p': 0.95}"] /\
  rejected seed Beta "{'model': 'modal/moonshotai/kimi-k3', 'provider': {'sort': 'price'}}" UnknownModel /\
  every (fun field =>
      rejected seed Beta ("{'model': 'moonshotai/kimi-k3', 'provider': {'" +:+ field +:+ "': ['modal']}}")
        UnsupportedProviderOverride)
    ["only"; "ignore"; "order"].

Definition llama_request : string := "{'model': 'meta-llama/llama-3.3-70b-instruct', 'provider': {'sort': 'price'}}".
Definition llama (profile : RoutingProfile) (request : string) : Routed :=
  {| r_profile := profile; r_endpoint := Chat; r_request := request; r_provider := "deepinfra";
     r_model := "deepinfra/meta-llama/llama-3.3-70b-instruct";
     r_fallbacks := ["openrouter/meta-llama/llama-3.3-70b-instruct"] |}.

Definition routing_policy_selects_deepinfra_in_both_profiles_with_openrouter_fallback : Prop :=
  forall seed,
  all_routed seed
    [llama Production llama_request; llama Beta llama_request;
     llama Production
       "{'model': 'meta-llama/llama-3.3-70b-instruct', 'provider': {'sort': 'price'}, 'routing_profile': 'beta'}";
     {| r_profile := Beta; r_endpoint := Legacy; r_request := llama_request; r_provider := "openrouter";
        r_model := "openrouter/meta-llama/llama-3.3-70b-instruct"; r_fallbacks := [] |}].

Definition glm (profile : RoutingProfile) (request : string) : Routed :=
  {| r_profile := profile; r_endpoint := Chat; r_request := request; r_provider := "deepinfra-glm";
     r_model := "deepinfra-glm/z-ai/glm-5.2"; r_fallbacks := ["blackbox/z-ai/glm-5.2"; "openrouter/z-ai/glm-5.2"] |}.

Definition routing_policy_orders_deepinfra_blackbox_and_openrouter_for_glm : Prop :=
  forall seed,
  all_routed seed
    [glm Production "{'model': 'z-ai/glm-5.2'}"; glm Beta "{'model': 'z-ai/glm-5.2'}";
     {| r_profile := Beta; r_endpoint := Chat; r_request := "{'model': 'z-ai/glm-5.2', 'provider': {'sort': 'price'}}";
        r_provider := "openrouter"; r_model := "openrouter/z-ai/glm-5.2";
        r_fallbacks := ["deepinfra-glm/z-ai/glm-5.2"; "blackbox/z-ai/glm-5.2"] |};
     {| r_profile := Beta; r_endpoint := Legacy; r_request := "{'model': 'z-ai/glm-5.2'}";
        r_provider := "openrouter"; r_model := "openrouter/z-ai/glm-5.2"; r_fallbacks := [] |};
     glm Production "{'model': 'z-ai/glm-5.2', 'routing_profile': 'beta'}"].

(** ** Prices *)

Definition prices_of (provider slug : string) : option ProviderPrices :=
  ok (PriceTable_from_registry checked_registry) ≫= fun table => PriceTable_get table provider slug.

Definition prices_are (prices : ProviderPrices) (input output : string) (cached : option string) : Prop :=
  same_decimal (mp_input_price_per_mtok (provider_cost prices)) (decimal_of input) /\
  same_decimal (mp_output_price_per_mtok (provider_cost prices)) (decimal_of output) /\
  match provider_cached_input_price_per_mtok prices, cached with
  | Some c, Some e => same_decimal c (decimal_of e)
  | None, None => True
  | _, _ => False
  end.

Definition tokens (prompt completion : Z) : Usage := {| prompt_tokens := prompt; completion_tokens := completion |}.
Definition costs (o : outcome decimal) (text : string) : Prop := let! Done c := o in dec_to_string c = text.
Definition provider_costs (o : outcome (option decimal)) (text : option string) : Prop :=
  let! Done c := o in option_map dec_to_string c = text.

Definition kimi_cached_provider_cost_is_exact_and_provider_independent : Prop :=
  let usage := tokens 1000 100 in
  let! Some modal := prices_of "modal" "moonshotai/kimi-k3" in
  let! Some openrouter := prices_of "openrouter" "moonshotai/kimi-k3" in
  costs (cost_usd (provider_cost modal) usage) "0.0045000000" /\
  every (fun prices =>
      prices_are prices "3.00" "15.00" (Some "0.30") /\
      provider_costs (provider_cost_usd prices usage (Some 600)) (Some "0.0028800000") /\
      provider_costs (provider_cost_usd prices usage None) None /\
      provider_costs (provider_cost_usd prices usage (Some 1001)) None)
    [openrouter; modal].

Definition blackbox_glm_cost_is_exact : Prop :=
  let usage := tokens 17 4 in
  let! Some blackbox := prices_of "blackbox" "z-ai/glm-5.2" in
  prices_are blackbox "1.40" "4.40" (Some "0.14") /\
  provider_costs (provider_cost_usd blackbox usage (Some 16)) (Some "0.0000212400") /\
  costs (cost_usd (provider_cost blackbox) usage) "0.0000414000" /\
  provider_costs (provider_cost_usd blackbox usage None) None /\
  provider_costs (provider_cost_usd blackbox usage (Some 18)) None.

Definition direct_and_fallback_routes_keep_exact_provider_costs : Prop :=
  let usage := tokens 3962 214 in
  let! Some direct := prices_of "deepinfra" "meta-llama/llama-3.3-70b-instruct" in
  let! Some fallback := prices_of "openrouter" "meta-llama/llama-3.3-70b-instruct" in
  prices_are direct "0.10" "0.32" None /\ prices_are fallback "0.13" "0.40" None /\
  costs (cost_usd (provider_cost fallback) usage) "0.0006006600" /\
  costs (cost_usd (provider_cost direct) usage) "0.0004646800".

(** ** The compiled sidecar *)

(** A route as the tests read it: URL, model, credential and served provider. *)
Definition route_is (config : AgentGatewayConfig) (name url model key served : string) : Prop :=
  let! Some r := find_b (fun r => String.eqb (mr_name r) name) (llm_models (llm config)) in
  mr_provider r = "openAI" /\ mp_base_url (mr_params r) = url /\ mp_model (mr_params r) = model /\
  mo_model (mr_overrides r) = model /\ mp_api_key (mr_params r) = key /\
  hm_set (mr_response_headers r) = [("x-seren-served-provider", served)] /\
  consecutive_failures (eviction (mr_health r)) = 1 /\ duration (eviction (mr_health r)) = "60s".

(** The failover targets of a slug, in both profiles. *)
Definition targets_are (config : AgentGatewayConfig) (slug : string) (expected : list (string * Z)) : Prop :=
  every (fun profile =>
      let! Some m := find_b (fun m => String.eqb (vm_name m) (sidecar_alias profile slug)) (virtual_models (llm config)) in
      (fun t => (vt_model t, vt_priority t)) <$> targets (failover (vm_routing m)) = expected)
    [Production; Beta].

Definition compiled_sidecar_keeps_modal_internal_with_openrouter_fallback : Prop :=
  let! Ok config := build_config checked_registry options_default in
  route_is config "modal/moonshotai/kimi-k3" "https://inference.us-west.modal.direct/v1"
    "serendb--ep-seren-kimi-k3-beta-server.us-west.modal.direct" "$SEREN_ROUTER_KEY_MODAL" "modal" /\
  targets_are config "moonshotai/kimi-k3"
    [("modal/moonshotai/kimi-k3", 0); ("openrouter/moonshotai/kimi-k3", 255)].

Definition compiled_sidecar_keeps_deepinfra_in_both_profiles_with_openrouter_fallback : Prop :=
  let! Ok config := build_config checked_registry options_default in
  route_is config "deepinfra/meta-llama/llama-3.3-70b-instruct" "https://api.deepinfra.com/v1/openai"
    "meta-llama/Llama-3.3-70B-Instruct-Turbo" "$SEREN_ROUTER_KEY_DEEPINFRA" "deepinfra" /\
  targets_are config "meta-llama/llama-3.3-70b-instruct"
    [("deepinfra/meta-llama/llama-3.3-70b-instruct", 1); ("openrouter/meta-llama/llama-3.3-70b-instruct", 255)].

Definition compiled_sidecar_keeps_blackbox_in_both_profiles_with_openrouter_fallback : Prop :=
  let! Ok config := build_config checked_registry options_default in
  route_is config "blackbox/z-ai/glm-5.2" "https://api.blackbox.ai/v1" "z-ai/glm-5.2"
    "$SEREN_ROUTER_KEY_BLACKBOX" "blackbox" /\
  route_is config "deepinfra-glm/z-ai/glm-5.2" "https://api.deepinfra.com/v1/openai" "zai-org/GLM-5.2"
    "$SEREN_ROUTER_KEY_DEEPINFRA_GLM" "deepinfra-glm" /\
  targets_are config "z-ai/glm-5.2"
    [("deepinfra-glm/z-ai/glm-5.2", 0); ("blackbox/z-ai/glm-5.2", 1); ("openrouter/z-ai/glm-5.2", 255)].

Example modal_routing_holds : routing_policy_selects_modal_in_both_profiles_and_rejects_provider_selection.
Proof. intros seed. run_test. Qed.
Example deepinfra_routing_holds : routing_policy_selects_deepinfra_in_both_profiles_with_openrouter_fallback.
Proof. intros seed. run_test. Qed.
Example glm_routing_holds : routing_policy_orders_deepinfra_blackbox_and_openrouter_for_glm.
Proof. intros seed. run_test. Qed.
Example kimi_cost_holds : kimi_cached_provider_cost_is_exact_and_provider_independent.
Proof. run_test. Qed.
Example blackbox_cost_holds : blackbox_glm_cost_is_exact.
Proof. run_test. Qed.
Example direct_cost_holds : direct_and_fallback_routes_keep_exact_provider_costs.
Proof. run_test. Qed.
Example modal_sidecar_holds : compiled_sidecar_keeps_modal_internal_with_openrouter_fallback.
Proof. run_test. Qed.
Example deepinfra_sidecar_holds : compiled_sidecar_keeps_deepinfra_in_both_profiles_with_openrouter_fallback.
Proof. run_test. Qed.
Example blackbox_sidecar_holds : compiled_sidecar_keeps_blackbox_in_both_profiles_with_openrouter_fallback.
Proof. run_test. Qed.
End ProductionTests.
